(** * cronwtf: the cron expression engine, embedded and verified

    A shallow embedding of [src/core/parser.js], [src/core/generator.js] and
    [src/core/converter.js], with the date match of [src/commands/test.js].

    Conventions of the embedding.
    - A JavaScript number is a [jsnum]: an exact integer or [NaN].  The
      engine only builds numbers with [parseInt] and integer addition, so
      no fraction ever appears.  Integers are kept exact, which is what
      the source computes as long as every number stays below 2^53; beyond
      that the source rounds, and a loop counter at 2^53 no longer moves
      by a small step.  A statement that a loop ends therefore carries the
      bound 2^53 on the range ends as a hypothesis.
    - A JavaScript string is a [string] of ASCII characters.  White space
      is the ASCII part of the ECMAScript class (tab, line feed, vertical
      tab, form feed, carriage return, space) and case mapping is the
      ASCII one.
    - A loop whose exit depends on its data ([for (i = a; i <= b; i += s)])
      is a fixpoint over a [fuel] bound and returns [None] when the bound
      is used up; a call that returns [None] for every bound does not
      return in the source.
    - A call that can throw has a [Completion] for result: the value it
      returns, or the message of the error it throws.
    - The calendar of the scheduler (luxon) is a parameter: a [Zone]. *)

From Stdlib Require Import ZArith List String Ascii Bool Lia DecimalString Sorted.
Import ListNotations.

Open Scope string_scope.
Open Scope Z_scope.

(* ================================================================== *)
(** ** JavaScript values and string primitives *)

Module JS.

Inductive jsnum : Type :=
| Num (z : Z)
| NaN.

(** Relational operators: every comparison with [NaN] is false. *)
Definition lt (a b : jsnum) : bool :=
  match a, b with Num x, Num y => x <? y | _, _ => false end.
Definition le (a b : jsnum) : bool :=
  match a, b with Num x, Num y => x <=? y | _, _ => false end.
Definition gt (a b : jsnum) : bool := lt b a.
Definition ge (a b : jsnum) : bool := le b a.

(** [a + b] on numbers. *)
Definition add (a b : jsnum) : jsnum :=
  match a, b with Num x, Num y => Num (x + y) | _, _ => NaN end.

(** [a === b] on numbers: [NaN] is not equal to itself. *)
Definition strict_eq (a b : jsnum) : bool :=
  match a, b with Num x, Num y => x =? y | _, _ => false end.

(** SameValueZero, the equality of [Set] and [Array.prototype.includes]:
    [NaN] is equal to itself. *)
Definition same_value_zero (a b : jsnum) : bool :=
  match a, b with
  | Num x, Num y => x =? y
  | NaN, NaN => true
  | _, _ => false
  end.

(** [arr.push(x)] *)
Definition push {A : Type} (arr : list A) (x : A) : list A := app arr [x].

(** [arr.includes(v)] *)
Definition includes (arr : list jsnum) (v : jsnum) : bool :=
  existsb (same_value_zero v) arr.

(** [set.add(v)] on an insertion-ordered [Set]. *)
Definition set_add (v : jsnum) (s : list jsnum) : list jsnum :=
  if includes s v then s else push s v.

(** How a call ends, when it ends: it returns a value, or it throws an
    error with the given message. *)
Inductive Completion (A : Type) : Type :=
| Returns (a : A)
| Throws (message : string).

Arguments Returns {A} a.
Arguments Throws {A} message.

(** The number of entries a [Set] holds at most (2^24 in V8, the engine of
    Node.js). *)
Definition maxSetSize : Z := 16777216.

(** [set.add(v)] with the limit of the engine: a new value added to a full
    [Set] throws [RangeError: Set maximum size exceeded]. *)
Definition set_add_limited (v : jsnum) (s : list jsnum)
  : Completion (list jsnum) :=
  if includes s v then Returns s
  else if maxSetSize <=? Z.of_nat (List.length s)
       then Throws "Set maximum size exceeded"
       else Returns (push s v).

(** [arr.sort((a, b) => a - b)]: a stable insertion sort.  The comparator
    answers [NaN] (read as 0 by the sort) when an operand is [NaN]; the
    language leaves the order open then, and an engine may leave such an
    array as it stands where this sort moves the [NaN] to the end.
    Nothing below depends on the place of a [NaN] among other values: a
    statement on the order of values is for arrays without [NaN]. *)
Fixpoint sort_insert (x : jsnum) (l : list jsnum) : list jsnum :=
  match l with
  | [] => [x]
  | y :: l' => if lt x y then x :: l else y :: sort_insert x l'
  end.

Definition sort (l : list jsnum) : list jsnum :=
  fold_left (fun acc x => sort_insert x acc) l [].

(** [n.toString()] and the number in a template literal. *)
Definition Z_to_string (z : Z) : string :=
  NilZero.string_of_int (Z.to_int z).

Definition toString (n : jsnum) : string :=
  match n with Num z => Z_to_string z | NaN => "NaN" end.

(** Character classes. *)
Definition is_space (c : ascii) : bool :=
  let n := nat_of_ascii c in
  ((9 <=? n) && (n <=? 13))%nat || (n =? 32)%nat.

Definition is_digit (c : ascii) : bool :=
  let n := nat_of_ascii c in ((48 <=? n) && (n <=? 57))%nat.

Definition is_upper (c : ascii) : bool :=
  let n := nat_of_ascii c in ((65 <=? n) && (n <=? 90))%nat.

Definition is_lower (c : ascii) : bool :=
  let n := nat_of_ascii c in ((97 <=? n) && (n <=? 122))%nat.

(** [\w] *)
Definition is_word (c : ascii) : bool :=
  is_digit c || is_upper c || is_lower c || (nat_of_ascii c =? 95)%nat.

(** [.] : anything but a line terminator. *)
Definition is_dot (c : ascii) : bool :=
  let n := nat_of_ascii c in negb ((n =? 10)%nat || (n =? 13)%nat).

Definition lower_char (c : ascii) : ascii :=
  if is_upper c then ascii_of_nat (nat_of_ascii c + 32) else c.

(** [s.toLowerCase()] *)
Fixpoint toLowerCase (s : string) : string :=
  match s with
  | EmptyString => EmptyString
  | String c s' => String (lower_char c) (toLowerCase s')
  end.

Fixpoint trimStart (s : string) : string :=
  match s with
  | EmptyString => EmptyString
  | String c s' => if is_space c then trimStart s' else s
  end.

Fixpoint rev_string (s acc : string) : string :=
  match s with
  | EmptyString => acc
  | String c s' => rev_string s' (String c acc)
  end.

Definition trimEnd (s : string) : string :=
  rev_string (trimStart (rev_string s "")) "".

(** [s.trim()] *)
Definition trim (s : string) : string := trimEnd (trimStart s).

(** [s.startsWith(p)] *)
Fixpoint startsWith (s p : string) : bool :=
  match p, s with
  | EmptyString, _ => true
  | String a p', String b s' => Ascii.eqb a b && startsWith s' p'
  | String _ _, EmptyString => false
  end.

(** [s.includes(p)] *)
Fixpoint str_includes (s p : string) : bool :=
  startsWith s p
  || match s with
     | EmptyString => false
     | String _ s' => str_includes s' p
     end.

(** [s.split(c)] for a separator of one character. *)
Fixpoint split_char (sep : ascii) (s : string) : list string :=
  match s with
  | EmptyString => [EmptyString]
  | String c s' =>
      if Ascii.eqb c sep then EmptyString :: split_char sep s'
      else match split_char sep s' with
           | h :: t => String c h :: t
           | [] => [String c EmptyString]
           end
  end.

(** [s.split(/\s+/)]: [inrun] tells that the last character read was
    white space, so that a run of white space splits once. *)
Fixpoint split_ws_aux (inrun : bool) (s : string) : list string :=
  match s with
  | EmptyString => [EmptyString]
  | String c s' =>
      if is_space c then
        if inrun then split_ws_aux true s'
        else EmptyString :: split_ws_aux true s'
      else match split_ws_aux false s' with
           | h :: t => String c h :: t
           | [] => [String c EmptyString]
           end
  end.

Definition split_ws (s : string) : list string := split_ws_aux false s.

(** [arr.join(sep)] *)
Fixpoint join (sep : string) (l : list string) : string :=
  match l with
  | [] => EmptyString
  | [x] => x
  | x :: l' => x ++ sep ++ join sep l'
  end.

(** Prefix test ignoring case, as a literal under the [i] flag. *)
Fixpoint startsWith_ci (s p : string) : bool :=
  match p, s with
  | EmptyString, _ => true
  | String a p', String b s' =>
      Ascii.eqb (lower_char a) (lower_char b) && startsWith_ci s' p'
  | String _ _, EmptyString => false
  end.

(** [s.replace(new RegExp(pat, 'gi'), rep)] for a literal, non-empty
    [pat]: every occurrence, left to right, without overlap.  [skip]
    counts the characters of the current occurrence still to drop. *)
Fixpoint replace_gi (pat rep : string) (skip : nat) (s : string) : string :=
  match s with
  | EmptyString => EmptyString
  | String c s' =>
      match skip with
      | S k => replace_gi pat rep k s'
      | O =>
          if startsWith_ci s pat
          then rep ++ replace_gi pat rep (Nat.pred (String.length pat)) s'
          else String c (replace_gi pat rep O s')
      end
  end.

Definition replaceAll_ci (s pat rep : string) : string :=
  replace_gi pat rep O s.

(** [parseInt(s, 10)]: leading white space, an optional sign, then the
    longest run of decimal digits; [NaN] when there is no digit. *)
Definition digit_val (c : ascii) : Z := Z.of_nat (nat_of_ascii c) - 48.

Fixpoint parse_digits (s : string) (acc : option Z) : option Z :=
  match s with
  | String c s' =>
      if is_digit c
      then parse_digits s'
             (Some (10 * match acc with Some a => a | None => 0 end
                    + digit_val c))
      else acc
  | EmptyString => acc
  end.

Definition parseInt (s : string) : jsnum :=
  let t := trimStart s in
  let '(sign, body) :=
    match t with
    | String "-" r => (-1, r)
    | String "+" r => (1, r)
    | _ => (1, t)
    end in
  match parse_digits body None with
  | Some v => Num (sign * v)
  | None => NaN
  end.

End JS.

(* ================================================================== *)
(** ** core/parser.js *)

Module Parser.
Import JS.

Inductive FieldName : Type :=
| minute | hour | dayOfMonth | month | dayOfWeek.

(** A field definition.  [key] stands for the identity of the object, which
    the source tests with [def === FIELDS.dayOfWeek]. *)
Record FieldDef : Type := mkFieldDef {
  key : FieldName;
  min : Z;
  max : Z;
  names : list string
}.

Definition FIELDS (f : FieldName) : FieldDef :=
  match f with
  | minute => mkFieldDef minute 0 59 []
  | hour => mkFieldDef hour 0 23 []
  | dayOfMonth => mkFieldDef dayOfMonth 1 31 []
  | month =>
      mkFieldDef month 1 12
        ["jan"; "feb"; "mar"; "apr"; "may"; "jun";
         "jul"; "aug"; "sep"; "oct"; "nov"; "dec"]
  | dayOfWeek =>
      mkFieldDef dayOfWeek 0 7
        ["sun"; "mon"; "tue"; "wed"; "thu"; "fri"; "sat"]
  end.

Definition FIELD_ORDER : list FieldName :=
  [minute; hour; dayOfMonth; month; dayOfWeek].

(** [None] is the [null] of [@reboot]. *)
Definition ALIASES : list (string * option string) :=
  [("@yearly", Some "0 0 1 1 *");
   ("@annually", Some "0 0 1 1 *");
   ("@monthly", Some "0 0 1 * *");
   ("@weekly", Some "0 0 * * 0");
   ("@daily", Some "0 0 * * *");
   ("@midnight", Some "0 0 * * *");
   ("@hourly", Some "0 * * * *");
   ("@reboot", None)].

Definition FIELD_NAMES (f : FieldName) : string :=
  match f with
  | minute => "minute"
  | hour => "hour"
  | dayOfMonth => "day of month"
  | month => "month"
  | dayOfWeek => "day of week"
  end.

(** [def === FIELDS.dayOfWeek] *)
Definition isDayOfWeek (def : FieldDef) : bool :=
  match key def with dayOfWeek => true | _ => false end.

Record ParsedField : Type := mkParsedField {
  values : list jsnum;
  raw : string;
  description : string;
  outOfRange : list jsnum
}.

(** The three accumulators of [parseField]. *)
Record Acc : Type := mkAcc {
  acc_values : list jsnum;      (* the Set, in insertion order *)
  acc_parts : list string;
  acc_outOfRange : list jsnum
}.

(** The [names.forEach] of [parseField]: the name of index [i] is replaced
    by [i] in the day-of-week field and by [i + 1] elsewhere. *)
Fixpoint replaceNames (dow : bool) (nms : list string) (i : Z) (s : string)
  : string :=
  match nms with
  | [] => s
  | name :: rest =>
      let value := if dow then i else i + 1 in
      replaceNames dow rest (i + 1) (replaceAll_ci s name (Z_to_string value))
  end.

Definition normalizedField (field : string) (def : FieldDef) : string :=
  replaceNames (isDayOfWeek def) (names def) 0 (toLowerCase field).

(** [const [range, step] = segment.split('/')] *)
Definition rangeOf (segment : string) : string :=
  nth 0 (split_char "/" segment) EmptyString.

Definition stepOf (segment : string) : option string :=
  nth_error (split_char "/" segment) 1.

(** Truthiness of [step]: defined and not the empty string. *)
Definition truthy (step : option string) : bool :=
  match step with
  | Some (String _ _) => true
  | _ => false
  end.

(** [const stepNum = step ? parseInt(step, 10) : 1] *)
Definition stepNumOf (segment : string) : jsnum :=
  match stepOf segment with
  | Some (String c s) => parseInt (String c s)
  | _ => Num 1
  end.

(** [for (let i = min; i <= max; i += stepNum) values.add(i)].  With a
    negative step the counter runs away below [min] and every turn adds a
    new value, until the [Set] is full and [values.add] throws. *)
Fixpoint starLoop (fuel : nat) (i : jsnum) (hi : Z) (stepNum : jsnum)
  (vals : list jsnum) : option (Completion (list jsnum)) :=
  match fuel with
  | O => None
  | S fuel' =>
      if le i (Num hi)
      then match set_add_limited i vals with
           | Returns vals' => starLoop fuel' (add i stepNum) hi stepNum vals'
           | Throws message => Some (Throws message)
           end
      else Some (Returns vals)
  end.

(** [for (let i = start; i <= end; i += stepNum)
       if (i >= min && i <= max)
         values.add(i === 7 && def === FIELDS.dayOfWeek ? 0 : i)].
    Here, and for a single value below, [values.add] is [set_add]: what
    these two branches add lies in [[min,max]] or is [NaN], as does what a
    wildcard loop that returned has added, so the [Set] is far from
    full. *)
Fixpoint rangeLoop (fuel : nat) (def : FieldDef) (i stop stepNum : jsnum)
  (vals : list jsnum) : option (list jsnum) :=
  match fuel with
  | O => None
  | S fuel' =>
      if le i stop
      then rangeLoop fuel' def (add i stepNum) stop stepNum
             (if ge i (Num (min def)) && le i (Num (max def))
              then set_add
                     (if strict_eq i (Num 7) && isDayOfWeek def
                      then Num 0 else i) vals
              else vals)
      else Some vals
  end.

(** The body of [for (const segment of segments)]. *)
Definition parseSegment (fuel : nat) (def : FieldDef) (a : Acc)
  (segment : string) : option (Completion Acc) :=
  let range := rangeOf segment in
  let step := stepOf segment in
  let stepNum := stepNumOf segment in
  if String.eqb range "*" then
    match starLoop fuel (Num (min def)) (max def) stepNum (acc_values a) with
    | None => None
    | Some (Throws message) => Some (Throws message)
    | Some (Returns vals) =>
        Some (Returns
                (mkAcc vals
                   (push (acc_parts a)
                      (if truthy step then "every " ++ toString stepNum
                       else "every"))
                   (acc_outOfRange a)))
    end
  else if str_includes range "-" then
    let startStr := nth 0 (split_char "-" range) EmptyString in
    let endStr := nth 1 (split_char "-" range) EmptyString in
    let start := parseInt startStr in
    let stop := parseInt endStr in
    let oor1 :=
      if lt start (Num (min def)) || gt start (Num (max def))
      then push (acc_outOfRange a) start else acc_outOfRange a in
    let oor2 :=
      if lt stop (Num (min def)) || gt stop (Num (max def))
      then push oor1 stop else oor1 in
    match rangeLoop fuel def start stop stepNum (acc_values a) with
    | None => None
    | Some vals =>
        Some (Returns
                (mkAcc vals
                   (push (acc_parts a)
                      (if truthy step
                       then toString start ++ "-" ++ toString stop
                            ++ " every " ++ toString stepNum
                       else toString start ++ "-" ++ toString stop))
                   oor2))
    end
  else
    let originalVal := parseInt range in
    let val :=
      if strict_eq originalVal (Num 7) && isDayOfWeek def
      then Num 0 else originalVal in
    if lt originalVal (Num (min def))
       || (gt originalVal (Num (max def))
           && negb (isDayOfWeek def && strict_eq originalVal (Num 7)))
    then Some (Returns
                 (mkAcc (acc_values a)
                    (push (acc_parts a) (toString originalVal))
                    (push (acc_outOfRange a) originalVal)))
    else Some (Returns
                 (mkAcc (set_add val (acc_values a))
                    (push (acc_parts a) (toString originalVal))
                    (acc_outOfRange a))).

(** [for (const segment of segments)]: a segment that throws ends the
    walk. *)
Fixpoint parseSegments (fuel : nat) (def : FieldDef) (segments : list string)
  (a : Acc) : option (Completion Acc) :=
  match segments with
  | [] => Some (Returns a)
  | segment :: rest =>
      match parseSegment fuel def a segment with
      | None => None
      | Some (Throws message) => Some (Throws message)
      | Some (Returns a') => parseSegments fuel def rest a'
      end
  end.

(** The call [parseField(field, def)]: the object it returns, or the
    error it throws. *)
Definition parseFieldCall (fuel : nat) (field : string) (def : FieldDef)
  : option (Completion ParsedField) :=
  let segments := split_char "," (normalizedField field def) in
  match parseSegments fuel def segments (mkAcc [] [] []) with
  | None => None
  | Some (Throws message) => Some (Throws message)
  | Some (Returns a) =>
      Some (Returns
              (mkParsedField (sort (acc_values a)) field
                 (join ", " (acc_parts a)) (acc_outOfRange a)))
  end.

(** The object [parseField(field, def)] returns; [None] when the call
    returns none: it is still in a loop, or it throws. *)
Definition parseField (fuel : nat) (field : string) (def : FieldDef)
  : option ParsedField :=
  match parseFieldCall fuel field def with
  | Some (Returns p) => Some p
  | _ => None
  end.

Record Fields : Type := mkFields {
  f_minute : ParsedField;
  f_hour : ParsedField;
  f_dayOfMonth : ParsedField;
  f_month : ParsedField;
  f_dayOfWeek : ParsedField
}.

(** [fields[fieldName]] *)
Definition getField (fs : Fields) (f : FieldName) : ParsedField :=
  match f with
  | minute => f_minute fs
  | hour => f_hour fs
  | dayOfMonth => f_dayOfMonth fs
  | month => f_month fs
  | dayOfWeek => f_dayOfWeek fs
  end.

(** The shapes of the object [parse] returns. *)
Inductive ParseResult : Type :=
| Reboot
    (* { valid: true, alias: '@reboot', fields: null, isReboot: true } *)
| Failure (error suggestion : string)
    (* { valid: false, error, suggestion } *)
| Parsed (valid : bool) (original : string) (fields : Fields)
    (errors : list string)
    (* { valid, original, fields, errors }, the five keys of [fields]
       set; no [errors] key when empty *)
| Caught (original : string) (fields : FieldName -> option ParsedField)
    (errors : list string).
    (* { valid: false, original, fields, errors } when a call of
       [parseField] threw: the key of that field was never set
       ([None] is [undefined]) *)

Definition valid (r : ParseResult) : bool :=
  match r with
  | Reboot => true
  | Failure _ _ => false
  | Parsed v _ _ _ => v
  | Caught _ _ _ => false
  end.

Definition isReboot (r : ParseResult) : bool :=
  match r with Reboot => true | _ => false end.

Definition errorsOf (r : ParseResult) : list string :=
  match r with
  | Parsed _ _ _ es => es
  | Caught _ _ es => es
  | _ => []
  end.

(** [result.fields[fieldName]]; [None] is [undefined] (and stands for the
    [null] of [@reboot] and the missing [fields] of a failure). *)
Definition fieldOf (r : ParseResult) (f : FieldName) : option ParsedField :=
  match r with
  | Parsed _ _ fields _ => Some (getField fields f)
  | Caught _ fields _ => fields f
  | _ => None
  end.

(** The [try] block of the callback of [FIELD_ORDER.forEach]: the error
    pushed for a field that was parsed. *)
Definition fieldErrors (f : FieldName) (p : ParsedField) : list string :=
  match outOfRange p with
  | [] => []
  | _ :: _ =>
      [FIELD_NAMES f ++ ": values out of range ("
       ++ join ", " (map toString (outOfRange p)) ++ ")"]
  end.

(** The callback with its [catch]: the errors pushed for a field, and the
    value left in [result.fields]. *)
Definition tryErrors (f : FieldName) (c : Completion ParsedField)
  : list string :=
  match c with
  | Returns p => fieldErrors f p
  | Throws message => [FIELD_NAMES f ++ ": " ++ message]
  end.

Definition returned (c : Completion ParsedField) : option ParsedField :=
  match c with
  | Returns p => Some p
  | Throws _ => None
  end.

(** The [FIELD_ORDER.forEach] of [parse] on the five field texts, and the
    object returned after it. *)
Definition parseFive (fuel : nat) (expression : string) (fields : list string)
  : option ParseResult :=
  let fieldAt (i : nat) := nth i fields EmptyString in
  match parseFieldCall fuel (fieldAt 0%nat) (FIELDS minute) with
  | None => None
  | Some c0 =>
  match parseFieldCall fuel (fieldAt 1%nat) (FIELDS hour) with
  | None => None
  | Some c1 =>
  match parseFieldCall fuel (fieldAt 2%nat) (FIELDS dayOfMonth) with
  | None => None
  | Some c2 =>
  match parseFieldCall fuel (fieldAt 3%nat) (FIELDS month) with
  | None => None
  | Some c3 =>
  match parseFieldCall fuel (fieldAt 4%nat) (FIELDS dayOfWeek) with
  | None => None
  | Some c4 =>
      let errors :=
        (tryErrors minute c0 ++ tryErrors hour c1
         ++ tryErrors dayOfMonth c2 ++ tryErrors month c3
         ++ tryErrors dayOfWeek c4)%list in
      match c0, c1, c2, c3, c4 with
      | Returns p0, Returns p1, Returns p2, Returns p3, Returns p4 =>
          Some (Parsed (match errors with [] => true | _ => false end)
                  expression (mkFields p0 p1 p2 p3 p4) errors)
      | _, _, _, _, _ =>
          Some (Caught expression
                  (fun f =>
                     returned
                       (match f with
                        | minute => c0
                        | hour => c1
                        | dayOfMonth => c2
                        | month => c3
                        | dayOfWeek => c4
                        end))
                  errors)
      end
  end end end end end.

(** [parse] below its alias test: from [const parts = trimmed.split(/\s+/)]
    to the end. *)
Definition parseFields (fuel : nat) (expression : string)
  : option ParseResult :=
  let trimmed := trim expression in
  let parts := split_ws trimmed in
  let n := List.length parts in
  if ((n <? 5) || (6 <? n))%nat then
    Some (Failure
            ("Invalid field count: expected 5, got "
             ++ Z_to_string (Z.of_nat n))
            "Format: minute hour day-of-month month day-of-week")
  else
    parseFive fuel expression (if (n =? 6)%nat then tl parts else parts).

(** [ALIASES[alias]] *)
Fixpoint lookupAlias (tbl : list (string * option string)) (alias : string)
  : option string :=
  match tbl with
  | [] => None
  | (k, v) :: rest => if String.eqb k alias then v else lookupAlias rest alias
  end.

(** [parse(expression)].  The recursive call [parse(ALIASES[alias])] is on
    a five-field text that does not start with [@], so it runs the part
    below the alias test. *)
Definition parse (fuel : nat) (expression : string) : option ParseResult :=
  let trimmed := trim expression in
  if startsWith trimmed "@" then
    let alias := toLowerCase trimmed in
    if String.eqb alias "@reboot" then Some Reboot
    else
      match lookupAlias ALIASES alias with
      | Some expansion => parseFields fuel expansion
      | None =>
          Some (Failure ("Unknown alias: " ++ alias)
                  ("Valid aliases: " ++ join ", " (map fst ALIASES)))
      end
  else parseFields fuel expression.

(** *** The scheduler *)

(** The calendar fields luxon reads off an instant in a zone; [lt_weekday]
    is luxon's: 1 for Monday to 7 for Sunday. *)
Record LocalTime : Type := mkLocalTime {
  lt_minute : Z;
  lt_hour : Z;
  lt_day : Z;
  lt_month : Z;
  lt_weekday : Z
}.

(** A time zone, as the scheduler uses luxon: an instant is a count of
    milliseconds since the epoch; [localTime] gives its calendar fields and
    [startOfMinute] is [DateTime.startOf('minute')].  [from] is a valid date
    and the zone a valid one: luxon's invalid [DateTime] is not modelled.
    [plus({ minutes: 1 })] adds 60000 to the instant. *)
Record Zone : Type := mkZone {
  localTime : Z -> LocalTime;
  startOfMinute : Z -> Z
}.

Definition maxIterations : nat := Z.to_nat (366 * 24 * 60).

(** The day clause of the loop body. *)
Definition dayMatch (fields : Fields) (t : LocalTime) : bool :=
  let dow := Z.rem (lt_weekday t) 7 in
  let domAll := String.eqb (raw (f_dayOfMonth fields)) "*" in
  let dowAll := String.eqb (raw (f_dayOfWeek fields)) "*" in
  if domAll && dowAll then true
  else if domAll then includes (values (f_dayOfWeek fields)) (Num dow)
  else if dowAll then includes (values (f_dayOfMonth fields)) (Num (lt_day t))
  else includes (values (f_dayOfMonth fields)) (Num (lt_day t))
       || includes (values (f_dayOfWeek fields)) (Num dow).

(** [minuteMatch && hourMatch && dayMatch && monthMatch] *)
Definition matches (fields : Fields) (t : LocalTime) : bool :=
  includes (values (f_minute fields)) (Num (lt_minute t))
  && includes (values (f_hour fields)) (Num (lt_hour t))
  && dayMatch fields t
  && includes (values (f_month fields)) (Num (lt_month t)).

(** The [while] loop; [remaining] is [maxIterations - iterations]. *)
Fixpoint occurrencesLoop (zone : Zone) (fields : Fields) (count : nat)
  (remaining : nat) (current : Z) (occurrences : list Z) : list Z :=
  match remaining with
  | O => occurrences
  | S remaining' =>
      if (List.length occurrences <? count)%nat then
        occurrencesLoop zone fields count remaining' (current + 60000)
          (if matches fields (localTime zone current)
           then push occurrences current else occurrences)
      else occurrences
  end.

(** [getNextOccurrences(expression, count, { timezone, from })]: the empty
    list unless [parsed.valid] and not [parsed.isReboot]. *)
Definition getNextOccurrences (fuel : nat) (zone : Zone)
  (expression : string) (count : nat) (from : Z) : option (list Z) :=
  match parse fuel expression with
  | None => None
  | Some (Parsed true _ fields _) =>
      let current := startOfMinute zone (from + 60000) in
      Some (occurrencesLoop zone fields count maxIterations current [])
  | Some _ => Some []
  end.

(** *** The describer *)

Definition monthNames : list string :=
  [""; "January"; "February"; "March"; "April"; "May"; "June";
   "July"; "August"; "September"; "October"; "November"; "December"].

Definition dayNames : list string :=
  ["Sunday"; "Monday"; "Tuesday"; "Wednesday"; "Thursday"; "Friday";
   "Saturday"].

(** [arr[n]]; [None] is [undefined]. *)
Definition at_index {A : Type} (arr : list A) (n : jsnum) : option A :=
  match n with
  | Num z => if z <? 0 then None else nth_error arr (Z.to_nat z)
  | NaN => None
  end.

(** An [undefined] in a template literal and in [join]. *)
Definition shown (o : option string) : string :=
  match o with Some s => s | None => "undefined" end.

Definition joined (sep : string) (l : list (option string)) : string :=
  join sep (map (fun o => match o with Some s => s | None => "" end) l).

Definition has (l : list (option string)) (s : string) : bool :=
  existsb (fun o => match o with Some x => String.eqb x s | None => false end)
    l.

Definition describeMinute (f : ParsedField) : list string :=
  if String.eqb (raw f) "*" then ["Every minute"]
  else
    match values f with
    | [v] => ["At minute " ++ toString v]
    | _ =>
        if str_includes (raw f) "/"
        then ["Every " ++ shown (nth_error (split_char "/" (raw f)) 1)
              ++ " minutes"]
        else ["At minutes " ++ join ", " (map toString (values f))]
    end.

Definition describeHour (f : ParsedField) : list string :=
  if String.eqb (raw f) "*" then []
  else
    match values f with
    | [h] =>
        let ampm := if ge h (Num 12) then "PM" else "AM" in
        let h12 :=
          if strict_eq h (Num 0) then Num 12
          else if gt h (Num 12) then add h (Num (-12)) else h in
        ["at " ++ toString h12 ++ ampm]
    | _ =>
        if str_includes (raw f) "/"
        then ["every " ++ shown (nth_error (split_char "/" (raw f)) 1)
              ++ " hours"]
        else ["during hours " ++ join ", " (map toString (values f))]
    end.

Definition describeDayOfMonth (f : ParsedField) : list string :=
  if String.eqb (raw f) "*" then []
  else
    match values f with
    | [v] => ["on day " ++ toString v]
    | _ => ["on days " ++ join ", " (map toString (values f))]
    end.

Definition describeMonth (f : ParsedField) : list string :=
  if String.eqb (raw f) "*" then []
  else ["in " ++ joined ", " (map (at_index monthNames) (values f))].

Definition describeDayOfWeek (f : ParsedField) : list string :=
  if String.eqb (raw f) "*" then []
  else
    let nms := map (at_index dayNames) (values f) in
    match nms with
    | [n] => ["on " ++ shown n]
    | _ =>
        if (List.length nms =? 5)%nat && negb (has nms "Saturday")
           && negb (has nms "Sunday")
        then ["on weekdays"]
        else if (List.length nms =? 2)%nat && has nms "Saturday"
                && has nms "Sunday"
        then ["on weekends"]
        else ["on " ++ joined ", " nms]
    end.

(** [describe(expression)] *)
Definition describe (fuel : nat) (expression : string) : option string :=
  match parse fuel expression with
  | None => None
  | Some (Failure error _) => Some ("Invalid: " ++ error)
  | Some (Parsed false _ _ errors) => Some ("Invalid: " ++ join ", " errors)
  | Some (Caught _ _ errors) => Some ("Invalid: " ++ join ", " errors)
  | Some Reboot => Some "Run once at system startup"
  | Some (Parsed true _ fields _) =>
      Some (join " "
              (describeMinute (f_minute fields)
               ++ describeHour (f_hour fields)
               ++ describeDayOfMonth (f_dayOfMonth fields)
               ++ describeMonth (f_month fields)
               ++ describeDayOfWeek (f_dayOfWeek fields))%list)
  end.

End Parser.

(* ================================================================== *)
(** ** Regular expressions

    The fragment of ECMAScript regular expressions the engine uses, with
    the backtracking order of the language: a quantifier is greedy, an
    alternative is tried left to right, the match starts at the leftmost
    position that succeeds.  Quantifiers only apply to character classes
    and to optional groups in the source. *)

Module Regex.
Import JS.

Inductive cls : Type :=
| Space   (* \s *)
| Digit   (* \d *)
| Word    (* \w *)
| Dot.    (* .  *)

Definition in_cls (k : cls) (c : ascii) : bool :=
  match k with
  | Space => is_space c
  | Digit => is_digit c
  | Word => is_word c
  | Dot => is_dot c
  end.

Inductive re : Type :=
| Lit (s : string)                         (* literal text *)
| Rep (k : cls) (lo : nat) (hi : option nat)   (* k{lo,hi}; [None]: no bound *)
| Cat (a b : re)                           (* ab *)
| Alt (a b : re)                           (* a|b *)
| Opt (a : re)                             (* (?:a)? *)
| Grp (n : nat) (a : re)                   (* capture group n *)
| Bol                                      (* ^ *)
| Eol.                                     (* $ *)

(** Captured groups, the latest binding first. *)
Definition Caps : Type := list (nat * string).

Fixpoint drop (n : nat) (s : string) : string :=
  match n, s with
  | S n', String _ s' => drop n' s'
  | _, _ => s
  end.

Definition take (n : nat) (s : string) : string := String.substring 0 n s.

Section Matcher.
Variable R : Type.

(** [k{lo,hi}] at position [p] of the input, [s] being what is left. *)
Fixpoint rep (k : cls) (lo : nat) (hi : option nat) (p : nat) (s : string)
  (cont : nat -> string -> option R) : option R :=
  let stop := match lo with O => cont p s | S _ => None end in
  match s with
  | String c s' =>
      if in_cls k c && match hi with Some O => false | _ => true end
      then match rep k (Nat.pred lo) (option_map Nat.pred hi) (S p) s' cont
           with
           | Some r => Some r
           | None => stop
           end
      else stop
  | EmptyString => stop
  end.

(** [ci] is the [i] flag. *)
Fixpoint rmatch (ci : bool) (r : re) (p : nat) (s : string) (cs : Caps)
  (cont : nat -> string -> Caps -> option R) {struct r} : option R :=
  match r with
  | Lit l =>
      if (if ci then startsWith_ci s l else startsWith s l)
      then cont (p + String.length l)%nat (drop (String.length l) s) cs
      else None
  | Rep k lo hi => rep k lo hi p s (fun p' s' => cont p' s' cs)
  | Cat a b =>
      rmatch ci a p s cs (fun p' s' cs' => rmatch ci b p' s' cs' cont)
  | Alt a b =>
      match rmatch ci a p s cs cont with
      | Some x => Some x
      | None => rmatch ci b p s cs cont
      end
  | Opt a =>
      match rmatch ci a p s cs cont with
      | Some x => Some x
      | None => cont p s cs
      end
  | Grp n a =>
      rmatch ci a p s cs
        (fun p' s' cs' => cont p' s' ((n, take (p' - p) s) :: cs'))
  | Bol => if (p =? 0)%nat then cont p s cs else None
  | Eol => match s with EmptyString => cont p s cs | _ => None end
  end.
End Matcher.

(** The array a successful [str.match(re)] returns (no [g] flag). *)
Record Match : Type := mkMatch {
  index : nat;
  matched : string;   (* m[0] *)
  groups : Caps
}.

Fixpoint search (ci : bool) (r : re) (p : nat) (s : string) : option Match :=
  match rmatch _ ci r p s []
          (fun p' _ cs => Some (mkMatch p (take (p' - p) s) cs)) with
  | Some m => Some m
  | None =>
      match s with
      | EmptyString => None
      | String _ s' => search ci r (S p) s'
      end
  end.

(** [str.match(re)] *)
Definition exec (ci : bool) (r : re) (s : string) : option Match :=
  search ci r O s.

(** [re.test(str)] *)
Definition test (ci : bool) (r : re) (s : string) : bool :=
  match exec ci r s with Some _ => true | None => false end.

(** [m[n]]; [None] is [undefined]. *)
Fixpoint lookupGroup (cs : Caps) (n : nat) : option string :=
  match cs with
  | [] => None
  | (k, v) :: rest => if (k =? n)%nat then Some v else lookupGroup rest n
  end.

Definition group (m : Match) (n : nat) : option string :=
  lookupGroup (groups m) n.

(** [\s+], [\s*] *)
Definition spaces1 : re := Rep Space 1 None.
Definition spaces0 : re := Rep Space 0 None.

Fixpoint cat (l : list re) : re :=
  match l with
  | [] => Lit EmptyString
  | [r] => r
  | r :: l' => Cat r (cat l')
  end.

End Regex.

(* ================================================================== *)
(** ** core/generator.js *)

Module Generator.
Import JS Regex.

(** [Object.entries] walks these tables in the order written. *)
Definition PATTERNS : list (string * string) :=
  [("every minute", "* * * * *");
   ("every hour", "0 * * * *");
   ("hourly", "0 * * * *");
   ("every day", "0 0 * * *");
   ("daily", "0 0 * * *");
   ("every week", "0 0 * * 0");
   ("weekly", "0 0 * * 0");
   ("every month", "0 0 1 * *");
   ("monthly", "0 0 1 * *");
   ("every year", "0 0 1 1 *");
   ("yearly", "0 0 1 1 *");
   ("annually", "0 0 1 1 *");
   ("at midnight", "0 0 * * *");
   ("midnight", "0 0 * * *");
   ("at noon", "0 12 * * *");
   ("noon", "0 12 * * *");
   ("weekdays", "0 9 * * 1-5");
   ("weekends", "0 9 * * 0,6");
   ("every weekday", "0 9 * * 1-5");
   ("every weekend", "0 9 * * 0,6");
   ("business hours", "0 9-17 * * 1-5");
   ("work hours", "0 9-17 * * 1-5")].

Definition DAYS : list (string * Z) :=
  [("sunday", 0); ("sun", 0);
   ("monday", 1); ("mon", 1);
   ("tuesday", 2); ("tue", 2);
   ("wednesday", 3); ("wed", 3);
   ("thursday", 4); ("thu", 4);
   ("friday", 5); ("fri", 5);
   ("saturday", 6); ("sat", 6)].

Definition MONTHS : list (string * Z) :=
  [("january", 1); ("jan", 1);
   ("february", 2); ("feb", 2);
   ("march", 3); ("mar", 3);
   ("april", 4); ("apr", 4);
   ("may", 5);
   ("june", 6); ("jun", 6);
   ("july", 7); ("jul", 7);
   ("august", 8); ("aug", 8);
   ("september", 9); ("sep", 9);
   ("october", 10); ("oct", 10);
   ("november", 11); ("nov", 11);
   ("december", 12); ("dec", 12)].

(** [table[k]] on the table's own keys; [None] is [undefined]. *)
Fixpoint lookup {A : Type} (tbl : list (string * A)) (k : string) : option A :=
  match tbl with
  | [] => None
  | (k', v) :: rest => if String.eqb k' k then Some v else lookup rest k
  end.

Record Time : Type := mkTime { t_hour : jsnum; t_minute : jsnum }.

(** [/^(\d{1,2})(?::(\d{2}))?\s*(am|pm)?$/i] *)
Definition re12 : re :=
  cat [Bol; Grp 1 (Rep Digit 1 (Some 2%nat));
       Opt (Cat (Lit ":") (Grp 2 (Rep Digit 2 (Some 2%nat))));
       spaces0; Opt (Grp 3 (Alt (Lit "am") (Lit "pm"))); Eol].

(** [/^(\d{1,2}):(\d{2})$/] *)
Definition re24 : re :=
  cat [Bol; Grp 1 (Rep Digit 1 (Some 2%nat)); Lit ":";
       Grp 2 (Rep Digit 2 (Some 2%nat)); Eol].

Definition inClock (h m : jsnum) : bool :=
  ge h (Num 0) && le h (Num 23) && ge m (Num 0) && le m (Num 59).

(** The second half of [parseTime]: the 24-hour form. *)
Definition parseTime24 (str : string) : option Time :=
  match exec false re24 str with
  | Some match24 =>
      let h := parseInt (match group match24 1 with Some g => g | None => "" end) in
      let m := parseInt (match group match24 2 with Some g => g | None => "" end) in
      if inClock h m then Some (mkTime h m) else None
  | None => None
  end.

(** [parseTime(timeStr)]; [None] is [null]. *)
Definition parseTime (timeStr : string) : option Time :=
  let str := trim (toLowerCase timeStr) in
  match exec true re12 str with
  | Some match12 =>
      let hour0 :=
        parseInt (match group match12 1 with Some g => g | None => "" end) in
      let m :=
        match group match12 2 with
        | Some (String c g) => parseInt (String c g)
        | _ => Num 0
        end in
      let ampm := option_map toLowerCase (group match12 3) in
      let hour1 :=
        match ampm with
        | Some "pm" => if lt hour0 (Num 12) then add hour0 (Num 12) else hour0
        | _ => hour0
        end in
      let hour2 :=
        match ampm with
        | Some "am" => if strict_eq hour1 (Num 12) then Num 0 else hour1
        | _ => hour1
        end in
      if inClock hour2 m then Some (mkTime hour2 m) else parseTime24 str
  | None => parseTime24 str
  end.

Inductive GenResult : Type :=
| Generated (expression description : string)
    (* { success: true, expression, description } *)
| NotGenerated (error suggestion : string).
    (* { success: false, error, suggestion } *)

Definition success (r : GenResult) : bool :=
  match r with Generated _ _ => true | NotGenerated _ _ => false end.

Definition expressionOf (r : GenResult) : option string :=
  match r with Generated e _ => Some e | NotGenerated _ _ => None end.

Definition dquote : string := String (ascii_of_nat 34) EmptyString.

(** The text [Generated from: <text>], [text] between double quotes. *)
Definition generatedFrom (text : string) : string :=
  "Generated from: " ++ dquote ++ text ++ dquote.

(** [/at\s+(\d{1,2}(?::\d{2})?\s*(?:am|pm)?)/i] *)
Definition reAt : re :=
  cat [Lit "at"; spaces1;
       Grp 1 (cat [Rep Digit 1 (Some 2%nat);
                   Opt (Cat (Lit ":") (Rep Digit 2 (Some 2%nat)));
                   spaces0; Opt (Alt (Lit "am") (Lit "pm"))])].

(** [/every\s+(\d+)\s+minutes?/i] and [/every\s+(\d+)\s+hours?/i] *)
Definition reEveryMinutes : re :=
  cat [Lit "every"; spaces1; Grp 1 (Rep Digit 1 None); spaces1;
       Lit "minute"; Opt (Lit "s")].

Definition reEveryHours : re :=
  cat [Lit "every"; spaces1; Grp 1 (Rep Digit 1 None); spaces1;
       Lit "hour"; Opt (Lit "s")].

(** [/every\s+day/i] *)
Definition reEveryDay : re := cat [Lit "every"; spaces1; Lit "day"].

(** [new RegExp(`(every\\s+|on\\s+)?${dayName}s?`, 'i')] *)
Definition reDay (dayName : string) : re :=
  cat [Opt (Grp 1 (Alt (Cat (Lit "every") spaces1) (Cat (Lit "on") spaces1)));
       Lit dayName; Opt (Lit "s")].

(** [/on\s+(?:the\s+)?(\d{1,2})(?:st|nd|rd|th)?(?:\s+of)?/i] *)
Definition reDayOfMonth : re :=
  cat [Lit "on"; spaces1; Opt (Cat (Lit "the") spaces1);
       Grp 1 (Rep Digit 1 (Some 2%nat));
       Opt (Alt (Lit "st") (Alt (Lit "nd") (Alt (Lit "rd") (Lit "th"))));
       Opt (Cat spaces1 (Lit "of"))].

(** [new RegExp(`in\\s+${monthName}`, 'i')] *)
Definition reMonth (monthName : string) : re :=
  cat [Lit "in"; spaces1; Lit monthName].

(** [/(\w+)\s+(?:through|to|-)\s+(\w+)/i] *)
Definition reDayRange : re :=
  cat [Grp 1 (Rep Word 1 None); spaces1;
       Alt (Lit "through") (Alt (Lit "to") (Lit "-")); spaces1;
       Grp 2 (Rep Word 1 None)].

(** [parts[0] = m; parts[1] = h] on the array [parts]. *)
Definition setMinuteHour (parts : list string) (m h : string) : list string :=
  match parts with
  | _ :: _ :: rest => m :: h :: rest
  | _ => [m; h]
  end.

(** The body of the [for] loop over [Object.entries(PATTERNS)] once its
    [if] holds.  The guard of the time adjustment compares [cron] with
    [PATTERNS[pattern]]. *)
Definition directResult (text input pattern cron : string) : GenResult :=
  let timeMatch := exec true reAt input in
  let differs :=
    match lookup PATTERNS pattern with
    | Some c => negb (String.eqb cron c)
    | None => true
    end in
  let unchanged := Generated cron (generatedFrom text) in
  match timeMatch with
  | Some tm =>
      if differs then
        match parseTime (match group tm 1 with Some g => g | None => "" end)
        with
        | Some time =>
            let parts := split_char " " cron in
            Generated
              (join " " (setMinuteHour parts (toString (t_minute time))
                           (toString (t_hour time))))
              (generatedFrom text)
        | None => unchanged
        end
      else unchanged
  | None => unchanged
  end.

(** The loop over the phrase table: the first entry whose phrase the input
    contains returns. *)
Fixpoint directMatch (text input : string) (entries : list (string * string))
  : option GenResult :=
  match entries with
  | [] => None
  | (pattern, cron) :: rest =>
      if String.eqb input pattern || str_includes input pattern
      then Some (directResult text input pattern cron)
      else directMatch text input rest
  end.

(** The first day name the input contains, in table order ([break]). *)
Fixpoint firstDay (input : string) (entries : list (string * Z)) : option Z :=
  match entries with
  | [] => None
  | (dayName, dayNum) :: rest =>
      if test true (reDay dayName) input then Some dayNum
      else firstDay input rest
  end.

Fixpoint firstMonth (input : string) (entries : list (string * Z))
  : option Z :=
  match entries with
  | [] => None
  | (monthName, monthNum) :: rest =>
      if test true (reMonth monthName) input then Some monthNum
      else firstMonth input rest
  end.

(** The five drafts and the flag of the second tier. *)
Record Draft : Type := mkDraft {
  d_minute : string;
  d_hour : string;
  d_dayOfMonth : string;
  d_month : string;
  d_dayOfWeek : string;
  d_matched : bool
}.

Definition isStar (s : string) : bool := String.eqb s "*".

Definition stepEveryMinutes (input : string) (d : Draft) : Draft :=
  match exec true reEveryMinutes input with
  | Some m =>
      mkDraft ("*/" ++ match group m 1 with Some g => g | None => "" end)
        (d_hour d) (d_dayOfMonth d) (d_month d) (d_dayOfWeek d) true
  | None => d
  end.

Definition stepEveryHours (input : string) (d : Draft) : Draft :=
  match exec true reEveryHours input with
  | Some m =>
      mkDraft "0" ("*/" ++ match group m 1 with Some g => g | None => "" end)
        (d_dayOfMonth d) (d_month d) (d_dayOfWeek d) true
  | None => d
  end.

Definition stepAtTime (input : string) (d : Draft) : Draft :=
  match exec true reAt input with
  | Some m =>
      match parseTime (match group m 1 with Some g => g | None => "" end) with
      | Some time =>
          mkDraft (toString (t_minute time)) (toString (t_hour time))
            (d_dayOfMonth d) (d_month d) (d_dayOfWeek d) true
      | None => d
      end
  | None => d
  end.

(** [if (minute === '*') minute = '0'; if (hour === '*') hour = h] *)
Definition defaultTime (h : string) (d : Draft) : string * string :=
  (if isStar (d_minute d) then "0" else d_minute d,
   if isStar (d_hour d) then h else d_hour d).

Definition stepEveryDay (input : string) (d : Draft) : Draft :=
  if test true reEveryDay input then
    let '(m, h) := defaultTime "0" d in
    mkDraft m h (d_dayOfMonth d) (d_month d) (d_dayOfWeek d) true
  else d.

Definition stepDayName (input : string) (d : Draft) : Draft :=
  match firstDay input DAYS with
  | Some dayNum =>
      let '(m, h) := defaultTime "9" d in
      mkDraft m h (d_dayOfMonth d) (d_month d) (Z_to_string dayNum) true
  | None => d
  end.

Definition stepDayOfMonth (input : string) (d : Draft) : Draft :=
  match exec true reDayOfMonth input with
  | Some m =>
      let day := parseInt (match group m 1 with Some g => g | None => "" end) in
      if ge day (Num 1) && le day (Num 31) then
        let '(mi, h) := defaultTime "0" d in
        mkDraft mi h (toString day) (d_month d) (d_dayOfWeek d) true
      else d
  | None => d
  end.

Definition stepMonth (input : string) (d : Draft) : Draft :=
  match firstMonth input MONTHS with
  | Some monthNum =>
      mkDraft (d_minute d) (d_hour d) (d_dayOfMonth d) (Z_to_string monthNum)
        (d_dayOfWeek d) true
  | None => d
  end.

(** What [DAYS[key]] can be for a key of lower-case word characters: the
    number of an own key, or what the two such keys every object inherits
    give, the function [Object] for [constructor] and the object
    [Object.prototype] for [__proto__]. *)
Inductive DayEntry : Type :=
| DayNumber (n : Z)
| ObjectFunction
| ObjectPrototype.

(** [DAYS[key]]; [None] is [undefined]. *)
Definition daysAt (key : string) : option DayEntry :=
  match lookup DAYS key with
  | Some n => Some (DayNumber n)
  | None =>
      if String.eqb key "constructor" then Some ObjectFunction
      else if String.eqb key "__proto__" then Some ObjectPrototype
      else None
  end.

(** A [DAYS[key]] in a template literal. *)
Definition shownEntry (e : DayEntry) : string :=
  match e with
  | DayNumber n => Z_to_string n
  | ObjectFunction => "function Object() { [native code] }"
  | ObjectPrototype => "[object Object]"
  end.

Definition stepDayRange (input : string) (d : Draft) : Draft :=
  match exec true reDayRange input with
  | Some m =>
      let g (n : nat) := match group m n with Some x => x | None => "" end in
      match daysAt (toLowerCase (g 1%nat)),
            daysAt (toLowerCase (g 2%nat)) with
      | Some start, Some stop =>
          let '(mi, h) := defaultTime "9" d in
          mkDraft mi h (d_dayOfMonth d) (d_month d)
            (shownEntry start ++ "-" ++ shownEntry stop) true
      | _, _ => d
      end
  | None => d
  end.

(** The second tier: every pattern is tried, in this order. *)
Definition compose (input : string) : Draft :=
  stepDayRange input
    (stepMonth input
       (stepDayOfMonth input
          (stepDayName input
             (stepEveryDay input
                (stepAtTime input
                   (stepEveryHours input
                      (stepEveryMinutes input
                         (mkDraft "*" "*" "*" "*" "*" false)))))))).

(** [generate(text)] *)
Definition generate (text : string) : GenResult :=
  let input := trim (toLowerCase text) in
  match directMatch text input PATTERNS with
  | Some r => r
  | None =>
      let d := compose input in
      if d_matched d then
        Generated
          (d_minute d ++ " " ++ d_hour d ++ " " ++ d_dayOfMonth d ++ " "
           ++ d_month d ++ " " ++ d_dayOfWeek d)
          (generatedFrom text)
      else
        NotGenerated "Could not parse the description"
          ("Try patterns like: " ++ dquote ++ "every 5 minutes" ++ dquote
           ++ ", " ++ dquote ++ "at 3pm on weekdays" ++ dquote ++ ", "
           ++ dquote ++ "every monday at 9am" ++ dquote)
  end.

End Generator.

(* ================================================================== *)
(** ** core/converter.js: the reverse direction *)

Module Converter.
Import JS Regex Parser.

Inductive ConversionResult : Type :=
| Converted (format result : string) (description note : option string)
    (* { success: true, format, result, description, note } *)
| NotConverted (error : string).
    (* { success: false, error } *)


(** [/cron\s*\(\s*(.+)\s*\)/i] *)
Definition reAws : re :=
  cat [Lit "cron"; spaces0; Lit "("; spaces0; Grp 1 (Rep Dot 1 None);
       spaces0; Lit ")"].

(** The callback of [dow.split(',').map]. *)
Definition remapAwsDay (d : string) : string :=
  match parseInt d with
  | Num num => Z_to_string (if num =? 1 then 0 else num - 1)
  | NaN => d
  end.

Definition questionToStar (s : string) : string :=
  if String.eqb s "?" then "*" else s.

(** [fromAws(awsExpr)] *)
Definition fromAws (fuel : nat) (awsExpr : string)
  : option ConversionResult :=
  match exec true reAws awsExpr with
  | None =>
      Some (NotConverted "Invalid AWS cron format. Expected: cron(...)")
  | Some m =>
      let parts :=
        split_ws (trim (match group m 1 with Some g => g | None => "" end)) in
      if negb (List.length parts =? 6)%nat then
        Some (NotConverted
                ("Invalid AWS cron: expected 6 fields, got "
                 ++ Z_to_string (Z.of_nat (List.length parts))))
      else
        let part (i : nat) := nth i parts EmptyString in
        let mi := part 0%nat in
        let h := part 1%nat in
        let dom := questionToStar (part 2%nat) in
        let mo := part 3%nat in
        let dow0 := questionToStar (part 4%nat) in
        let dow :=
          if negb (String.eqb dow0 "*")
          then join "," (map remapAwsDay (split_char "," dow0))
          else dow0 in
        let standardCron :=
          mi ++ " " ++ h ++ " " ++ dom ++ " " ++ mo ++ " " ++ dow in
        match describe fuel standardCron with
        | None => None
        | Some d => Some (Converted "cron" standardCron (Some d) None)
        end
  end.

Definition dayMap : list (string * Z) :=
  [("Sun", 0); ("Mon", 1); ("Tue", 2); ("Wed", 3); ("Thu", 4); ("Fri", 5);
   ("Sat", 6)].

Fixpoint lookupDay (tbl : list (string * Z)) (k : string) : option Z :=
  match tbl with
  | [] => None
  | (k', v) :: rest => if String.eqb k' k then Some v else lookupDay rest k
  end.

(** The keys every object inherits from [Object.prototype] that give a
    function; the key [constructor] gives the function [Object], the
    others a function of their own name. *)
Definition inheritedFunctions : list (string * string) :=
  [("constructor", "Object");
   ("__defineGetter__", "__defineGetter__");
   ("__defineSetter__", "__defineSetter__");
   ("hasOwnProperty", "hasOwnProperty");
   ("__lookupGetter__", "__lookupGetter__");
   ("__lookupSetter__", "__lookupSetter__");
   ("isPrototypeOf", "isPrototypeOf");
   ("propertyIsEnumerable", "propertyIsEnumerable");
   ("toString", "toString");
   ("valueOf", "valueOf");
   ("toLocaleString", "toLocaleString")].

Fixpoint lookupName (tbl : list (string * string)) (k : string)
  : option string :=
  match tbl with
  | [] => None
  | (k', v) :: rest => if String.eqb k' k then Some v else lookupName rest k
  end.

(** [dayMap[d]] as [join] prints it: the number of an own key, the text of
    an inherited function, or the text of [Object.prototype] for
    [__proto__]; [None] is [undefined]. *)
Definition dayMapAt (d : string) : option string :=
  match lookupDay dayMap d with
  | Some v => Some (Z_to_string v)
  | None =>
      match lookupName inheritedFunctions d with
      | Some name => Some ("function " ++ name ++ "() { [native code] }")
      | None =>
          if String.eqb d "__proto__" then Some "[object Object]" else None
      end
  end.

(** [part.split(',').map(d => dayMap[d]).filter(d => d !== undefined)],
    each entry as [join] prints it. *)
Fixpoint mappedDays (l : list string) : list string :=
  match l with
  | [] => []
  | d :: rest =>
      match dayMapAt d with
      | Some v => v :: mappedDays rest
      | None => mappedDays rest
      end
  end.

Record Calendar : Type := mkCalendar {
  c_dow : string;
  c_dom : string;
  c_month : string;
  c_hour : string;
  c_minute : string
}.

(** The body of [for (const part of parts)] in [fromSystemd]. *)
Definition systemdPart (c : Calendar) (part : string) : Calendar :=
  if existsb (fun d => str_includes part (fst d)) dayMap then
    match mappedDays (split_char "," part) with
    | [] => c
    | days =>
        mkCalendar (join "," days) (c_dom c) (c_month c)
          (c_hour c) (c_minute c)
    end
  else if str_includes part "-" && negb (str_includes part ":") then
    let dateParts := split_char "-" part in
    let n := List.length dateParts in
    if (2 <=? n)%nat then
      let monthPart := nth (n - 2) dateParts EmptyString in
      let dayPart := nth (n - 1) dateParts EmptyString in
      mkCalendar (c_dow c)
        (if negb (String.eqb dayPart "*") then dayPart else c_dom c)
        (if negb (String.eqb monthPart "*") then monthPart else c_month c)
        (c_hour c) (c_minute c)
    else c
  else if str_includes part ":" then
    let timeParts := split_char ":" part in
    let t0 := nth 0 timeParts EmptyString in
    let t1 := nth 1 timeParts EmptyString in
    mkCalendar (c_dow c) (c_dom c) (c_month c)
      (if negb (String.eqb t0 "*") then t0 else c_hour c)
      (if (1 <? List.length timeParts)%nat && negb (String.eqb t1 "*")
       then t1 else c_minute c)
  else c.

(** [fromSystemd(systemdExpr)] *)
Definition fromSystemd (fuel : nat) (systemdExpr : string)
  : option ConversionResult :=
  let expr := trim systemdExpr in
  let preset (r : string) := Some (Converted "cron" r None None) in
  if String.eqb expr "minutely" then preset "* * * * *"
  else if String.eqb expr "hourly" then preset "0 * * * *"
  else if String.eqb expr "daily" then preset "0 0 * * *"
  else if String.eqb expr "weekly" then preset "0 0 * * 0"
  else if String.eqb expr "monthly" then preset "0 0 1 * *"
  else if String.eqb expr "yearly" || String.eqb expr "annually"
  then preset "0 0 1 1 *"
  else
    let c :=
      fold_left systemdPart (split_ws expr) (mkCalendar "*" "*" "*" "*" "*") in
    let standardCron :=
      c_minute c ++ " " ++ c_hour c ++ " " ++ c_dom c ++ " " ++ c_month c
      ++ " " ++ c_dow c in
    match describe fuel standardCron with
    | None => None
    | Some d =>
        Some (Converted "cron" standardCron (Some d)
                (Some "Conversion is best-effort. Some systemd features may not translate."))
    end.

(** [parts.slice(1, 6)] *)
Definition slice_1_6 (parts : list string) : list string :=
  firstn 5 (tl parts).

(** [toCron(expression, fromFormat)] *)
Definition toCron (fuel : nat) (expression fromFormat : string)
  : option ConversionResult :=
  let fmt := toLowerCase fromFormat in
  if String.eqb fmt "aws" then fromAws fuel expression
  else if String.eqb fmt "systemd" then fromSystemd fuel expression
  else if String.eqb fmt "quartz" || String.eqb fmt "jenkins" then
    let parts := split_ws (trim expression) in
    let n := List.length parts in
    if (n =? 6)%nat || (n =? 7)%nat then
      let result := join " " (map questionToStar (slice_1_6 parts)) in
      match describe fuel result with
      | None => None
      | Some d => Some (Converted "cron" result (Some d) None)
      end
    else Some (NotConverted "Invalid Quartz/Jenkins format")
  else Some (NotConverted ("Unknown format: " ++ fromFormat)).

End Converter.

(* ================================================================== *)
(** ** The specification's wording, for comparison with the code *)

Module Spec.
Import JS Parser.

(** "let domAll/dowAll be true iff the respective raw field text is
    exactly [*]". *)
Definition isWildcard (f : ParsedField) : bool := String.eqb (raw f) "*".

(** The weekday of a candidate in the 0 = Sunday convention. *)
Definition weekday0 (t : LocalTime) : Z := Z.rem (lt_weekday t) 7.

(** The four cases of the day clause, as the specification lists them. *)
Definition dayClause (fields : Fields) (t : LocalTime) : bool :=
  let domMember := includes (values (f_dayOfMonth fields)) (Num (lt_day t)) in
  let dowMember :=
    includes (values (f_dayOfWeek fields)) (Num (weekday0 t)) in
  match isWildcard (f_dayOfMonth fields), isWildcard (f_dayOfWeek fields) with
  | true, true => true
  | true, false => dowMember
  | false, true => domMember
  | false, false => domMember || dowMember
  end.

(** The four-clause conjunction of a candidate minute. *)
Definition fires (fields : Fields) (t : LocalTime) : bool :=
  includes (values (f_minute fields)) (Num (lt_minute t))
  && includes (values (f_hour fields)) (Num (lt_hour t))
  && includes (values (f_month fields)) (Num (lt_month t))
  && dayClause fields t.

(** A step that moves a loop counter forward, or stops it ([NaN]). *)
Definition stepOk (stepNum : jsnum) : bool :=
  match stepNum with
  | Num z => 0 <? z
  | NaN => true
  end.

(** No segment of the field carries a step of zero or less. *)
Definition stepsOk (field : string) (def : FieldDef) : bool :=
  forallb (fun segment => stepOk (stepNumOf segment))
    (split_char "," (normalizedField field def)).

(** Up to 2^53 the integers are numbers of the source, each of them. *)
Definition maxExact : Z := 9007199254740992.

(** The end of a range segment is [NaN] or below 2^53, so that the counter
    of its loop moves by exact steps up to it. *)
Definition endOk (segment : string) : bool :=
  let range := rangeOf segment in
  if String.eqb range "*" then true
  else if str_includes range "-" then
    match parseInt (nth 1 (split_char "-" range) EmptyString) with
    | Num b => b <? maxExact
    | NaN => true
    end
  else true.

(** Every range of the field ends below 2^53. *)
Definition endsOk (field : string) (def : FieldDef) : bool :=
  forallb endOk (split_char "," (normalizedField field def)).

(** The five field texts [parse] hands to [parseField]. *)
Definition fieldTexts (expression : string) : list string :=
  let parts := split_ws (trim expression) in
  if (List.length parts =? 6)%nat then tl parts else parts.

(** "A literal value or range bound outside [[min,max]]". *)
Definition outside (def : FieldDef) (v : jsnum) : bool :=
  lt v (Num (min def)) || gt v (Num (max def)).

(** What a segment has to record in [outOfRange]: nothing for a wildcard,
    the bounds outside the range for [a-b], the value if outside the range
    for a single integer. *)
Definition recorded (def : FieldDef) (segment : string) : list jsnum :=
  let range := rangeOf segment in
  if String.eqb range "*" then []
  else if str_includes range "-" then
    filter (outside def)
      [parseInt (nth 0 (split_char "-" range) EmptyString);
       parseInt (nth 1 (split_char "-" range) EmptyString)]
  else filter (outside def) [parseInt range].

(** "Accumulate one formatted error string per field that reports
    [outOfRange] values", in field order. *)
Definition errorsFor (fields : Fields) : list string :=
  flat_map (fun f => fieldErrors f (getField fields f)) FIELD_ORDER.

(** "[valid = (errors.length === 0)]" *)
Definition noErrors (errors : list string) : bool :=
  match errors with [] => true | _ :: _ => false end.

(** The errors of the walk over the five fields, from what the five calls
    of [parseField] did, in field order. *)
Definition errorsOfCalls (calls : FieldName -> Completion ParsedField)
  : list string :=
  flat_map (fun f => tryErrors f (calls f)) FIELD_ORDER.

(** The candidates of a walk of [n] minutes from [start]. *)
Fixpoint minutesFrom (n : nat) (start : Z) : list Z :=
  match n with
  | O => []
  | S n' => start :: minutesFrom n' (start + 60000)
  end.

End Spec.

(* ================================================================== *)
(** ** A concrete zone: UTC

    The calendar fields luxon reads in the zone [utc], by the usual
    day-count arithmetic of the proleptic Gregorian calendar. *)

Module Clock.
Import Parser.

Definition msPerMinute : Z := 60000.
Definition msPerDay : Z := 86400000.

(** Month and day of the month of the day [days] after 1970-01-01. *)
Definition civil (days : Z) : Z * Z :=
  let z := days + 719468 in
  let era := z / 146097 in
  let doe := z - era * 146097 in
  let yoe := (doe - doe / 1460 + doe / 36524 - doe / 146096) / 365 in
  let doy := doe - (365 * yoe + yoe / 4 - yoe / 100) in
  let mp := (5 * doy + 2) / 153 in
  let d := doy - (153 * mp + 2) / 5 + 1 in
  let m := if mp <? 10 then mp + 3 else mp - 9 in
  (m, d).

Definition utcTime (t : Z) : LocalTime :=
  let days := t / msPerDay in
  let '(m, d) := civil days in
  mkLocalTime ((t / msPerMinute) mod 60) ((t / 3600000) mod 24) d m
    ((days + 3) mod 7 + 1).

Definition utc : Zone :=
  mkZone utcTime (fun t => msPerMinute * (t / msPerMinute)).

End Clock.

(* ================================================================== *)
(** ** core/parser.js: [validate] and [compare] *)

Module Comparator.
Import JS Parser.

(** The object [validate] returns. *)
Record Validation : Type := mkValidation {
  v_valid : bool;
  v_errors : list string;          (* [parsed.errors || []] *)
  v_suggestion : option string     (* [None] is [undefined] *)
}.

(** [parsed.suggestion] *)
Definition suggestionOf (r : ParseResult) : option string :=
  match r with Failure _ suggestion => Some suggestion | _ => None end.

(** [validate(expression)] *)
Definition validate (fuel : nat) (expression : string) : option Validation :=
  match parse fuel expression with
  | None => None
  | Some parsed =>
      Some (mkValidation (valid parsed) (errorsOf parsed) (suggestionOf parsed))
  end.

(** An entry of [differences]. *)
Record Difference : Type := mkDifference {
  d_field : string;
  d_first : string;
  d_second : string
}.

(** What a call of [compare] does: it returns one of two objects, or it
    raises the [TypeError] of reading [parsed.fields[fieldName]] when
    [fields] is [null], as it is for [@reboot]. *)
Inductive CompareResult : Type :=
| CompareInvalid (error : string)
    (* { valid: false, error } *)
| Compared (same : bool) (differences : list Difference)
    (similarities : list string) (overlap : nat)
    (firstDescription secondDescription : string)
    (* { valid: true, same, differences, similarities, overlap,
         descriptions: { first, second } } *)
| CompareThrows.

(** [parsed.error] in a template literal. *)
Definition errorText (r : ParseResult) : string :=
  match r with Failure error _ => error | _ => "undefined" end.

(** [vals1.length === vals2.length && vals1.every(v => set2.has(v))] *)
Definition sameValues (vals1 vals2 : list jsnum) : bool :=
  (List.length vals1 =? List.length vals2)%nat
  && forallb (fun v => includes vals2 v) vals1.

(** The callback of [FIELD_ORDER.forEach] in [compare]: the field goes to
    [similarities] or to [differences]. *)
Definition compareField (fields1 fields2 : Fields)
  (acc : list Difference * list string) (f : FieldName)
  : list Difference * list string :=
  let '(differences, similarities) := acc in
  if sameValues (values (getField fields1 f)) (values (getField fields2 f))
  then (differences, push similarities (FIELD_NAMES f))
  else (push differences
          (mkDifference (FIELD_NAMES f) (raw (getField fields1 f))
             (raw (getField fields2 f))),
        similarities).

(** [Math.abs(d1.getTime() - d2.getTime()) < 60000] *)
Definition within60s (d1 d2 : Z) : bool := Z.abs (d1 - d2) <? 60000.

(** [next1.filter(d1 => next2.some(d2 => ...))] *)
Definition overlapOf (next1 next2 : list Z) : list Z :=
  filter (fun d1 => existsb (fun d2 => within60s d1 d2) next2) next1.

(** [compare(expr1, expr2)].  The two calls of [getNextOccurrences] run in
    the local zone and read the clock one after the other: [now1] and
    [now2]. *)
Definition compare (fuel : nat) (zone : Zone) (now1 now2 : Z)
  (expr1 expr2 : string) : option CompareResult :=
  match parse fuel expr1, parse fuel expr2 with
  | Some parsed1, Some parsed2 =>
      if negb (valid parsed1) || negb (valid parsed2) then
        Some (CompareInvalid
                (if negb (valid parsed1)
                 then "First expression invalid: " ++ errorText parsed1
                 else "Second expression invalid: " ++ errorText parsed2))
      else
        match parsed1, parsed2 with
        | Parsed _ _ fields1 _, Parsed _ _ fields2 _ =>
            let '(differences, similarities) :=
              fold_left (compareField fields1 fields2) FIELD_ORDER ([], []) in
            match getNextOccurrences fuel zone expr1 10 now1,
                  getNextOccurrences fuel zone expr2 10 now2,
                  describe fuel expr1, describe fuel expr2 with
            | Some next1, Some next2, Some d1, Some d2 =>
                Some (Compared
                        (match differences with [] => true | _ => false end)
                        differences similarities
                        (List.length (overlapOf next1 next2)) d1 d2)
            | _, _, _, _ => None
            end
        | _, _ => Some CompareThrows
        end
  | _, _ => None
  end.

End Comparator.

(* ================================================================== *)
(** ** commands/test.js: the match of one date *)

Module TestCommand.
Import JS Parser.

(** [cronMatchesTime(parsed, dt)], [dt] by its calendar fields. *)
Definition cronMatchesTime (parsed : ParseResult) (dt : LocalTime) : bool :=
  if negb (valid parsed) || isReboot parsed then false
  else
    match parsed with
    | Parsed _ _ fields _ =>
        let dow := Z.rem (lt_weekday dt) 7 in
        let minuteMatch :=
          includes (values (f_minute fields)) (Num (lt_minute dt)) in
        let hourMatch := includes (values (f_hour fields)) (Num (lt_hour dt)) in
        let monthMatch :=
          includes (values (f_month fields)) (Num (lt_month dt)) in
        let domAll := String.eqb (raw (f_dayOfMonth fields)) "*" in
        let dowAll := String.eqb (raw (f_dayOfWeek fields)) "*" in
        let dayMatch :=
          if domAll && dowAll then true
          else if domAll then includes (values (f_dayOfWeek fields)) (Num dow)
          else if dowAll
          then includes (values (f_dayOfMonth fields)) (Num (lt_day dt))
          else includes (values (f_dayOfMonth fields)) (Num (lt_day dt))
               || includes (values (f_dayOfWeek fields)) (Num dow) in
        minuteMatch && hourMatch && dayMatch && monthMatch
    | _ => false
    end.

End TestCommand.

(* ================================================================== *)
(** ** core/converter.js: the forward direction and [detectFormat] *)

Module Forward.
Import JS Regex Parser.

(** The object a forward conversion returns; [expression] is the extra key
    of [toGitHub]. *)
Inductive Conversion : Type :=
| Done (format result : string) (expression note : option string)
    (* { success: true, format, result, expression, note } *)
| Refused (error : string).
    (* { success: false, error } *)

Definition done (c : Conversion) : bool :=
  match c with Done _ _ _ _ => true | Refused _ => false end.

Definition resultText (c : Conversion) : option string :=
  match c with Done _ r _ _ => Some r | Refused _ => None end.

Definition expressionText (c : Conversion) : option string :=
  match c with Done _ _ e _ => e | Refused _ => None end.

(** [parsed.error || parsed.errors?.join(', ')] of an invalid result. *)
Definition reasonOf (r : ParseResult) : string :=
  match r with
  | Failure error _ => error
  | _ => join ", " (errorsOf r)
  end.

Definition systemdDayNames : list string :=
  ["Sun"; "Mon"; "Tue"; "Wed"; "Thu"; "Fri"; "Sat"].

(** [values.join(',')] *)
Definition joinValues (vals : list jsnum) : string :=
  join "," (map toString vals).

(** The hour and minute parts of [toSystemd]. *)
Definition systemdTimePart (f : ParsedField) : string :=
  if String.eqb (raw f) "*" then "*"
  else if str_includes (raw f) "/" then raw f
  else joinValues (values f).

(** [toSystemd(expression)] *)
Definition toSystemd (fuel : nat) (expression : string) : option Conversion :=
  match parse fuel expression with
  | None => None
  | Some parsed =>
      if negb (valid parsed) then Some (Refused (reasonOf parsed))
      else
        match parsed with
        | Parsed _ _ fields _ =>
            let dayPart :=
              if negb (String.eqb (raw (f_dayOfWeek fields)) "*")
              then [joined ","
                      (map (at_index systemdDayNames)
                         (values (f_dayOfWeek fields)))]
              else [] in
            let datePart :=
              if negb (String.eqb (raw (f_month fields)) "*")
                 || negb (String.eqb (raw (f_dayOfMonth fields)) "*")
              then
                "*-"
                ++ (if String.eqb (raw (f_month fields)) "*" then "*"
                    else joinValues (values (f_month fields)))
                ++ "-"
                ++ (if String.eqb (raw (f_dayOfMonth fields)) "*" then "*"
                    else joinValues (values (f_dayOfMonth fields)))
              else "*" in
            let timePart :=
              systemdTimePart (f_hour fields) ++ ":"
              ++ systemdTimePart (f_minute fields) ++ ":00" in
            Some (Done "systemd"
                    (join " " (dayPart ++ [datePart; timePart])%list) None
                    (Some "Use with OnCalendar= in systemd timer units"))
        | _ => Some (Done "systemd" "@reboot" None None)
        end
  end.

(** The [?] rule shared by [toAws] and [toQuartz]: the day-of-month and
    day-of-week texts after the [if] chain. *)
Definition questionMarks (dom dow : string) : string * string :=
  if String.eqb dom "*" && String.eqb dow "*" then (dom, "?")
  else if negb (String.eqb dom "*") && String.eqb dow "*" then (dom, "?")
  else if String.eqb dom "*" && negb (String.eqb dow "*") then ("?", dow)
  else (dom, dow).

(** [d === 0 ? 1 : d + 1] *)
Definition plusOne (d : jsnum) : jsnum :=
  if strict_eq d (Num 0) then Num 1 else add d (Num 1).

(** [/^(\d+)-(\d+)$/] *)
Definition reRange : re :=
  cat [Bol; Grp 1 (Rep Digit 1 None); Lit "-"; Grp 2 (Rep Digit 1 None); Eol].

(** The day-of-week text of [toAws] once the [?] rule has run. *)
Definition awsDayOfWeek (dowField : string) (f : ParsedField) : string :=
  if negb (String.eqb dowField "*") && negb (String.eqb dowField "?") then
    match exec false reRange (raw f) with
    | Some rangeMatch =>
        let g (n : nat) :=
          match group rangeMatch n with Some x => x | None => "" end in
        toString (plusOne (parseInt (g 1%nat))) ++ "-"
        ++ toString (plusOne (parseInt (g 2%nat)))
    | None => joinValues (map plusOne (values f))
    end
  else dowField.

(** [toAws(expression)] *)
Definition toAws (fuel : nat) (expression : string) : option Conversion :=
  match parse fuel expression with
  | None => None
  | Some parsed =>
      if negb (valid parsed) then Some (Refused (reasonOf parsed))
      else
        match parsed with
        | Parsed _ _ fields _ =>
            let '(domField, dowField0) :=
              questionMarks (raw (f_dayOfMonth fields))
                (raw (f_dayOfWeek fields)) in
            let dowField := awsDayOfWeek dowField0 (f_dayOfWeek fields) in
            Some (Done "aws"
                    ("cron(" ++ raw (f_minute fields) ++ " "
                     ++ raw (f_hour fields) ++ " " ++ domField ++ " "
                     ++ raw (f_month fields) ++ " " ++ dowField ++ " *)")
                    None
                    (Some "AWS CloudWatch Events / EventBridge format (times in UTC)"))
        | _ => Some (Refused "AWS does not support @reboot")
        end
  end.

Definition newline : string := String (ascii_of_nat 10) EmptyString.

(** The five raw texts joined by one space. *)
Definition rawExpression (fields : Fields) : string :=
  raw (f_minute fields) ++ " " ++ raw (f_hour fields) ++ " "
  ++ raw (f_dayOfMonth fields) ++ " " ++ raw (f_month fields) ++ " "
  ++ raw (f_dayOfWeek fields).

(** [toGitHub(expression)] *)
Definition toGitHub (fuel : nat) (expression : string) : option Conversion :=
  match parse fuel expression with
  | None => None
  | Some parsed =>
      if negb (valid parsed) then Some (Refused (reasonOf parsed))
      else
        match parsed with
        | Parsed _ _ fields _ =>
            let cronExpr := rawExpression fields in
            Some (Done "github"
                    ("on:" ++ newline ++ "  schedule:" ++ newline
                     ++ "    - cron: '" ++ cronExpr ++ "'")
                    (Some cronExpr)
                    (Some "GitHub Actions uses UTC timezone"))
        | _ => Some (Refused "GitHub Actions does not support @reboot")
        end
  end.

(** The day-of-week text of [toQuartz] once the [?] rule has run. *)
Definition quartzDayOfWeek (dowField : string) (f : ParsedField) : string :=
  if negb (String.eqb dowField "*") && negb (String.eqb dowField "?")
  then joinValues (map plusOne (values f))
  else dowField.

(** [toQuartz(expression)] *)
Definition toQuartz (fuel : nat) (expression : string) : option Conversion :=
  match parse fuel expression with
  | None => None
  | Some parsed =>
      if negb (valid parsed) then Some (Refused (reasonOf parsed))
      else
        match parsed with
        | Parsed _ _ fields _ =>
            let '(domField, dowField0) :=
              questionMarks (raw (f_dayOfMonth fields))
                (raw (f_dayOfWeek fields)) in
            let dowField := quartzDayOfWeek dowField0 (f_dayOfWeek fields) in
            Some (Done "quartz"
                    ("0 " ++ raw (f_minute fields) ++ " "
                     ++ raw (f_hour fields) ++ " " ++ domField ++ " "
                     ++ raw (f_month fields) ++ " " ++ dowField)
                    None
                    (Some "Quartz Scheduler format (Java). First field is seconds."))
        | _ => Some (Refused "Quartz does not support @reboot")
        end
  end.

(** [fromCron(expression, toFormat)] *)
Definition fromCron (fuel : nat) (expression toFormat : string)
  : option Conversion :=
  let fmt := toLowerCase toFormat in
  if String.eqb fmt "systemd" then toSystemd fuel expression
  else if String.eqb fmt "aws" then toAws fuel expression
  else if String.eqb fmt "github" then toGitHub fuel expression
  else if String.eqb fmt "quartz" || String.eqb fmt "jenkins"
  then toQuartz fuel expression
  else Some (Refused ("Unknown format: " ++ toFormat)).

(** [/^cron\s*\(/i] and [/^\w+-\w+-\w+\s/] *)
Definition reCronOpen : re := cat [Bol; Lit "cron"; spaces0; Lit "("].

Definition reDashed : re :=
  cat [Bol; Rep Word 1 None; Lit "-"; Rep Word 1 None; Lit "-";
       Rep Word 1 None; Rep Space 1 (Some 1%nat)].

(** [detectFormat(expression)]; [None] is [null]. *)
Definition detectFormat (expression : string) : option string :=
  let expr := trim expression in
  if test true reCronOpen expr then Some "aws"
  else if str_includes expr "OnCalendar" || test false reDashed expr
  then Some "systemd"
  else
    let n := List.length (split_ws expr) in
    if (n =? 5)%nat then Some "cron"
    else if (n =? 6)%nat then Some "quartz"
    else if (n =? 7)%nat then Some "quartz"
    else None.

End Forward.

(* ================================================================== *)
(** ** core/generator.js: [getExamples] *)

Module Examples.

(** [getExamples()], as pairs of description and expression. *)
Definition getExamples : list (string * string) :=
  [("Every minute", "* * * * *");
   ("Every 5 minutes", "*/5 * * * *");
   ("Every hour", "0 * * * *");
   ("Every day at midnight", "0 0 * * *");
   ("Every day at 9am", "0 9 * * *");
   ("Every Monday at 9am", "0 9 * * 1");
   ("Weekdays at 9am", "0 9 * * 1-5");
   ("First day of month at midnight", "0 0 1 * *");
   ("Every 15th at noon", "0 12 15 * *");
   ("Every Sunday at 6pm", "0 18 * * 0");
   ("Twice daily (9am and 5pm)", "0 9,17 * * *");
   ("Every quarter (Jan, Apr, Jul, Oct)", "0 0 1 1,4,7,10 *")].

End Examples.

(* ================================================================== *)
(** ** Vocabulary of the further properties *)

Module Props.
Import JS Parser.

(** [a < b] holds. *)
Definition below (a b : jsnum) : Prop := lt a b = true.

(** A parse result without its [original] text. *)
Definition forgetOriginal (r : option ParseResult) : option ParseResult :=
  match r with
  | Some (Parsed v _ fields errors) => Some (Parsed v EmptyString fields errors)
  | Some (Caught _ fields errors) => Some (Caught EmptyString fields errors)
  | other => other
  end.

(** A text without white space and not empty: what [split(/\s+/)] leaves
    between two runs of white space. *)
Definition wsfree (t : string) : bool :=
  forallb (fun c => negb (is_space c)) (list_ascii_of_string t).

Definition token (t : string) : bool :=
  wsfree t && negb (String.eqb t EmptyString).

(** Two digits, as the minutes of a clock time are written. *)
Definition twoDigits (m : Z) : string :=
  if m <? 10 then "0" ++ Z_to_string m else Z_to_string m.

(** [H:MM] followed by a suffix ([am], [ pm], nothing). *)
Definition clockText (h m : Z) (suffix : string) : string :=
  Z_to_string h ++ ":" ++ twoDigits m ++ suffix.

(** The integers [lo], [lo + 1], ..., [lo + n - 1]. *)
Fixpoint upFrom (lo : Z) (n : nat) : list Z :=
  match n with
  | O => []
  | S n' => lo :: upFrom (lo + 1) n'
  end.

(** The two texts of a difference of [compare], exchanged. *)
Definition swapped (d : Comparator.Difference) : Comparator.Difference :=
  Comparator.mkDifference (Comparator.d_field d) (Comparator.d_second d)
    (Comparator.d_first d).

(** [parseTime] gave the hour [h] and the minute [m]. *)
Definition timeIs (o : option Generator.Time) (h m : Z) : bool :=
  match o with
  | Some (Generator.mkTime (Num a) (Num b)) => (a =? h) && (b =? m)
  | _ => false
  end.

(** The hour a 12-hour clock text stands for. *)
Definition hourOf12 (h : Z) (pm : bool) : Z :=
  if pm then (if h =? 12 then 12 else h + 12)
  else (if h =? 12 then 0 else h).

(** The clock texts of one time of day read back by [parseTime]: [H:MM],
    and for the hours 1 to 12 also [H:MMam], [H:MM pm] and, on the hour,
    [Hpm]. *)
Definition readsBack (h m : Z) : bool :=
  timeIs (Generator.parseTime (clockText h m "")) h m
  && ((h <? 1) || (12 <? h)
      || (timeIs (Generator.parseTime (clockText h m "am")) (hourOf12 h false) m
          && timeIs (Generator.parseTime (clockText h m " PM"))
               (hourOf12 h true) m
          && timeIs (Generator.parseTime (Z_to_string h ++ "pm"))
               (hourOf12 h true) 0)).

(** The text is not empty and its last character is not white space. *)
Fixpoint endsNonSpace (s : string) : bool :=
  match s with
  | EmptyString => false
  | String c EmptyString => negb (is_space c)
  | String _ s' => endsNonSpace s'
  end.

(** The text starts with a character that is not white space. *)
Definition startsNonSpace (s : string) : bool :=
  match s with
  | EmptyString => false
  | String c _ => negb (is_space c)
  end.

(** Every character of the text satisfies [p]. *)
Definition madeOf (p : ascii -> bool) (s : string) : bool :=
  forallb p (list_ascii_of_string s).

(** A text of ASCII characters: the texts on which the white space and the
    letters of the embedding are those of the source. *)
Definition plain (s : string) : bool :=
  madeOf (fun c => (nat_of_ascii c <? 128)%nat) s.

(** The characters of a printed list of values: digits, the sign, the
    comma, and the letters of [NaN]. *)
Definition valueChar (c : ascii) : bool :=
  is_digit c || Ascii.eqb c "-" || Ascii.eqb c "," || Ascii.eqb c "N"
  || Ascii.eqb c "a".

(** The day-of-week text that comes back from the Quartz format: [*] when
    none was given, else the values of the field, each moved on by one. *)
Definition quartzDays (f : ParsedField) : string :=
  if String.eqb (raw f) "*" || String.eqb (raw f) "?" then "*"
  else Forward.joinValues (map Forward.plusOne (values f)).

(** The five field texts that come back from the Quartz format. *)
Definition quartzBack (fields : Fields) : string :=
  join " "
    [Converter.questionToStar (raw (f_minute fields));
     Converter.questionToStar (raw (f_hour fields));
     Converter.questionToStar (raw (f_dayOfMonth fields));
     Converter.questionToStar (raw (f_month fields));
     quartzDays (f_dayOfWeek fields)].

(** The day-of-week text that comes back from the AWS format: [*] when
    none was given, else the values of the field. *)
Definition awsDays (f : ParsedField) : string :=
  if String.eqb (raw f) "*" || String.eqb (raw f) "?" then "*"
  else Forward.joinValues (values f).

(** The five field texts that come back from the AWS format. *)
Definition awsBack (fields : Fields) : string :=
  join " "
    [raw (f_minute fields); raw (f_hour fields);
     Converter.questionToStar (raw (f_dayOfMonth fields));
     raw (f_month fields); awsDays (f_dayOfWeek fields)].

(** Not a comma. *)
Definition notComma (c : ascii) : bool := negb (Ascii.eqb c ",").

(** Not a slash. *)
Definition noSlash (c : ascii) : bool := negb (Ascii.eqb c "/").

(** The call [parseField(text, FIELDS[f])] ends: with fuel enough the
    model gives its completion. *)
Definition callEnds (text : string) (f : FieldName) : Prop :=
  exists (n : nat) (c : Completion ParsedField),
    forall fuel, (n <= fuel)%nat ->
      Parser.parseFieldCall fuel text (FIELDS f) = Some c.

(** The pattern has no capture group. *)
Fixpoint nogroups (r : Regex.re) : bool :=
  match r with
  | Regex.Grp _ _ => false
  | Regex.Cat a b | Regex.Alt a b => nogroups a && nogroups b
  | Regex.Opt a => nogroups a
  | _ => true
  end.

(** The integers from [lo] on, printed. *)
Definition numbers (lo : Z) (n : nat) : list string :=
  map Z_to_string (upFrom lo n).

(** The texts [a-b] for two days of the week, 0 to 6. *)
Definition dayRanges : list string :=
  flat_map
    (fun a => map (fun b => Z_to_string a ++ "-" ++ Z_to_string b)
                (upFrom 0 7))
    (upFrom 0 7).

(** The field texts the second tier of [generate] writes, apart from the
    steps [*/N]: the wildcard, a number of the field's range, and for the
    day of the week a range of two day numbers. *)
Definition fixedTexts (f : FieldName) : list string :=
  match f with
  | minute => "*" :: numbers 0 60
  | hour => "*" :: numbers 0 24
  | dayOfMonth => "*" :: numbers 1 31
  | month => "*" :: numbers 1 12
  | dayOfWeek => ("*" :: numbers 0 7 ++ dayRanges)%list
  end.

(** A step text [*/N], [N] a run of digits. *)
Definition stepText (s : string) : Prop :=
  exists g, s = "*/" ++ g /\ madeOf is_digit g = true /\ g <> "".

(** An entry that [DAYS] inherits from [Object.prototype]. *)
Definition inherited (e : Generator.DayEntry) : bool :=
  match e with
  | Generator.DayNumber _ => false
  | _ => true
  end.

(** What [DAYS[key]] can be: a day number, 0 to 6, or an inherited entry. *)
Definition dayEntries : list Generator.DayEntry :=
  (map Generator.DayNumber (upFrom 0 7)
   ++ [Generator.ObjectFunction; Generator.ObjectPrototype])%list.

(** The texts [a-b] where [a] or [b] is an inherited entry. *)
Definition inheritedRanges : list string :=
  flat_map
    (fun a =>
       flat_map
         (fun b =>
            if inherited a || inherited b
            then [Generator.shownEntry a ++ "-" ++ Generator.shownEntry b]
            else [])
         dayEntries)
    dayEntries.

(** What the five drafts are before the last pattern, the day range, is
    tried. *)
Definition draftFixed (d : Generator.Draft) : Prop :=
  (In (Generator.d_minute d) (fixedTexts minute)
   \/ stepText (Generator.d_minute d))
  /\ (In (Generator.d_hour d) (fixedTexts hour)
      \/ stepText (Generator.d_hour d))
  /\ In (Generator.d_dayOfMonth d) (fixedTexts dayOfMonth)
  /\ In (Generator.d_month d) (fixedTexts month)
  /\ In (Generator.d_dayOfWeek d) (fixedTexts dayOfWeek).

(** What the five drafts of the second tier can be. *)
Definition draftOk (d : Generator.Draft) : Prop :=
  (In (Generator.d_minute d) (fixedTexts minute)
   \/ stepText (Generator.d_minute d))
  /\ (In (Generator.d_hour d) (fixedTexts hour)
      \/ stepText (Generator.d_hour d))
  /\ In (Generator.d_dayOfMonth d) (fixedTexts dayOfMonth)
  /\ In (Generator.d_month d) (fixedTexts month)
  /\ (In (Generator.d_dayOfWeek d) (fixedTexts dayOfWeek)
      \/ exists a b,
           Generator.d_dayOfWeek d
           = Generator.shownEntry a ++ "-" ++ Generator.shownEntry b
           /\ In a dayEntries /\ In b dayEntries
           /\ inherited a || inherited b = true
           /\ exists k1 k2,
                Generator.daysAt k1 = Some a /\ Generator.daysAt k2 = Some b).

(** A field text on which [parseField] returns without recording a value
    out of range, and which is one token of an expression. *)
Definition sound (f : FieldName) (s : string) : bool :=
  Spec.stepsOk s (FIELDS f)
  && match flat_map (Spec.recorded (FIELDS f))
             (split_char "," (normalizedField s (FIELDS f))) with
     | [] => true
     | _ :: _ => false
     end
  && token s && negb (startsWith s "@").

(** A field as a list: [*] when typed so, else its values. *)
Definition listed (f : ParsedField) : string :=
  if String.eqb (raw f) "*" then "*" else Forward.joinValues (values f).

(** The five field texts that come back from the systemd format. *)
Definition systemdBack (fields : Fields) : string :=
  join " "
    [Forward.systemdTimePart (f_minute fields);
     Forward.systemdTimePart (f_hour fields);
     listed (f_dayOfMonth fields); listed (f_month fields);
     listed (f_dayOfWeek fields)].

(** The characters of a field written with numbers: digits and the four
    signs of the syntax. *)
Definition cronChar (c : ascii) : bool :=
  is_digit c || Ascii.eqb c "*" || Ascii.eqb c "/" || Ascii.eqb c "-"
  || Ascii.eqb c ",".

(** The characters of the date and the time of a systemd text. *)
Definition partChar (c : ascii) : bool :=
  cronChar c || Ascii.eqb c "N" || Ascii.eqb c "a".

(** The characters of a printed list of values that are not negative. *)
Definition listChar (c : ascii) : bool :=
  is_digit c || Ascii.eqb c "," || Ascii.eqb c "N" || Ascii.eqb c "a"
  || Ascii.eqb c "*".

(** What the [Set] of a field holds between two segments: no value
    twice, and apart from [NaN] only integers of the range. *)
Definition tidy (lo hi : Z) (vals : list jsnum) : Prop :=
  NoDup vals /\ forall z, In (Num z) vals -> lo <= z <= hi.

(** The values are days of the week, 0 to 6, and there is one at least. *)
Definition weekdays (vals : list jsnum) : Prop :=
  vals <> [] /\ forall v, In v vals -> exists z, v = Num z /\ 0 <= z <= 6.

End Props.

(* ================================================================== *)
(** ** Theorems *)

Import JS Regex Parser Generator Converter.

(** *** The two loops of [parseField] *)

Lemma same_value_zero_eq (a b : jsnum) :
  same_value_zero a b = true <-> a = b.
Proof.
  destruct a as [x|], b as [y|]; simpl; split; intros H;
    try discriminate; try reflexivity.
  - apply Z.eqb_eq in H. now subst.
  - injection H as ->. apply Z.eqb_refl.
Qed.

Lemma includes_In (arr : list jsnum) (v : jsnum) :
  includes arr v = true <-> In v arr.
Proof.
  unfold includes. rewrite existsb_exists. split.
  - intros [x [Hin Hx]]. apply same_value_zero_eq in Hx. now subst.
  - intros Hin. exists v. split; [assumption|]. now apply same_value_zero_eq.
Qed.


(** When [values.add] returns, the [Set] is what [set_add] makes it. *)
Lemma set_add_limited_returns (v : jsnum) (s s' : list jsnum) :
  set_add_limited v s = Returns s' -> s' = set_add v s.
Proof.
  unfold set_add_limited, set_add. destruct (includes s v).
  - intros H. now injection H.
  - destruct (maxSetSize <=? Z.of_nat (List.length s)); [discriminate|].
    intros H. now injection H.
Qed.

(** It returns on a value the [Set] holds, and on a [Set] that is not
    full. *)
Lemma set_add_limited_known (v : jsnum) (s : list jsnum) :
  includes s v = true -> set_add_limited v s = Returns s.
Proof. intros H. unfold set_add_limited. now rewrite H. Qed.

Lemma set_add_limited_room (v : jsnum) (s : list jsnum) :
  Z.of_nat (List.length s) < maxSetSize ->
  set_add_limited v s = Returns (set_add v s).
Proof.
  intros H. unfold set_add_limited, set_add. destruct (includes s v);
    [reflexivity|].
  destruct (Z.leb_spec maxSetSize (Z.of_nat (List.length s))); [lia|].
  reflexivity.
Qed.


(** A counter that starts inside its bound and does not move never leaves
    the wildcard loop: after the first turn the [Set] holds its value. *)
Lemma starLoop_step_zero_known (fuel : nat) (i hi : Z) (vals : list jsnum) :
  i <= hi -> includes vals (Num i) = true ->
  starLoop fuel (Num i) hi (Num 0) vals = None.
Proof.
  intros Hle Hin. induction fuel as [|fuel IH]; [reflexivity|].
  cbn [starLoop le add]. destruct (Z.leb_spec i hi) as [_|Hgt]; [|lia].
  rewrite (set_add_limited_known _ _ Hin).
  replace (i + 0) with i by lia. exact IH.
Qed.

Lemma starLoop_step_zero (fuel : nat) (i hi : Z) (vals : list jsnum) :
  i <= hi -> Z.of_nat (List.length vals) < maxSetSize ->
  starLoop fuel (Num i) hi (Num 0) vals = None.
Proof.
  intros Hle Hroom. destruct fuel as [|fuel]; [reflexivity|].
  cbn [starLoop le add]. destruct (Z.leb_spec i hi) as [_|Hgt]; [|lia].
  rewrite (set_add_limited_room _ _ Hroom).
  replace (i + 0) with i by lia.
  apply starLoop_step_zero_known; [assumption|].
  apply includes_In. unfold set_add.
  destruct (includes vals (Num i)) eqn:Hin.
  - now apply includes_In.
  - unfold push. apply in_or_app. right. now left.
Qed.


Lemma rangeLoop_step_nonpositive (fuel : nat) (def : FieldDef) (stop s : Z) :
  s <= 0 ->
  forall (i : Z) (vals : list jsnum),
    i <= stop -> rangeLoop fuel def (Num i) (Num stop) (Num s) vals = None.
Proof.
  intros Hs. induction fuel as [|fuel IH]; intros i vals Hle; simpl.
  - reflexivity.
  - destruct (Z.leb_spec i stop) as [_|Hgt]; [|lia].
    apply IH. lia.
Qed.

Lemma rangeLoop_step_zero (fuel : nat) (def : FieldDef) (i stop : Z)
  (vals : list jsnum) :
  i <= stop -> rangeLoop fuel def (Num i) (Num stop) (Num 0) vals = None.
Proof. apply rangeLoop_step_nonpositive. lia. Qed.

(** A wildcard segment with step 0 never leaves its loop. *)
Lemma parseSegment_star_step_zero (fuel : nat) (def : FieldDef) (a : Acc)
  (segment : string) :
  rangeOf segment = "*" -> stepNumOf segment = Num 0 -> min def <= max def ->
  Z.of_nat (List.length (acc_values a)) < maxSetSize ->
  parseSegment fuel def a segment = None.
Proof.
  intros Hr Hs Hle Hroom. unfold parseSegment. rewrite Hr, Hs.
  simpl String.eqb. cbv iota. now rewrite starLoop_step_zero.
Qed.

Lemma parseFieldCall_segments (fuel : nat) (field : string) (def : FieldDef) :
  parseFieldCall fuel field def
  = match parseSegments fuel def (split_char "," (normalizedField field def))
            (mkAcc [] [] []) with
    | None => None
    | Some (Throws message) => Some (Throws message)
    | Some (Returns a) =>
        Some (Returns
                (mkParsedField (sort (acc_values a)) field
                   (join ", " (acc_parts a)) (acc_outOfRange a)))
    end.
Proof. reflexivity. Qed.

Lemma parseField_segments (fuel : nat) (field : string) (def : FieldDef) :
  parseField fuel field def
  = match parseSegments fuel def (split_char "," (normalizedField field def))
            (mkAcc [] [] []) with
    | Some (Returns a) =>
        Some (mkParsedField (sort (acc_values a)) field
                (join ", " (acc_parts a)) (acc_outOfRange a))
    | _ => None
    end.
Proof.
  unfold parseField. rewrite parseFieldCall_segments.
  destruct parseSegments as [[a|message]|]; reflexivity.
Qed.

(** The call returned the field. *)
Lemma parseField_call (fuel : nat) (field : string) (def : FieldDef)
  (p : ParsedField) :
  parseField fuel field def = Some p
  <-> parseFieldCall fuel field def = Some (Returns p).
Proof.
  unfold parseField.
  destruct (parseFieldCall fuel field def) as [[q|message]|]; split;
    intros H; try discriminate; try (injection H as ->; reflexivity).
Qed.

Lemma parseField_hangs (fuel : nat) (field : string) (def : FieldDef) :
  parseFieldCall fuel field def = None -> parseField fuel field def = None.
Proof. intros H. unfold parseField. now rewrite H. Qed.

Lemma parseFieldCall_star_zero (fuel : nat) :
  parseFieldCall fuel "*/0" (FIELDS minute) = None.
Proof.
  rewrite parseFieldCall_segments.
  change (split_char "," (normalizedField "*/0" (FIELDS minute)))
    with ["*/0"].
  cbn [parseSegments].
  rewrite parseSegment_star_step_zero;
    [reflexivity | reflexivity | reflexivity | | ];
    unfold maxSetSize; simpl; lia.
Qed.

Lemma parseField_star_zero (fuel : nat) :
  parseField fuel "*/0" (FIELDS minute) = None.
Proof. apply parseField_hangs, parseFieldCall_star_zero. Qed.

(** *** The shape of [parse] *)

Lemma parse_five_fields (fuel : nat) (e f0 f1 f2 f3 f4 : string) :
  startsWith (trim e) "@" = false ->
  split_ws (trim e) = [f0; f1; f2; f3; f4] ->
  parse fuel e = parseFive fuel e [f0; f1; f2; f3; f4].
Proof.
  intros Hat Hsplit. unfold parse. rewrite Hat.
  unfold parseFields. rewrite Hsplit. reflexivity.
Qed.

Lemma parseFive_first_hangs (fuel : nat) (e f0 f1 f2 f3 f4 : string) :
  parseFieldCall fuel f0 (FIELDS minute) = None ->
  parseFive fuel e [f0; f1; f2; f3; f4] = None.
Proof. intros H. unfold parseFive. cbn [nth]. now rewrite H. Qed.

Lemma parseFive_second_hangs (fuel : nat) (e f0 f1 f2 f3 f4 : string) :
  parseFieldCall fuel f1 (FIELDS hour) = None ->
  parseFive fuel e [f0; f1; f2; f3; f4] = None.
Proof.
  intros H1. unfold parseFive. cbn [nth]. rewrite H1.
  now destruct (parseFieldCall fuel f0 (FIELDS minute)).
Qed.

(** [parse('*/0 * * * *')] does not return. *)
Lemma parse_star_zero_hangs (fuel : nat) : parse fuel "*/0 * * * *" = None.
Proof.
  rewrite (parse_five_fields fuel _ "*/0" "*" "*" "*" "*");
    [ | reflexivity | reflexivity ].
  apply parseFive_first_hangs, parseFieldCall_star_zero.
Qed.

(** *** The scheduler's walk *)

Lemma dayMatch_dayClause (fields : Fields) (t : LocalTime) :
  dayMatch fields t = Spec.dayClause fields t.
Proof.
  unfold dayMatch, Spec.dayClause, Spec.isWildcard, Spec.weekday0.
  destruct (String.eqb (raw (f_dayOfMonth fields)) "*"),
           (String.eqb (raw (f_dayOfWeek fields)) "*"); reflexivity.
Qed.

Lemma matches_fires (fields : Fields) (t : LocalTime) :
  matches fields t = Spec.fires fields t.
Proof.
  unfold matches, Spec.fires. rewrite dayMatch_dayClause.
  destruct (includes (values (f_minute fields)) (Num (lt_minute t)));
    destruct (includes (values (f_hour fields)) (Num (lt_hour t)));
    destruct (includes (values (f_month fields)) (Num (lt_month t)));
    destruct (Spec.dayClause fields t); reflexivity.
Qed.

(** The loop appends, to what it already holds, the first matching
    candidates of the minutes left, until [count] is reached. *)
Lemma occurrencesLoop_firstn (zone : Zone) (fields : Fields) (count n : nat) :
  forall (current : Z) (occurrences : list Z),
    (List.length occurrences <= count)%nat ->
    occurrencesLoop zone fields count n current occurrences
    = (occurrences
       ++ firstn (count - List.length occurrences)
            (filter (fun c => Spec.fires fields (localTime zone c))
               (Spec.minutesFrom n current)))%list.
Proof.
  induction n as [|n IH]; intros current occ Hlen.
  - simpl. now rewrite firstn_nil, app_nil_r.
  - cbn [occurrencesLoop Spec.minutesFrom filter].
    destruct (Nat.ltb_spec (List.length occ) count) as [Hlt|Hge].
    + rewrite matches_fires.
      destruct (Spec.fires fields (localTime zone current)).
      * rewrite IH by (unfold push; rewrite length_app; simpl; lia).
        unfold push. rewrite length_app. cbn [List.length].
        replace (count - List.length occ)%nat
          with (S (count - (List.length occ + 1)))%nat by lia.
        cbn [firstn]. now rewrite <- app_assoc.
      * now apply IH.
    + replace (count - List.length occ)%nat with O by lia.
      now rewrite firstn_O, app_nil_r.
Qed.

Lemma minutesFrom_lower (n : nat) :
  forall start, Forall (fun c => start <= c) (Spec.minutesFrom n start).
Proof.
  induction n as [|n IH]; intros start; simpl; constructor.
  - lia.
  - eapply Forall_impl; [|apply IH]. simpl. intros c Hc. lia.
Qed.

Lemma minutesFrom_increasing (n : nat) :
  forall start, StronglySorted Z.lt (Spec.minutesFrom n start).
Proof.
  induction n as [|n IH]; intros start; simpl; constructor.
  - apply IH.
  - eapply Forall_impl; [|apply minutesFrom_lower]. simpl. intros c Hc. lia.
Qed.

Lemma StronglySorted_filter {A : Type} (R : A -> A -> Prop) (p : A -> bool)
  (l : list A) :
  StronglySorted R l -> StronglySorted R (filter p l).
Proof.
  induction 1 as [|x l Hs IH Hall]; simpl.
  - constructor.
  - destruct (p x); [constructor|]; auto.
    rewrite Forall_forall in *. intros y Hy.
    apply filter_In in Hy. now apply Hall.
Qed.

Lemma StronglySorted_firstn {A : Type} (R : A -> A -> Prop) (k : nat)
  (l : list A) :
  StronglySorted R l -> StronglySorted R (firstn k l).
Proof.
  intros Hs. revert k. induction Hs as [|x l Hs IH Hall]; intros [|k]; simpl;
    try constructor; auto.
  rewrite Forall_forall in *. intros y Hy.
  apply Hall. rewrite <- (firstn_skipn k l). apply in_or_app. now left.
Qed.

Lemma Forall_firstn_filter {A : Type} (P : A -> Prop) (p : A -> bool)
  (k : nat) (l : list A) :
  Forall P l -> Forall P (firstn k (filter p l)).
Proof.
  rewrite !Forall_forall. intros H y Hy. apply H.
  assert (Hin : In y (filter p l)).
  { rewrite <- (firstn_skipn k (filter p l)). apply in_or_app. now left. }
  now apply filter_In in Hin.
Qed.

(** The walk is never unfolded by a proof step. *)
#[local] Opaque maxIterations.

(** What [getNextOccurrences] returns once [parse] has returned. *)
Lemma getNextOccurrences_parsed (fuel : nat) (zone : Zone) (e : string)
  (count : nat) (from : Z) (original : string) (fields : Fields)
  (errors : list string) :
  parse fuel e = Some (Parsed true original fields errors) ->
  getNextOccurrences fuel zone e count from
  = Some (firstn count
            (filter (fun c => Spec.fires fields (localTime zone c))
               (Spec.minutesFrom maxIterations
                  (startOfMinute zone (from + 60000))))).
Proof.
  intros Hp. unfold getNextOccurrences. rewrite Hp.
  rewrite occurrencesLoop_firstn by (cbn [List.length]; lia).
  cbn [List.length app]. rewrite Nat.sub_0_r. reflexivity.
Qed.

Lemma getNextOccurrences_sound (fuel : nat) (zone : Zone) (e : string)
  (count : nat) (from : Z) (r : ParseResult) :
  (forall t, t - 60000 < startOfMinute zone t) ->
  parse fuel e = Some r ->
  exists l,
    getNextOccurrences fuel zone e count from = Some l
    /\ (List.length l <= count)%nat
    /\ StronglySorted Z.lt l
    /\ Forall (fun t => from < t) l
    /\ (valid r = false \/ isReboot r = true -> l = []).
Proof.
  intros Hzone Hp.
  assert (Hempty :
    forall l : list Z, l = [] ->
      (List.length l <= count)%nat /\ StronglySorted Z.lt l
      /\ Forall (fun t => from < t) l
      /\ (valid r = false \/ isReboot r = true -> l = [])).
  { intros l ->. repeat split; simpl; try lia; constructor. }
  destruct r as [|err sug|v original fields errors|original slots errors].
  - exists []. split; [|now apply Hempty].
    unfold getNextOccurrences. now rewrite Hp.
  - exists []. split; [|now apply Hempty].
    unfold getNextOccurrences. now rewrite Hp.
  - destruct v.
    + eexists. split; [exact (getNextOccurrences_parsed _ _ _ _ _ _ _ _ Hp)|].
      split; [apply firstn_le_length|].
      split; [apply StronglySorted_firstn, StronglySorted_filter,
              minutesFrom_increasing|].
      split.
      * apply Forall_firstn_filter.
        eapply Forall_impl; [|apply minutesFrom_lower].
        simpl. intros c Hc. specialize (Hzone (from + 60000)). lia.
      * simpl. intros [H|H]; discriminate.
    + exists []. split; [|now apply Hempty].
      unfold getNextOccurrences. now rewrite Hp.
  - exists []. split; [|now apply Hempty].
    unfold getNextOccurrences. now rewrite Hp.
Qed.

(** *** Sunday as 0 and 7 *)

Lemma set_add_keeps_out (v x : jsnum) (s : list jsnum) :
  v <> x -> ~ In x s -> ~ In x (set_add v s).
Proof.
  intros Hne Hs. unfold set_add, push.
  destruct (includes s v); [assumption|].
  intros Hin. apply in_app_or in Hin. destruct Hin as [Hin|[Heq|[]]]; auto.
Qed.

Lemma strict_eq_false (i : jsnum) (z : Z) :
  strict_eq i (Num z) = false -> i <> Num z.
Proof.
  destruct i as [y|]; simpl; [|discriminate].
  intros H Heq. injection Heq as ->. now rewrite Z.eqb_refl in H.
Qed.

(** A range of the day-of-week field never inserts 7. *)
Lemma rangeLoop_dayOfWeek_no_7 (fuel : nat) :
  forall (i stop stepNum : jsnum) (vals vals' : list jsnum),
    ~ In (Num 7) vals ->
    rangeLoop fuel (FIELDS dayOfWeek) i stop stepNum vals = Some vals' ->
    ~ In (Num 7) vals'.
Proof.
  induction fuel as [|fuel IH]; intros i stop stepNum vals vals' Hno Hrun;
    cbn [rangeLoop] in Hrun; [discriminate|].
  destruct (le i stop); [|now injection Hrun as <-].
  apply IH in Hrun; [assumption|].
  destruct (ge i (Num (min (FIELDS dayOfWeek)))
            && le i (Num (max (FIELDS dayOfWeek)))); [|assumption].
  change (isDayOfWeek (FIELDS dayOfWeek)) with true.
  rewrite andb_true_r.
  destruct (strict_eq i (Num 7)) eqn:H7.
  - apply set_add_keeps_out; [discriminate|assumption].
  - apply set_add_keeps_out; [now apply strict_eq_false|assumption].
Qed.

(** *** The phrase table *)

Lemma lookup_PATTERNS_of_entry (pattern cron : string) :
  In (pattern, cron) PATTERNS -> lookup PATTERNS pattern = Some cron.
Proof.
  unfold PATTERNS. simpl.
  intros H.
  repeat (destruct H as [H|H];
          [injection H as <- <-; vm_compute; reflexivity|]).
  contradiction.
Qed.

(** Whatever the input holds, an entry of the phrase table is returned
    as it stands. *)
Lemma directResult_unchanged (text input pattern cron : string) :
  In (pattern, cron) PATTERNS ->
  directResult text input pattern cron = Generated cron (generatedFrom text).
Proof.
  intros Hin. unfold directResult.
  rewrite (lookup_PATTERNS_of_entry _ _ Hin), String.eqb_refl.
  cbn [negb]. destruct (exec true reAt input); reflexivity.
Qed.

(** *** A step of zero *)

(** The segments of a constant field text, computed once. *)
Ltac segments_of_field :=
  rewrite ?parseField_segments, ?parseFieldCall_segments;
  match goal with
  | |- context [split_char "," (normalizedField ?f ?d)] =>
      let v := eval vm_compute in (split_char "," (normalizedField f d)) in
      change (split_char "," (normalizedField f d)) with v
  end;
  cbn [parseSegments].


(** A range segment with step 0 and its bounds in order never leaves its
    loop. *)
Lemma parseSegment_range_step_zero (fuel : nat) (def : FieldDef) (a : Acc)
  (segment : string) (lo hi : Z) :
  String.eqb (rangeOf segment) "*" = false ->
  str_includes (rangeOf segment) "-" = true ->
  parseInt (nth 0 (split_char "-" (rangeOf segment)) EmptyString) = Num lo ->
  parseInt (nth 1 (split_char "-" (rangeOf segment)) EmptyString) = Num hi ->
  stepNumOf segment = Num 0 ->
  lo <= hi ->
  parseSegment fuel def a segment = None.
Proof.
  intros Hstar Hdash Hlo Hhi Hstep Hle. unfold parseSegment.
  rewrite Hstar, Hdash, Hlo, Hhi, Hstep. cbv zeta iota.
  now rewrite rangeLoop_step_zero.
Qed.

Lemma parseFieldCall_range_zero (fuel : nat) :
  parseFieldCall fuel "1-10/0" (FIELDS minute) = None.
Proof.
  segments_of_field.
  rewrite (parseSegment_range_step_zero fuel _ _ _ 1 10);
    [reflexivity | reflexivity | reflexivity | reflexivity | reflexivity
    | reflexivity | lia].
Qed.

Lemma parseField_range_zero (fuel : nat) :
  parseField fuel "1-10/0" (FIELDS minute) = None.
Proof. apply parseField_hangs, parseFieldCall_range_zero. Qed.

(** *** AWS day-of-week tokens *)



(** *** Errors of [parse] *)

(** The five calls of the walk, once it has returned. *)
Lemma parseFive_calls (fuel : nat) (e : string) (fs : list string)
  (r : ParseResult) :
  parseFive fuel e fs = Some r ->
  exists c0 c1 c2 c3 c4 : Completion ParsedField,
    parseFieldCall fuel (nth 0 fs EmptyString) (FIELDS minute) = Some c0
    /\ parseFieldCall fuel (nth 1 fs EmptyString) (FIELDS hour) = Some c1
    /\ parseFieldCall fuel (nth 2 fs EmptyString) (FIELDS dayOfMonth) = Some c2
    /\ parseFieldCall fuel (nth 3 fs EmptyString) (FIELDS month) = Some c3
    /\ parseFieldCall fuel (nth 4 fs EmptyString) (FIELDS dayOfWeek) = Some c4
    /\ parseFive fuel e fs
       = Some (match c0, c1, c2, c3, c4 with
               | Returns p0, Returns p1, Returns p2, Returns p3, Returns p4 =>
                   Parsed
                     (Spec.noErrors
                        (Spec.errorsFor (mkFields p0 p1 p2 p3 p4)))
                     e (mkFields p0 p1 p2 p3 p4)
                     (Spec.errorsFor (mkFields p0 p1 p2 p3 p4))
               | _, _, _, _, _ =>
                   Caught e
                     (fun f =>
                        returned
                          (match f with
                           | minute => c0
                           | hour => c1
                           | dayOfMonth => c2
                           | month => c3
                           | dayOfWeek => c4
                           end))
                     (Spec.errorsOfCalls
                        (fun f =>
                           match f with
                           | minute => c0
                           | hour => c1
                           | dayOfMonth => c2
                           | month => c3
                           | dayOfWeek => c4
                           end))
               end).
Proof.
  unfold parseFive.
  destruct (parseFieldCall fuel (nth 0 fs EmptyString) (FIELDS minute))
    as [c0|]; [|discriminate].
  destruct (parseFieldCall fuel (nth 1 fs EmptyString) (FIELDS hour))
    as [c1|]; [|discriminate].
  destruct (parseFieldCall fuel (nth 2 fs EmptyString) (FIELDS dayOfMonth))
    as [c2|]; [|discriminate].
  destruct (parseFieldCall fuel (nth 3 fs EmptyString) (FIELDS month))
    as [c3|]; [|discriminate].
  destruct (parseFieldCall fuel (nth 4 fs EmptyString) (FIELDS dayOfWeek))
    as [c4|]; [|discriminate].
  intros _. exists c0, c1, c2, c3, c4. repeat (split; [reflexivity|]).
  unfold Spec.errorsOfCalls, Spec.errorsFor, Spec.noErrors.
  destruct c0, c1, c2, c3, c4;
    cbn [flat_map FIELD_ORDER tryErrors getField f_minute f_hour f_dayOfMonth
           f_month f_dayOfWeek];
    rewrite ?app_nil_r; reflexivity.
Qed.

(** When the walk over the five fields returns, either every field has
    been parsed, there is one error per field with out-of-range values, and
    the expression is valid exactly when there is none; or a call of
    [parseField] threw, the result is invalid, it has the fields of the
    calls that returned and one error per field in its errors. *)
Lemma parseFive_returns (fuel : nat) (e : string) (fs : list string)
  (r : ParseResult) :
  parseFive fuel e fs = Some r ->
  (exists fields : Fields,
      r = Parsed (Spec.noErrors (Spec.errorsFor fields)) e fields
            (Spec.errorsFor fields)
      /\ forall (i : nat) (f : FieldName),
           nth_error FIELD_ORDER i = Some f ->
           parseField fuel (nth i fs EmptyString) (FIELDS f)
           = Some (getField fields f))
  \/ (exists calls : FieldName -> Completion ParsedField,
        r = Caught e (fun f => returned (calls f)) (Spec.errorsOfCalls calls)
        /\ (exists (f : FieldName) (message : string),
              calls f = Throws message)
        /\ forall (i : nat) (f : FieldName),
             nth_error FIELD_ORDER i = Some f ->
             parseFieldCall fuel (nth i fs EmptyString) (FIELDS f)
             = Some (calls f)).
Proof.
  intros Hr.
  destruct (parseFive_calls _ _ _ _ Hr)
    as [c0 [c1 [c2 [c3 [c4 [H0 [H1 [H2 [H3 [H4 Heq]]]]]]]]]].
  rewrite Hr in Heq. injection Heq as ->.
  assert (Hcalls :
    forall (i : nat) (f : FieldName),
      nth_error FIELD_ORDER i = Some f ->
      parseFieldCall fuel (nth i fs EmptyString) (FIELDS f)
      = Some (match f with
              | minute => c0
              | hour => c1
              | dayOfMonth => c2
              | month => c3
              | dayOfWeek => c4
              end)).
  { intros i f Hi.
    destruct i as [|[|[|[|[|i]]]]]; cbn in Hi;
      [ | | | | | destruct i; discriminate];
      injection Hi as <-; assumption. }
  assert (Hthrown :
    forall (f : FieldName) (message : string),
      match f with
      | minute => c0
      | hour => c1
      | dayOfMonth => c2
      | month => c3
      | dayOfWeek => c4
      end = Throws message ->
      exists calls : FieldName -> Completion ParsedField,
        Caught e
          (fun f =>
             returned
               (match f with
                | minute => c0
                | hour => c1
                | dayOfMonth => c2
                | month => c3
                | dayOfWeek => c4
                end))
          (Spec.errorsOfCalls
             (fun f =>
                match f with
                | minute => c0
                | hour => c1
                | dayOfMonth => c2
                | month => c3
                | dayOfWeek => c4
                end))
        = Caught e (fun f => returned (calls f)) (Spec.errorsOfCalls calls)
        /\ (exists (f : FieldName) (message : string),
              calls f = Throws message)
        /\ forall (i : nat) (f : FieldName),
             nth_error FIELD_ORDER i = Some f ->
             parseFieldCall fuel (nth i fs EmptyString) (FIELDS f)
             = Some (calls f)).
  { intros f message Hf.
    exists (fun f => match f with
                     | minute => c0
                     | hour => c1
                     | dayOfMonth => c2
                     | month => c3
                     | dayOfWeek => c4
                     end).
    split; [reflexivity|]. split; [|exact Hcalls]. now exists f, message. }
  destruct c0 as [p0|m0]; [|right; exact (Hthrown minute m0 eq_refl)].
  destruct c1 as [p1|m1]; [|right; exact (Hthrown hour m1 eq_refl)].
  destruct c2 as [p2|m2]; [|right; exact (Hthrown dayOfMonth m2 eq_refl)].
  destruct c3 as [p3|m3]; [|right; exact (Hthrown month m3 eq_refl)].
  destruct c4 as [p4|m4]; [|right; exact (Hthrown dayOfWeek m4 eq_refl)].
  left. exists (mkFields p0 p1 p2 p3 p4). split; [reflexivity|].
  intros i f Hi. apply parseField_call.
  rewrite (Hcalls i f Hi). destruct f; reflexivity.
Qed.

(** The walk returned the five fields. *)
Lemma parseFive_parsed (fuel : nat) (e : string) (fs : list string)
  (v : bool) (original : string) (fields : Fields) (errors : list string) :
  parseFive fuel e fs = Some (Parsed v original fields errors) ->
  v = Spec.noErrors (Spec.errorsFor fields)
  /\ original = e
  /\ errors = Spec.errorsFor fields
  /\ forall (i : nat) (f : FieldName),
       nth_error FIELD_ORDER i = Some f ->
       parseField fuel (nth i fs EmptyString) (FIELDS f)
       = Some (getField fields f).
Proof.
  intros Hr. apply parseFive_returns in Hr.
  destruct Hr as [[fields' [Heq Hall]]|[calls [Heq _]]]; [|discriminate].
  injection Heq as -> -> -> ->. auto.
Qed.

Lemma fieldErrors_nil (f : FieldName) (p : ParsedField) :
  fieldErrors f p = [] <-> outOfRange p = [].
Proof.
  unfold fieldErrors. destruct (outOfRange p); split; intros H;
    try reflexivity; discriminate.
Qed.

Lemma noErrors_errorsFor (fields : Fields) :
  Spec.noErrors (Spec.errorsFor fields) = true
  <-> forall f : FieldName, outOfRange (getField fields f) = [].
Proof.
  unfold Spec.errorsFor. cbn [flat_map FIELD_ORDER]. rewrite app_nil_r.
  split.
  - intros H f.
    destruct (fieldErrors minute (getField fields minute)) eqn:E0;
      [|discriminate].
    destruct (fieldErrors hour (getField fields hour)) eqn:E1;
      [|discriminate].
    destruct (fieldErrors dayOfMonth (getField fields dayOfMonth)) eqn:E2;
      [|discriminate].
    destruct (fieldErrors month (getField fields month)) eqn:E3;
      [|discriminate].
    destruct (fieldErrors dayOfWeek (getField fields dayOfWeek)) eqn:E4;
      [|discriminate].
    destruct f; eapply fieldErrors_nil; eassumption.
  - intros H.
    rewrite (proj2 (fieldErrors_nil minute _) (H minute)),
            (proj2 (fieldErrors_nil hour _) (H hour)),
            (proj2 (fieldErrors_nil dayOfMonth _) (H dayOfMonth)),
            (proj2 (fieldErrors_nil month _) (H month)),
            (proj2 (fieldErrors_nil dayOfWeek _) (H dayOfWeek)).
    reflexivity.
Qed.

(** The only results of [parse]: the [@reboot] sentinel, a structural
    failure (field count, unknown alias), the five parsed fields with
    their accumulated errors, or the invalid result of a walk in which a
    call of [parseField] threw. *)
Lemma parse_returns (fuel : nat) (e : string) (r : ParseResult) :
  parse fuel e = Some r ->
  r = Reboot
  \/ (exists n : nat,
        (n < 5 \/ 6 < n)%nat
        /\ r = Failure
                 ("Invalid field count: expected 5, got "
                  ++ Z_to_string (Z.of_nat n))
                 "Format: minute hour day-of-month month day-of-week")
  \/ (exists suggestion : string,
        startsWith (trim e) "@" = true
        /\ lookupAlias ALIASES (toLowerCase (trim e)) = None
        /\ r = Failure ("Unknown alias: " ++ toLowerCase (trim e)) suggestion)
  \/ (exists (original : string) (fields : Fields) (fs : list string),
        r = Parsed (Spec.noErrors (Spec.errorsFor fields)) original fields
              (Spec.errorsFor fields)
        /\ forall (i : nat) (f : FieldName),
             nth_error FIELD_ORDER i = Some f ->
             parseField fuel (nth i fs EmptyString) (FIELDS f)
             = Some (getField fields f))
  \/ (exists (original : string)
             (calls : FieldName -> Completion ParsedField) (fs : list string),
        r = Caught original (fun f => returned (calls f))
              (Spec.errorsOfCalls calls)
        /\ (exists (f : FieldName) (message : string),
              calls f = Throws message)
        /\ forall (i : nat) (f : FieldName),
             nth_error FIELD_ORDER i = Some f ->
             parseFieldCall fuel (nth i fs EmptyString) (FIELDS f)
             = Some (calls f)).
Proof.
  assert (Hfields :
    forall x, parseFields fuel x = Some r ->
      (exists n : nat,
          (n < 5 \/ 6 < n)%nat
          /\ r = Failure
                   ("Invalid field count: expected 5, got "
                    ++ Z_to_string (Z.of_nat n))
                   "Format: minute hour day-of-month month day-of-week")
      \/ (exists (original : string) (fields : Fields) (fs : list string),
            r = Parsed (Spec.noErrors (Spec.errorsFor fields)) original fields
                  (Spec.errorsFor fields)
            /\ forall (i : nat) (f : FieldName),
                 nth_error FIELD_ORDER i = Some f ->
                 parseField fuel (nth i fs EmptyString) (FIELDS f)
                 = Some (getField fields f))
      \/ (exists (original : string)
                 (calls : FieldName -> Completion ParsedField)
                 (fs : list string),
            r = Caught original (fun f => returned (calls f))
                  (Spec.errorsOfCalls calls)
            /\ (exists (f : FieldName) (message : string),
                  calls f = Throws message)
            /\ forall (i : nat) (f : FieldName),
                 nth_error FIELD_ORDER i = Some f ->
                 parseFieldCall fuel (nth i fs EmptyString) (FIELDS f)
                 = Some (calls f))).
  { intros x. unfold parseFields.
    destruct ((List.length (split_ws (trim x)) <? 5)%nat
              || (6 <? List.length (split_ws (trim x)))%nat) eqn:Hn.
    - intros H. injection H as <-. left.
      exists (List.length (split_ws (trim x))). split; [|reflexivity].
      apply orb_true_iff in Hn. destruct Hn as [Hn|Hn];
        apply Nat.ltb_lt in Hn; lia.
    - intros H. apply parseFive_returns in H.
      destruct H as [[fields [-> Hall]]|[calls [-> [Hthrown Hall]]]].
      + right. left. eexists x, fields, _.
        split; [reflexivity | exact Hall].
      + right. right. eexists x, calls, _.
        split; [reflexivity|]. split; [exact Hthrown | exact Hall]. }
  unfold parse. destruct (startsWith (trim e) "@") eqn:Hat.
  - destruct (String.eqb (toLowerCase (trim e)) "@reboot").
    + intros H. injection H as <-. now left.
    + destruct (lookupAlias ALIASES (toLowerCase (trim e))) eqn:Hl.
      * intros H. apply Hfields in H. destruct H as [H|[H|H]]; auto.
      * intros H. injection H as <-. right. right. left.
        eexists. repeat split.
  - intros H. apply Hfields in H. destruct H as [H|[H|H]]; auto.
Qed.

(** *** What [outOfRange] records *)

Lemma gt_max_not_7 (def : FieldDef) (v : jsnum) :
  (isDayOfWeek def = true -> 7 <= max def) ->
  gt v (Num (max def)) = true ->
  negb (isDayOfWeek def && strict_eq v (Num 7)) = true.
Proof.
  intros Hdow Hgt. destruct (isDayOfWeek def); [|reflexivity].
  destruct v as [z|]; [|reflexivity]. simpl in *.
  apply Z.ltb_lt in Hgt. specialize (Hdow eq_refl).
  destruct (Z.eqb_spec z 7); [lia|reflexivity].
Qed.

Lemma filter_pair {A : Type} (p : A -> bool) (x y : A) :
  filter p [x; y]
  = ((if p x then [x] else []) ++ (if p y then [y] else []))%list.
Proof. simpl. destruct (p x), (p y); reflexivity. Qed.

(** A segment appends to [outOfRange] exactly what the specification
    asks, and nothing else. *)
Lemma parseSegment_outOfRange (fuel : nat) (def : FieldDef) (a a' : Acc)
  (segment : string) :
  (isDayOfWeek def = true -> 7 <= max def) ->
  parseSegment fuel def a segment = Some (Returns a') ->
  acc_outOfRange a' = (acc_outOfRange a ++ Spec.recorded def segment)%list.
Proof.
  intros Hdow. unfold parseSegment, Spec.recorded. cbv zeta.
  destruct (String.eqb (rangeOf segment) "*").
  - destruct starLoop as [[vals'|message]|]; [|discriminate|discriminate].
    intros H. injection H as <-.
    cbn [acc_outOfRange]. now rewrite app_nil_r.
  - destruct (str_includes (rangeOf segment) "-").
    + set (s0 := parseInt (nth 0 (split_char "-" (rangeOf segment)) "")).
      set (s1 := parseInt (nth 1 (split_char "-" (rangeOf segment)) "")).
      rewrite (filter_pair (Spec.outside def) s0 s1). unfold Spec.outside.
      set (o0 := lt s0 (Num (min def)) || gt s0 (Num (max def))).
      set (o1 := lt s1 (Num (min def)) || gt s1 (Num (max def))).
      destruct rangeLoop; [|discriminate]. intros H. injection H as <-.
      unfold acc_outOfRange at 1. unfold push.
      destruct o0, o1; rewrite <- ?app_assoc; cbn [app];
        rewrite ?app_nil_r; reflexivity.
    + cbn [filter]. unfold Spec.outside.
      destruct (lt (parseInt (rangeOf segment)) (Num (min def))) eqn:Hlt.
      * cbn [orb]. intros H. injection H as <-. reflexivity.
      * cbn [orb].
        destruct (gt (parseInt (rangeOf segment)) (Num (max def))) eqn:Hgt.
        -- rewrite (gt_max_not_7 _ _ Hdow Hgt). cbn [andb].
           intros H. injection H as <-. reflexivity.
        -- cbn [andb]. intros H. injection H as <-.
           cbn [acc_outOfRange]. now rewrite app_nil_r.
Qed.

Lemma parseSegments_outOfRange (fuel : nat) (def : FieldDef) :
  (isDayOfWeek def = true -> 7 <= max def) ->
  forall (segments : list string) (a a' : Acc),
    parseSegments fuel def segments a = Some (Returns a') ->
    acc_outOfRange a'
    = (acc_outOfRange a ++ flat_map (Spec.recorded def) segments)%list.
Proof.
  intros Hdow. induction segments as [|seg rest IH]; intros a a' H.
  - injection H as <-. simpl. now rewrite app_nil_r.
  - cbn [parseSegments] in H.
    destruct (parseSegment fuel def a seg) as [[a1|message]|] eqn:H1;
      [|discriminate|discriminate].
    rewrite (IH _ _ H), (parseSegment_outOfRange _ _ _ _ _ Hdow H1).
    cbn [flat_map]. now rewrite app_assoc.
Qed.

(** The [outOfRange] of a field is, segment by segment and in order, the
    values and range bounds outside [[min,max]]. *)
Lemma parseField_outOfRange (fuel : nat) (field : string) (f : FieldName)
  (p : ParsedField) :
  parseField fuel field (FIELDS f) = Some p ->
  outOfRange p
  = flat_map (Spec.recorded (FIELDS f))
      (split_char "," (normalizedField field (FIELDS f))).
Proof.
  rewrite parseField_segments.
  destruct parseSegments as [[a|message]|] eqn:Hs;
    [|discriminate|discriminate].
  intros H. injection H as <-. cbn [outOfRange].
  rewrite (parseSegments_outOfRange fuel (FIELDS f)) with (a := mkAcc [] [] [])
    (segments := split_char "," (normalizedField field (FIELDS f)));
    [reflexivity | | assumption].
  destruct f; simpl; intros; try discriminate; lia.
Qed.



(** *** Expressions on which [parse] does not return *)




(** *** What [values] keeps *)

Lemma sort_insert_In (x y : jsnum) (l : list jsnum) :
  In y (sort_insert x l) <-> y = x \/ In y l.
Proof.
  induction l as [|z l IH]; simpl.
  - intuition congruence.
  - destruct (lt x z); simpl; rewrite ?IH; intuition congruence.
Qed.

Lemma sort_In (y : jsnum) (l : list jsnum) : In y (sort l) <-> In y l.
Proof.
  unfold sort.
  assert (H : forall acc,
             In y (fold_left (fun acc x => sort_insert x acc) l acc)
             <-> In y l \/ In y acc).
  { induction l as [|x l IH]; intros acc; simpl.
    - tauto.
    - rewrite IH, sort_insert_In. intuition congruence. }
  rewrite H. simpl. tauto.
Qed.









(** In the day-of-week field, a text with no wildcard segment never has 7
    among its values. *)
Lemma parseSegment_dayOfWeek_no_7 (fuel : nat) (a a' : Acc)
  (segment : string) :
  String.eqb (rangeOf segment) "*" = false ->
  parseSegment fuel (FIELDS dayOfWeek) a segment = Some (Returns a') ->
  ~ In (Num 7) (acc_values a) -> ~ In (Num 7) (acc_values a').
Proof.
  intros Hstar. unfold parseSegment. cbv zeta. rewrite Hstar.
  destruct (str_includes (rangeOf segment) "-").
  - destruct rangeLoop eqn:Hl; [|discriminate]. intros H Hno.
    injection H as <-. cbn [acc_values].
    eapply rangeLoop_dayOfWeek_no_7; eassumption.
  - change (isDayOfWeek (FIELDS dayOfWeek)) with true.
    rewrite andb_true_r.
    destruct (_ || _); intros H Hno; injection H as <-; cbn [acc_values];
      [assumption|].
    destruct (strict_eq (parseInt (rangeOf segment)) (Num 7)) eqn:H7.
    + apply set_add_keeps_out; [discriminate|assumption].
    + apply set_add_keeps_out; [now apply strict_eq_false|assumption].
Qed.

Lemma parseField_dayOfWeek_no_7 (fuel : nat) (field : string)
  (p : ParsedField) :
  parseField fuel field (FIELDS dayOfWeek) = Some p ->
  forallb (fun segment => negb (String.eqb (rangeOf segment) "*"))
    (split_char "," (normalizedField field (FIELDS dayOfWeek))) = true ->
  ~ In (Num 7) (values p).
Proof.
  rewrite parseField_segments.
  destruct parseSegments as [[acc|message]|] eqn:Hsegs;
    [|discriminate|discriminate].
  intros H Hall. injection H as <-. cbn [values]. rewrite sort_In.
  revert Hsegs Hall.
  assert (H0 : ~ In (Num 7) (acc_values (mkAcc [] [] []))) by (simpl; tauto).
  revert H0. generalize (mkAcc [] [] []).
  induction (split_char "," (normalizedField field (FIELDS dayOfWeek)))
    as [|seg rest IH]; intros acc0 H0 Hsegs Hall; cbn [parseSegments] in Hsegs.
  - now injection Hsegs as <-.
  - cbn [forallb] in Hall. apply andb_true_iff in Hall.
    destruct Hall as [Hseg Hrest]. apply negb_true_iff in Hseg.
    destruct (parseSegment fuel (FIELDS dayOfWeek) acc0 seg) as [[a1|message]|]
      eqn:H1; [|discriminate|discriminate].
    eapply IH; [|eassumption|assumption].
    eapply parseSegment_dayOfWeek_no_7; eassumption.
Qed.

(** *** The value set of a field *)

Lemma set_add_NoDup (v : jsnum) (s : list jsnum) :
  NoDup s -> NoDup (set_add v s).
Proof.
  intros Hs. unfold set_add, push. destruct (includes s v) eqn:Hi;
    [assumption|].
  apply NoDup_app; [assumption | repeat constructor; simpl; tauto |].
  intros x Hx [<-|[]]. apply includes_In in Hx. congruence.
Qed.

Lemma starLoop_NoDup (fuel : nat) :
  forall (i : jsnum) (hi : Z) (stepNum : jsnum) (vals vals' : list jsnum),
    starLoop fuel i hi stepNum vals = Some (Returns vals') ->
    NoDup vals -> NoDup vals'.
Proof.
  induction fuel as [|fuel IH]; intros i hi stepNum vals vals' H Hn;
    cbn [starLoop] in H; [discriminate|].
  destruct (le i (Num hi)).
  - destruct (set_add_limited i vals) as [vals1|message] eqn:Hadd;
      [|discriminate].
    apply set_add_limited_returns in Hadd. subst vals1.
    eapply IH; [eassumption|]. now apply set_add_NoDup.
  - now injection H as <-.
Qed.

Lemma rangeLoop_NoDup (fuel : nat) (def : FieldDef) :
  forall (i stop stepNum : jsnum) (vals vals' : list jsnum),
    rangeLoop fuel def i stop stepNum vals = Some vals' ->
    NoDup vals -> NoDup vals'.
Proof.
  induction fuel as [|fuel IH]; intros i stop stepNum vals vals' H Hn;
    cbn [rangeLoop] in H; [discriminate|].
  destruct (le i stop).
  - eapply IH; [eassumption|].
    destruct (_ && _); [now apply set_add_NoDup|assumption].
  - now injection H as <-.
Qed.

Lemma parseSegment_NoDup (fuel : nat) (def : FieldDef) (a a' : Acc)
  (segment : string) :
  parseSegment fuel def a segment = Some (Returns a') ->
  NoDup (acc_values a) -> NoDup (acc_values a').
Proof.
  unfold parseSegment. cbv zeta.
  destruct (String.eqb (rangeOf segment) "*").
  - destruct starLoop as [[vals'|message]|] eqn:Hl;
      [|discriminate|discriminate].
    intros H Hn.
    injection H as <-. cbn [acc_values]. eapply starLoop_NoDup; eassumption.
  - destruct (str_includes (rangeOf segment) "-").
    + destruct rangeLoop eqn:Hl; [|discriminate]. intros H Hn.
      injection H as <-. cbn [acc_values]. eapply rangeLoop_NoDup; eassumption.
    + destruct (_ || _); intros H Hn; injection H as <-; cbn [acc_values];
        [assumption | now apply set_add_NoDup].
Qed.

Lemma parseSegments_NoDup (fuel : nat) (def : FieldDef) :
  forall (segments : list string) (a a' : Acc),
    parseSegments fuel def segments a = Some (Returns a') ->
    NoDup (acc_values a) -> NoDup (acc_values a').
Proof.
  induction segments as [|seg rest IH]; intros a a' H Hn;
    cbn [parseSegments] in H.
  - now injection H as <-.
  - destruct (parseSegment fuel def a seg) as [[a1|message]|] eqn:H1;
      [|discriminate|discriminate].
    eapply IH; [eassumption|]. eapply parseSegment_NoDup; eassumption.
Qed.

Lemma sort_insert_NoDup (x : jsnum) (l : list jsnum) :
  NoDup l -> ~ In x l -> NoDup (sort_insert x l).
Proof.
  induction l as [|y l IH]; intros Hn Hx; simpl.
  - repeat constructor. simpl. tauto.
  - destruct (lt x y).
    + now constructor.
    + inversion Hn as [|? ? Hy Hl]; subst. constructor.
      * rewrite sort_insert_In. simpl in Hx. intuition congruence.
      * apply IH; [assumption|]. simpl in Hx. tauto.
Qed.

Lemma sort_NoDup (l : list jsnum) : NoDup l -> NoDup (sort l).
Proof.
  unfold sort.
  assert (H : forall acc,
             NoDup l -> NoDup acc -> (forall x, In x l -> ~ In x acc) ->
             NoDup (fold_left (fun acc x => sort_insert x acc) l acc)).
  { induction l as [|x l IH]; intros acc Hl Hacc Hdis; simpl.
    - assumption.
    - inversion Hl as [|? ? Hx Hl']; subst. apply IH.
      + assumption.
      + apply sort_insert_NoDup; [assumption|]. apply Hdis. now left.
      + intros y Hy. rewrite sort_insert_In. intros [->|Hin].
        * contradiction.
        * apply (Hdis y); [now right|assumption]. }
  intros Hl. apply H; [assumption | constructor | simpl; tauto].
Qed.

Lemma parseField_values_NoDup (fuel : nat) (field : string) (def : FieldDef)
  (p : ParsedField) :
  parseField fuel field def = Some p -> NoDup (values p).
Proof.
  rewrite parseField_segments.
  destruct parseSegments as [[acc|message]|] eqn:Hs;
    [|discriminate|discriminate].
  intros H. injection H as <-. cbn [values]. apply sort_NoDup.
  eapply parseSegments_NoDup; [eassumption|]. constructor.
Qed.

Lemma set_add_In_inv (v x : jsnum) (s : list jsnum) :
  In x (set_add v s) -> x = v \/ In x s.
Proof.
  unfold set_add, push. destruct (includes s v); [tauto|].
  intros H. apply in_app_or in H. destruct H as [H|[H|[]]]; auto.
Qed.

Lemma starLoop_NaN (fuel : nat) (hi : Z) (stepNum : jsnum)
  (vals vals' : list jsnum) :
  starLoop fuel NaN hi stepNum vals = Some (Returns vals') -> vals' = vals.
Proof. destruct fuel; simpl; [discriminate|]. now intros [= <-]. Qed.

(** A wildcard loop whose counter does not move forward never returns: it
    stays in the loop, or it throws. *)
Lemma starLoop_step_nonpositive (fuel : nat) (hi s : Z) :
  s <= 0 ->
  forall (i : Z) (vals vals' : list jsnum),
    i <= hi -> starLoop fuel (Num i) hi (Num s) vals <> Some (Returns vals').
Proof.
  intros Hs. induction fuel as [|fuel IH]; intros i vals vals' Hle;
    cbn [starLoop le add]; [discriminate|].
  destruct (Z.leb_spec i hi) as [_|Hgt]; [|lia].
  destruct (set_add_limited (Num i) vals) as [vals1|message];
    [|discriminate].
  apply IH. lia.
Qed.

(** The wildcard loop only adds integers between its start and [max]. *)
Lemma starLoop_within (lo hi : Z) (stepNum : jsnum) (fuel : nat) :
  forall (a : Z) (vals vals' : list jsnum),
    starLoop fuel (Num a) hi stepNum vals = Some (Returns vals') ->
    lo <= a ->
    (forall z, In (Num z) vals -> lo <= z <= hi) ->
    forall z, In (Num z) vals' -> lo <= z <= hi.
Proof.
  induction fuel as [|fuel IH]; intros a vals vals' H Ha Hv;
    [discriminate|].
  destruct (Z.leb_spec a hi) as [Hle|Hgt].
  - assert (Hadd : forall z, In (Num z) (set_add (Num a) vals) ->
                             lo <= z <= hi).
    { intros z Hz. apply set_add_In_inv in Hz. destruct Hz as [Hz|Hz].
      - injection Hz as ->. lia.
      - now apply Hv. }
    destruct stepNum as [s|].
    + destruct (Z.leb_spec s 0) as [Hs|Hs].
      * now apply starLoop_step_nonpositive in H.
      * cbn [starLoop le add] in H.
        destruct (Z.leb_spec a hi); [|lia].
        destruct (set_add_limited (Num a) vals) as [vals1|message] eqn:Ha1;
          [|discriminate].
        apply set_add_limited_returns in Ha1. subst vals1.
        eapply IH; [eassumption | lia | assumption].
    + cbn [starLoop le add] in H. destruct (Z.leb_spec a hi); [|lia].
      destruct (set_add_limited (Num a) vals) as [vals1|message] eqn:Ha1;
        [|discriminate].
      apply set_add_limited_returns in Ha1. subst vals1.
      apply starLoop_NaN in H. now subst.
  - cbn [starLoop le] in H. destruct (Z.leb_spec a hi); [lia|].
    now injection H as <-.
Qed.

Lemma rangeLoop_within (def : FieldDef) (fuel : nat) :
  (isDayOfWeek def = true -> min def <= 0 <= max def) ->
  forall (i stop stepNum : jsnum) (vals vals' : list jsnum),
    rangeLoop fuel def i stop stepNum vals = Some vals' ->
    (forall z, In (Num z) vals -> min def <= z <= max def) ->
    forall z, In (Num z) vals' -> min def <= z <= max def.
Proof.
  intros Hdow. induction fuel as [|fuel IH];
    intros i stop stepNum vals vals' H Hv; cbn [rangeLoop] in H;
    [discriminate|].
  destruct (le i stop); [|now injection H as <-].
  eapply IH; [eassumption|].
  destruct (ge i (Num (min def)) && le i (Num (max def))) eqn:Hin;
    [|assumption].
  intros z Hz. apply set_add_In_inv in Hz. destruct Hz as [Hz|Hz];
    [|now apply Hv].
  apply andb_true_iff in Hin. destruct Hin as [Hge Hle].
  destruct (strict_eq i (Num 7) && isDayOfWeek def) eqn:H7.
  - injection Hz as ->. apply andb_true_iff in H7. now apply Hdow.
  - subst i. simpl in Hge, Hle. apply Z.leb_le in Hge, Hle. lia.
Qed.

Lemma parseSegment_within (fuel : nat) (def : FieldDef) (a a' : Acc)
  (segment : string) :
  min def <= max def ->
  (isDayOfWeek def = true -> min def <= 0 <= max def) ->
  parseSegment fuel def a segment = Some (Returns a') ->
  (forall z, In (Num z) (acc_values a) -> min def <= z <= max def) ->
  forall z, In (Num z) (acc_values a') -> min def <= z <= max def.
Proof.
  intros Hmm Hdow. unfold parseSegment. cbv zeta.
  destruct (String.eqb (rangeOf segment) "*").
  - destruct starLoop as [[vals'|message]|] eqn:Hl;
      [|discriminate|discriminate].
    intros H Hv.
    injection H as <-. cbn [acc_values].
    eapply starLoop_within; [eassumption | lia | assumption].
  - destruct (str_includes (rangeOf segment) "-").
    + destruct rangeLoop eqn:Hl; [|discriminate]. intros H Hv.
      injection H as <-. cbn [acc_values].
      eapply rangeLoop_within; eassumption.
    + destruct (lt (parseInt (rangeOf segment)) (Num (min def))
                || gt (parseInt (rangeOf segment)) (Num (max def))
                   && negb (isDayOfWeek def
                            && strict_eq (parseInt (rangeOf segment)) (Num 7)))
        eqn:Hout; intros H Hv; injection H as <-; cbn [acc_values];
        [assumption|].
      intros z Hz. apply set_add_In_inv in Hz. destruct Hz as [Hz|Hz];
        [|now apply Hv].
      apply orb_false_iff in Hout. destruct Hout as [Hlt Hgt].
      destruct (parseInt (rangeOf segment)) as [y|]; [|discriminate].
      simpl in Hlt, Hgt, Hz. apply Z.ltb_ge in Hlt.
      destruct (Z.eqb_spec y 7) as [->|Hne];
        destruct (isDayOfWeek def) eqn:Hd; simpl in Hz, Hgt;
        injection Hz as ->;
        try (apply Hdow; reflexivity);
        rewrite ?andb_true_r in Hgt; apply Z.ltb_ge in Hgt; lia.
Qed.

Lemma parseSegments_within (fuel : nat) (def : FieldDef) :
  min def <= max def ->
  (isDayOfWeek def = true -> min def <= 0 <= max def) ->
  forall (segments : list string) (a a' : Acc),
    parseSegments fuel def segments a = Some (Returns a') ->
    (forall z, In (Num z) (acc_values a) -> min def <= z <= max def) ->
    forall z, In (Num z) (acc_values a') -> min def <= z <= max def.
Proof.
  intros Hmm Hdow. induction segments as [|seg rest IH]; intros a a' H Hv;
    cbn [parseSegments] in H.
  - now injection H as <-.
  - destruct (parseSegment fuel def a seg) as [[a1|message]|] eqn:H1;
      [|discriminate|discriminate].
    eapply IH; [eassumption|]. eapply parseSegment_within; eassumption.
Qed.

Lemma FIELDS_bounds (f : FieldName) :
  min (FIELDS f) <= max (FIELDS f)
  /\ (isDayOfWeek (FIELDS f) = true ->
      min (FIELDS f) <= 0 <= max (FIELDS f)).
Proof. destruct f; simpl; split; try lia; discriminate. Qed.

Lemma parseField_values_within (fuel : nat) (field : string) (f : FieldName)
  (p : ParsedField) (z : Z) :
  parseField fuel field (FIELDS f) = Some p ->
  In (Num z) (values p) -> min (FIELDS f) <= z <= max (FIELDS f).
Proof.
  rewrite parseField_segments.
  destruct parseSegments as [[acc|message]|] eqn:Hs;
    [|discriminate|discriminate].
  intros H Hz. injection H as <-. cbn [values] in Hz. rewrite sort_In in Hz.
  destruct (FIELDS_bounds f) as [Hmm Hdow].
  apply (parseSegments_within fuel (FIELDS f) Hmm Hdow _ (mkAcc [] [] []) acc
           Hs); [simpl; tauto | exact Hz].
Qed.

(** Sorting a duplicate-free list of integers gives a strictly ascending
    list. *)
Lemma below_trans (a b c : jsnum) :
  Props.below a b -> Props.below b c -> Props.below a c.
Proof.
  unfold Props.below. destruct a, b, c; simpl; try discriminate.
  rewrite !Z.ltb_lt. lia.
Qed.

Lemma sort_insert_ascending (x : jsnum) (l : list jsnum) :
  x <> NaN -> ~ In NaN l -> ~ In x l ->
  StronglySorted Props.below l -> StronglySorted Props.below (sort_insert x l).
Proof.
  intros Hx. induction l as [|y l IH]; intros Hnan Hin Hs; simpl.
  - repeat constructor.
  - inversion Hs as [|? ? Hs' Hall]; subst.
    destruct (lt x y) eqn:Hlt.
    + constructor; [assumption|]. constructor; [assumption|].
      eapply Forall_impl; [|exact Hall]. intros c Hc.
      now apply (below_trans x y c).
    + constructor.
      * apply IH; [simpl in Hnan; tauto | simpl in Hin; tauto | assumption].
      * rewrite Forall_forall in *. intros c Hc.
        apply sort_insert_In in Hc. destruct Hc as [->|Hc]; [|now apply Hall].
        unfold Props.below.
        destruct x as [a|]; [|congruence].
        destruct y as [b|]; [|simpl in Hnan; tauto].
        simpl in *. apply Z.ltb_ge in Hlt. apply Z.ltb_lt.
        assert (a <> b) by (intros ->; tauto). lia.
Qed.

Lemma sort_ascending (l : list jsnum) :
  NoDup l -> ~ In NaN l -> StronglySorted Props.below (sort l).
Proof.
  unfold sort.
  assert (H : forall acc,
             NoDup l -> ~ In NaN l -> ~ In NaN acc ->
             (forall x, In x l -> ~ In x acc) ->
             StronglySorted Props.below acc ->
             StronglySorted Props.below
               (fold_left (fun acc x => sort_insert x acc) l acc)).
  { induction l as [|x l IH]; intros acc Hl Hnl Hna Hdis Hs; simpl.
    - assumption.
    - inversion Hl as [|? ? Hx Hl']; subst. apply IH.
      + assumption.
      + simpl in Hnl. tauto.
      + rewrite sort_insert_In. simpl in Hnl. intuition congruence.
      + intros y Hy. rewrite sort_insert_In. intros [->|Hin].
        * contradiction.
        * apply (Hdis y); [now right|assumption].
      + apply sort_insert_ascending; try assumption.
        * simpl in Hnl. intuition congruence.
        * apply Hdis. now left. }
  intros Hl Hn. apply H; try assumption; simpl; try tauto. constructor.
Qed.

Lemma parseField_values_ascending (fuel : nat) (field : string)
  (def : FieldDef) (p : ParsedField) :
  parseField fuel field def = Some p ->
  ~ In NaN (values p) -> StronglySorted Props.below (values p).
Proof.
  rewrite parseField_segments.
  destruct parseSegments as [[acc|message]|] eqn:Hs;
    [|discriminate|discriminate].
  intros H Hn. injection H as <-. cbn [values] in *.
  apply sort_ascending.
  - eapply parseSegments_NoDup; [eassumption|]. constructor.
  - now rewrite sort_In in Hn.
Qed.

(** *** The size of the [Set] *)

Lemma upFrom_In (n : nat) :
  forall lo z, lo <= z < lo + Z.of_nat n -> In z (Props.upFrom lo n).
Proof.
  induction n as [|n IH]; intros lo z Hz; [lia|].
  cbn [Props.upFrom In]. destruct (Z.eq_dec lo z) as [->|Hne]; [now left|].
  right. apply IH. lia.
Qed.

Lemma upFrom_length (n : nat) (lo : Z) :
  List.length (Props.upFrom lo n) = n.
Proof.
  revert lo. induction n as [|n IH]; intros lo; [reflexivity|].
  cbn [Props.upFrom List.length]. now rewrite IH.
Qed.

Lemma tidy_nil (lo hi : Z) : Props.tidy lo hi [].
Proof. split; [constructor | intros z []]. Qed.

(** A tidy [Set] has at most one entry per integer of the range, and
    [NaN]. *)
Lemma tidy_length (lo hi : Z) (vals : list jsnum) :
  Props.tidy lo hi vals ->
  Z.of_nat (List.length vals) <= Z.max 0 (hi - lo + 1) + 1.
Proof.
  intros [Hnd Hin].
  assert (Hincl :
    incl vals (NaN :: map Num (Props.upFrom lo (Z.to_nat (hi - lo + 1))))).
  { intros v Hv. destruct v as [z|]; [right|now left].
    apply in_map, upFrom_In. specialize (Hin z Hv). lia. }
  apply (NoDup_incl_length Hnd) in Hincl.
  cbn [List.length] in Hincl. rewrite length_map, upFrom_length in Hincl.
  lia.
Qed.

Lemma tidy_room (lo hi : Z) (vals : list jsnum) :
  Props.tidy lo hi vals -> hi - lo + 2 < maxSetSize ->
  Z.of_nat (List.length vals) < maxSetSize.
Proof.
  intros Ht Hsmall. pose proof (tidy_length _ _ _ Ht) as Hlen.
  unfold maxSetSize in *. lia.
Qed.

Lemma tidy_add (lo hi z : Z) (vals : list jsnum) :
  Props.tidy lo hi vals -> lo <= z <= hi ->
  Props.tidy lo hi (set_add (Num z) vals).
Proof.
  intros [Hnd Hin] Hz. split; [now apply set_add_NoDup|].
  intros y Hy. apply set_add_In_inv in Hy. destruct Hy as [Hy|Hy].
  - injection Hy as ->. exact Hz.
  - now apply Hin.
Qed.

Lemma FIELDS_small (f : FieldName) :
  max (FIELDS f) - min (FIELDS f) + 2 < maxSetSize.
Proof. destruct f; reflexivity. Qed.

(** *** When [parseField] throws *)




(** What a segment that returned leaves in the [Set] is tidy. *)
Lemma parseSegment_tidy (fuel : nat) (f : FieldName) (a a' : Acc)
  (segment : string) :
  parseSegment fuel (FIELDS f) a segment = Some (Returns a') ->
  Props.tidy (min (FIELDS f)) (max (FIELDS f)) (acc_values a) ->
  Props.tidy (min (FIELDS f)) (max (FIELDS f)) (acc_values a').
Proof.
  intros H [Hnd Hin]. destruct (FIELDS_bounds f) as [Hmm Hdow]. split.
  - eapply parseSegment_NoDup; eassumption.
  - eapply parseSegment_within; eassumption.
Qed.


Lemma parseSegments_tidy (fuel : nat) (f : FieldName) :
  forall (segments : list string) (a a' : Acc),
    parseSegments fuel (FIELDS f) segments a = Some (Returns a') ->
    Props.tidy (min (FIELDS f)) (max (FIELDS f)) (acc_values a) ->
    Props.tidy (min (FIELDS f)) (max (FIELDS f)) (acc_values a').
Proof.
  induction segments as [|seg rest IH]; intros a a' H Ht;
    cbn [parseSegments] in H.
  - now injection H as <-.
  - destruct (parseSegment fuel (FIELDS f) a seg) as [[a1|message]|] eqn:H1;
      [|discriminate|discriminate].
    eapply IH; [eassumption|]. eapply parseSegment_tidy; eassumption.
Qed.



(** *** Termination: every loop ends unless its step is zero or less

    The lemmas of this section are about the loops on exact integers.
    They are the loops of the source as long as the counters stay below
    2^53, which a theorem on the source states with [Spec.endsOk]. *)

Lemma starLoop_ends_num (lo hi s : Z) :
  0 < s -> hi - lo + 2 < maxSetSize ->
  forall (n : nat) (a : Z) (vals : list jsnum),
    lo <= a -> Props.tidy lo hi vals ->
    (Z.to_nat (hi - a + 1) <= n)%nat ->
    exists vals',
      forall fuel, (S n <= fuel)%nat ->
        starLoop fuel (Num a) hi (Num s) vals = Some (Returns vals').
Proof.
  intros Hs Hsmall. induction n as [|n IH]; intros a vals Ha Ht Hn.
  - exists vals. intros [|fuel] Hf; [lia|]. cbn [starLoop le].
    destruct (Z.leb_spec a hi); [lia|reflexivity].
  - destruct (Z.leb_spec a hi) as [Hle|Hgt].
    + destruct (IH (a + s) (set_add (Num a) vals)) as [vals' Hv];
        [lia | apply tidy_add; [assumption|lia] | lia |].
      exists vals'. intros [|fuel] Hf; [lia|]. cbn [starLoop le add].
      destruct (Z.leb_spec a hi); [|lia].
      rewrite (set_add_limited_room _ _ (tidy_room _ _ _ Ht Hsmall)).
      apply Hv. lia.
    + exists vals. intros [|fuel] Hf; [lia|]. cbn [starLoop le].
      destruct (Z.leb_spec a hi); [lia|reflexivity].
Qed.

Lemma starLoop_ends (lo hi : Z) (stepNum : jsnum) (vals : list jsnum) :
  Spec.stepOk stepNum = true ->
  hi - lo + 2 < maxSetSize -> Props.tidy lo hi vals ->
  exists fuel0 vals',
    forall fuel, (fuel0 <= fuel)%nat ->
      starLoop fuel (Num lo) hi stepNum vals = Some (Returns vals').
Proof.
  intros Hok Hsmall Ht. destruct stepNum as [s|].
  - apply Z.ltb_lt in Hok.
    destruct (starLoop_ends_num lo hi s Hok Hsmall _ lo vals (Z.le_refl _) Ht
                (Nat.le_refl _)) as [vals' Hv].
    eauto.
  - destruct (Z.leb_spec lo hi) as [Hle|Hgt].
    + exists 2%nat, (set_add (Num lo) vals).
      intros [|[|fuel]] Hf; try lia. cbn [starLoop le add].
      destruct (Z.leb_spec lo hi); [|lia].
      now rewrite (set_add_limited_room _ _ (tidy_room _ _ _ Ht Hsmall)).
    + exists 1%nat, vals. intros [|fuel] Hf; [lia|]. cbn [starLoop le].
      destruct (Z.leb_spec lo hi); [lia|reflexivity].
Qed.

Lemma rangeLoop_ends_num (def : FieldDef) (b s : Z) :
  0 < s ->
  forall (n : nat) (a : Z) (vals : list jsnum),
    (Z.to_nat (b - a + 1) <= n)%nat ->
    exists vals',
      forall fuel, (S n <= fuel)%nat ->
        rangeLoop fuel def (Num a) (Num b) (Num s) vals = Some vals'.
Proof.
  intros Hs. induction n as [|n IH]; intros a vals Hn.
  - exists vals. intros [|fuel] Hf; [lia|]. cbn [rangeLoop le].
    destruct (Z.leb_spec a b); [lia|reflexivity].
  - destruct (Z.leb_spec a b) as [Hle|Hgt].
    + edestruct (IH (a + s)) as [vals' Hv]; [lia|].
      exists vals'. intros [|fuel] Hf; [lia|]. cbn [rangeLoop le add].
      destruct (Z.leb_spec a b); [|lia]. apply Hv. lia.
    + exists vals. intros [|fuel] Hf; [lia|]. cbn [rangeLoop le].
      destruct (Z.leb_spec a b); [lia|reflexivity].
Qed.

Lemma rangeLoop_ends (def : FieldDef) (i stop stepNum : jsnum)
  (vals : list jsnum) :
  Spec.stepOk stepNum = true ->
  exists fuel0 vals',
    forall fuel, (fuel0 <= fuel)%nat ->
      rangeLoop fuel def i stop stepNum vals = Some vals'.
Proof.
  intros Hok.
  destruct (le i stop) eqn:Hle.
  - destruct i as [a|]; [|discriminate]. destruct stop as [b|]; [|discriminate].
    destruct stepNum as [s|].
    + apply Z.ltb_lt in Hok.
      destruct (rangeLoop_ends_num def b s Hok _ a vals (Nat.le_refl _))
        as [vals' Hv].
      eauto.
    + eexists 2%nat, _. intros [|[|fuel]] Hf; try lia.
      cbn [rangeLoop add]. rewrite Hle. reflexivity.
  - exists 1%nat, vals. intros [|fuel] Hf; [lia|]. cbn [rangeLoop].
    now rewrite Hle.
Qed.

Lemma parseSegment_ends (f : FieldName) (a : Acc) (segment : string) :
  Spec.stepOk (stepNumOf segment) = true ->
  Props.tidy (min (FIELDS f)) (max (FIELDS f)) (acc_values a) ->
  exists fuel0 a',
    forall fuel, (fuel0 <= fuel)%nat ->
      parseSegment fuel (FIELDS f) a segment = Some (Returns a').
Proof.
  intros Hok Ht. unfold parseSegment. cbv zeta.
  destruct (String.eqb (rangeOf segment) "*").
  - destruct (starLoop_ends (min (FIELDS f)) (max (FIELDS f)) _
                (acc_values a) Hok (FIELDS_small f) Ht)
      as [fuel0 [vals' Hv]].
    eexists fuel0, _. intros fuel Hf. now rewrite (Hv fuel Hf).
  - destruct (str_includes (rangeOf segment) "-").
    + destruct (rangeLoop_ends (FIELDS f)
                  (parseInt (nth 0 (split_char "-" (rangeOf segment)) ""))
                  (parseInt (nth 1 (split_char "-" (rangeOf segment)) ""))
                  _ (acc_values a) Hok) as [fuel0 [vals' Hv]].
      eexists fuel0, _. intros fuel Hf. now rewrite (Hv fuel Hf).
    + exists 0%nat. destruct (_ || _); eexists; intros; reflexivity.
Qed.

Lemma parseSegments_ends (f : FieldName) (segments : list string) :
  forallb (fun segment => Spec.stepOk (stepNumOf segment)) segments = true ->
  forall a : Acc,
    Props.tidy (min (FIELDS f)) (max (FIELDS f)) (acc_values a) ->
    exists fuel0 a',
      forall fuel, (fuel0 <= fuel)%nat ->
        parseSegments fuel (FIELDS f) segments a = Some (Returns a').
Proof.
  induction segments as [|seg rest IH]; intros Hok a Ht.
  - exists 0%nat, a. reflexivity.
  - cbn [forallb] in Hok. apply andb_true_iff in Hok. destruct Hok as [H1 H2].
    destruct (parseSegment_ends f a seg H1 Ht) as [n1 [a1 Ha1]].
    destruct (IH H2 a1 (parseSegment_tidy _ _ _ _ _ (Ha1 n1 (Nat.le_refl _))
                          Ht)) as [n2 [a2 Ha2]].
    exists (Nat.max n1 n2), a2. intros fuel Hf. cbn [parseSegments].
    rewrite Ha1 by lia. apply Ha2. lia.
Qed.

(** [parseField] returns, with any fuel past a bound, on every text whose
    segments carry no step of zero or less. *)
Lemma parseFieldCall_ends (field : string) (f : FieldName) :
  Spec.stepsOk field (FIELDS f) = true ->
  exists fuel0 p,
    forall fuel, (fuel0 <= fuel)%nat ->
      parseFieldCall fuel field (FIELDS f) = Some (Returns p).
Proof.
  intros Hok.
  destruct (parseSegments_ends f _ Hok (mkAcc [] [] []) (tidy_nil _ _))
    as [n [a Ha]].
  eexists n, _. intros fuel Hf. rewrite parseFieldCall_segments, (Ha fuel Hf).
  reflexivity.
Qed.

Lemma parseField_ends (field : string) (f : FieldName) :
  Spec.stepsOk field (FIELDS f) = true ->
  exists fuel0 p,
    forall fuel, (fuel0 <= fuel)%nat ->
      parseField fuel field (FIELDS f) = Some p.
Proof.
  intros Hok. destruct (parseFieldCall_ends _ _ Hok) as [n [p Hp]].
  exists n, p. intros fuel Hf. now apply parseField_call, Hp.
Qed.

Lemma parseFive_ends (e : string) (fs : list string) :
  (forall (i : nat) (f : FieldName),
      nth_error FIELD_ORDER i = Some f ->
      Spec.stepsOk (nth i fs EmptyString) (FIELDS f) = true) ->
  exists fuel0 v fields errors,
    forall fuel, (fuel0 <= fuel)%nat ->
      parseFive fuel e fs = Some (Parsed v e fields errors).
Proof.
  intros Hok.
  destruct (parseFieldCall_ends _ _ (Hok 0%nat minute eq_refl))
    as [n0 [p0 H0]].
  destruct (parseFieldCall_ends _ _ (Hok 1%nat hour eq_refl))
    as [n1 [p1 H1]].
  destruct (parseFieldCall_ends _ _ (Hok 2%nat dayOfMonth eq_refl))
    as [n2 [p2 H2]].
  destruct (parseFieldCall_ends _ _ (Hok 3%nat month eq_refl))
    as [n3 [p3 H3]].
  destruct (parseFieldCall_ends _ _ (Hok 4%nat dayOfWeek eq_refl))
    as [n4 [p4 H4]].
  eexists (Nat.max n0 (Nat.max n1 (Nat.max n2 (Nat.max n3 n4)))), _, _, _.
  intros fuel Hf. unfold parseFive.
  rewrite H0, H1, H2, H3, H4 by lia. reflexivity.
Qed.

Lemma parseFields_ends (e : string) :
  (forall (i : nat) (f : FieldName),
      nth_error FIELD_ORDER i = Some f ->
      Spec.stepsOk (nth i (Spec.fieldTexts e) EmptyString) (FIELDS f) = true) ->
  exists fuel0 r,
    (forall fuel, (fuel0 <= fuel)%nat -> parseFields fuel e = Some r)
    /\ forall original slots errors, r <> Caught original slots errors.
Proof.
  intros Hok. unfold parseFields.
  destruct ((List.length (split_ws (trim e)) <? 5)%nat
            || (6 <? List.length (split_ws (trim e)))%nat).
  - exists 0%nat. eexists. split; [intros; reflexivity|discriminate].
  - destruct (parseFive_ends e _ Hok) as [fuel0 [v [fields [errors Hr]]]].
    exists fuel0. eexists. split; [exact Hr|discriminate].
Qed.

Lemma alias_expansions_end (alias expansion : string) :
  lookupAlias ALIASES alias = Some expansion ->
  forall (i : nat) (f : FieldName),
    nth_error FIELD_ORDER i = Some f ->
    Spec.stepsOk (nth i (Spec.fieldTexts expansion) EmptyString) (FIELDS f)
    = true.
Proof.
  unfold ALIASES. cbn [lookupAlias].
  intros H i f Hi.
  assert (Hf : (i, f) = (0%nat, minute) \/ (i, f) = (1%nat, hour)
               \/ (i, f) = (2%nat, dayOfMonth) \/ (i, f) = (3%nat, month)
               \/ (i, f) = (4%nat, dayOfWeek)).
  { destruct i as [|[|[|[|[|i]]]]]; cbn in Hi;
      [ | | | | | destruct i; discriminate]; injection Hi as <-; tauto. }
  repeat match type of H with
         | (if ?c then _ else _) = _ =>
             destruct c;
             [ injection H as <-;
               destruct Hf as [Hf|[Hf|[Hf|[Hf|Hf]]]];
               injection Hf as -> ->; vm_compute; reflexivity
             | ]
         end.
  destruct (String.eqb "@reboot" alias); discriminate.
Qed.

(** On exact integers [parse] returns, with any fuel past a bound, on
    every expression none of whose five field texts carries a step of zero
    or less, and no call of [parseField] throws. *)
Lemma parse_ends (e : string) :
  (forall (i : nat) (f : FieldName),
      nth_error FIELD_ORDER i = Some f ->
      Spec.stepsOk (nth i (Spec.fieldTexts e) EmptyString) (FIELDS f) = true) ->
  exists fuel0 r,
    (forall fuel, (fuel0 <= fuel)%nat -> parse fuel e = Some r)
    /\ forall original slots errors, r <> Caught original slots errors.
Proof.
  intros Hok. unfold parse.
  destruct (startsWith (trim e) "@").
  - destruct (String.eqb (toLowerCase (trim e)) "@reboot").
    + exists 0%nat. eexists. split; [intros; reflexivity|discriminate].
    + destruct (lookupAlias ALIASES (toLowerCase (trim e))) as [x|] eqn:Hl.
      * apply parseFields_ends. eapply alias_expansions_end. eassumption.
      * exists 0%nat. eexists. split; [intros; reflexivity|discriminate].
  - now apply parseFields_ends.
Qed.

(** *** More fuel changes no result *)

Lemma starLoop_fuel (fuel : nat) :
  forall (i : jsnum) (hi : Z) (s : jsnum) (vals : list jsnum)
         (r : Completion (list jsnum)),
    starLoop fuel i hi s vals = Some r ->
    forall fuel', (fuel <= fuel')%nat -> starLoop fuel' i hi s vals = Some r.
Proof.
  induction fuel as [|fuel IH]; intros i hi s vals r H fuel' Hle;
    [discriminate H|].
  destruct fuel' as [|fuel']; [lia|]. cbn [starLoop] in *.
  destruct (le i (Num hi)); [|exact H].
  destruct (set_add_limited i vals) as [vals1|message]; [|exact H].
  apply (IH _ _ _ _ _ H). lia.
Qed.

Lemma rangeLoop_fuel (fuel : nat) (def : FieldDef) :
  forall (i stop s : jsnum) (vals r : list jsnum),
    rangeLoop fuel def i stop s vals = Some r ->
    forall fuel', (fuel <= fuel')%nat ->
                  rangeLoop fuel' def i stop s vals = Some r.
Proof.
  induction fuel as [|fuel IH]; intros i stop s vals r H fuel' Hle;
    [discriminate H|].
  destruct fuel' as [|fuel']; [lia|]. cbn [rangeLoop] in *.
  destruct (le i stop); [|exact H].
  apply (IH _ _ _ _ _ H). lia.
Qed.

Lemma parseSegment_fuel (fuel fuel' : nat) (def : FieldDef) (a : Acc)
  (segment : string) (c : Completion Acc) :
  (fuel <= fuel')%nat ->
  parseSegment fuel def a segment = Some c ->
  parseSegment fuel' def a segment = Some c.
Proof.
  intros Hle. unfold parseSegment.
  destruct (String.eqb (rangeOf segment) "*").
  - destruct (starLoop fuel _ _ _ _) as [r|] eqn:Hs; [|discriminate].
    now rewrite (starLoop_fuel _ _ _ _ _ _ Hs fuel' Hle).
  - destruct (str_includes (rangeOf segment) "-"); [|trivial].
    destruct (rangeLoop fuel _ _ _ _ _) as [vals|] eqn:Hs; [|discriminate].
    now rewrite (rangeLoop_fuel _ _ _ _ _ _ _ Hs fuel' Hle).
Qed.

Lemma parseSegments_fuel (fuel fuel' : nat) (def : FieldDef) :
  (fuel <= fuel')%nat ->
  forall (segments : list string) (a : Acc) (c : Completion Acc),
    parseSegments fuel def segments a = Some c ->
    parseSegments fuel' def segments a = Some c.
Proof.
  intros Hle. induction segments as [|seg rest IH]; intros a c H;
    cbn [parseSegments] in *; [exact H|].
  destruct (parseSegment fuel def a seg) as [c1|] eqn:H1; [|discriminate].
  rewrite (parseSegment_fuel _ _ _ _ _ _ Hle H1).
  destruct c1 as [a1|message]; [now apply IH | exact H].
Qed.

Lemma parseFieldCall_fuel (fuel fuel' : nat) (field : string)
  (def : FieldDef) (c : Completion ParsedField) :
  (fuel <= fuel')%nat ->
  parseFieldCall fuel field def = Some c ->
  parseFieldCall fuel' field def = Some c.
Proof.
  intros Hle. rewrite !parseFieldCall_segments.
  destruct (parseSegments fuel def _ _) as [c1|] eqn:Hs; [|discriminate].
  now rewrite (parseSegments_fuel _ _ _ Hle _ _ _ Hs).
Qed.

Lemma parseField_fuel (fuel fuel' : nat) (field : string) (def : FieldDef)
  (p : ParsedField) :
  (fuel <= fuel')%nat ->
  parseField fuel field def = Some p -> parseField fuel' field def = Some p.
Proof.
  intros Hle H. apply parseField_call. apply parseField_call in H.
  exact (parseFieldCall_fuel _ _ _ _ _ Hle H).
Qed.

Lemma parseFive_fuel (fuel fuel' : nat) (e : string) (fs : list string)
  (r : ParseResult) :
  (fuel <= fuel')%nat ->
  parseFive fuel e fs = Some r -> parseFive fuel' e fs = Some r.
Proof.
  intros Hle. unfold parseFive.
  destruct (parseFieldCall fuel (nth 0 fs "") _) as [c0|] eqn:H0;
    [|discriminate].
  destruct (parseFieldCall fuel (nth 1 fs "") _) as [c1|] eqn:H1;
    [|discriminate].
  destruct (parseFieldCall fuel (nth 2 fs "") _) as [c2|] eqn:H2;
    [|discriminate].
  destruct (parseFieldCall fuel (nth 3 fs "") _) as [c3|] eqn:H3;
    [|discriminate].
  destruct (parseFieldCall fuel (nth 4 fs "") _) as [c4|] eqn:H4;
    [|discriminate].
  rewrite (parseFieldCall_fuel _ _ _ _ _ Hle H0),
          (parseFieldCall_fuel _ _ _ _ _ Hle H1),
          (parseFieldCall_fuel _ _ _ _ _ Hle H2),
          (parseFieldCall_fuel _ _ _ _ _ Hle H3),
          (parseFieldCall_fuel _ _ _ _ _ Hle H4).
  trivial.
Qed.

Lemma parseFields_fuel (fuel fuel' : nat) (e : string) (r : ParseResult) :
  (fuel <= fuel')%nat ->
  parseFields fuel e = Some r -> parseFields fuel' e = Some r.
Proof.
  intros Hle. unfold parseFields.
  destruct (_ || _)%bool; [trivial|]. now apply parseFive_fuel.
Qed.

Lemma parse_fuel (fuel fuel' : nat) (e : string) (r : ParseResult) :
  (fuel <= fuel')%nat -> parse fuel e = Some r -> parse fuel' e = Some r.
Proof.
  intros Hle. unfold parse. destruct (startsWith (trim e) "@").
  - destruct (String.eqb _ "@reboot"); [trivial|].
    destruct (lookupAlias _ _); [|trivial]. now apply parseFields_fuel.
  - now apply parseFields_fuel.
Qed.

(** *** A negative step *)

(** What a segment that returned has for step. *)
Lemma parseSegment_returns_step (fuel : nat) (f : FieldName) (a a' : Acc)
  (segment : string) :
  parseSegment fuel (FIELDS f) a segment = Some (Returns a') ->
  (rangeOf segment = "*" -> Spec.stepOk (stepNumOf segment) = true)
  /\ (String.eqb (rangeOf segment) "*" = false ->
      str_includes (rangeOf segment) "-" = true ->
      le (parseInt (nth 0 (split_char "-" (rangeOf segment)) EmptyString))
         (parseInt (nth 1 (split_char "-" (rangeOf segment)) EmptyString))
      = true ->
      Spec.stepOk (stepNumOf segment) = true).
Proof.
  intros H. unfold parseSegment in H. cbv zeta in H. split.
  - intros Hstar. rewrite Hstar in H.
    change (String.eqb "*" "*") with true in H. cbv iota in H.
    destruct (stepNumOf segment) as [s|]; [|reflexivity].
    cbn [Spec.stepOk]. apply Z.ltb_lt.
    destruct (Z.lt_ge_cases 0 s) as [Hs|Hs]; [assumption|exfalso].
    destruct starLoop as [[vals'|message]|] eqn:Hl; try discriminate.
    revert Hl. apply starLoop_step_nonpositive; [assumption|].
    now destruct (FIELDS_bounds f).
  - intros Hstar Hdash Hle. rewrite Hstar, Hdash in H.
    destruct (stepNumOf segment) as [s|]; [|reflexivity].
    cbn [Spec.stepOk]. apply Z.ltb_lt.
    destruct (Z.lt_ge_cases 0 s) as [Hs|Hs]; [assumption|exfalso].
    destruct (parseInt (nth 0 (split_char "-" (rangeOf segment)) ""))
      as [x|]; [|discriminate].
    destruct (parseInt (nth 1 (split_char "-" (rangeOf segment)) ""))
      as [y|]; [|discriminate].
    cbn [le] in Hle. apply Z.leb_le in Hle.
    now rewrite (rangeLoop_step_nonpositive fuel _ y s Hs x _ Hle) in H.
Qed.

(** Every segment of a walk that returned has returned. *)
Lemma parseSegments_each (fuel : nat) (def : FieldDef) :
  forall (segments : list string) (a a' : Acc) (segment : string),
    parseSegments fuel def segments a = Some (Returns a') ->
    In segment segments ->
    exists a0 a1 : Acc,
      parseSegment fuel def a0 segment = Some (Returns a1).
Proof.
  induction segments as [|seg rest IH]; intros a a' segment H Hin;
    [contradiction|].
  cbn [parseSegments] in H.
  destruct (parseSegment fuel def a seg) as [[a1|message]|] eqn:H1;
    [|discriminate|discriminate].
  destruct Hin as [->|Hin]; [eauto|]. eapply IH; eassumption.
Qed.

(** So a field on which [parseField] returns has no wildcard, and no range
    with its bounds in order, with a step of zero or less. *)
Lemma parseField_returns_steps (fuel : nat) (field : string) (f : FieldName)
  (p : ParsedField) (segment : string) :
  parseField fuel field (FIELDS f) = Some p ->
  In segment (split_char "," (normalizedField field (FIELDS f))) ->
  (rangeOf segment = "*" -> Spec.stepOk (stepNumOf segment) = true)
  /\ (String.eqb (rangeOf segment) "*" = false ->
      str_includes (rangeOf segment) "-" = true ->
      le (parseInt (nth 0 (split_char "-" (rangeOf segment)) EmptyString))
         (parseInt (nth 1 (split_char "-" (rangeOf segment)) EmptyString))
      = true ->
      Spec.stepOk (stepNumOf segment) = true).
Proof.
  rewrite parseField_segments.
  destruct parseSegments as [[a|message]|] eqn:Hs;
    [|discriminate|discriminate].
  intros _ Hin.
  destruct (parseSegments_each _ _ _ _ _ _ Hs Hin) as [a0 [a1 H1]].
  exact (parseSegment_returns_step _ _ _ _ _ H1).
Qed.





(* ================================================================== *)
(** ** The claims *)

(** C1.  [getNextOccurrences(e, N, { timezone, from })] is claimed to return,
    for every expression text, at most [N] strictly increasing instants
    later than [from].  It does not return on ['*/0 * * * *'], whatever the
    count, the zone and the start: [parse] stays in the loop of the minute
    field.  On every expression on which [parse] returns it returns, and the
    list is as claimed: empty for an invalid or [@reboot] result, of length
    at most [N], strictly increasing, every instant later than [from]. *)
Theorem getNextOccurrences_zero_step :
  (forall (fuel : nat) (zone : Zone) (count : nat) (from : Z),
      getNextOccurrences fuel zone "*/0 * * * *" count from = None)
  /\ (forall (fuel : nat) (zone : Zone) (e : string) (count : nat) (from : Z)
        (r : ParseResult),
        (forall t, t - 60000 < startOfMinute zone t) ->
        parse fuel e = Some r ->
        exists l,
          getNextOccurrences fuel zone e count from = Some l
          /\ (List.length l <= count)%nat
          /\ StronglySorted Z.lt l
          /\ Forall (fun t => from < t) l
          /\ (valid r = false \/ isReboot r = true -> l = [])).
Proof.
  split.
  - intros fuel zone count from. unfold getNextOccurrences.
    now rewrite parse_star_zero_hangs.
  - intros. now apply getNextOccurrences_sound.
Qed.

(** C2.  For every expression that [parse] returns as valid and not
    [@reboot], the scheduler keeps a candidate minute exactly when minute,
    hour and month are members of their value sets and the day clause of
    the specification holds: true when both raw day texts are [*], day-of-week
    membership when only the day of the month is [*], day-of-month membership
    when only the day of the week is [*], and either membership when neither
    is.  The result is the first [count] such candidates of the walk. *)
Theorem scheduler_day_clause (fuel : nat) (zone : Zone) (e : string)
  (count : nat) (from : Z) (original : string) (fields : Fields)
  (errors : list string) :
  parse fuel e = Some (Parsed true original fields errors) ->
  (forall t : LocalTime, dayMatch fields t = Spec.dayClause fields t)
  /\ getNextOccurrences fuel zone e count from
     = Some (firstn count
               (filter (fun c => Spec.fires fields (localTime zone c))
                  (Spec.minutesFrom maxIterations
                     (startOfMinute zone (from + 60000))))).
Proof.
  intros Hp. split.
  - intros t. apply dayMatch_dayClause.
  - exact (getNextOccurrences_parsed _ _ _ _ _ _ _ _ Hp).
Qed.

Lemma scheduler_day_clause_witness :
  exists fields : Fields,
    parse 100 "0 0 13 * 5" = Some (Parsed true "0 0 13 * 5" fields [])
    /\ (forall t : LocalTime, dayMatch fields t = Spec.dayClause fields t)
    /\ getNextOccurrences 100 Clock.utc "0 0 13 * 5" 4 1762128000000
       = Some (firstn 4
                 (filter (fun c => Spec.fires fields (localTime Clock.utc c))
                    (Spec.minutesFrom maxIterations
                       (startOfMinute Clock.utc (1762128000000 + 60000))))).
Proof.
  eexists. split; [vm_compute; reflexivity|].
  apply (scheduler_day_clause 100 Clock.utc "0 0 13 * 5" 4 1762128000000
           "0 0 13 * 5" _ []).
  vm_compute. reflexivity.
Defined.

(** C3.  [parse('0 0 * * 0')] and [parse('0 0 * * 7')] both give the
    day-of-week values [[0]], a 7 reached by a range ([5-7]) is inserted as
    0, and no text made of single values and ranges has 7 among its values;
    but the claim that 7 never occurs in a day-of-week value set fails: the
    wildcard branch adds every integer from [min] to [max] unchanged, so
    [*] yields 0 to 7 and [*/7] yields 0 and 7, for which the describer
    finds no day name. *)
Theorem dayOfWeek_wildcard_keeps_7 :
  option_map values (parseField 20 "0" (FIELDS dayOfWeek)) = Some [Num 0]
  /\ option_map values (parseField 20 "7" (FIELDS dayOfWeek)) = Some [Num 0]
  /\ option_map values (parseField 20 "5-7" (FIELDS dayOfWeek))
     = Some [Num 0; Num 5; Num 6]
  /\ option_map values (parseField 20 "*" (FIELDS dayOfWeek))
     = Some [Num 0; Num 1; Num 2; Num 3; Num 4; Num 5; Num 6; Num 7]
  /\ option_map values (parseField 20 "*/7" (FIELDS dayOfWeek))
     = Some [Num 0; Num 7]
  /\ describe 100 "0 0 * * */7" = Some "At minute 0 at 12AM on Sunday, "
  /\ (forall (fuel : nat) (field : string) (p : ParsedField),
        parseField fuel field (FIELDS dayOfWeek) = Some p ->
        forallb (fun segment => negb (String.eqb (rangeOf segment) "*"))
          (split_char "," (normalizedField field (FIELDS dayOfWeek))) = true ->
        ~ In (Num 7) (values p)).
Proof.
  repeat (split; [vm_compute; reflexivity|]).
  exact parseField_dayOfWeek_no_7.
Qed.

(** C4.  On ['weekdays at 3pm'] the claim gives ['0 15 * * 1-5']; [generate]
    returns the template ['0 9 * * 1-5'] untouched.  The adjustment is
    guarded by [cron !== PATTERNS[pattern]], which compares the entry with
    itself, so an [at <time>] clause never changes a phrase-table result. *)
Theorem generate_weekdays_at_3pm :
  generate "weekdays at 3pm"
  = Generated "0 9 * * 1-5" (generatedFrom "weekdays at 3pm")
  /\ parseTime "3pm" = Some (mkTime (Num 15) (Num 0))
  /\ forall text input pattern cron : string,
       In (pattern, cron) PATTERNS ->
       directResult text input pattern cron
       = Generated cron (generatedFrom text).
Proof.
  split; [vm_compute; reflexivity|].
  split; [vm_compute; reflexivity|].
  apply directResult_unchanged.
Qed.

(** C5.  [parseField] is claimed to end on every text and to read a step of
    0 as 1.  It reads [parseInt('0')] as the step: on ['*/0'] and on
    ['1-10/0'] the loop adds 0 to its counter, and the call neither returns
    nor throws ([None] for every fuel), while the step-1 forms return all
    of 0..59 and 1..10.  No step of zero or less is ever read as 1:
    whenever [parseField] returns, no wildcard segment of the text, and no
    range segment with its bounds in order, carries such a step. *)
Theorem parseField_step_zero_hangs :
  (forall fuel : nat, parseFieldCall fuel "*/0" (FIELDS minute) = None)
  /\ (forall fuel : nat, parseFieldCall fuel "1-10/0" (FIELDS minute) = None)
  /\ stepNumOf "*/0" = Num 0
  /\ option_map values (parseField 100 "*/1" (FIELDS minute))
     = option_map values (parseField 100 "*" (FIELDS minute))
  /\ option_map values (parseField 100 "1-10/1" (FIELDS minute))
     = Some [Num 1; Num 2; Num 3; Num 4; Num 5; Num 6; Num 7; Num 8; Num 9;
             Num 10]
  /\ (forall (fuel : nat) (field : string) (f : FieldName) (p : ParsedField)
             (segment : string),
        parseField fuel field (FIELDS f) = Some p ->
        In segment (split_char "," (normalizedField field (FIELDS f))) ->
        (rangeOf segment = "*" -> Spec.stepOk (stepNumOf segment) = true)
        /\ (String.eqb (rangeOf segment) "*" = false ->
            str_includes (rangeOf segment) "-" = true ->
            le (parseInt (nth 0 (split_char "-" (rangeOf segment))
                            EmptyString))
               (parseInt (nth 1 (split_char "-" (rangeOf segment))
                            EmptyString))
            = true ->
            Spec.stepOk (stepNumOf segment) = true)).
Proof.
  split; [exact parseFieldCall_star_zero|].
  split; [exact parseFieldCall_range_zero|].
  repeat (split; [vm_compute; reflexivity|]).
  exact parseField_returns_steps.
Qed.


(** C7, as stated, fails on ['mon-fri']: the names are substituted in a
    copy ([normalizedField]) that only feeds the values and the
    description; [raw] is the text passed in. *)
Lemma parseField_raw_mon_fri :
  normalizedField "mon-fri" (FIELDS dayOfWeek) = "1-5"
  /\ parseField 100 "mon-fri" (FIELDS dayOfWeek)
     = Some (mkParsedField [Num 1; Num 2; Num 3; Num 4; Num 5] "mon-fri"
               "1-5" [])
  /\ option_map raw (parseField 100 "mon-fri" (FIELDS dayOfWeek))
     <> Some "1-5".
Proof.
  split; [vm_compute; reflexivity|].
  split; [vm_compute; reflexivity|].
  vm_compute. discriminate.
Qed.

(** C7, amended.  For every field text on which [parseField] returns, the
    [raw] of the parsed field is that text itself, neither lower-cased nor
    name-substituted. *)
Theorem parseField_raw_verbatim (fuel : nat) (field : string) (def : FieldDef)
  (p : ParsedField) :
  parseField fuel field def = Some p -> raw p = field.
Proof.
  rewrite parseField_segments.
  destruct (parseSegments fuel def _ _) as [[a|message]|];
    [|discriminate|discriminate].
  intros H. injection H as <-. reflexivity.
Qed.

Lemma parseField_raw_verbatim_witness :
  raw (mkParsedField [Num 1; Num 2; Num 3; Num 4; Num 5] "Mon-Fri" "1-5" [])
  = "Mon-Fri".
Proof.
  apply (parseField_raw_verbatim 100 "Mon-Fri" (FIELDS dayOfWeek)).
  vm_compute. reflexivity.
Defined.

(** C8.  The round trip [parse(generate(text).expression).valid === true]
    fails on ['every 0 minutes']: [generate] succeeds with ['*/0 * * * *'],
    on which [parse] does not return. *)
Theorem generate_every_0_minutes :
  generate "every 0 minutes"
  = Generated "*/0 * * * *" (generatedFrom "every 0 minutes")
  /\ (forall fuel : nat, parse fuel "*/0 * * * *" = None)
  /\ option_map valid
       (match expressionOf (generate "every 5 minutes") with
        | Some e => parse 100 e
        | None => None
        end) = Some true.
Proof.
  split; [vm_compute; reflexivity|].
  split; [exact parse_star_zero_hangs|].
  vm_compute. reflexivity.
Qed.



(* ================================================================== *)
(** ** Further properties *)

Import Comparator TestCommand Forward Examples.

(** *** From a parse result back to its fields *)

Lemma parse_fields_parsed (fuel : nat) (e : string) (v : bool)
  (original : string) (fields : Fields) (errors : list string)
  (f : FieldName) :
  parse fuel e = Some (Parsed v original fields errors) ->
  exists text : string,
    parseField fuel text (FIELDS f) = Some (getField fields f).
Proof.
  intros Hp. apply parse_returns in Hp.
  destruct Hp as [Hp|[[n [_ Hp]]|[[sug [_ [_ Hp]]]|[Hp|Hp]]]];
    try discriminate.
  2: { destruct Hp as [o [calls [fs [Heq _]]]]. discriminate. }
  destruct Hp as [o [fields' [fs [Heq Hall]]]]. injection Heq as -> -> -> ->.
  assert (Hf : exists i, nth_error FIELD_ORDER i = Some f).
  { destruct f; [exists 0%nat|exists 1%nat|exists 2%nat|exists 3%nat
                |exists 4%nat]; reflexivity. }
  destruct Hf as [i Hi]. eexists. exact (Hall i f Hi).
Qed.

Lemma parse_valid_flag (fuel : nat) (e : string) (v : bool)
  (original : string) (fields : Fields) (errors : list string) :
  parse fuel e = Some (Parsed v original fields errors) ->
  v = Spec.noErrors errors /\ errors = Spec.errorsFor fields.
Proof.
  intros Hp. apply parse_returns in Hp.
  destruct Hp as [Hp|[[n [_ Hp]]|[[sug [_ [_ Hp]]]|[Hp|Hp]]]];
    try discriminate.
  2: { destruct Hp as [o [calls [fs [Heq _]]]]. discriminate. }
  destruct Hp as [o [fields' [fs [Heq _]]]]. injection Heq as -> -> -> ->.
  split; reflexivity.
Qed.

(** An error that was caught is among the errors of the walk. *)
Lemma errorsOfCalls_thrown (calls : FieldName -> Completion ParsedField)
  (f : FieldName) (message : string) :
  calls f = Throws message ->
  In (FIELD_NAMES f ++ ": " ++ message) (Spec.errorsOfCalls calls).
Proof.
  intros Hm. unfold Spec.errorsOfCalls. apply in_flat_map. exists f. split.
  - destruct f; simpl; tauto.
  - rewrite Hm. now left.
Qed.

(** The errors of a result whose walk caught an error are not empty. *)
Lemma parse_caught_errors (fuel : nat) (e original : string)
  (slots : FieldName -> option ParsedField) (errors : list string) :
  parse fuel e = Some (Caught original slots errors) -> errors <> [].
Proof.
  intros Hp. apply parse_returns in Hp.
  destruct Hp as [Hp|[[n [_ Hp]]|[[sug [_ [_ Hp]]]|[Hp|Hp]]]];
    try discriminate.
  - destruct Hp as [o [fields' [fs [Heq _]]]]. discriminate.
  - destruct Hp as [o [calls [fs [Heq [[f [message Hm]] _]]]]].
    injection Heq as -> -> ->. intros Hnil.
    pose proof (errorsOfCalls_thrown _ _ _ Hm) as Hin.
    rewrite Hnil in Hin. contradiction.
Qed.


(** *** [validate] *)

(** X5.  An invalid [validate] result carries per-field errors (values out
    of range, or the message of an error that was caught) or a suggestion,
    never both and never neither; a valid one carries none. *)
Theorem validate_errors_or_suggestion (fuel : nat) (e : string)
  (r : Validation) :
  validate fuel e = Some r ->
  (v_valid r = true -> v_errors r = [] /\ v_suggestion r = None)
  /\ (v_valid r = false ->
      (v_errors r <> [] /\ v_suggestion r = None)
      \/ (v_errors r = [] /\ v_suggestion r <> None)).
Proof.
  unfold validate. destruct (parse fuel e) as [parsed|] eqn:Hp;
    [|discriminate].
  intros H. injection H as <-. cbn [v_valid v_errors v_suggestion].
  destruct parsed as [|err sug|v o fields errors|o slots errors]; simpl.
  - split; [auto|discriminate].
  - split; [discriminate|]. intros _. right. split; [reflexivity|discriminate].
  - destruct (parse_valid_flag _ _ _ _ _ _ Hp) as [-> _].
    destruct errors; simpl; split; try discriminate; auto.
    intros _. left. split; [discriminate|reflexivity].
  - split; [discriminate|]. intros _. left. split; [|reflexivity].
    exact (parse_caught_errors _ _ _ _ _ Hp).
Qed.

Lemma validate_errors_or_suggestion_witness :
  (validate 100 "0 25 * * *"
   = Some (mkValidation false ["hour: values out of range (25)"] None)
   /\ ((["hour: values out of range (25)"] <> []
        /\ @None string = None)
       \/ (["hour: values out of range (25)"] = []
           /\ @None string <> None)))
  /\ (validate 100 "* * *"
      = Some (mkValidation false []
                (Some "Format: minute hour day-of-month month day-of-week"))
      /\ ((@nil string <> []
           /\ Some "Format: minute hour day-of-month month day-of-week"
              = None)
          \/ (@nil string = []
              /\ Some "Format: minute hour day-of-month month day-of-week"
                 <> None))).
Proof.
  split.
  - split; [vm_compute; reflexivity|].
    apply (proj2 (validate_errors_or_suggestion 100 "0 25 * * *"
                    (mkValidation false ["hour: values out of range (25)"]
                       None)
                    ltac:(vm_compute; reflexivity))).
    reflexivity.
  - split; [vm_compute; reflexivity|].
    apply (proj2 (validate_errors_or_suggestion 100 "* * *"
                    (mkValidation false []
                       (Some "Format: minute hour day-of-month month day-of-week"))
                    ltac:(vm_compute; reflexivity))).
    reflexivity.
Defined.

(** *** [compare] *)

Lemma sameValues_refl (l : list jsnum) : sameValues l l = true.
Proof.
  unfold sameValues. rewrite Nat.eqb_refl. simpl.
  apply forallb_forall. intros v Hv. now apply includes_In.
Qed.

Lemma sameValues_sets (l1 l2 : list jsnum) :
  NoDup l1 -> NoDup l2 ->
  (sameValues l1 l2 = true <-> forall v, In v l1 <-> In v l2).
Proof.
  intros H1 H2. unfold sameValues. rewrite andb_true_iff, Nat.eqb_eq,
    forallb_forall.
  split.
  - intros [Hlen Hincl].
    assert (Hi : incl l1 l2).
    { intros v Hv. apply includes_In. now apply Hincl. }
    intros v. split; [apply Hi|].
    apply (NoDup_length_incl H1); [lia | exact Hi].
  - intros Heq. split.
    + apply Nat.le_antisymm; apply NoDup_incl_length; try assumption;
        intros v Hv; now apply Heq.
    + intros v Hv. apply includes_In. now apply Heq.
Qed.

Lemma compareFields_fold (fields1 fields2 : Fields) :
  let same f :=
    sameValues (values (getField fields1 f)) (values (getField fields2 f)) in
  fold_left (compareField fields1 fields2) FIELD_ORDER ([], [])
  = (map (fun f => mkDifference (FIELD_NAMES f) (raw (getField fields1 f))
                     (raw (getField fields2 f)))
       (filter (fun f => negb (same f)) FIELD_ORDER),
     map FIELD_NAMES (filter same FIELD_ORDER)).
Proof.
  intros same. unfold FIELD_ORDER. cbn [fold_left filter].
  unfold compareField. fold (same minute). fold (same hour).
  fold (same dayOfMonth). fold (same month). fold (same dayOfWeek).
  destruct (same minute), (same hour), (same dayOfMonth), (same month),
    (same dayOfWeek); reflexivity.
Qed.

(** What [compare] returns on two expressions parsed as valid fields. *)
Lemma compare_parsed (fuel : nat) (zone : Zone) (now1 now2 : Z)
  (e1 e2 o1 o2 : string) (fields1 fields2 : Fields)
  (errors1 errors2 : list string) :
  parse fuel e1 = Some (Parsed true o1 fields1 errors1) ->
  parse fuel e2 = Some (Parsed true o2 fields2 errors2) ->
  let same f :=
    sameValues (values (getField fields1 f)) (values (getField fields2 f)) in
  exists (next1 next2 : list Z) (d1 d2 : string),
    getNextOccurrences fuel zone e1 10 now1 = Some next1
    /\ getNextOccurrences fuel zone e2 10 now2 = Some next2
    /\ describe fuel e1 = Some d1 /\ describe fuel e2 = Some d2
    /\ compare fuel zone now1 now2 e1 e2
       = Some (Compared (forallb same FIELD_ORDER)
                 (map (fun f => mkDifference (FIELD_NAMES f)
                                  (raw (getField fields1 f))
                                  (raw (getField fields2 f)))
                    (filter (fun f => negb (same f)) FIELD_ORDER))
                 (map FIELD_NAMES (filter same FIELD_ORDER))
                 (List.length (overlapOf next1 next2)) d1 d2).
Proof.
  intros H1 H2 same.
  assert (Hn1 := getNextOccurrences_parsed fuel zone e1 10 now1 _ _ _ H1).
  assert (Hn2 := getNextOccurrences_parsed fuel zone e2 10 now2 _ _ _ H2).
  assert (Hd1 : exists d, describe fuel e1 = Some d)
    by (unfold describe; rewrite H1; eauto).
  assert (Hd2 : exists d, describe fuel e2 = Some d)
    by (unfold describe; rewrite H2; eauto).
  destruct Hd1 as [d1 Hd1], Hd2 as [d2 Hd2].
  eexists _, _, d1, d2. repeat (split; [eassumption|]).
  unfold compare. rewrite H1, H2. cbn [valid negb orb].
  rewrite compareFields_fold, Hn1, Hn2, Hd1, Hd2. fold same.
  f_equal. f_equal. subst same. cbn beta. clear.
  induction FIELD_ORDER as [|f l IH]; [reflexivity|].
  cbn [filter forallb].
  destruct (sameValues (values (getField fields1 f))
              (values (getField fields2 f)));
    [exact IH | reflexivity].
Qed.

Lemma overlapOf_self (l : list Z) : overlapOf l l = l.
Proof.
  unfold overlapOf.
  assert (H : forall l0, incl l0 l ->
              filter (fun d1 => existsb (fun d2 => within60s d1 d2) l) l0
              = l0).
  { induction l0 as [|x l0 IH]; intros Hi; simpl; [reflexivity|].
    assert (Hx : existsb (fun d2 => within60s x d2) l = true).
    { apply existsb_exists. exists x. split; [apply Hi; now left|].
      unfold within60s. rewrite Z.sub_diag. reflexivity. }
    rewrite Hx, IH; [reflexivity|]. intros y Hy. apply Hi. now right. }
  apply H. apply incl_refl.
Qed.

Lemma forallb_FIELD_ORDER (p : FieldName -> bool) :
  forallb p FIELD_ORDER = true <-> forall f, p f = true.
Proof.
  rewrite forallb_forall. split; intros H f; [|intros _; apply H].
  apply H. destruct f; simpl; tauto.
Qed.

Lemma parse_fields_NoDup (fuel : nat) (e : string) (v : bool)
  (original : string) (fields : Fields) (errors : list string)
  (f : FieldName) :
  parse fuel e = Some (Parsed v original fields errors) ->
  NoDup (values (getField fields f)).
Proof.
  intros Hp. destruct (parse_fields_parsed _ _ _ _ _ _ f Hp) as [text Ht].
  exact (parseField_values_NoDup _ _ _ _ Ht).
Qed.

Lemma compare_inv (fuel : nat) (zone : Zone) (now1 now2 : Z)
  (e1 e2 : string) (same : bool) (differences : list Difference)
  (similarities : list string) (overlap : nat) (d1 d2 : string) :
  compare fuel zone now1 now2 e1 e2
  = Some (Compared same differences similarities overlap d1 d2) ->
  exists o1 fields1 errors1 o2 fields2 errors2,
    parse fuel e1 = Some (Parsed true o1 fields1 errors1)
    /\ parse fuel e2 = Some (Parsed true o2 fields2 errors2).
Proof.
  unfold compare.
  destruct (parse fuel e1)
    as [[|err1 sug1|[|] o1 fields1 errors1|o1 slots1 errors1]|];
    destruct (parse fuel e2)
      as [[|err2 sug2|[|] o2 fields2 errors2|o2 slots2 errors2]|];
    cbn [valid negb orb]; try discriminate.
  intros _. now exists o1, fields1, errors1, o2, fields2, errors2.
Qed.

(** X10.  On two expressions that parse as valid five-field schedules,
    [compare] returns; every field is listed once, among the differences or
    among the similarities; and [same] is true exactly when, field by
    field, the two expressions denote the same set of values, whatever
    their texts. *)
Theorem compare_same_iff_equal_sets (fuel : nat) (zone : Zone)
  (now1 now2 : Z) (e1 e2 o1 o2 : string) (fields1 fields2 : Fields)
  (errors1 errors2 : list string) :
  parse fuel e1 = Some (Parsed true o1 fields1 errors1) ->
  parse fuel e2 = Some (Parsed true o2 fields2 errors2) ->
  exists same differences similarities overlap d1 d2,
    compare fuel zone now1 now2 e1 e2
    = Some (Compared same differences similarities overlap d1 d2)
    /\ (same = true <->
        forall f v, In v (values (getField fields1 f))
                    <-> In v (values (getField fields2 f)))
    /\ (same = true <-> differences = [])
    /\ (forall f, In (FIELD_NAMES f) similarities
                  <-> ~ In (FIELD_NAMES f) (map d_field differences))
    /\ (List.length differences + List.length similarities = 5)%nat
    /\ (overlap <= 10)%nat.
Proof.
  intros H1 H2.
  destruct (compare_parsed fuel zone now1 now2 _ _ _ _ _ _ _ _ H1 H2)
    as [next1 [next2 [d1 [d2 [Hn1 [Hn2 [_ [_ Hc]]]]]]]].
  set (same := fun f => sameValues (values (getField fields1 f))
                          (values (getField fields2 f))) in *.
  eexists _, _, _, _, _, _. split; [exact Hc|].
  assert (Hsame : forall f,
            same f = true <->
            forall v, In v (values (getField fields1 f))
                      <-> In v (values (getField fields2 f))).
  { intros f. apply sameValues_sets; eapply parse_fields_NoDup; eassumption. }
  assert (Hcases : forall P : bool -> bool -> bool -> bool -> bool -> Prop,
            (forall b1 b2 b3 b4 b5, P b1 b2 b3 b4 b5) ->
            P (same minute) (same hour) (same dayOfMonth) (same month)
              (same dayOfWeek)) by (intros P HP; apply HP).
  split; [|split; [|split; [|split]]].
  - rewrite forallb_FIELD_ORDER. split.
    + intros H f. now apply Hsame.
    + intros H f. apply Hsame. apply H.
  - unfold FIELD_ORDER. cbn [forallb filter]. subst same. cbn beta.
    pattern (sameValues (values (getField fields1 minute))
               (values (getField fields2 minute))),
            (sameValues (values (getField fields1 hour))
               (values (getField fields2 hour))),
            (sameValues (values (getField fields1 dayOfMonth))
               (values (getField fields2 dayOfMonth))),
            (sameValues (values (getField fields1 month))
               (values (getField fields2 month))),
            (sameValues (values (getField fields1 dayOfWeek))
               (values (getField fields2 dayOfWeek))).
    apply Hcases. clear.
    intros [|] [|] [|] [|] [|]; cbn; split; intros H;
      first [reflexivity | discriminate H].
  - intros f. unfold FIELD_ORDER. cbn [filter]. subst same. cbn beta.
    pattern (sameValues (values (getField fields1 minute))
               (values (getField fields2 minute))),
            (sameValues (values (getField fields1 hour))
               (values (getField fields2 hour))),
            (sameValues (values (getField fields1 dayOfMonth))
               (values (getField fields2 dayOfMonth))),
            (sameValues (values (getField fields1 month))
               (values (getField fields2 month))),
            (sameValues (values (getField fields1 dayOfWeek))
               (values (getField fields2 dayOfWeek))).
    apply Hcases. clear.
    intros [|] [|] [|] [|] [|]; destruct f; vm_compute;
      (split; [intros H; intuition discriminate
              |intros H; try tauto; exfalso; apply H; tauto]).
  - unfold FIELD_ORDER. cbn [filter]. subst same. cbn beta.
    pattern (sameValues (values (getField fields1 minute))
               (values (getField fields2 minute))),
            (sameValues (values (getField fields1 hour))
               (values (getField fields2 hour))),
            (sameValues (values (getField fields1 dayOfMonth))
               (values (getField fields2 dayOfMonth))),
            (sameValues (values (getField fields1 month))
               (values (getField fields2 month))),
            (sameValues (values (getField fields1 dayOfWeek))
               (values (getField fields2 dayOfWeek))).
    apply Hcases. clear.
    intros [|] [|] [|] [|] [|]; reflexivity.
  - unfold overlapOf.
    etransitivity; [apply filter_length_le|].
    rewrite (getNextOccurrences_parsed fuel zone e1 10 now1 _ _ _ H1) in Hn1.
    apply (f_equal (fun o => match o with
                             | Some l => List.length l
                             | None => 0%nat
                             end)) in Hn1.
    cbn beta iota in Hn1. rewrite <- Hn1. apply firstn_le_length.
Qed.

Lemma compare_same_iff_equal_sets_witness :
  exists fields1 fields2 : Fields,
    parse 100 "0 9 * * 1-5" = Some (Parsed true "0 9 * * 1-5" fields1 [])
    /\ parse 100 "0 9 * * mon,tue,wed,thu,fri"
       = Some (Parsed true "0 9 * * mon,tue,wed,thu,fri" fields2 [])
    /\ exists same differences similarities overlap d1 d2,
         compare 100 Clock.utc 0 0 "0 9 * * 1-5" "0 9 * * mon,tue,wed,thu,fri"
         = Some (Compared same differences similarities overlap d1 d2)
         /\ (same = true <->
             forall f v, In v (values (getField fields1 f))
                         <-> In v (values (getField fields2 f)))
         /\ (same = true <-> differences = [])
         /\ (forall f, In (FIELD_NAMES f) similarities
                       <-> ~ In (FIELD_NAMES f) (map d_field differences))
         /\ (List.length differences + List.length similarities = 5)%nat
         /\ (overlap <= 10)%nat.
Proof.
  eexists _, _. split; [vm_compute; reflexivity|].
  split; [vm_compute; reflexivity|].
  apply (compare_same_iff_equal_sets 100 Clock.utc 0 0 "0 9 * * 1-5"
           "0 9 * * mon,tue,wed,thu,fri" "0 9 * * 1-5"
           "0 9 * * mon,tue,wed,thu,fri" _ _ [] []);
    vm_compute; reflexivity.
Defined.

Lemma sameValues_sym (l1 l2 : list jsnum) :
  NoDup l1 -> NoDup l2 -> sameValues l1 l2 = sameValues l2 l1.
Proof.
  intros H1 H2. apply eq_true_iff_eq.
  rewrite (sameValues_sets l1 l2 H1 H2), (sameValues_sets l2 l1 H2 H1).
  split; intros H v; symmetry; apply H.
Qed.

(** X11.  [compare] is symmetric: with the arguments exchanged it gives the
    same [same] flag, the same similarities, the differences with [first]
    and [second] exchanged, and the two descriptions exchanged (the overlap
    count depends on the two clock readings and may differ). *)
Theorem compare_symmetric (fuel : nat) (zone : Zone)
  (now1 now2 now3 now4 : Z) (e1 e2 : string) (same : bool)
  (differences : list Difference) (similarities : list string)
  (overlap : nat) (d1 d2 : string) :
  compare fuel zone now1 now2 e1 e2
  = Some (Compared same differences similarities overlap d1 d2) ->
  exists overlap',
    compare fuel zone now3 now4 e2 e1
    = Some (Compared same (map Props.swapped differences) similarities overlap'
              d2 d1).
Proof.
  intros Hc.
  destruct (compare_inv _ _ _ _ _ _ _ _ _ _ _ _ Hc)
    as [o1 [fields1 [errors1 [o2 [fields2 [errors2 [H1 H2]]]]]]].
  destruct (compare_parsed fuel zone now1 now2 _ _ _ _ _ _ _ _ H1 H2)
    as [n1 [n2 [x1 [x2 [_ [_ [Hd1 [Hd2 Hc12]]]]]]]].
  destruct (compare_parsed fuel zone now3 now4 _ _ _ _ _ _ _ _ H2 H1)
    as [n3 [n4 [y2 [y1 [_ [_ [Hd2' [Hd1' Hc21]]]]]]]].
  assert (Hsym : forall f,
            sameValues (values (getField fields2 f))
              (values (getField fields1 f))
            = sameValues (values (getField fields1 f))
                (values (getField fields2 f))).
  { intros f. apply sameValues_sym; eapply parse_fields_NoDup; eassumption. }
  assert (E1 : forallb (fun f => sameValues (values (getField fields2 f))
                                   (values (getField fields1 f))) FIELD_ORDER
               = forallb (fun f => sameValues (values (getField fields1 f))
                                     (values (getField fields2 f)))
                   FIELD_ORDER).
  { clear - Hsym. induction FIELD_ORDER as [|f l IH]; [reflexivity|].
    cbn [forallb]. now rewrite Hsym, IH. }
  assert (E2 : map (fun f => mkDifference (FIELD_NAMES f)
                               (raw (getField fields2 f))
                               (raw (getField fields1 f)))
                 (filter (fun f => negb (sameValues
                                           (values (getField fields2 f))
                                           (values (getField fields1 f))))
                    FIELD_ORDER)
               = map Props.swapped
                   (map (fun f => mkDifference (FIELD_NAMES f)
                                    (raw (getField fields1 f))
                                    (raw (getField fields2 f)))
                      (filter (fun f => negb (sameValues
                                                (values (getField fields1 f))
                                                (values (getField fields2 f))))
                         FIELD_ORDER))).
  { rewrite map_map. unfold Props.swapped. cbn [d_field d_first d_second].
    f_equal. apply filter_ext. intros f. now rewrite Hsym. }
  assert (E3 : filter (fun f => sameValues (values (getField fields2 f))
                                  (values (getField fields1 f))) FIELD_ORDER
               = filter (fun f => sameValues (values (getField fields1 f))
                                    (values (getField fields2 f)))
                   FIELD_ORDER).
  { apply filter_ext. intros f. apply Hsym. }
  cbv zeta in Hc12, Hc21. rewrite E1, E2, E3 in Hc21.
  exists (List.length (overlapOf n3 n4)).
  rewrite Hc21. rewrite Hc12 in Hc. congruence.
Qed.

Lemma compare_symmetric_witness :
  exists overlap' : nat,
    compare 100 Clock.utc 0 86400000 "0 * * * *" "*/15 * * * *"
    = Some (Compared false
              (map Props.swapped [mkDifference "minute" "*/15" "0"])
              ["hour"; "day of month"; "month"; "day of week"]
              overlap' "At minute 0" "Every 15 minutes").
Proof.
  apply (compare_symmetric 100 Clock.utc 0 0 0 86400000
           "*/15 * * * *" "0 * * * *" false
           [mkDifference "minute" "*/15" "0"]
           ["hour"; "day of month"; "month"; "day of week"]
           2 "Every 15 minutes" "At minute 0").
  vm_compute. reflexivity.
Defined.

(** X12.  Comparing a valid schedule with itself, the clock read once:
    [same] is true, nothing differs, all five fields are similar and
    every one of the next occurrences overlaps. *)
Theorem compare_reflexive (fuel : nat) (zone : Zone) (now : Z)
  (e original : string) (fields : Fields) (errors : list string) :
  parse fuel e = Some (Parsed true original fields errors) ->
  exists next d,
    getNextOccurrences fuel zone e 10 now = Some next
    /\ describe fuel e = Some d
    /\ compare fuel zone now now e e
       = Some (Compared true [] (map FIELD_NAMES FIELD_ORDER)
                 (List.length next) d d).
Proof.
  intros Hp.
  destruct (compare_parsed fuel zone now now _ _ _ _ _ _ _ _ Hp Hp)
    as [n1 [n2 [d1 [d2 [Hn1 [Hn2 [Hd1 [Hd2 Hc]]]]]]]].
  rewrite Hn1 in Hn2. injection Hn2 as <-.
  rewrite Hd1 in Hd2. injection Hd2 as <-.
  exists n1, d1. split; [exact Hn1|]. split; [exact Hd1|].
  rewrite Hc, overlapOf_self. cbv zeta.
  assert (E : forall l : list FieldName,
            forallb (fun f => sameValues (values (getField fields f))
                                (values (getField fields f))) l = true
            /\ filter (fun f => negb (sameValues (values (getField fields f))
                                        (values (getField fields f)))) l = []
            /\ filter (fun f => sameValues (values (getField fields f))
                                  (values (getField fields f))) l = l).
  { induction l as [|f l [IH1 [IH2 IH3]]]; [now repeat split|].
    cbn [forallb filter]. rewrite sameValues_refl, IH1, IH2, IH3.
    now repeat split. }
  destruct (E FIELD_ORDER) as [-> [-> ->]]. reflexivity.
Qed.

Lemma compare_reflexive_witness :
  exists next d,
    getNextOccurrences 100 Clock.utc "30 6 1 * *" 10 0 = Some next
    /\ describe 100 "30 6 1 * *" = Some d
    /\ compare 100 Clock.utc 0 0 "30 6 1 * *" "30 6 1 * *"
       = Some (Compared true [] (map FIELD_NAMES FIELD_ORDER)
                 (List.length next) d d).
Proof.
  eapply (compare_reflexive 100 Clock.utc 0 "30 6 1 * *" "30 6 1 * *" _ []).
  vm_compute. reflexivity.
Defined.

(** X13.  When the first expression has a value out of range, the error text
    of [compare] ends in [undefined]: it reads [parsed1.error], which only
    the structural failures set, and the per-field messages stay in
    [parsed1.errors]. *)
Theorem compare_range_error_undefined (fuel : nat) (zone : Zone)
  (now1 now2 : Z) (e1 e2 original : string) (fields : Fields)
  (errors : list string) (r2 : ParseResult) :
  parse fuel e1 = Some (Parsed false original fields errors) ->
  parse fuel e2 = Some r2 ->
  errors <> []
  /\ compare fuel zone now1 now2 e1 e2
     = Some (CompareInvalid "First expression invalid: undefined").
Proof.
  intros H1 H2. split.
  - destruct (parse_valid_flag _ _ _ _ _ _ H1) as [Hv _].
    intros ->. discriminate Hv.
  - unfold compare. rewrite H1, H2. reflexivity.
Qed.

Lemma compare_range_error_undefined_witness :
  ["minute: values out of range (99)"] <> []
  /\ compare 100 Clock.utc 0 0 "99 * * * *" "* * * * *"
     = Some (CompareInvalid "First expression invalid: undefined").
Proof.
  eapply (compare_range_error_undefined 100 Clock.utc 0 0 "99 * * * *"
            "* * * * *" "99 * * * *" _
            ["minute: values out of range (99)"]).
  - vm_compute. reflexivity.
  - vm_compute. reflexivity.
Defined.

(** X14.  [@reboot] is a valid expression without fields, so [compare]
    raises on it (it reads [parsed.fields[fieldName]] on [null]) whenever
    the other expression is valid too, on either side. *)
Theorem compare_reboot_throws (fuel : nat) (zone : Zone) (now1 now2 : Z)
  (e1 e2 : string) (r1 r2 : ParseResult) :
  parse fuel e1 = Some r1 -> parse fuel e2 = Some r2 ->
  valid r1 = true -> valid r2 = true ->
  isReboot r1 = true \/ isReboot r2 = true ->
  compare fuel zone now1 now2 e1 e2 = Some CompareThrows.
Proof.
  intros H1 H2 Hv1 Hv2 Hr. unfold compare. rewrite H1, H2, Hv1, Hv2.
  cbn [negb orb].
  destruct r1 as [|err1 sug1|v1 o1 f1 er1|o1 s1 er1],
           r2 as [|err2 sug2|v2 o2 f2 er2|o2 s2 er2];
    try reflexivity; try discriminate;
    destruct Hr as [Hr|Hr]; discriminate Hr.
Qed.

Lemma compare_reboot_throws_witness :
  compare 100 Clock.utc 0 0 "0 0 * * *" " @Reboot " = Some CompareThrows.
Proof.
  eapply (compare_reboot_throws 100 Clock.utc 0 0 "0 0 * * *" " @Reboot "
            _ Reboot).
  - vm_compute. reflexivity.
  - vm_compute. reflexivity.
  - reflexivity.
  - reflexivity.
  - right. reflexivity.
Defined.

(** *** The scheduler and [cronMatchesTime] *)

Lemma minutesFrom_In (n : nat) :
  forall start c,
    In c (Spec.minutesFrom n start)
    <-> exists k, 0 <= k < Z.of_nat n /\ c = start + 60000 * k.
Proof.
  induction n as [|n IH]; intros start c; cbn [Spec.minutesFrom In].
  - split; [tauto|]. intros [k [Hk _]]. lia.
  - rewrite IH. split.
    + intros [<-|[k [Hk ->]]]; [exists 0; lia | exists (k + 1); lia].
    + intros [k [Hk ->]]. destruct (Z.eq_dec k 0) as [->|Hne].
      * left. lia.
      * right. exists (k - 1). lia.
Qed.

Lemma maxIterations_minutes : Z.of_nat maxIterations = 527040.
Proof.
  change maxIterations with (Z.to_nat (366 * 24 * 60)).
  rewrite Z2Nat.id; lia.
Qed.

Lemma cronMatchesTime_matches (v : bool) (original : string)
  (fields : Fields) (errors : list string) (dt : LocalTime) :
  cronMatchesTime (Parsed v original fields errors) dt
  = v && matches fields dt.
Proof.
  unfold cronMatchesTime, matches, dayMatch. cbn [valid isReboot].
  destruct v; reflexivity.
Qed.

Lemma firstn_incl {A : Type} (n : nat) (l : list A) (x : A) :
  In x (firstn n l) -> In x l.
Proof.
  intros H. rewrite <- (firstn_skipn n l). apply in_or_app. now left.
Qed.

Lemma firstn_sorted_In (l : list Z) :
  StronglySorted Z.lt l ->
  forall (n : nat) (x : Z), In x l ->
    In x (firstn n l)
    \/ (List.length (firstn n l) = n /\ Forall (fun t => t < x) (firstn n l)).
Proof.
  induction 1 as [|a l Hs IH Ha]; intros n x Hx; [destruct Hx|].
  destruct n as [|n]; [right; split; [reflexivity|constructor]|].
  cbn [firstn In List.length]. destruct Hx as [<-|Hx]; [left; now left|].
  destruct (IH n x Hx) as [Hin|[Hlen Hall]]; [left; now right|].
  right. split; [now rewrite Hlen|]. constructor; [|exact Hall].
  rewrite Forall_forall in Ha. now apply Ha.
Qed.

(** X7.  The scheduler and the [test] command agree.  Every instant
    [getNextOccurrences] returns passes [cronMatchesTime] on the same parse
    result; and no matching minute is skipped: a minute of the walk that
    passes [cronMatchesTime] is in the result, unless the result is already
    full with earlier instants. *)
Theorem next_agrees_with_cronMatchesTime (fuel : nat) (zone : Zone)
  (e : string) (count : nat) (from : Z) (r : ParseResult) (l : list Z) :
  parse fuel e = Some r ->
  getNextOccurrences fuel zone e count from = Some l ->
  (forall t, In t l -> cronMatchesTime r (localTime zone t) = true)
  /\ (forall k, 0 <= k < 366 * 24 * 60 ->
        let c := startOfMinute zone (from + 60000) + 60000 * k in
        cronMatchesTime r (localTime zone c) = true ->
        In c l
        \/ (List.length l = count /\ Forall (fun t => t < c) l)).
Proof.
  intros Hp Hl.
  destruct r as [|err sug|[|] original fields errors|original slots errors].
  - split; [|discriminate]. unfold getNextOccurrences in Hl.
    rewrite Hp in Hl. injection Hl as <-. intros t [].
  - split; [|discriminate]. unfold getNextOccurrences in Hl.
    rewrite Hp in Hl. injection Hl as <-. intros t [].
  - rewrite (getNextOccurrences_parsed _ zone _ count from _ _ _ Hp) in Hl.
    apply (f_equal (fun o => match o with Some x => x | None => [] end)) in Hl.
    cbn beta iota in Hl. subst l. split.
    + intros t Ht. apply firstn_incl in Ht. apply filter_In in Ht.
      rewrite cronMatchesTime_matches, matches_fires. apply Ht.
    + intros k Hk c Hc. apply firstn_sorted_In.
      * apply StronglySorted_filter, minutesFrom_increasing.
      * apply filter_In. split.
        -- apply minutesFrom_In. exists k. rewrite maxIterations_minutes.
           split; [lia|reflexivity].
        -- rewrite cronMatchesTime_matches, matches_fires in Hc. exact Hc.
  - split; [|intros k _ c Hc; rewrite cronMatchesTime_matches in Hc;
             discriminate Hc].
    unfold getNextOccurrences in Hl. rewrite Hp in Hl. injection Hl as <-.
    intros t [].
  - split; [|discriminate]. unfold getNextOccurrences in Hl.
    rewrite Hp in Hl. injection Hl as <-. intros t [].
Qed.

Lemma next_agrees_with_cronMatchesTime_witness :
  exists (r : ParseResult) (l : list Z),
    parse 100 "0 0 13 * 5" = Some r
    /\ getNextOccurrences 100 Clock.utc "0 0 13 * 5" 2 1762905600000 = Some l
    /\ (forall t, In t l -> cronMatchesTime r (localTime Clock.utc t) = true)
    /\ (forall k, 0 <= k < 366 * 24 * 60 ->
          let c := startOfMinute Clock.utc (1762905600000 + 60000)
                   + 60000 * k in
          cronMatchesTime r (localTime Clock.utc c) = true ->
          In c l
          \/ (List.length l = 2%nat /\ Forall (fun t => t < c) l)).
Proof.
  eexists _, _. split; [vm_compute; reflexivity|].
  split; [vm_compute; reflexivity|].
  apply (next_agrees_with_cronMatchesTime 100 Clock.utc "0 0 13 * 5" 2
           1762905600000); vm_compute; reflexivity.
Defined.

(** X8.  Asking for fewer occurrences gives a prefix of what asking for
    more gives: the first [n] of the [m] occurrences, for [n <= m], same
    expression, zone and start. *)
Theorem next_fewer_is_prefix (fuel : nat) (zone : Zone) (e : string)
  (n m : nat) (from : Z) (l1 l2 : list Z) :
  (n <= m)%nat ->
  getNextOccurrences fuel zone e n from = Some l1 ->
  getNextOccurrences fuel zone e m from = Some l2 ->
  l1 = firstn n l2.
Proof.
  intros Hnm H1 H2.
  destruct (parse fuel e)
    as [[|err sug|[|] original fields errors|original slots errors]|] eqn:Hp.
  - unfold getNextOccurrences in H1, H2. rewrite Hp in H1, H2.
    injection H1 as <-. injection H2 as <-. now rewrite firstn_nil.
  - unfold getNextOccurrences in H1, H2. rewrite Hp in H1, H2.
    injection H1 as <-. injection H2 as <-. now rewrite firstn_nil.
  - rewrite (getNextOccurrences_parsed _ zone _ n from _ _ _ Hp) in H1.
    rewrite (getNextOccurrences_parsed _ zone _ m from _ _ _ Hp) in H2.
    apply (f_equal (fun o => match o with Some x => x | None => [] end)) in H1.
    apply (f_equal (fun o => match o with Some x => x | None => [] end)) in H2.
    cbn beta iota in H1, H2. subst l1 l2.
    rewrite firstn_firstn. now rewrite Nat.min_l.
  - unfold getNextOccurrences in H1, H2. rewrite Hp in H1, H2.
    injection H1 as <-. injection H2 as <-. now rewrite firstn_nil.
  - unfold getNextOccurrences in H1, H2. rewrite Hp in H1, H2.
    injection H1 as <-. injection H2 as <-. now rewrite firstn_nil.
  - unfold getNextOccurrences in H1. rewrite Hp in H1. discriminate H1.
Qed.

Lemma next_fewer_is_prefix_witness :
  [1762131600000; 1762135200000]
  = firstn 2 [1762131600000; 1762135200000; 1762138800000; 1762142400000].
Proof.
  apply (next_fewer_is_prefix 100 Clock.utc "0 * * * *" 2 4 1762128000000).
  - lia.
  - vm_compute. reflexivity.
  - vm_compute. reflexivity.
Defined.

(** X9.  In a zone whose [startOf('minute')] goes back less than a minute,
    every returned instant lies on the minute grid that starts at the
    minute after [from], strictly after [from] and at most 366 days after
    it: the walk gives up after 366 * 24 * 60 candidates, so a schedule
    that does not fire within that window yields fewer than [count]. *)
Theorem next_within_366_days (fuel : nat) (zone : Zone) (e : string)
  (count : nat) (from : Z) (l : list Z) (t : Z) :
  (forall x, x - 60000 < startOfMinute zone x <= x) ->
  getNextOccurrences fuel zone e count from = Some l ->
  In t l ->
  from < t <= from + 366 * 24 * 60 * 60000
  /\ exists k, 0 <= k < 366 * 24 * 60
               /\ t = startOfMinute zone (from + 60000) + 60000 * k.
Proof.
  intros Hzone Hl Ht.
  assert (Hk : exists k, 0 <= k < 366 * 24 * 60
                         /\ t = startOfMinute zone (from + 60000) + 60000 * k).
  { destruct (parse fuel e)
      as [[|err sug|[|] original fields errors|original slots errors]|]
      eqn:Hp;
      try (unfold getNextOccurrences in Hl; rewrite Hp in Hl;
           first [discriminate Hl | injection Hl as <-; destruct Ht]).
    rewrite (getNextOccurrences_parsed _ zone _ count from _ _ _ Hp) in Hl.
    apply (f_equal (fun o => match o with Some x => x | None => [] end)) in Hl.
    cbn beta iota in Hl. subst l.
    apply firstn_incl in Ht. apply filter_In in Ht. destruct Ht as [Ht _].
    apply minutesFrom_In in Ht. rewrite maxIterations_minutes in Ht.
    destruct Ht as [k [Hk ->]]. exists k. split; [lia|reflexivity]. }
  split; [|exact Hk]. destruct Hk as [k [Hk ->]].
  specialize (Hzone (from + 60000)). lia.
Qed.

Lemma next_within_366_days_witness :
  1762128000000 < 1762135200000 <= 1762128000000 + 366 * 24 * 60 * 60000
  /\ exists k, 0 <= k < 366 * 24 * 60
               /\ 1762135200000
                  = startOfMinute Clock.utc (1762128000000 + 60000)
                    + 60000 * k.
Proof.
  apply (next_within_366_days 100 Clock.utc "0 * * * *" 2 1762128000000
           [1762131600000; 1762135200000]).
  - intros x. unfold Clock.utc, startOfMinute, Clock.msPerMinute.
    pose proof (Z.div_mod x 60000 ltac:(lia)).
    pose proof (Z.mod_pos_bound x 60000 ltac:(lia)). lia.
  - vm_compute. reflexivity.
  - right. left. reflexivity.
Defined.

(** *** The value sets of a parse result *)

(** Every field of a result of [parse] is what a call of [parseField]
    returned. *)
Lemma parse_field_of (fuel : nat) (e : string) (r : ParseResult)
  (f : FieldName) (p : ParsedField) :
  parse fuel e = Some r -> fieldOf r f = Some p ->
  exists text : string, parseField fuel text (FIELDS f) = Some p.
Proof.
  intros Hp Hf.
  assert (Hi : exists i, nth_error FIELD_ORDER i = Some f).
  { destruct f; [exists 0%nat|exists 1%nat|exists 2%nat|exists 3%nat
                |exists 4%nat]; reflexivity. }
  destruct Hi as [i Hi].
  destruct (parse_returns _ _ _ Hp)
    as [->|[[n [_ ->]]|[[sug [_ [_ ->]]]
       |[[o [fields [fs [-> Hall]]]]|[o [calls [fs [-> [_ Hall]]]]]]]]];
    try discriminate Hf; cbn [fieldOf] in Hf.
  - injection Hf as <-. exists (nth i fs ""). exact (Hall i f Hi).
  - exists (nth i fs ""). apply parseField_call.
    rewrite (Hall i f Hi). destruct (calls f); [|discriminate Hf].
    cbn [returned] in Hf. now injection Hf as ->.
Qed.

(** X1.  In every result of [parse] with fields, valid or not, each field's
    [values] holds no value twice, every integer in it lies within the
    field's [min] and [max], and the integers come in strictly ascending
    order whenever no [NaN] (a segment that is not a number) is among
    them.  It holds as well of the fields that are parsed when the call
    for another field threw. *)
Theorem parse_values_invariant (fuel : nat) (e : string) (r : ParseResult)
  (f : FieldName) (p : ParsedField) :
  parse fuel e = Some r ->
  fieldOf r f = Some p ->
  NoDup (values p)
  /\ (forall z, In (Num z) (values p) ->
                min (FIELDS f) <= z <= max (FIELDS f))
  /\ (~ In NaN (values p) -> StronglySorted Props.below (values p)).
Proof.
  intros Hp Hf. destruct (parse_field_of _ _ _ _ _ Hp Hf) as [text Ht].
  split; [|split].
  - exact (parseField_values_NoDup _ _ _ _ Ht).
  - intros z. exact (parseField_values_within _ _ _ _ z Ht).
  - exact (parseField_values_ascending _ _ _ _ Ht).
Qed.

Lemma parse_values_invariant_witness :
  exists fields : Fields,
    parse 100 "*/20,5,70,40-44/2 * * * *"
    = Some (Parsed false "*/20,5,70,40-44/2 * * * *" fields
              ["minute: values out of range (70)"])
    /\ values (getField fields minute)
       = [Num 0; Num 5; Num 20; Num 40; Num 42; Num 44]
    /\ NoDup (values (getField fields minute))
    /\ (forall z, In (Num z) (values (getField fields minute)) ->
                  min (FIELDS minute) <= z <= max (FIELDS minute))
    /\ (~ In NaN (values (getField fields minute)) ->
        StronglySorted Props.below (values (getField fields minute))).
Proof.
  eexists. split; [vm_compute; reflexivity|]. split; [reflexivity|].
  eapply (parse_values_invariant 100 "*/20,5,70,40-44/2 * * * *"
            (Parsed false "*/20,5,70,40-44/2 * * * *" _
               ["minute: values out of range (70)"]) minute).
  - vm_compute. reflexivity.
  - reflexivity.
Defined.

(** X2.  [parse] returns on every expression of ASCII characters none of
    whose five field texts has a segment with a step of zero or less or a
    range that ends at 2^53 or beyond: the loops of [parseField] end, no
    call of it throws, and the result no longer depends on the fuel of the
    model.  (Beyond 2^53 the source rounds its numbers and a loop counter
    stops moving; other white space than the ASCII one splits the text
    elsewhere.) *)
Theorem parse_returns_without_nonpositive_step (e : string) :
  Props.plain e = true ->
  (forall (i : nat) (f : FieldName),
      nth_error FIELD_ORDER i = Some f ->
      Spec.stepsOk (nth i (Spec.fieldTexts e) EmptyString) (FIELDS f) = true
      /\ Spec.endsOk (nth i (Spec.fieldTexts e) EmptyString) (FIELDS f)
         = true) ->
  exists (fuel0 : nat) (r : ParseResult),
    (forall fuel, (fuel0 <= fuel)%nat -> parse fuel e = Some r)
    /\ forall original slots errors, r <> Caught original slots errors.
Proof.
  intros _ Hok. apply parse_ends. intros i f Hi. now apply Hok.
Qed.

Lemma parse_returns_without_nonpositive_step_witness :
  exists (fuel0 : nat) (r : ParseResult),
    (forall fuel, (fuel0 <= fuel)%nat ->
                  parse fuel "*/15 9-17 * jan-mar 1-5/2" = Some r)
    /\ forall original slots errors, r <> Caught original slots errors.
Proof.
  apply (parse_returns_without_nonpositive_step "*/15 9-17 * jan-mar 1-5/2").
  - vm_compute. reflexivity.
  - intros [|[|[|[|[|i]]]]] f H; try (destruct i; discriminate H);
      injection H as <-; split; vm_compute; reflexivity.
Defined.

(** *** [parseTime] *)

(** X15.  Whatever the text, a time [parseTime] returns is a time of day:
    an hour from 0 to 23 and a minute from 0 to 59, both integers. *)
Theorem parseTime_time_of_day (timeStr : string) (t : Time) :
  parseTime timeStr = Some t ->
  exists h m : Z,
    t = mkTime (Num h) (Num m) /\ 0 <= h <= 23 /\ 0 <= m <= 59.
Proof.
  assert (Hclock : forall a b : jsnum,
            inClock a b = true ->
            exists h m : Z,
              mkTime a b = mkTime (Num h) (Num m)
              /\ 0 <= h <= 23 /\ 0 <= m <= 59).
  { intros [h|] [m|]; unfold inClock, ge, le; simpl; try discriminate;
      rewrite ?andb_false_r; try discriminate.
    rewrite !andb_true_iff, !Z.leb_le. intros [[[H1 H2] H3] H4].
    exists h, m. repeat split; assumption. }
  assert (H24 : forall str, parseTime24 str = Some t ->
            exists h m : Z,
              t = mkTime (Num h) (Num m) /\ 0 <= h <= 23 /\ 0 <= m <= 59).
  { intros str. unfold parseTime24.
    destruct (exec false re24 str) as [match24|]; [|discriminate].
    match goal with
    | |- context [inClock ?a ?b] =>
        destruct (inClock a b) eqn:Hc; [|discriminate];
        intros H; injection H as <-; exact (Hclock _ _ Hc)
    end. }
  unfold parseTime.
  destruct (exec true re12 (trim (toLowerCase timeStr))) as [match12|];
    [|apply H24].
  match goal with
  | |- context [inClock ?a ?b] =>
      destruct (inClock a b) eqn:Hc; [|apply H24];
      intros H; injection H as <-; exact (Hclock _ _ Hc)
  end.
Qed.

Lemma parseTime_time_of_day_witness :
  exists h m : Z,
    mkTime (Num 15) (Num 45) = mkTime (Num h) (Num m)
    /\ 0 <= h <= 23 /\ 0 <= m <= 59.
Proof.
  apply (parseTime_time_of_day " 3:45 PM").
  vm_compute. reflexivity.
Defined.

Lemma timeIs_eq (o : option Time) (h m : Z) :
  Props.timeIs o h m = true -> o = Some (mkTime (Num h) (Num m)).
Proof.
  destruct o as [[[a|] [b|]]|]; simpl; try discriminate.
  rewrite andb_true_iff, !Z.eqb_eq. now intros [-> ->].
Qed.

Lemma readsBack_all :
  forallb (fun h => forallb (fun m => Props.readsBack h m)
                      (Props.upFrom 0 60))
    (Props.upFrom 0 24) = true.
Proof. vm_compute. reflexivity. Qed.

(** X16.  [parseTime] reads back every time of day written as a clock text:
    [H:MM] gives hour [H] and minute [MM] for all 24 * 60 times; with [am]
    or [pm] after it, in either case and with or without a space, the hours
    1 to 12 give the 12-hour reading, 12am being 0 and 12pm being 12. *)
Theorem parseTime_reads_clock_texts (h m : Z) :
  0 <= h <= 23 -> 0 <= m <= 59 ->
  parseTime (Props.clockText h m "") = Some (mkTime (Num h) (Num m))
  /\ (1 <= h <= 12 ->
      parseTime (Props.clockText h m "am")
      = Some (mkTime (Num (Props.hourOf12 h false)) (Num m))
      /\ parseTime (Props.clockText h m " PM")
         = Some (mkTime (Num (Props.hourOf12 h true)) (Num m))
      /\ parseTime (Z_to_string h ++ "pm")
         = Some (mkTime (Num (Props.hourOf12 h true)) (Num 0))).
Proof.
  intros Hh Hm.
  assert (Hr : Props.readsBack h m = true).
  { pose proof readsBack_all as H. rewrite forallb_forall in H.
    specialize (H h (upFrom_In 24 0 h ltac:(lia))).
    rewrite forallb_forall in H. apply H. apply upFrom_In. lia. }
  unfold Props.readsBack in Hr. apply andb_true_iff in Hr.
  destruct Hr as [H24 H12]. split; [now apply timeIs_eq|].
  intros Hh12.
  destruct (Z.ltb_spec h 1) as [Hlt|_]; [lia|].
  destruct (Z.ltb_spec 12 h) as [Hgt|_]; [lia|].
  cbn [orb] in H12. rewrite !andb_true_iff in H12.
  destruct H12 as [[Ha Hp] Hp0].
  repeat split; now apply timeIs_eq.
Qed.

Lemma parseTime_reads_clock_texts_witness :
  parseTime (Props.clockText 9 5 "") = Some (mkTime (Num 9) (Num 5))
  /\ (1 <= 9 <= 12 ->
      parseTime (Props.clockText 9 5 "am")
      = Some (mkTime (Num (Props.hourOf12 9 false)) (Num 5))
      /\ parseTime (Props.clockText 9 5 " PM")
         = Some (mkTime (Num (Props.hourOf12 9 true)) (Num 5))
      /\ parseTime (Z_to_string 9 ++ "pm")
         = Some (mkTime (Num (Props.hourOf12 9 true)) (Num 0))).
Proof. apply (parseTime_reads_clock_texts 9 5); lia. Defined.

(** *** The phrase table of [generate] *)

Lemma startsWith_app (p q : string) :
  forall s, startsWith s (p ++ q) = true -> startsWith s p = true.
Proof.
  induction p as [|a p IH]; intros s H; [destruct s; reflexivity|].
  destruct s as [|b s]; [discriminate H|].
  cbn [append startsWith] in *. apply andb_true_iff in H.
  destruct H as [-> H]. now apply IH.
Qed.

Lemma str_includes_app (p q : string) :
  forall s, str_includes s (p ++ q) = true -> str_includes s p = true.
Proof.
  induction s as [|c s IH]; cbn [str_includes]; intros H;
    apply orb_true_iff in H; apply orb_true_iff.
  - destruct H as [H|H]; [|discriminate H]. left. now apply startsWith_app in H.
  - destruct H as [H|H]; [left; now apply startsWith_app in H|right; auto].
Qed.

(** Every template of the phrase table parses as a valid expression. *)
Lemma PATTERNS_valid :
  forallb (fun entry => match parse 100 (snd entry) with
                        | Some r => valid r && negb (isReboot r)
                        | None => false
                        end) PATTERNS = true.
Proof. vm_compute. reflexivity. Qed.

Lemma directMatch_entry (text input : string) :
  forall (entries : list (string * string)) (r : GenResult),
    incl entries PATTERNS ->
    directMatch text input entries = Some r ->
    exists pattern cron,
      In (pattern, cron) entries
      /\ str_includes input pattern = true
      /\ r = Generated cron (generatedFrom text).
Proof.
  induction entries as [|[pattern cron] rest IH]; intros r Hincl H;
    [discriminate H|].
  cbn [directMatch] in H.
  destruct (String.eqb input pattern || str_includes input pattern) eqn:Hc.
  - injection H as <-. exists pattern, cron. split; [now left|]. split.
    + apply orb_true_iff in Hc. destruct Hc as [Hc|Hc]; [|exact Hc].
      apply String.eqb_eq in Hc. subst input.
      destruct pattern; cbn [str_includes]; apply orb_true_iff; left.
      * reflexivity.
      * clear. cbn [startsWith]. rewrite Ascii.eqb_refl.
        induction pattern as [|c p IHp]; [reflexivity|].
        cbn [startsWith]. now rewrite Ascii.eqb_refl.
    + apply directResult_unchanged. apply Hincl. now left.
  - destruct (IH r) as [p [c [Hin Hrest]]]; [|exact H|].
    + intros x Hx. apply Hincl. now right.
    + exists p, c. split; [now right|exact Hrest].
Qed.

Lemma directMatch_finds (text input pattern cron : string) :
  forall entries : list (string * string),
    In (pattern, cron) entries ->
    str_includes input pattern = true ->
    exists r, directMatch text input entries = Some r.
Proof.
  induction entries as [|[p c] rest IH]; intros Hin Hs; [destruct Hin|].
  cbn [directMatch].
  destruct (String.eqb input p || str_includes input p) eqn:Hc; [eauto|].
  destruct Hin as [Heq|Hin]; [|now apply IH].
  injection Heq as -> ->. rewrite Hs, orb_true_r in Hc. discriminate Hc.
Qed.

(** X17.  A text that contains a phrase of the table, in any case and with
    any words around it, is answered by the first tier: [generate]
    succeeds with a template of the table, taken as it stands, and that
    template is a valid cron expression. *)
Theorem generate_table_phrase_valid (text pattern cron : string) :
  In (pattern, cron) PATTERNS ->
  str_includes (trim (toLowerCase text)) pattern = true ->
  exists pattern' cron',
    In (pattern', cron') PATTERNS
    /\ str_includes (trim (toLowerCase text)) pattern' = true
    /\ generate text = Generated cron' (generatedFrom text)
    /\ option_map valid (parse 100 cron') = Some true.
Proof.
  intros Hin Hs. unfold generate.
  destruct (directMatch_finds text _ _ _ PATTERNS Hin Hs) as [r Hr].
  rewrite Hr.
  destruct (directMatch_entry text _ PATTERNS r (incl_refl _) Hr)
    as [p [c [Hpc [Hinc ->]]]].
  exists p, c. repeat split; try assumption.
  pose proof PATTERNS_valid as Hv. rewrite forallb_forall in Hv.
  specialize (Hv (p, c) Hpc). cbn [snd] in Hv.
  destruct (parse 100 c) as [r|]; [|discriminate Hv].
  apply andb_true_iff in Hv. destruct Hv as [Hv _].
  cbn [option_map]. now rewrite Hv.
Qed.

Lemma generate_table_phrase_valid_witness :
  exists pattern' cron',
    In (pattern', cron') PATTERNS
    /\ str_includes (trim (toLowerCase "Run it DAILY, please")) pattern' = true
    /\ generate "Run it DAILY, please"
       = Generated cron' (generatedFrom "Run it DAILY, please")
    /\ option_map valid (parse 100 cron') = Some true.
Proof.
  apply (generate_table_phrase_valid "Run it DAILY, please" "daily"
           "0 0 * * *").
  - vm_compute. tauto.
  - vm_compute. reflexivity.
Defined.

(** X18.  The table is walked in the order written and a phrase counts as
    soon as the text contains it, so the entries [every weekday] and
    [every weekend] are never reached: [every week] stands before them and
    is contained in both.  A text with one of these two phrases gets one of
    the templates of the first six entries, for [every weekday] alone the
    weekly [0 0 * * 0], and never the weekday or weekend template. *)
Theorem generate_every_weekday_shadowed (text : string) :
  str_includes (trim (toLowerCase text)) "every weekday" = true
  \/ str_includes (trim (toLowerCase text)) "every weekend" = true ->
  exists cron,
    generate text = Generated cron (generatedFrom text)
    /\ In cron ["* * * * *"; "0 * * * *"; "0 0 * * *"; "0 0 * * 0"]
    /\ cron <> "0 9 * * 1-5" /\ cron <> "0 9 * * 0,6".
Proof.
  intros H.
  assert (Hweek : str_includes (trim (toLowerCase text)) "every week" = true).
  { destruct H as [H|H].
    - exact (str_includes_app "every week" "day" _ H).
    - exact (str_includes_app "every week" "end" _ H). }
  set (input := trim (toLowerCase text)) in *.
  assert (Hex : exists cron,
            directMatch text input PATTERNS
            = Some (Generated cron (generatedFrom text))
            /\ In cron ["* * * * *"; "0 * * * *"; "0 0 * * *"; "0 0 * * 0"]).
  { unfold PATTERNS. cbn [directMatch].
    do 5 match goal with
    | |- context [if ?c then Some (directResult ?t ?i ?p ?k) else _] =>
        destruct c;
        [ exists k; split;
          [ f_equal; apply directResult_unchanged; vm_compute; tauto
          | cbn [In]; tauto ]
        | ]
    end.
    rewrite Hweek, orb_true_r. exists "0 0 * * 0". split.
    - f_equal. apply directResult_unchanged. vm_compute. tauto.
    - cbn [In]. tauto. }
  destruct Hex as [cron [Hd Hin]]. exists cron.
  unfold generate. fold input. rewrite Hd. split; [reflexivity|].
  split; [exact Hin|].
  split; intros ->; cbn [In] in Hin; intuition discriminate.
Qed.

Lemma generate_every_weekday_shadowed_witness :
  exists cron,
    generate "Every weekday" = Generated cron (generatedFrom "Every weekday")
    /\ In cron ["* * * * *"; "0 * * * *"; "0 0 * * *"; "0 0 * * 0"]
    /\ cron <> "0 9 * * 1-5" /\ cron <> "0 9 * * 0,6".
Proof.
  apply (generate_every_weekday_shadowed "Every weekday").
  left. vm_compute. reflexivity.
Defined.

(** *** Texts, [trim] and [split(/\s+/)] *)

Lemma append_nil_r (s : string) : s ++ "" = s.
Proof. induction s as [|c s IH]; [reflexivity|]. cbn. now rewrite IH. Qed.

Lemma append_assoc (a b c : string) : (a ++ b) ++ c = a ++ (b ++ c).
Proof. induction a as [|x a IH]; [reflexivity|]. cbn. now rewrite IH. Qed.

Lemma rev_string_twice (x : string) :
  forall acc acc', rev_string (rev_string x acc) acc'
                   = rev_string acc (x ++ acc').
Proof.
  induction x as [|a x IH]; intros acc acc'; [reflexivity|].
  cbn [rev_string append]. now rewrite IH.
Qed.

Lemma rev_string_app (p q : string) :
  forall acc, rev_string (p ++ q) acc = rev_string q (rev_string p acc).
Proof.
  induction p as [|a p IH]; intros acc; [reflexivity|].
  cbn [rev_string append]. apply IH.
Qed.

Lemma rev_string_starts (x : string) :
  forall acc, Props.endsNonSpace x = true ->
              Props.startsNonSpace (rev_string x acc) = true.
Proof.
  induction x as [|a x IH]; intros acc H; [discriminate H|].
  destruct x as [|b x]; [exact H|].
  cbn [rev_string]. apply (IH (String a acc)). exact H.
Qed.

Lemma rev_string_ends (r : string) :
  forall c acc, Props.endsNonSpace (rev_string r (String c acc))
                = Props.endsNonSpace (String c acc).
Proof.
  induction r as [|a r IH]; intros c acc; [reflexivity|].
  cbn [rev_string]. rewrite IH. reflexivity.
Qed.

Lemma trimStart_id (x : string) :
  Props.startsNonSpace x = true -> trimStart x = x.
Proof.
  destruct x as [|c x]; [reflexivity|]. cbn. now destruct (is_space c).
Qed.

Lemma trimStart_shape (s : string) :
  trimStart s = "" \/ Props.startsNonSpace (trimStart s) = true.
Proof.
  induction s as [|c s IH]; [now left|]. cbn [trimStart].
  destruct (is_space c) eqn:Hc; [exact IH|]. right. cbn. now rewrite Hc.
Qed.

(** [trimStart] only takes a prefix away, and stops at the latest before
    a character that is not white space. *)
Lemma trimStart_keeps (pre : string) (c : ascii) :
  is_space c = false ->
  exists pre', trimStart (pre ++ String c "") = pre' ++ String c "".
Proof.
  intros Hc. induction pre as [|a pre IH].
  - exists "". cbn. now rewrite Hc.
  - cbn [append trimStart]. destruct (is_space a).
    + exact IH.
    + now exists (String a pre).
Qed.

Lemma trim_id (x : string) :
  Props.startsNonSpace x = true -> Props.endsNonSpace x = true -> trim x = x.
Proof.
  intros Hs He. unfold trim, trimEnd. rewrite (trimStart_id x Hs).
  rewrite (trimStart_id _ (rev_string_starts x "" He)).
  rewrite rev_string_twice. cbn [rev_string]. apply append_nil_r.
Qed.

(** A trimmed text is empty, or starts and ends with characters that are
    not white space. *)
Lemma trim_shape (e : string) :
  trim e = ""
  \/ (Props.startsNonSpace (trim e) = true
      /\ Props.endsNonSpace (trim e) = true).
Proof.
  unfold trim. destruct (trimStart_shape e) as [->|Hs]; [now left|].
  destruct (trimStart e) as [|c y]; [discriminate Hs|].
  cbn in Hs. apply negb_true_iff in Hs.
  unfold trimEnd. cbn [rev_string].
  assert (Hrev : forall r acc, rev_string r acc = rev_string r "" ++ acc).
  { induction r as [|a r IH]; intros acc; [reflexivity|].
    cbn [rev_string]. rewrite (IH (String a acc)), (IH (String a "")).
    now rewrite append_assoc. }
  rewrite (Hrev y (String c "")).
  destruct (trimStart_keeps (rev_string y "") c Hs) as [pre' Hpre].
  destruct (trimStart_shape (rev_string y "" ++ String c "")) as [He|He];
    rewrite Hpre in He; [destruct pre'; discriminate He|].
  rewrite Hpre. right. split.
  - rewrite rev_string_app. cbn. now rewrite Hs.
  - rewrite rev_string_app. cbn [rev_string].
    destruct pre' as [|a pre']; [cbn; now rewrite Hs|].
    cbn [rev_string].
    assert (Hlast : Props.endsNonSpace (rev_string pre' (String a "")) = true).
    { rewrite rev_string_ends. exact He. }
    destruct (rev_string pre' (String a "")); [discriminate Hlast|exact Hlast].
Qed.

Lemma split_ws_aux_wsfree (s : string) :
  forall inrun, Forall (fun t => Props.wsfree t = true) (split_ws_aux inrun s).
Proof.
  induction s as [|c s IH]; intros inrun; cbn [split_ws_aux].
  - now repeat constructor.
  - destruct (is_space c) eqn:Hc.
    + destruct inrun; [apply IH|]. constructor; [reflexivity|apply IH].
    + specialize (IH false).
      destruct (split_ws_aux false s) as [|h t].
      * repeat constructor. unfold Props.wsfree. cbn. now rewrite Hc.
      * inversion IH as [|? ? Hh Ht]; subst. constructor; [|exact Ht].
        unfold Props.wsfree in *. cbn. now rewrite Hc.
Qed.

(** Between the runs of white space of a text that does not end in white
    space, every piece but perhaps the first is not empty. *)
Lemma split_ws_aux_nonempty (s : string) :
  (Props.endsNonSpace s = true ->
   Forall (fun t => t <> "") (split_ws_aux true s))
  /\ (s = "" \/ Props.endsNonSpace s = true ->
      exists h t, split_ws_aux false s = h :: t /\ Forall (fun x => x <> "") t).
Proof.
  induction s as [|c s [IH1 IH2]].
  - split; [discriminate|]. intros _. exists "", []. now split.
  - assert (Hs : Props.endsNonSpace (String c s) = true ->
                 is_space c = true -> Props.endsNonSpace s = true).
    { intros H Hc. destruct s; [cbn in H; rewrite Hc in H; discriminate H|].
      exact H. }
    assert (Hs' : Props.endsNonSpace (String c s) = true ->
                  s = "" \/ Props.endsNonSpace s = true).
    { intros H. destruct s; [now left|right; exact H]. }
    split.
    + intros H. cbn [split_ws_aux]. destruct (is_space c) eqn:Hc.
      * apply IH1. now apply Hs.
      * destruct (IH2 (Hs' H)) as [h [t [-> Ht]]].
        constructor; [discriminate|exact Ht].
    + intros [H|H]; [discriminate H|]. cbn [split_ws_aux].
      destruct (is_space c) eqn:Hc.
      * exists "", (split_ws_aux true s). split; [reflexivity|].
        apply IH1. now apply Hs.
      * destruct (IH2 (Hs' H)) as [h [t [-> Ht]]].
        exists (String c h), t. now split.
Qed.

(** The pieces of a text that starts and ends with characters that are
    not white space are tokens: without white space, and not empty. *)
Lemma split_ws_tokens (x : string) :
  Props.startsNonSpace x = true -> Props.endsNonSpace x = true ->
  Forall (fun t => Props.token t = true) (split_ws x).
Proof.
  intros Hs He. unfold split_ws.
  assert (Hne : Forall (fun t => t <> "") (split_ws_aux false x)).
  { destruct x as [|c x]; [discriminate Hs|].
    cbn in Hs. apply negb_true_iff in Hs.
    destruct (proj2 (split_ws_aux_nonempty (String c x)) (or_intror He))
      as [h [t [Heq Ht]]].
    rewrite Heq. constructor; [|exact Ht].
    cbn [split_ws_aux] in Heq. rewrite Hs in Heq.
    destruct (split_ws_aux false x); injection Heq as <- _; discriminate. }
  pose proof (split_ws_aux_wsfree x false) as Hws.
  rewrite Forall_forall in *. intros t Ht. unfold Props.token.
  rewrite (Hws t Ht). cbn [andb]. apply negb_true_iff.
  apply String.eqb_neq. now apply Hne.
Qed.

Lemma wsfree_cons (c : ascii) (t : string) :
  Props.wsfree (String c t) = negb (is_space c) && Props.wsfree t.
Proof. reflexivity. Qed.

Lemma wsfree_app (a b : string) :
  Props.wsfree (a ++ b) = Props.wsfree a && Props.wsfree b.
Proof.
  induction a as [|c a IH]; [reflexivity|].
  cbn [append]. rewrite !wsfree_cons, IH. now rewrite andb_assoc.
Qed.

Lemma split_ws_aux_token_space (t : string) :
  Props.wsfree t = true ->
  forall rest,
    split_ws_aux false (t ++ String " " rest) = t :: split_ws_aux true rest.
Proof.
  induction t as [|c t IH]; intros Hw rest; [reflexivity|].
  rewrite wsfree_cons in Hw. apply andb_true_iff in Hw.
  destruct Hw as [Hc Hw]. apply negb_true_iff in Hc.
  cbn [append split_ws_aux]. rewrite Hc, (IH Hw). reflexivity.
Qed.

Lemma split_ws_aux_single (t : string) :
  Props.wsfree t = true -> split_ws_aux false t = [t].
Proof.
  induction t as [|c t IH]; intros Hw; [reflexivity|].
  rewrite wsfree_cons in Hw. apply andb_true_iff in Hw.
  destruct Hw as [Hc Hw]. apply negb_true_iff in Hc.
  cbn [split_ws_aux]. rewrite Hc, (IH Hw). reflexivity.
Qed.

Lemma split_ws_aux_true_start (s : string) :
  Props.startsNonSpace s = true -> split_ws_aux true s = split_ws_aux false s.
Proof.
  destruct s as [|c s]; [discriminate|]. cbn. intros H.
  apply negb_true_iff in H. now rewrite H.
Qed.

Lemma token_starts (t : string) :
  Props.token t = true -> Props.startsNonSpace t = true.
Proof.
  unfold Props.token. destruct t as [|c t]; [discriminate|].
  rewrite wsfree_cons. cbn. now destruct (is_space c).
Qed.

Lemma token_wsfree (t : string) :
  Props.token t = true -> Props.wsfree t = true.
Proof. unfold Props.token. intros H. now apply andb_true_iff in H. Qed.

Lemma token_ends (t : string) :
  Props.token t = true -> Props.endsNonSpace t = true.
Proof.
  intros H. pose proof (token_wsfree t H) as Hw.
  destruct t as [|c t]; [discriminate H|]. clear H. revert c Hw.
  induction t as [|b t IH]; intros c Hw; rewrite wsfree_cons in Hw;
    apply andb_true_iff in Hw; destruct Hw as [Hc Hw].
  - exact Hc.
  - cbn [Props.endsNonSpace]. now apply IH.
Qed.

Lemma startsNonSpace_app (a b : string) :
  Props.startsNonSpace a = true -> Props.startsNonSpace (a ++ b) = true.
Proof. destruct a; [discriminate|]. intros H. exact H. Qed.

Lemma endsNonSpace_app (a b : string) :
  b <> "" -> Props.endsNonSpace (a ++ b) = Props.endsNonSpace b.
Proof.
  intros Hb. induction a as [|c a IH]; [reflexivity|].
  cbn [append Props.endsNonSpace]. rewrite <- IH.
  destruct (a ++ b) eqn:Hab; [|reflexivity].
  destruct a; [cbn in Hab; contradiction|discriminate Hab].
Qed.

Lemma join_cons (sep x : string) (y : string) (l : list string) :
  join sep (x :: y :: l) = x ++ sep ++ join sep (y :: l).
Proof. reflexivity. Qed.

Lemma join_starts (toks : list string) :
  toks <> [] -> Forall (fun t => Props.token t = true) toks ->
  Props.startsNonSpace (join " " toks) = true.
Proof.
  destruct toks as [|t [|t2 rest]]; [contradiction| |]; intros _ H;
    inversion H as [|? ? Ht Hrest]; subst.
  - now apply token_starts.
  - rewrite join_cons. apply startsNonSpace_app. now apply token_starts.
Qed.

Lemma join_ends (toks : list string) :
  toks <> [] -> Forall (fun t => Props.token t = true) toks ->
  Props.endsNonSpace (join " " toks) = true.
Proof.
  induction toks as [|t rest IH]; [contradiction|]. intros _ H.
  inversion H as [|? ? Ht Hrest]; subst.
  destruct rest as [|t2 rest]; [now apply token_ends|].
  rewrite join_cons.
  assert (Hj : Props.endsNonSpace (join " " (t2 :: rest)) = true)
    by (apply IH; [discriminate|exact Hrest]).
  rewrite endsNonSpace_app.
  - cbn [append Props.endsNonSpace].
    destruct (join " " (t2 :: rest)); [discriminate Hj|exact Hj].
  - discriminate.
Qed.

(** Tokens joined by one space are split back into the same tokens. *)
Lemma split_ws_join (toks : list string) :
  toks <> [] -> Forall (fun t => Props.token t = true) toks ->
  split_ws (join " " toks) = toks.
Proof.
  unfold split_ws. induction toks as [|t rest IH]; [contradiction|].
  intros _ H. inversion H as [|? ? Ht Hrest]; subst.
  destruct rest as [|t2 rest];
    [apply split_ws_aux_single; now apply token_wsfree|].
  rewrite join_cons. cbn [append].
  rewrite (split_ws_aux_token_space t (token_wsfree t Ht)).
  rewrite split_ws_aux_true_start
    by (apply join_starts; [discriminate|exact Hrest]).
  rewrite IH; [reflexivity|discriminate|exact Hrest].
Qed.

Lemma trim_join (toks : list string) :
  toks <> [] -> Forall (fun t => Props.token t = true) toks ->
  trim (join " " toks) = join " " toks.
Proof.
  intros Hne H. apply trim_id; [now apply join_starts|now apply join_ends].
Qed.

(** The [raw] of a parsed field is the text handed to [parseField]. *)
Lemma parseField_raw (fuel : nat) (field : string) (def : FieldDef)
  (p : ParsedField) :
  parseField fuel field def = Some p -> raw p = field.
Proof.
  rewrite parseField_segments.
  destruct parseSegments as [[a|message]|]; [|discriminate|discriminate].
  intros H. now injection H as <-.
Qed.

(** The fields [parseFive] returns do not depend on the text it keeps as
    [original]. *)
Lemma parseFive_text (fuel : nat) (e text : string) (fs : list string)
  (v : bool) (original : string) (fields : Fields) (errors : list string) :
  parseFive fuel e fs = Some (Parsed v original fields errors) ->
  parseFive fuel text fs = Some (Parsed v text fields errors).
Proof.
  unfold parseFive.
  destruct (parseFieldCall fuel (nth 0 fs "") (FIELDS minute))
    as [c0|]; [|discriminate].
  destruct (parseFieldCall fuel (nth 1 fs "") (FIELDS hour))
    as [c1|]; [|discriminate].
  destruct (parseFieldCall fuel (nth 2 fs "") (FIELDS dayOfMonth))
    as [c2|]; [|discriminate].
  destruct (parseFieldCall fuel (nth 3 fs "") (FIELDS month))
    as [c3|]; [|discriminate].
  destruct (parseFieldCall fuel (nth 4 fs "") (FIELDS dayOfWeek))
    as [c4|]; [|discriminate].
  destruct c0, c1, c2, c3, c4; try discriminate.
  intros H. injection H as Hv _ Hf He. subst v fields errors. reflexivity.
Qed.

(** The five raw texts of a parsed expression, in field order. *)
Lemma parseFields_tokens (fuel : nat) (e : string) (v : bool)
  (original : string) (fields : Fields) (errors : list string) :
  parseFields fuel e = Some (Parsed v original fields errors) ->
  Forall (fun t => Props.token t = true)
    (map (fun f => raw (getField fields f)) FIELD_ORDER)
  /\ forall text,
       parseFive fuel text (map (fun f => raw (getField fields f)) FIELD_ORDER)
       = Some (Parsed v text fields errors).
Proof.
  unfold parseFields.
  set (parts := split_ws (trim e)).
  destruct ((List.length parts <? 5)%nat || (6 <? List.length parts)%nat)
    eqn:Hn; [discriminate|].
  apply orb_false_iff in Hn. destruct Hn as [H5 H6].
  apply Nat.ltb_ge in H5. apply Nat.ltb_ge in H6.
  set (toks := if (List.length parts =? 6)%nat then tl parts else parts).
  intros Hp.
  assert (Hparts : Forall (fun t => Props.token t = true) parts).
  { subst parts. destruct (trim_shape e) as [He|[Hs He]].
    - rewrite He in H5. cbn in H5. lia.
    - now apply split_ws_tokens. }
  assert (Htoks : Forall (fun t => Props.token t = true) toks
                  /\ List.length toks = 5%nat).
  { subst toks. destruct (Nat.eqb_spec (List.length parts) 6) as [H|H].
    - destruct parts as [|x parts]; [discriminate H|].
      inversion Hparts; subst. cbn in *. split; [assumption|lia].
    - split; [assumption|lia]. }
  destruct Htoks as [Htoks Hlen].
  destruct (parseFive_parsed _ _ _ _ _ _ _ Hp) as [_ [_ [_ Hall]]].
  assert (Hraw : map (fun f => raw (getField fields f)) FIELD_ORDER = toks).
  { destruct toks as [|t0 [|t1 [|t2 [|t3 [|t4 [|t5 toks]]]]]];
      try discriminate Hlen.
    cbn [map FIELD_ORDER].
    rewrite (parseField_raw _ _ _ _ (Hall 0%nat minute eq_refl)),
            (parseField_raw _ _ _ _ (Hall 1%nat hour eq_refl)),
            (parseField_raw _ _ _ _ (Hall 2%nat dayOfMonth eq_refl)),
            (parseField_raw _ _ _ _ (Hall 3%nat month eq_refl)),
            (parseField_raw _ _ _ _ (Hall 4%nat dayOfWeek eq_refl)).
    reflexivity. }
  rewrite Hraw. split; [exact Htoks|].
  intros text. exact (parseFive_text _ _ _ _ _ _ _ _ Hp).
Qed.

Lemma parse_tokens (fuel : nat) (e : string) (v : bool)
  (original : string) (fields : Fields) (errors : list string) :
  parse fuel e = Some (Parsed v original fields errors) ->
  Forall (fun t => Props.token t = true)
    (map (fun f => raw (getField fields f)) FIELD_ORDER)
  /\ forall text,
       parseFive fuel text (map (fun f => raw (getField fields f)) FIELD_ORDER)
       = Some (Parsed v text fields errors).
Proof.
  unfold parse. destruct (startsWith (trim e) "@").
  - destruct (String.eqb (toLowerCase (trim e)) "@reboot"); [discriminate|].
    destruct (lookupAlias ALIASES (toLowerCase (trim e))) as [x|];
      [|discriminate].
    apply parseFields_tokens.
  - apply parseFields_tokens.
Qed.

(** *** The converters *)

Lemma rawExpression_join (fields : Fields) :
  rawExpression fields
  = join " " (map (fun f => raw (getField fields f)) FIELD_ORDER).
Proof. reflexivity. Qed.

(** Parsing the five raw texts of a parsed expression, joined by one
    space, gives the same fields again. *)
Lemma parse_rawExpression (fuel : nat) (e : string) (v : bool)
  (original : string) (fields : Fields) (errors : list string) :
  parse fuel e = Some (Parsed v original fields errors) ->
  startsWith (raw (f_minute fields)) "@" = false ->
  parse fuel (rawExpression fields)
  = Some (Parsed v (rawExpression fields) fields errors).
Proof.
  intros Hp Hat. destruct (parse_tokens _ _ _ _ _ _ Hp) as [Htok Hfive].
  assert (Hne : map (fun f => raw (getField fields f)) FIELD_ORDER <> [])
    by discriminate.
  unfold parse. rewrite rawExpression_join, (trim_join _ Hne Htok).
  assert (Hstart : startsWith
                     (join " " (map (fun f => raw (getField fields f))
                                  FIELD_ORDER)) "@" = false).
  { cbn [map FIELD_ORDER getField]. rewrite join_cons.
    inversion Htok as [|? ? Ht _]; subst. cbn [getField] in Ht.
    destruct (raw (f_minute fields)) as [|c r]; [discriminate Ht|].
    assert (Hnil : forall s, startsWith s "" = true) by (now intros []).
    cbn [append startsWith] in *. rewrite Hnil in *. exact Hat. }
  rewrite Hstart. unfold parseFields.
  rewrite (trim_join _ Hne Htok), (split_ws_join _ Hne Htok).
  cbn [List.length map FIELD_ORDER Nat.ltb Nat.leb Nat.eqb orb].
  apply Hfive.
Qed.

(** X20.  The [expression] that [toGitHub] returns for a valid expression
    is the five field texts joined by one space; parsing it gives the same
    fields, values and texts, as parsing the input did, and converting it
    again gives the same result.  The one exception is a six-field input
    whose minute text starts with [@]. *)
Theorem toGitHub_expression_reparses (fuel : nat) (e original : string)
  (fields : Fields) (errors : list string) :
  parse fuel e = Some (Parsed true original fields errors) ->
  startsWith (raw (f_minute fields)) "@" = false ->
  exists yaml note,
    toGitHub fuel e
    = Some (Done "github" yaml (Some (rawExpression fields)) note)
    /\ parse fuel (rawExpression fields)
       = Some (Parsed true (rawExpression fields) fields errors)
    /\ toGitHub fuel (rawExpression fields) = toGitHub fuel e.
Proof.
  intros Hp Hat. pose proof (parse_rawExpression _ _ _ _ _ _ Hp Hat) as Hr.
  eexists _, _. split; [|split].
  - unfold toGitHub. rewrite Hp. reflexivity.
  - exact Hr.
  - unfold toGitHub. rewrite Hp, Hr. reflexivity.
Qed.

Lemma toGitHub_expression_reparses_witness :
  exists fields : Fields,
    parse 100 "  0   9-17/2 *  JAN-mar  Mon,Fri "
    = Some (Parsed true "  0   9-17/2 *  JAN-mar  Mon,Fri " fields [])
    /\ rawExpression fields = "0 9-17/2 * JAN-mar Mon,Fri"
    /\ exists yaml note,
         toGitHub 100 "  0   9-17/2 *  JAN-mar  Mon,Fri "
         = Some (Done "github" yaml (Some (rawExpression fields)) note)
         /\ parse 100 (rawExpression fields)
            = Some (Parsed true (rawExpression fields) fields [])
         /\ toGitHub 100 (rawExpression fields)
            = toGitHub 100 "  0   9-17/2 *  JAN-mar  Mon,Fri ".
Proof.
  eexists. split; [vm_compute; reflexivity|]. split; [reflexivity|].
  eapply (toGitHub_expression_reparses 100
            "  0   9-17/2 *  JAN-mar  Mon,Fri "
            "  0   9-17/2 *  JAN-mar  Mon,Fri " _ []).
  - vm_compute. reflexivity.
  - reflexivity.
Defined.

Lemma madeOf_cons (p : ascii -> bool) (c : ascii) (s : string) :
  Props.madeOf p (String c s) = p c && Props.madeOf p s.
Proof. reflexivity. Qed.

Lemma madeOf_app (p : ascii -> bool) (a b : string) :
  Props.madeOf p (a ++ b) = Props.madeOf p a && Props.madeOf p b.
Proof.
  induction a as [|c a IH]; [reflexivity|].
  cbn [append]. rewrite !madeOf_cons, IH. now rewrite andb_assoc.
Qed.

Lemma madeOf_impl (p q : ascii -> bool) (s : string) :
  (forall c, p c = true -> q c = true) ->
  Props.madeOf p s = true -> Props.madeOf q s = true.
Proof.
  intros Hpq. induction s as [|c s IH]; [reflexivity|].
  rewrite !madeOf_cons, !andb_true_iff. intros [Hc Hs]. auto.
Qed.

Lemma madeOf_join (p : ascii -> bool) (sep : string) (l : list string) :
  Props.madeOf p sep = true ->
  Forall (fun t => Props.madeOf p t = true) l ->
  Props.madeOf p (join sep l) = true.
Proof.
  intros Hsep. induction l as [|x l IH]; intros H; [reflexivity|].
  inversion H as [|? ? Hx Hl]; subst.
  destruct l as [|y l]; [exact Hx|].
  rewrite join_cons, !madeOf_app, Hx, Hsep. now apply IH.
Qed.

Lemma valueChar_not_space (c : ascii) :
  Props.valueChar c = true -> negb (is_space c) = true.
Proof.
  destruct c as [[|] [|] [|] [|] [|] [|] [|] [|]]; vm_compute;
    intros H; first [reflexivity | discriminate H].
Qed.

Lemma uint_digits (d : Decimal.uint) :
  Props.madeOf Props.valueChar (NilEmpty.string_of_uint d) = true.
Proof.
  induction d; cbn [NilEmpty.string_of_uint]; try reflexivity;
    rewrite madeOf_cons, IHd; reflexivity.
Qed.

(** A printed integer is made of digits and a sign, and is not empty. *)
Lemma Z_to_string_chars (z : Z) :
  Props.madeOf Props.valueChar (Z_to_string z) = true
  /\ Z_to_string z <> "".
Proof.
  assert (Hu : forall d, Props.madeOf Props.valueChar
                           (NilZero.string_of_uint d) = true
                         /\ NilZero.string_of_uint d <> "").
  { intros d. split.
    - destruct d; try reflexivity; apply uint_digits.
    - destruct d; discriminate. }
  unfold Z_to_string. destruct (Z.to_int z) as [d|d];
    cbn [NilZero.string_of_int].
  - apply Hu.
  - split; [|discriminate]. rewrite madeOf_cons. now rewrite (proj1 (Hu d)).
Qed.

Lemma toString_chars (v : jsnum) :
  Props.madeOf Props.valueChar (toString v) = true /\ toString v <> "".
Proof.
  destruct v as [z|]; [apply Z_to_string_chars|]. split; [reflexivity|].
  discriminate.
Qed.

Lemma joinValues_chars (vals : list jsnum) :
  Props.madeOf Props.valueChar (joinValues vals) = true
  /\ (vals <> [] -> joinValues vals <> "").
Proof.
  unfold joinValues. split.
  - apply madeOf_join; [reflexivity|]. apply Forall_forall.
    intros t Ht. apply in_map_iff in Ht. destruct Ht as [v [<- _]].
    apply toString_chars.
  - destruct vals as [|v vals]; [contradiction|]. intros _.
    cbn [map]. pose proof (proj2 (toString_chars v)) as Hv.
    destruct (map toString vals); cbn [join]; [exact Hv|].
    destruct (toString v); [contradiction|discriminate].
Qed.

Lemma valueChars_token (s : string) :
  Props.madeOf Props.valueChar s = true -> s <> "" -> Props.token s = true.
Proof.
  intros Hm Hne. unfold Props.token. apply andb_true_iff. split.
  - exact (madeOf_impl _ _ s valueChar_not_space Hm).
  - apply negb_true_iff. now apply String.eqb_neq.
Qed.

Lemma valueChars_not_question (s : string) :
  Props.madeOf Props.valueChar s = true -> questionToStar s = s.
Proof.
  intros Hm. unfold questionToStar.
  destruct (String.eqb_spec s "?") as [->|]; [discriminate Hm|reflexivity].
Qed.

(** The text [toQuartz] builds for a valid expression. *)
Lemma toQuartz_parsed (fuel : nat) (e original : string) (fields : Fields)
  (errors : list string) :
  parse fuel e = Some (Parsed true original fields errors) ->
  toQuartz fuel e
  = Some (Done "quartz"
            (join " "
               ["0"; raw (f_minute fields); raw (f_hour fields);
                fst (questionMarks (raw (f_dayOfMonth fields))
                       (raw (f_dayOfWeek fields)));
                raw (f_month fields);
                quartzDayOfWeek
                  (snd (questionMarks (raw (f_dayOfMonth fields))
                          (raw (f_dayOfWeek fields))))
                  (f_dayOfWeek fields)])
            None
            (Some "Quartz Scheduler format (Java). First field is seconds.")).
Proof.
  intros Hp. unfold toQuartz. rewrite Hp. cbn [valid negb].
  destruct (questionMarks _ _). reflexivity.
Qed.

(** What [toCron] does with six tokens in the Quartz format. *)
Lemma toCron_quartz_tokens (fuel : nat) (s t0 t1 t2 t3 t4 : string) :
  Forall (fun t => Props.token t = true) [s; t0; t1; t2; t3; t4] ->
  toCron fuel (join " " [s; t0; t1; t2; t3; t4]) "quartz"
  = match describe fuel (join " " (map questionToStar [t0; t1; t2; t3; t4]))
    with
    | Some d =>
        Some (Converted "cron"
                (join " " (map questionToStar [t0; t1; t2; t3; t4]))
                (Some d) None)
    | None => None
    end.
Proof.
  intros Htok. unfold toCron.
  change (toLowerCase "quartz") with "quartz".
  change (String.eqb "quartz" "aws") with false.
  change (String.eqb "quartz" "systemd") with false.
  change (String.eqb "quartz" "quartz") with true.
  cbv iota. cbn [orb].
  assert (Hne : [s; t0; t1; t2; t3; t4] <> []) by discriminate.
  rewrite (trim_join _ Hne Htok), (split_ws_join _ Hne Htok).
  reflexivity.
Qed.

(** *** The calls of [parseField] that end *)

Lemma uint_only_digits (d : Decimal.uint) :
  Props.madeOf is_digit (NilEmpty.string_of_uint d) = true.
Proof.
  induction d; cbn [NilEmpty.string_of_uint]; try reflexivity;
    rewrite madeOf_cons, IHd; reflexivity.
Qed.

Lemma Z_to_string_digits (z : Z) :
  0 <= z -> Props.madeOf is_digit (Z_to_string z) = true.
Proof.
  intros Hz. unfold Z_to_string. destruct z as [|p|p]; [reflexivity| |lia].
  cbn [Z.to_int NilZero.string_of_int].
  destruct (Pos.to_uint p); try reflexivity; apply uint_only_digits.
Qed.

Lemma callEnds_stepsOk (text : string) (f : FieldName) :
  Spec.stepsOk text (FIELDS f) = true -> Props.callEnds text f.
Proof.
  intros H. destruct (parseFieldCall_ends _ _ H) as [n [p Hp]].
  exists n, (Returns p). exact Hp.
Qed.

Lemma callEnds_returned (fuel : nat) (text : string) (f : FieldName)
  (c : Completion ParsedField) :
  parseFieldCall fuel text (FIELDS f) = Some c -> Props.callEnds text f.
Proof.
  intros H. exists fuel, c. intros fuel' Hle.
  exact (parseFieldCall_fuel _ _ _ _ _ Hle H).
Qed.

Lemma callEnds_star (f : FieldName) : Props.callEnds "*" f.
Proof. apply callEnds_stepsOk. destruct f; vm_compute; reflexivity. Qed.

(** The call on the raw text of a parsed field ended. *)
Lemma callEnds_raw (fuel : nat) (e : string) (v : bool) (original : string)
  (fields : Fields) (errors : list string) (f : FieldName) :
  parse fuel e = Some (Parsed v original fields errors) ->
  Props.callEnds (raw (getField fields f)) f.
Proof.
  intros Hp. destruct (parse_fields_parsed _ _ _ _ _ _ f Hp) as [text Ht].
  rewrite (parseField_raw _ _ _ _ Ht).
  apply parseField_call in Ht. exact (callEnds_returned _ _ _ _ Ht).
Qed.

Lemma callEnds_questionToStar (text : string) (f : FieldName) :
  Props.callEnds text f -> Props.callEnds (questionToStar text) f.
Proof.
  intros H. unfold questionToStar.
  destruct (String.eqb text "?"); [apply callEnds_star|exact H].
Qed.

Lemma replace_gi_madeOf (q : ascii -> bool) (pat rep : string) :
  Props.madeOf q rep = true ->
  forall (s : string) (skip : nat),
    Props.madeOf q s = true ->
    Props.madeOf q (replace_gi pat rep skip s) = true.
Proof.
  intros Hrep. induction s as [|c s IH]; intros skip Hs; [reflexivity|].
  rewrite madeOf_cons in Hs. apply andb_true_iff in Hs.
  destruct Hs as [Hc Hs].
  cbn [replace_gi]. destruct skip as [|k]; [|now apply IH].
  destruct (startsWith_ci (String c s) pat).
  - rewrite madeOf_app, Hrep. now apply IH.
  - rewrite madeOf_cons, Hc. now apply IH.
Qed.

Lemma replaceNames_madeOf (q : ascii -> bool) (dow : bool) :
  (forall c, is_digit c = true -> q c = true) ->
  forall (nms : list string) (i : Z) (s : string),
    0 <= i ->
    Props.madeOf q s = true ->
    Props.madeOf q (replaceNames dow nms i s) = true.
Proof.
  intros Hq. induction nms as [|name rest IH]; intros i s Hi Hs;
    [exact Hs|].
  cbn [replaceNames]. apply IH; [lia|].
  unfold replaceAll_ci. apply replace_gi_madeOf; [|exact Hs].
  apply (madeOf_impl is_digit); [exact Hq|].
  apply Z_to_string_digits. destruct dow; lia.
Qed.

Lemma noSlash_lower (c : ascii) :
  Props.noSlash c = true -> Props.noSlash (lower_char c) = true.
Proof.
  destruct c as [[|] [|] [|] [|] [|] [|] [|] [|]]; vm_compute;
    intros H; first [reflexivity | discriminate H].
Qed.

Lemma split_char_none (sep : ascii) (t : string) :
  Props.madeOf (fun c => negb (Ascii.eqb c sep)) t = true ->
  split_char sep t = [t].
Proof.
  induction t as [|c t IH]; intros H; [reflexivity|].
  rewrite madeOf_cons in H. apply andb_true_iff in H. destruct H as [Hc Ht].
  apply negb_true_iff in Hc.
  cbn [split_char]. rewrite Hc, (IH Ht). reflexivity.
Qed.

Lemma digit_noSlash (c : ascii) :
  is_digit c = true -> Props.noSlash c = true.
Proof.
  destruct c as [[|] [|] [|] [|] [|] [|] [|] [|]]; vm_compute;
    intros H; first [reflexivity | discriminate H].
Qed.

Lemma split_char_madeOf (q : ascii -> bool) (sep : ascii) (s : string) :
  Props.madeOf q s = true ->
  Forall (fun t => Props.madeOf q t = true) (split_char sep s).
Proof.
  induction s as [|c s IH]; intros Hs; [repeat constructor|].
  rewrite madeOf_cons in Hs. apply andb_true_iff in Hs.
  destruct Hs as [Hc Hs]. specialize (IH Hs).
  cbn [split_char]. destruct (Ascii.eqb c sep).
  - constructor; [reflexivity|exact IH].
  - destruct (split_char sep s) as [|h t]; [repeat constructor|].
    + rewrite madeOf_cons, Hc. reflexivity.
    + inversion IH as [|? ? Hh Ht]; subst. constructor; [|exact Ht].
      rewrite madeOf_cons, Hc. exact Hh.
Qed.

(** A text without a slash has no step: every loop of [parseField] on it
    moves by one. *)
Lemma noSlash_stepsOk (text : string) (def : FieldDef) :
  Props.madeOf Props.noSlash text = true -> Spec.stepsOk text def = true.
Proof.
  intros H. unfold Spec.stepsOk, normalizedField.
  assert (Hlow : Props.madeOf Props.noSlash (toLowerCase text) = true).
  { clear def. induction text as [|c t IH]; [reflexivity|].
    rewrite madeOf_cons in H. apply andb_true_iff in H.
    destruct H as [Hc Ht]. cbn [toLowerCase].
    rewrite madeOf_cons, (noSlash_lower c Hc). now apply IH. }
  pose proof (replaceNames_madeOf Props.noSlash (isDayOfWeek def)
                digit_noSlash (names def) 0 _ (Z.le_refl 0) Hlow) as Hn.
  apply forallb_forall. intros segment Hin.
  pose proof (split_char_madeOf Props.noSlash "," _ Hn) as Hall.
  rewrite Forall_forall in Hall. specialize (Hall _ Hin).
  unfold stepNumOf, stepOf.
  rewrite (split_char_none "/" segment Hall). reflexivity.
Qed.

Lemma valueChar_noSlash (s : string) :
  Props.madeOf Props.valueChar s = true ->
  Props.madeOf Props.noSlash s = true.
Proof.
  apply madeOf_impl.
  intros c. destruct c as [[|] [|] [|] [|] [|] [|] [|] [|]]; vm_compute;
    intros H; first [reflexivity | discriminate H].
Qed.

(** With fuel enough [parseFive] returns when its five calls end. *)
Lemma parseFive_calls_end (e : string) (fs : list string) :
  (forall (i : nat) (f : FieldName),
      nth_error FIELD_ORDER i = Some f ->
      Props.callEnds (nth i fs EmptyString) f) ->
  exists fuel0 r,
    forall fuel, (fuel0 <= fuel)%nat -> parseFive fuel e fs = Some r.
Proof.
  intros Hok.
  destruct (Hok 0%nat minute eq_refl) as [n0 [c0 H0]].
  destruct (Hok 1%nat hour eq_refl) as [n1 [c1 H1]].
  destruct (Hok 2%nat dayOfMonth eq_refl) as [n2 [c2 H2]].
  destruct (Hok 3%nat month eq_refl) as [n3 [c3 H3]].
  destruct (Hok 4%nat dayOfWeek eq_refl) as [n4 [c4 H4]].
  set (n := Nat.max n0 (Nat.max n1 (Nat.max n2 (Nat.max n3 n4)))).
  assert (Hr : exists r, parseFive n e fs = Some r).
  { unfold parseFive. rewrite H0, H1, H2, H3, H4 by lia.
    destruct c0, c1, c2, c3, c4; eexists; reflexivity. }
  destruct Hr as [r Hr]. exists n, r. intros fuel Hf.
  exact (parseFive_fuel _ _ _ _ _ Hf Hr).
Qed.

(** With fuel enough [describe] returns on five tokens on which the
    calls of [parseField] end. *)
Lemma describe_tokens_end (t0 t1 t2 t3 t4 : string) :
  Forall (fun t => Props.token t = true) [t0; t1; t2; t3; t4] ->
  Props.callEnds t0 minute -> Props.callEnds t1 hour ->
  Props.callEnds t2 dayOfMonth -> Props.callEnds t3 month ->
  Props.callEnds t4 dayOfWeek ->
  exists fuel0 d,
    forall fuel, (fuel0 <= fuel)%nat ->
      describe fuel (join " " [t0; t1; t2; t3; t4]) = Some d.
Proof.
  intros Htok H0 H1 H2 H3 H4.
  set (toks := [t0; t1; t2; t3; t4]) in *.
  assert (Hne : toks <> []) by discriminate.
  assert (Hends : exists fuel0 r,
            forall fuel, (fuel0 <= fuel)%nat ->
              parse fuel (join " " toks) = Some r).
  { unfold parse. destruct (startsWith (trim (join " " toks)) "@").
    - destruct (String.eqb _ "@reboot").
      + exists 0%nat. eexists. intros. reflexivity.
      + destruct (lookupAlias ALIASES _) as [x|] eqn:Hl.
        * destruct (parseFields_ends x (alias_expansions_end _ _ Hl))
            as [n [r [Hr _]]].
          exists n, r. exact Hr.
        * exists 0%nat. eexists. intros. reflexivity.
    - unfold parseFields.
      rewrite (trim_join _ Hne Htok), (split_ws_join _ Hne Htok).
      cbn [List.length toks Nat.ltb Nat.leb Nat.eqb orb].
      apply parseFive_calls_end.
      intros [|[|[|[|[|i]]]]] f Hi; try (destruct i; discriminate Hi);
        injection Hi as <-; assumption. }
  destruct Hends as [fuel0 [r Hr]].
  assert (Hd : exists d, forall fuel, parse fuel (join " " toks) = Some r ->
                 describe fuel (join " " toks) = Some d).
  { destruct r as [|err sug|[|] o fields errors|o slots errors];
      eexists; intros fuel Hp; unfold describe; rewrite Hp; reflexivity. }
  destruct Hd as [d Hd]. exists fuel0, d. intros fuel Hf.
  apply Hd, Hr, Hf.
Qed.

(** The text that comes back from the Quartz format, with the description
    [describe] gives of it. *)
Lemma quartz_round_trip_text (fuel fuel' : nat)
  (e original : string) (fields : Fields) (errors : list string) :
  parse fuel e = Some (Parsed true original fields errors) ->
  raw (f_dayOfWeek fields) = "*" \/ raw (f_dayOfWeek fields) = "?"
  \/ values (f_dayOfWeek fields) <> [] ->
  exists q note,
    toQuartz fuel e = Some (Done "quartz" q None note)
    /\ toCron fuel' q "quartz"
       = match describe fuel' (Props.quartzBack fields) with
         | Some d =>
             Some (Converted "cron" (Props.quartzBack fields) (Some d) None)
         | None => None
         end.
Proof.
  intros Hp Hdow. destruct (parse_tokens _ _ _ _ _ _ Hp) as [Htok _].
  cbn [map FIELD_ORDER getField] in Htok.
  inversion Htok as [|? ? Hm H1]; subst.
  inversion H1 as [|? ? Hh H2]; subst.
  inversion H2 as [|? ? Hdom H3]; subst.
  inversion H3 as [|? ? Hmon H4]; subst.
  inversion H4 as [|? ? Hdw _]; subst.
  eexists _, _. split; [exact (toQuartz_parsed _ _ _ _ _ Hp)|].
  set (dom := raw (f_dayOfMonth fields)) in *.
  set (dow := raw (f_dayOfWeek fields)) in *.
  assert (Hq : Props.token (fst (questionMarks dom dow)) = true
               /\ questionToStar (fst (questionMarks dom dow))
                  = questionToStar dom).
  { unfold questionMarks.
    destruct (String.eqb_spec dom "*") as [Hd|Hd];
      destruct (String.eqb dow "*"); cbn [andb negb fst];
      try (split; [exact Hdom|reflexivity]).
    rewrite Hd. split; reflexivity. }
  assert (Hw : Props.token (quartzDayOfWeek (snd (questionMarks dom dow))
                              (f_dayOfWeek fields)) = true
               /\ questionToStar
                    (quartzDayOfWeek (snd (questionMarks dom dow))
                       (f_dayOfWeek fields))
                  = Props.quartzDays (f_dayOfWeek fields)).
  { unfold questionMarks, quartzDayOfWeek, Props.quartzDays. fold dow.
    destruct (joinValues_chars (map plusOne (values (f_dayOfWeek fields))))
      as [Hc Hne].
    destruct (String.eqb_spec dow "*") as [Hs|Hs].
    - destruct (String.eqb dom "*"); cbn [andb negb orb snd];
        split; reflexivity.
    - destruct (String.eqb_spec dow "?") as [Hk|Hk].
      + rewrite Hk.
        destruct (String.eqb dom "*"); cbn [andb negb orb snd];
          split; reflexivity.
      + assert (Hv : values (f_dayOfWeek fields) <> [])
          by (destruct Hdow as [?|[?|?]]; [contradiction..|assumption]).
        assert (Hne' : map plusOne (values (f_dayOfWeek fields)) <> [])
          by (destruct (values (f_dayOfWeek fields));
              [contradiction|discriminate]).
        destruct (String.eqb dom "*"); cbn [andb negb orb snd];
          apply String.eqb_neq in Hs; apply String.eqb_neq in Hk;
          rewrite ?Hs, ?Hk; cbn [andb negb orb];
          (split; [apply valueChars_token; auto
                  |now apply valueChars_not_question]). }
  destruct Hq as [Hq1 Hq2]. destruct Hw as [Hw1 Hw2].
  rewrite toCron_quartz_tokens by (repeat constructor; assumption).
  cbn [map]. rewrite Hq2, Hw2. reflexivity.
Qed.

Lemma questionToStar_token (t : string) :
  Props.token t = true -> Props.token (questionToStar t) = true.
Proof.
  intros H. unfold questionToStar. now destruct (String.eqb t "?").
Qed.

(** The raw texts of a parse result are tokens on which the calls of
    [parseField] ended. *)
Lemma raw_token_ends (fuel : nat) (e : string) (v : bool) (original : string)
  (fields : Fields) (errors : list string) (f : FieldName) :
  parse fuel e = Some (Parsed v original fields errors) ->
  Props.token (raw (getField fields f)) = true
  /\ Props.callEnds (raw (getField fields f)) f.
Proof.
  intros Hp. split; [|exact (callEnds_raw _ _ _ _ _ _ f Hp)].
  destruct (parse_tokens _ _ _ _ _ _ Hp) as [Htok _].
  rewrite Forall_forall in Htok. apply Htok.
  apply (in_map (fun f => raw (getField fields f))).
  destruct f; cbn; tauto.
Qed.

(** A printed list of values, when there is one, is a token on which the
    call of [parseField] ends. *)
Lemma joinValues_token_ends (vals : list jsnum) (f : FieldName) :
  vals <> [] ->
  Props.token (joinValues vals) = true
  /\ Props.callEnds (joinValues vals) f.
Proof.
  intros Hne. destruct (joinValues_chars vals) as [Hc Hn]. split.
  - apply valueChars_token; [exact Hc|now apply Hn].
  - apply callEnds_stepsOk, noSlash_stepsOk, valueChar_noSlash, Hc.
Qed.

(** X21.  Converting a valid expression to the Quartz format and back
    with [toCron(..., 'quartz')] does not give the schedule back when a
    day of the week is given: [toQuartz] moves every day-of-week value on
    by one (Quartz counts from 1 for Sunday) and [toCron] only drops the
    seconds and turns [?] into [*], so the days come back one too high
    (Monday as 2, which is Tuesday; Saturday as 7, which is Sunday).
    Minute, hour, day of month and month come back as typed, and a
    day of the week of [*] comes back as [*].  [toCron] returns, and the
    description of its result is that of the returned text.  It holds when
    the day of the week is [*] or [?], or has a value at least and no
    [NaN] among its values. *)
Theorem quartz_round_trip_shifts_weekday (fuel : nat)
  (e original : string) (fields : Fields) (errors : list string) :
  parse fuel e = Some (Parsed true original fields errors) ->
  raw (f_dayOfWeek fields) = "*" \/ raw (f_dayOfWeek fields) = "?"
  \/ (values (f_dayOfWeek fields) <> []
      /\ ~ In NaN (values (f_dayOfWeek fields))) ->
  exists q note,
    toQuartz fuel e = Some (Done "quartz" q None note)
    /\ exists fuel0 d,
         forall fuel', (fuel0 <= fuel')%nat ->
           describe fuel' (Props.quartzBack fields) = Some d
           /\ toCron fuel' q "quartz"
              = Some (Converted "cron" (Props.quartzBack fields) (Some d)
                        None).
Proof.
  intros Hp Hnum.
  assert (Hdow : raw (f_dayOfWeek fields) = "*"
                 \/ raw (f_dayOfWeek fields) = "?"
                 \/ values (f_dayOfWeek fields) <> []) by tauto.
  destruct (quartz_round_trip_text fuel 0 _ _ _ _ Hp Hdow)
    as [q [note [Hq _]]].
  exists q, note. split; [exact Hq|].
  assert (Hday : Props.token (Props.quartzDays (f_dayOfWeek fields)) = true
                 /\ Props.callEnds (Props.quartzDays (f_dayOfWeek fields))
                      dayOfWeek).
  { unfold Props.quartzDays.
    destruct (String.eqb_spec (raw (f_dayOfWeek fields)) "*") as [Hs|Hs];
      [split; [reflexivity|apply callEnds_star]|].
    destruct (String.eqb_spec (raw (f_dayOfWeek fields)) "?") as [Hk|Hk];
      [split; [reflexivity|apply callEnds_star]|].
    cbn [orb]. apply joinValues_token_ends.
    destruct Hdow as [?|[?|Hv]]; [contradiction..|].
    destruct (values (f_dayOfWeek fields)); [contradiction|discriminate]. }
  destruct (describe_tokens_end
              (questionToStar (raw (f_minute fields)))
              (questionToStar (raw (f_hour fields)))
              (questionToStar (raw (f_dayOfMonth fields)))
              (questionToStar (raw (f_month fields)))
              (Props.quartzDays (f_dayOfWeek fields)))
    as [fuel0 [d Hd]].
  - repeat constructor;
      [apply questionToStar_token, (raw_token_ends _ _ _ _ _ _ minute Hp)
      |apply questionToStar_token, (raw_token_ends _ _ _ _ _ _ hour Hp)
      |apply questionToStar_token,
         (raw_token_ends _ _ _ _ _ _ dayOfMonth Hp)
      |apply questionToStar_token, (raw_token_ends _ _ _ _ _ _ month Hp)
      |apply Hday].
  - apply callEnds_questionToStar, (raw_token_ends _ _ _ _ _ _ minute Hp).
  - apply callEnds_questionToStar, (raw_token_ends _ _ _ _ _ _ hour Hp).
  - apply callEnds_questionToStar,
      (raw_token_ends _ _ _ _ _ _ dayOfMonth Hp).
  - apply callEnds_questionToStar, (raw_token_ends _ _ _ _ _ _ month Hp).
  - apply Hday.
  - exists fuel0, d. intros fuel' Hf.
    pose proof (Hd fuel' Hf) as Hdesc. split; [exact Hdesc|].
    destruct (quartz_round_trip_text fuel fuel' _ _ _ _ Hp Hdow)
      as [q' [note' [Hq' Hback]]].
    rewrite Hq in Hq'. injection Hq' as <- _.
    unfold Props.quartzBack in *. now rewrite Hback, Hdesc.
Qed.

Lemma quartz_round_trip_shifts_weekday_witness :
  exists fields : Fields,
    parse 100 "0 9 * * 1" = Some (Parsed true "0 9 * * 1" fields [])
    /\ Props.quartzBack fields = "0 9 * * 2"
    /\ exists q note,
         toQuartz 100 "0 9 * * 1" = Some (Done "quartz" q None note)
         /\ exists fuel0 d,
              forall fuel', (fuel0 <= fuel')%nat ->
                describe fuel' (Props.quartzBack fields) = Some d
                /\ toCron fuel' q "quartz"
                   = Some (Converted "cron" (Props.quartzBack fields)
                             (Some d) None).
Proof.
  eexists. split; [vm_compute; reflexivity|]. split; [reflexivity|].
  eapply (quartz_round_trip_shifts_weekday 100 "0 9 * * 1" "0 9 * * 1"
            _ []).
  - vm_compute. reflexivity.
  - right. right. split; [discriminate|].
    intros [H|[]]. discriminate H.
Defined.

(** [.+] followed by the end of the pattern [\s*\)]: on a text without
    line ends that is closed by one [)], the greedy quantifier first runs
    to the end, fails there, and gives the closing [)] back. *)
Lemma rep_dot_to_end (R : Type) (cont : nat -> string -> option R) (r : R) :
  forall (body : string) (lo p : nat),
    Props.madeOf is_dot body = true ->
    (lo <= String.length body)%nat ->
    cont (p + String.length body)%nat ")" = Some r ->
    cont (p + String.length body + 1)%nat "" = None ->
    rep R Dot lo None p (body ++ ")") cont = Some r.
Proof.
  induction body as [|a body IH]; intros lo p Hdot Hlo Hyes Hno.
  - cbn [String.length] in *. rewrite Nat.add_0_r in *.
    assert (lo = 0%nat) by lia. subst lo.
    cbn [append rep option_map Nat.pred].
    change (in_cls Dot ")") with true. cbn [andb].
    replace (S p) with (p + 1)%nat by lia. now rewrite Hno.
  - rewrite madeOf_cons in Hdot. apply andb_true_iff in Hdot.
    destruct Hdot as [Ha Hdot]. cbn [String.length] in *.
    cbn [append rep option_map]. cbn [in_cls]. rewrite Ha. cbn [andb].
    rewrite (IH (Nat.pred lo) (S p) Hdot); [reflexivity|lia| |].
    + replace (S p + String.length body)%nat
        with (p + S (String.length body))%nat by lia. exact Hyes.
    + replace (S p + String.length body + 1)%nat
        with (p + S (String.length body) + 1)%nat by lia. exact Hno.
Qed.

Lemma take_app (a b : string) : take (String.length a) (a ++ b) = a.
Proof.
  unfold take. induction a as [|c a IH]; cbn.
  - destruct b; reflexivity.
  - now rewrite IH.
Qed.

Lemma wsfree_dots (s : string) :
  Props.wsfree s = true -> Props.madeOf is_dot s = true.
Proof.
  apply madeOf_impl.
  intros [[|] [|] [|] [|] [|] [|] [|] [|]]; vm_compute; intros H;
    first [reflexivity | discriminate H].
Qed.

(** A match at the position where the search starts is the result. *)
Lemma search_here (ci : bool) (r : re) (p : nat) (s : string) (m : Match) :
  rmatch Match ci r p s []
    (fun p' _ cs => Some (mkMatch p (take (p' - p) s) cs))
  = Some m ->
  search ci r p s = Some m.
Proof. destruct s; cbn [search]; intros ->; reflexivity. Qed.

(** The first group of [/cron\s*\(\s*(.+)\s*\)/i] on [cron(body)] is
    [body], for a body of tokens and single spaces. *)
Lemma exec_reAws (toks : list string) :
  toks <> [] -> Forall (fun t => Props.token t = true) toks ->
  exists m,
    exec true reAws ("cron(" ++ join " " toks ++ ")") = Some m
    /\ group m 1 = Some (join " " toks).
Proof.
  intros Hne Htok.
  pose proof (join_starts toks Hne Htok) as Hstart.
  assert (Hdots : Props.madeOf is_dot (join " " toks) = true).
  { apply madeOf_join; [reflexivity|].
    eapply Forall_impl; [|exact Htok]. cbn beta. intros t Ht.
    apply wsfree_dots. now apply token_wsfree. }
  generalize dependent (join " " toks). intros body Hstart Hdots.
  destruct body as [|c b]; [discriminate Hstart|].
  cbn in Hstart. apply negb_true_iff in Hstart.
  rewrite madeOf_cons in Hdots. apply andb_true_iff in Hdots.
  destruct Hdots as [Hc Hdots].
  eexists. split.
  - unfold exec. apply search_here. cbn [append]. unfold reAws, spaces0.
    cbn [cat rmatch].
    change (startsWith_ci
              (String "c" (String "r" (String "o" (String "n"
                 (String "(" (String c (b ++ ")")))))))
              "cron") with true.
    cbv iota. cbn [String.length drop Nat.add].
    cbn [rep]. change (in_cls Space "(") with false. cbn [andb].
    change (startsWith_ci (String "(" (String c (b ++ ")"))) "(") with true.
    cbv iota. cbn [String.length drop Nat.add].
    cbn [in_cls]. rewrite Hstart, Hc. cbn [andb Nat.pred option_map].
    erewrite rep_dot_to_end; [reflexivity|exact Hdots|lia| |].
    + reflexivity.
    + reflexivity.
  - unfold group. cbn [groups lookupGroup Nat.eqb].
    f_equal.
    replace (6 + String.length b - 5)%nat with (String.length (String c b))
      by (cbn [String.length]; lia).
    change (String c (b ++ ")")) with (String c b ++ ")").
    apply take_app.
Qed.

Lemma split_char_single (t : string) :
  Props.madeOf Props.notComma t = true -> split_char "," t = [t].
Proof.
  induction t as [|c t IH]; intros H; [reflexivity|].
  rewrite madeOf_cons in H. apply andb_true_iff in H. destruct H as [Hc Ht].
  unfold Props.notComma in Hc. apply negb_true_iff in Hc.
  cbn [split_char]. rewrite Hc, (IH Ht). reflexivity.
Qed.

Lemma split_char_app (t : string) :
  Props.madeOf Props.notComma t = true ->
  forall rest,
    split_char "," (t ++ String "," rest) = t :: split_char "," rest.
Proof.
  induction t as [|c t IH]; intros H rest; [reflexivity|].
  rewrite madeOf_cons in H. apply andb_true_iff in H. destruct H as [Hc Ht].
  unfold Props.notComma in Hc. apply negb_true_iff in Hc.
  cbn [append split_char]. rewrite Hc, (IH Ht). reflexivity.
Qed.

Lemma split_char_join (ts : list string) :
  ts <> [] ->
  Forall (fun t => Props.madeOf Props.notComma t = true) ts ->
  split_char "," (join "," ts) = ts.
Proof.
  induction ts as [|t rest IH]; [contradiction|]. intros _ H.
  inversion H as [|? ? Ht Hrest]; subst.
  destruct rest as [|t2 rest]; [now apply split_char_single|].
  rewrite join_cons. cbn [append]. rewrite (split_char_app t Ht).
  rewrite IH; [reflexivity|discriminate|exact Hrest].
Qed.

(** A day-of-week value moved on by [toAws] and printed is read back and
    moved back by [fromAws]. *)
Lemma awsDay_back (v : jsnum) :
  v = NaN \/ (exists z, v = Num z /\ 0 <= z <= 7) ->
  Props.madeOf Props.notComma (toString (plusOne v)) = true
  /\ remapAwsDay (toString (plusOne v)) = toString v.
Proof.
  intros [->|[z [-> Hz]]]; [split; reflexivity|].
  assert (Hcases : z = 0 \/ z = 1 \/ z = 2 \/ z = 3 \/ z = 4 \/ z = 5
                   \/ z = 6 \/ z = 7) by lia.
  repeat (destruct Hcases as [->|Hcases]; [split; reflexivity|]).
  subst z. split; reflexivity.
Qed.

Lemma awsDays_back (vals : list jsnum) :
  vals <> [] ->
  (forall v, In v vals -> v = NaN \/ (exists z, v = Num z /\ 0 <= z <= 7)) ->
  join "," (map remapAwsDay (split_char "," (joinValues (map plusOne vals))))
  = joinValues vals.
Proof.
  intros Hne Hall. unfold joinValues.
  rewrite split_char_join.
  - rewrite !map_map. f_equal. apply map_ext_in. intros v Hv.
    apply (awsDay_back v (Hall v Hv)).
  - destruct vals; [contradiction|discriminate].
  - rewrite map_map. apply Forall_forall. intros t Ht.
    apply in_map_iff in Ht. destruct Ht as [v [<- Hv]].
    apply (awsDay_back v (Hall v Hv)).
Qed.

(** The text [toAws] builds for a valid expression. *)
Lemma toAws_parsed (fuel : nat) (e original : string) (fields : Fields)
  (errors : list string) :
  parse fuel e = Some (Parsed true original fields errors) ->
  toAws fuel e
  = Some (Done "aws"
            ("cron("
             ++ join " "
                  [raw (f_minute fields); raw (f_hour fields);
                   fst (questionMarks (raw (f_dayOfMonth fields))
                          (raw (f_dayOfWeek fields)));
                   raw (f_month fields);
                   awsDayOfWeek
                     (snd (questionMarks (raw (f_dayOfMonth fields))
                             (raw (f_dayOfWeek fields))))
                     (f_dayOfWeek fields);
                   "*"]
             ++ ")")
            None
            (Some "AWS CloudWatch Events / EventBridge format (times in UTC)")).
Proof.
  intros Hp. unfold toAws. rewrite Hp. cbn [valid negb].
  destruct (questionMarks _ _) as [domField dowField0]. cbn [fst snd].
  do 2 f_equal. cbn [join]. rewrite !append_assoc. reflexivity.
Qed.

(** What [fromAws] does with six tokens between [cron(] and [)]. *)
Lemma fromAws_tokens (fuel : nat) (t0 t1 t2 t3 t4 t5 : string) :
  Forall (fun t => Props.token t = true) [t0; t1; t2; t3; t4; t5] ->
  fromAws fuel ("cron(" ++ join " " [t0; t1; t2; t3; t4; t5] ++ ")")
  = let dow :=
      if negb (String.eqb (questionToStar t4) "*")
      then join "," (map remapAwsDay (split_char "," (questionToStar t4)))
      else questionToStar t4 in
    match describe fuel (join " " [t0; t1; questionToStar t2; t3; dow]) with
    | Some d =>
        Some (Converted "cron" (join " " [t0; t1; questionToStar t2; t3; dow])
                (Some d) None)
    | None => None
    end.
Proof.
  intros Htok.
  assert (Hne : [t0; t1; t2; t3; t4; t5] <> []) by discriminate.
  destruct (exec_reAws _ Hne Htok) as [m [Hm Hg]].
  unfold fromAws. rewrite Hm, Hg.
  rewrite (trim_join _ Hne Htok), (split_ws_join _ Hne Htok).
  reflexivity.
Qed.

Lemma valueChars_not_star (s : string) :
  Props.madeOf Props.valueChar s = true -> String.eqb s "*" = false.
Proof.
  intros Hm. destruct (String.eqb_spec s "*") as [->|]; [discriminate Hm|].
  reflexivity.
Qed.

(** The text that comes back from the AWS format, with the description
    [describe] gives of it. *)
Lemma aws_round_trip_text (fuel fuel' : nat)
  (e original : string) (fields : Fields) (errors : list string) :
  parse fuel e = Some (Parsed true original fields errors) ->
  raw (f_dayOfWeek fields) = "*" \/ raw (f_dayOfWeek fields) = "?"
  \/ (exec false reRange (raw (f_dayOfWeek fields)) = None
      /\ values (f_dayOfWeek fields) <> []) ->
  exists a note,
    toAws fuel e = Some (Done "aws" a None note)
    /\ toCron fuel' a "aws"
       = match describe fuel' (Props.awsBack fields) with
         | Some d =>
             Some (Converted "cron" (Props.awsBack fields) (Some d) None)
         | None => None
         end.
Proof.
  intros Hp Hdow. destruct (parse_tokens _ _ _ _ _ _ Hp) as [Htok _].
  cbn [map FIELD_ORDER getField] in Htok.
  inversion Htok as [|? ? Hm H1]; subst.
  inversion H1 as [|? ? Hh H2]; subst.
  inversion H2 as [|? ? Hdom H3]; subst.
  inversion H3 as [|? ? Hmon H4]; subst.
  inversion H4 as [|? ? Hdw _]; subst.
  assert (Hvals : forall v, In v (values (f_dayOfWeek fields)) ->
                    v = NaN \/ (exists z, v = Num z /\ 0 <= z <= 7)).
  { intros [z|] Hv; [right|now left]. exists z. split; [reflexivity|].
    destruct (parse_fields_parsed _ _ _ _ _ _ dayOfWeek Hp) as [text Ht].
    exact (parseField_values_within _ _ _ _ z Ht Hv). }
  eexists _, _. split; [exact (toAws_parsed _ _ _ _ _ Hp)|].
  set (dom := raw (f_dayOfMonth fields)) in *.
  set (dow := raw (f_dayOfWeek fields)) in *.
  assert (Hq : Props.token (fst (questionMarks dom dow)) = true
               /\ questionToStar (fst (questionMarks dom dow))
                  = questionToStar dom).
  { unfold questionMarks.
    destruct (String.eqb_spec dom "*") as [Hd|Hd];
      destruct (String.eqb dow "*"); cbn [andb negb fst];
      try (split; [exact Hdom|reflexivity]).
    rewrite Hd. split; reflexivity. }
  set (back := fun t4 : string =>
         if negb (String.eqb (questionToStar t4) "*")
         then join "," (map remapAwsDay (split_char "," (questionToStar t4)))
         else questionToStar t4).
  assert (Hw : Props.token (awsDayOfWeek (snd (questionMarks dom dow))
                              (f_dayOfWeek fields)) = true
               /\ back (awsDayOfWeek (snd (questionMarks dom dow))
                          (f_dayOfWeek fields))
                  = Props.awsDays (f_dayOfWeek fields)).
  { unfold questionMarks, awsDayOfWeek, Props.awsDays. fold dow.
    destruct (joinValues_chars (map plusOne (values (f_dayOfWeek fields))))
      as [Hc Hne].
    destruct (String.eqb_spec dow "*") as [Hs|Hs].
    - destruct (String.eqb dom "*"); cbn [andb negb orb snd];
        split; reflexivity.
    - destruct (String.eqb_spec dow "?") as [Hk|Hk].
      + rewrite Hk.
        destruct (String.eqb dom "*"); cbn [andb negb orb snd];
          split; reflexivity.
      + assert (Hv : exec false reRange dow = None
                     /\ values (f_dayOfWeek fields) <> [])
          by (destruct Hdow as [?|[?|?]]; [contradiction..|assumption]).
        destruct Hv as [Hrange Hv].
        assert (Hne' : map plusOne (values (f_dayOfWeek fields)) <> [])
          by (destruct (values (f_dayOfWeek fields));
              [contradiction|discriminate]).
        destruct (String.eqb dom "*"); cbn [andb negb orb snd];
          apply String.eqb_neq in Hs; apply String.eqb_neq in Hk;
          rewrite ?Hs, ?Hk; cbn [andb negb orb]; rewrite Hrange;
          (split; [apply valueChars_token; auto|]);
          unfold back; rewrite (valueChars_not_question _ Hc),
            (valueChars_not_star _ Hc); cbn [negb];
          now apply awsDays_back. }
  destruct Hq as [Hq1 Hq2]. destruct Hw as [Hw1 Hw2].
  unfold toCron. change (toLowerCase "aws") with "aws".
  change (String.eqb "aws" "aws") with true. cbv iota.
  rewrite fromAws_tokens by (repeat constructor; assumption).
  cbv zeta. fold (back (awsDayOfWeek (snd (questionMarks dom dow))
                          (f_dayOfWeek fields))).
  rewrite Hq2, Hw2. reflexivity.
Qed.

(** X22.  Converting a valid expression to the AWS format and back with
    [toCron(..., 'aws')] gives the minute, hour and month texts as typed,
    the day of month with [?] read as [*], and the day of the week as the
    list of the field's values: the days moved on by one for AWS are moved
    back, with names and stepped or named ranges written out as numbers.
    A day of the week of [*] comes back as [*].  [toCron] returns, and the
    description of its result is that of the returned text.  It holds when
    the day of the week is [*] or [?], or has a value at least, no [NaN]
    among its values, and is not typed as a plain numeric range ([1-5]),
    which [toAws] passes on as a range. *)
Theorem aws_round_trip_keeps_days (fuel : nat)
  (e original : string) (fields : Fields) (errors : list string) :
  parse fuel e = Some (Parsed true original fields errors) ->
  raw (f_dayOfWeek fields) = "*" \/ raw (f_dayOfWeek fields) = "?"
  \/ (exec false reRange (raw (f_dayOfWeek fields)) = None
      /\ values (f_dayOfWeek fields) <> []
      /\ ~ In NaN (values (f_dayOfWeek fields))) ->
  exists a note,
    toAws fuel e = Some (Done "aws" a None note)
    /\ exists fuel0 d,
         forall fuel', (fuel0 <= fuel')%nat ->
           describe fuel' (Props.awsBack fields) = Some d
           /\ toCron fuel' a "aws"
              = Some (Converted "cron" (Props.awsBack fields) (Some d) None).
Proof.
  intros Hp Hnum.
  assert (Hdow : raw (f_dayOfWeek fields) = "*"
                 \/ raw (f_dayOfWeek fields) = "?"
                 \/ (exec false reRange (raw (f_dayOfWeek fields)) = None
                     /\ values (f_dayOfWeek fields) <> [])) by tauto.
  destruct (aws_round_trip_text fuel 0 _ _ _ _ Hp Hdow)
    as [a [note [Ha _]]].
  exists a, note. split; [exact Ha|].
  assert (Hday : Props.token (Props.awsDays (f_dayOfWeek fields)) = true
                 /\ Props.callEnds (Props.awsDays (f_dayOfWeek fields))
                      dayOfWeek).
  { unfold Props.awsDays.
    destruct (String.eqb_spec (raw (f_dayOfWeek fields)) "*") as [Hs|Hs];
      [split; [reflexivity|apply callEnds_star]|].
    destruct (String.eqb_spec (raw (f_dayOfWeek fields)) "?") as [Hk|Hk];
      [split; [reflexivity|apply callEnds_star]|].
    cbn [orb]. apply joinValues_token_ends.
    destruct Hdow as [?|[?|[_ Hv]]]; [contradiction..|exact Hv]. }
  destruct (describe_tokens_end
              (raw (f_minute fields)) (raw (f_hour fields))
              (questionToStar (raw (f_dayOfMonth fields)))
              (raw (f_month fields))
              (Props.awsDays (f_dayOfWeek fields)))
    as [fuel0 [d Hd]].
  - repeat constructor;
      [apply (raw_token_ends _ _ _ _ _ _ minute Hp)
      |apply (raw_token_ends _ _ _ _ _ _ hour Hp)
      |apply questionToStar_token,
         (raw_token_ends _ _ _ _ _ _ dayOfMonth Hp)
      |apply (raw_token_ends _ _ _ _ _ _ month Hp)
      |apply Hday].
  - apply (raw_token_ends _ _ _ _ _ _ minute Hp).
  - apply (raw_token_ends _ _ _ _ _ _ hour Hp).
  - apply callEnds_questionToStar,
      (raw_token_ends _ _ _ _ _ _ dayOfMonth Hp).
  - apply (raw_token_ends _ _ _ _ _ _ month Hp).
  - apply Hday.
  - exists fuel0, d. intros fuel' Hf.
    pose proof (Hd fuel' Hf) as Hdesc. split; [exact Hdesc|].
    destruct (aws_round_trip_text fuel fuel' _ _ _ _ Hp Hdow)
      as [a' [note' [Ha' Hback]]].
    rewrite Ha in Ha'. injection Ha' as <- _.
    unfold Props.awsBack in *. now rewrite Hback, Hdesc.
Qed.

Lemma aws_round_trip_keeps_days_witness :
  exists fields : Fields,
    parse 100 "30 8 * * mon-fri/2"
    = Some (Parsed true "30 8 * * mon-fri/2" fields [])
    /\ Props.awsBack fields = "30 8 * * 1,3,5"
    /\ exists a note,
         toAws 100 "30 8 * * mon-fri/2" = Some (Done "aws" a None note)
         /\ exists fuel0 d,
              forall fuel', (fuel0 <= fuel')%nat ->
                describe fuel' (Props.awsBack fields) = Some d
                /\ toCron fuel' a "aws"
                   = Some (Converted "cron" (Props.awsBack fields) (Some d)
                             None).
Proof.
  eexists. split; [vm_compute; reflexivity|]. split; [reflexivity|].
  eapply (aws_round_trip_keeps_days 100 "30 8 * * mon-fri/2"
            "30 8 * * mon-fri/2" _ []).
  - vm_compute. reflexivity.
  - right. right. split; [vm_compute; reflexivity|].
    split; [discriminate|].
    intros [H|[H|[H|[]]]]; discriminate H.
Defined.

Lemma startsWith_ci_nil (s : string) : startsWith_ci s "" = true.
Proof. now destruct s. Qed.

Lemma detectFormat_cron_text (x : string) :
  detectFormat ("cron(" ++ x ++ " *)") = Some "aws".
Proof.
  unfold detectFormat.
  rewrite trim_id.
  - unfold test, exec. cbn [append].
    erewrite search_here; [reflexivity|].
    unfold reCronOpen, spaces0. cbn [cat rmatch Nat.eqb].
    change (startsWith_ci
              (String "c" (String "r" (String "o" (String "n"
                 (String "(" (x ++ " *)"))))))
              "cron") with true.
    cbv iota. cbn [String.length drop Nat.add rep].
    change (in_cls Space "(") with false. cbn [andb].
    cbn [startsWith_ci]. rewrite startsWith_ci_nil. reflexivity.
  - reflexivity.
  - change ("cron(" ++ x ++ " *)") with ("cron(" ++ (x ++ " *)")).
    rewrite <- append_assoc. apply endsNonSpace_app. discriminate.
Qed.

(** X24.  [detectFormat] recognizes every text that [toAws] produces as
    the AWS format, so that the converter can read its own output back
    without being told the format. *)
Theorem detectFormat_recognizes_toAws (fuel : nat) (e : string)
  (c : Conversion) :
  toAws fuel e = Some c -> done c = true ->
  exists a, resultText c = Some a /\ detectFormat a = Some "aws".
Proof.
  unfold toAws. destruct (parse fuel e) as [parsed|]; [|discriminate].
  destruct (negb (valid parsed)).
  - intros H. injection H as <-. discriminate.
  - destruct parsed as [|err sug|v o fields errors|o slots errors];
      try (intros H; injection H as <-; discriminate).
    destruct (questionMarks _ _) as [domField dowField0].
    intros H _. injection H as <-. eexists. split; [reflexivity|].
    match goal with
    | |- detectFormat
           (String "c" (String "r" (String "o" (String "n" (String "("
              (?m ++ String " " (?h ++ String " " (?d ++ String " "
                 (?mo ++ String " " (?w ++ " *)")))))))))) = _ =>
        replace (m ++ String " " (h ++ String " " (d ++ String " "
                   (mo ++ String " " (w ++ " *)")))))
          with ((m ++ " " ++ h ++ " " ++ d ++ " " ++ mo ++ " " ++ w) ++ " *)")
          by (rewrite !append_assoc; reflexivity)
    end.
    apply (detectFormat_cron_text
             (raw (f_minute fields) ++ " " ++ raw (f_hour fields) ++ " "
              ++ domField ++ " " ++ raw (f_month fields) ++ " "
              ++ awsDayOfWeek dowField0 (f_dayOfWeek fields))).
Qed.

Lemma detectFormat_recognizes_toAws_witness :
  exists a,
    resultText
      (Done "aws" "cron(0 9 ? * 2-6 *)" None
         (Some "AWS CloudWatch Events / EventBridge format (times in UTC)"))
    = Some a
    /\ detectFormat a = Some "aws".
Proof.
  apply (detectFormat_recognizes_toAws 100 "0 9 * * 1-5").
  - vm_compute. reflexivity.
  - reflexivity.
Defined.

(** *** Aliases *)

Lemma lower_char_at (c : ascii) : lower_char c = "@"%char -> c = "@"%char.
Proof.
  destruct c as [[|] [|] [|] [|] [|] [|] [|] [|]]; vm_compute; intros H;
    first [reflexivity | discriminate H].
Qed.

(** X3.  An alias is read whatever its case and the white space around
    it, and stands for its expansion: [parse] returns what it returns on
    the five-field text of the table, which is valid, and [original] is
    that text, not the alias as typed. *)
Theorem parse_alias_is_its_expansion (fuel : nat)
  (e alias expansion : string) :
  In (alias, Some expansion) ALIASES ->
  toLowerCase (trim e) = alias ->
  (100 <= fuel)%nat ->
  parse fuel e = parse fuel expansion
  /\ exists fields,
       parse fuel e = Some (Parsed true expansion fields [])
       /\ forall f, outOfRange (getField fields f) = [].
Proof.
  intros Hin Hlow Hfuel.
  assert (Hat : startsWith (trim e) "@" = true).
  { assert (Ha : exists r, alias = String "@" r).
    { cbn in Hin.
      repeat (destruct Hin as [Hin|Hin]; [injection Hin as <- _; eauto|]).
      destruct Hin. }
    destruct Ha as [r ->]. destruct (trim e) as [|c s]; [discriminate Hlow|].
    cbn [toLowerCase] in Hlow. injection Hlow as Hc _.
    apply lower_char_at in Hc. subst c. now destruct s. }
  assert (Hcases :
    forall x, In (alias, Some x) ALIASES ->
      lookupAlias ALIASES alias = Some x
      /\ String.eqb alias "@reboot" = false
      /\ parse 100 x = parseFields 100 x
      /\ exists fields,
           parseFields 100 x = Some (Parsed true x fields [])
           /\ forall f, outOfRange (getField fields f) = []).
  { intros x Hx. cbn in Hx.
    repeat (destruct Hx as [Hx|Hx];
            [injection Hx as <- <-;
             repeat split; try reflexivity;
             eexists; split; [vm_compute; reflexivity|];
             intros []; reflexivity|]).
    destruct Hx as [Hx|[]]. discriminate Hx. }
  destruct (Hcases expansion Hin) as [Hl [Hr [Hpp [fields [Hp Hoor]]]]].
  assert (He : parse fuel e = Some (Parsed true expansion fields [])).
  { unfold parse. rewrite Hat, Hlow, Hr, Hl.
    exact (parseFields_fuel _ _ _ _ Hfuel Hp). }
  split.
  - rewrite He. symmetry. apply (parse_fuel 100 fuel _ _ Hfuel).
    now rewrite Hpp.
  - exists fields. split; [exact He|exact Hoor].
Qed.

Lemma parse_alias_is_its_expansion_witness :
  parse 120 "  @Weekly " = parse 120 "0 0 * * 0"
  /\ exists fields,
       parse 120 "  @Weekly " = Some (Parsed true "0 0 * * 0" fields [])
       /\ forall f, outOfRange (getField fields f) = [].
Proof.
  apply (parse_alias_is_its_expansion 120 "  @Weekly " "@weekly" "0 0 * * 0").
  - vm_compute. tauto.
  - vm_compute. reflexivity.
  - lia.
Defined.

(** *** Six fields *)

Lemma parseFive_original (fuel : nat) (e1 e2 : string) (fs : list string) :
  Props.forgetOriginal (parseFive fuel e1 fs)
  = Props.forgetOriginal (parseFive fuel e2 fs).
Proof.
  unfold parseFive.
  destruct (parseFieldCall fuel (nth 0 fs "") _) as [c0|]; [|reflexivity].
  destruct (parseFieldCall fuel (nth 1 fs "") _) as [c1|]; [|reflexivity].
  destruct (parseFieldCall fuel (nth 2 fs "") _) as [c2|]; [|reflexivity].
  destruct (parseFieldCall fuel (nth 3 fs "") _) as [c3|]; [|reflexivity].
  destruct (parseFieldCall fuel (nth 4 fs "") _) as [c4|]; [|reflexivity].
  destruct c0, c1, c2, c3, c4; reflexivity.
Qed.

Lemma startsWith_nil (s : string) : startsWith s "" = true.
Proof. now destruct s. Qed.

Lemma first_token_head (s t : string) (rest : list string) :
  split_ws s = t :: rest -> Props.startsNonSpace s = true ->
  startsWith s "@" = startsWith t "@".
Proof.
  destruct s as [|c s]; [discriminate|].
  unfold split_ws. cbn [split_ws_aux Props.startsNonSpace].
  intros H Hc. apply negb_true_iff in Hc. rewrite Hc in H.
  assert (Ht : exists t', t = String c t').
  { destruct (split_ws_aux false s); injection H as <- _; eauto. }
  destruct Ht as [t' ->]. cbn [startsWith]. now rewrite !startsWith_nil.
Qed.

Lemma is_space_lower (c : ascii) : is_space (lower_char c) = is_space c.
Proof.
  destruct c as [[|] [|] [|] [|] [|] [|] [|] [|]]; vm_compute; reflexivity.
Qed.

Lemma split_ws_lower_length (s : string) :
  forall inrun,
    List.length (split_ws_aux inrun (toLowerCase s))
    = List.length (split_ws_aux inrun s).
Proof.
  induction s as [|c s IH]; intros inrun; [reflexivity|].
  cbn [toLowerCase split_ws_aux]. rewrite is_space_lower.
  destruct (is_space c).
  - destruct inrun; cbn [List.length]; now rewrite IH.
  - specialize (IH false).
    destruct (split_ws_aux false (toLowerCase s)),
             (split_ws_aux false s); cbn [List.length] in *;
      congruence.
Qed.

(** A text of six tokens is no alias. *)
Lemma six_tokens_no_alias (a : string) :
  List.length (split_ws a) = 6%nat ->
  String.eqb a "@reboot" = false /\ lookupAlias ALIASES a = None.
Proof.
  intros Hlen.
  assert (Hne : forall k, List.length (split_ws k) <> 6%nat ->
                  String.eqb k a = false).
  { intros k Hk. destruct (String.eqb_spec k a) as [->|]; [|reflexivity].
    contradiction. }
  split.
  - rewrite String.eqb_sym. apply Hne. vm_compute. discriminate.
  - unfold ALIASES. cbn [lookupAlias].
    rewrite !Hne by (vm_compute; discriminate). reflexivity.
Qed.

(** X4.  Of a six-field expression the first field, the seconds, is never
    read, unless it starts with [@]: whatever else stands there, numbers
    out of range or other text, the result has the validity, the fields
    and the errors of the five fields that follow it, and only [original]
    differs.  When the first field starts with [@] the whole text is taken
    for an alias, and refused as an unknown one.  The five fields that
    follow are an expression of their own, which does not start with
    [@]. *)
Theorem parse_ignores_seconds_field (fuel : nat) (e e' seconds : string)
  (rest : list string) :
  split_ws (trim e) = seconds :: rest ->
  split_ws (trim e') = rest ->
  List.length rest = 5%nat ->
  startsWith (trim e') "@" = false ->
  (startsWith seconds "@" = false ->
   Props.forgetOriginal (parse fuel e) = Props.forgetOriginal (parse fuel e'))
  /\ (startsWith seconds "@" = true ->
      parse fuel e
      = Some (Failure ("Unknown alias: " ++ toLowerCase (trim e))
                ("Valid aliases: " ++ join ", " (map fst ALIASES)))).
Proof.
  intros He He' Hlen Hat'.
  assert (Hstart : startsWith (trim e) "@" = startsWith seconds "@").
  { destruct (trim_shape e) as [Hnil|[Hs _]].
    - rewrite Hnil in He. injection He as _ <-. discriminate Hlen.
    - exact (first_token_head _ _ _ He Hs). }
  split; intros Hat; rewrite <- Hstart in Hat.
  - unfold parse, parseFields.
    rewrite Hat, Hat', He, He'. cbn [List.length]. rewrite Hlen.
    cbn [Nat.ltb Nat.leb Nat.eqb orb tl]. apply parseFive_original.
  - assert (Hsix : List.length (split_ws (toLowerCase (trim e))) = 6%nat).
    { unfold split_ws. rewrite split_ws_lower_length.
      fold (split_ws (trim e)). rewrite He. cbn [List.length].
      now rewrite Hlen. }
    destruct (six_tokens_no_alias _ Hsix) as [Hr Hl].
    unfold parse. rewrite Hat, Hr, Hl. reflexivity.
Qed.

Lemma parse_ignores_seconds_field_witness :
  (startsWith "99x" "@" = false ->
   Props.forgetOriginal (parse 100 " 99x   */15 9-17 * * mon-fri")
   = Props.forgetOriginal (parse 100 "*/15 9-17 * * mon-fri"))
  /\ (startsWith "99x" "@" = true ->
      parse 100 " 99x   */15 9-17 * * mon-fri"
      = Some (Failure
                ("Unknown alias: "
                 ++ toLowerCase (trim " 99x   */15 9-17 * * mon-fri"))
                ("Valid aliases: " ++ join ", " (map fst ALIASES)))).
Proof.
  apply (parse_ignores_seconds_field 100 " 99x   */15 9-17 * * mon-fri"
           "*/15 9-17 * * mon-fri" "99x"
           ["*/15"; "9-17"; "*"; "*"; "mon-fri"]);
    vm_compute; reflexivity.
Defined.

(** *** [describe] *)

Lemma join_head (sep : string) (c : ascii) (x : string) (l : list string) :
  exists r, join sep (String c x :: l) = String c r.
Proof. destruct l; cbn [join append]; eauto. Qed.

Lemma describeMinute_head (f : ParsedField) :
  exists (c : ascii) (x : string),
    describeMinute f = [String c x] /\ (c = "E" \/ c = "A")%char.
Proof.
  unfold describeMinute. destruct (String.eqb (raw f) "*"); [eauto|].
  destruct (values f) as [|v [|v' l]];
    try destruct (str_includes (raw f) "/"); cbn [append]; eauto.
Qed.

(** X6.  A description starts with [Invalid: ] exactly for the
    expressions [parse] rejects; for every valid expression, [@reboot]
    included, [describe] gives a text that starts otherwise, with the
    minute clause first. *)
Theorem describe_invalid_prefix (fuel : nat) (e : string) (r : ParseResult) :
  parse fuel e = Some r ->
  exists d,
    describe fuel e = Some d
    /\ startsWith d "Invalid: " = negb (valid r).
Proof.
  intros Hp. unfold describe. rewrite Hp.
  destruct r as [|err sug|[|] original fields errors|original slots errors];
    cbn [valid negb].
  - eexists. split; reflexivity.
  - eexists. split; [reflexivity|]. cbn. apply startsWith_nil.
  - eexists. split; [reflexivity|].
    destruct (describeMinute_head (f_minute fields)) as [c [x [-> Hc]]].
    cbn [app].
    destruct (join_head " " c x
                (describeHour (f_hour fields)
                 ++ describeDayOfMonth (f_dayOfMonth fields)
                 ++ describeMonth (f_month fields)
                 ++ describeDayOfWeek (f_dayOfWeek fields))%list) as [d ->].
    destruct Hc as [->| ->]; reflexivity.
  - eexists. split; [reflexivity|]. cbn. apply startsWith_nil.
  - eexists. split; [reflexivity|]. cbn. apply startsWith_nil.
Qed.

Lemma describe_invalid_prefix_witness :
  exists r,
    parse 100 "0 25 * * *" = Some r
    /\ valid r = false
    /\ exists d,
         describe 100 "0 25 * * *" = Some d
         /\ startsWith d "Invalid: " = negb (valid r).
Proof.
  eexists. split; [vm_compute; reflexivity|]. split; [reflexivity|].
  apply (describe_invalid_prefix 100 "0 25 * * *").
  vm_compute. reflexivity.
Defined.

(** *** What a quantifier and a group capture *)

(** A successful [k{lo,}] consumed a prefix made of the class, at least
    [lo] characters long, and went on with the rest. *)
Lemma rep_inv (R : Type) (k : cls) (cont : nat -> string -> option R)
  (r : R) :
  forall (s : string) (lo p : nat),
    rep R k lo None p s cont = Some r ->
    exists g s',
      s = g ++ s'
      /\ Props.madeOf (in_cls k) g = true
      /\ (lo <= String.length g)%nat
      /\ cont (p + String.length g)%nat s' = Some r.
Proof.
  induction s as [|c s IH]; intros lo p H.
  - cbn [rep] in H. destruct lo; [|discriminate H].
    exists "", "". cbn [String.length]. rewrite Nat.add_0_r.
    repeat split; [lia|exact H].
  - cbn [rep option_map] in H.
    assert (Hstop : match lo with O => cont p (String c s) | S _ => None end
                    = Some r ->
                    exists g s',
                      String c s = g ++ s'
                      /\ Props.madeOf (in_cls k) g = true
                      /\ (lo <= String.length g)%nat
                      /\ cont (p + String.length g)%nat s' = Some r).
    { destruct lo; [|discriminate]. intros Hc.
      exists "", (String c s). cbn [String.length]. rewrite Nat.add_0_r.
      repeat split; [lia|exact Hc]. }
    destruct (in_cls k c) eqn:Hk; cbn [andb] in H; [|now apply Hstop].
    destruct (rep R k (Nat.pred lo) None (S p) s cont) as [r'|] eqn:Hrec;
      [|now apply Hstop].
    injection H as ->.
    destruct (IH _ _ Hrec) as [g [s' [-> [Hg [Hlo Hc]]]]].
    exists (String c g), s'. cbn [append String.length].
    rewrite madeOf_cons, Hk, Hg. repeat split; [lia|].
    replace (p + S (String.length g))%nat with (S p + String.length g)%nat
      by lia.
    exact Hc.
Qed.

Lemma rep_some (R : Type) (k : cls) (cont : nat -> string -> option R)
  (r : R) :
  forall (s : string) (lo : nat) (hi : option nat) (p : nat),
    rep R k lo hi p s cont = Some r ->
    exists p' s', cont p' s' = Some r.
Proof.
  induction s as [|c s IH]; intros lo hi p H; cbn [rep] in H.
  - destruct lo; [eauto|discriminate H].
  - assert (Hstop : match lo with O => cont p (String c s) | S _ => None end
                    = Some r -> exists p' s', cont p' s' = Some r)
      by (destruct lo; [eauto|discriminate]).
    destruct (in_cls k c && _); [|now apply Hstop].
    destruct (rep R k (Nat.pred lo) (option_map Nat.pred hi) (S p) s cont)
      as [r'|] eqn:Hrec; [|now apply Hstop].
    injection H as ->. exact (IH _ _ _ Hrec).
Qed.

(** A pattern without groups hands the captures on as they are. *)
Lemma rmatch_nogroups (R : Type) (ci : bool) (r : re) :
  Props.nogroups r = true ->
  forall (p : nat) (s : string) (cs : Caps)
         (cont : nat -> string -> Caps -> option R) (x : R),
    rmatch R ci r p s cs cont = Some x ->
    exists p' s', cont p' s' cs = Some x.
Proof.
  induction r as [l|k lo hi|a IHa b IHb|a IHa b IHb|a IHa|n a IHa| |];
    intros Hng p s cs cont x H; cbn [rmatch Props.nogroups] in *.
  - destruct (if ci then startsWith_ci s l else startsWith s l);
      [eauto|discriminate H].
  - apply rep_some in H. exact H.
  - apply andb_true_iff in Hng. destruct Hng as [Ha Hb].
    destruct (IHa Ha _ _ _ _ _ H) as [p1 [s1 H1]].
    exact (IHb Hb _ _ _ _ _ H1).
  - apply andb_true_iff in Hng. destruct Hng as [Ha Hb].
    destruct (rmatch R ci a p s cs cont) as [y|] eqn:Hy.
    + injection H as ->. exact (IHa Ha _ _ _ _ _ Hy).
    + exact (IHb Hb _ _ _ _ _ H).
  - destruct (rmatch R ci a p s cs cont) as [y|] eqn:Hy.
    + injection H as ->. exact (IHa Hng _ _ _ _ _ Hy).
    + eauto.
  - discriminate Hng.
  - destruct (p =? 0)%nat; [eauto|discriminate H].
  - destruct s; [eauto|discriminate H].
Qed.

Lemma search_inv (ci : bool) (r : re) (m : Match) :
  forall (s : string) (p : nat),
    search ci r p s = Some m ->
    exists p0 s0,
      rmatch Match ci r p0 s0 []
        (fun p' _ cs => Some (mkMatch p0 (take (p' - p0) s0) cs))
      = Some m.
Proof.
  induction s as [|c s IH]; intros p H; cbn [search] in H.
  - destruct (rmatch Match ci r p "" [] _) as [y|] eqn:Hy; [|discriminate H].
    injection H as ->. eauto.
  - destruct (rmatch Match ci r p (String c s) [] _) as [y|] eqn:Hy.
    + injection H as ->. eauto.
    + exact (IH _ H).
Qed.

(** The [N] of [every N minutes] and [every N hours]: what the group
    [(\d+)] captures is a run of digits, and not empty. *)
Lemma every_N_digits (unit : string) (input : string) (m : Match) :
  exec true
    (cat [Lit "every"; spaces1; Grp 1 (Rep Digit 1 None); spaces1; Lit unit;
          Opt (Lit "s")]) input = Some m ->
  exists g,
    group m 1 = Some g /\ Props.madeOf is_digit g = true /\ g <> "".
Proof.
  unfold exec. intros H. apply search_inv in H. destruct H as [p0 [s0 H]].
  cbn [cat rmatch] in H.
  destruct (startsWith_ci s0 "every"); [|discriminate H].
  unfold spaces1 in H at 1. apply rep_inv in H.
  destruct H as [g1 [s1 [_ [_ [_ H]]]]].
  apply rep_inv in H. destruct H as [g [s2 [Hs [Hg [Hlen H]]]]].
  apply (rmatch_nogroups Match true spaces1 eq_refl) in H.
  destruct H as [p' [s' H]].
  assert (Hgroups : groups m
                    = [(1%nat,
                        take (p0 + String.length "every" + String.length g1
                              + String.length g
                              - (p0 + String.length "every"
                                 + String.length g1)) s1)]).
  { destruct (startsWith_ci s' unit); [|discriminate H].
    destruct (startsWith_ci (drop (String.length unit) s') "s");
      injection H as <-; reflexivity. }
  exists g. unfold group. rewrite Hgroups. unfold group. cbn [groups lookupGroup Nat.eqb].
  split; [|split].
  - f_equal. subst. rewrite Nat.add_comm, Nat.add_sub. apply take_app.
  - exact Hg.
  - destruct g; [cbn in Hlen; lia|discriminate].
Qed.

(** *** The texts of the second tier of [generate] *)

Lemma digit_facts (c : ascii) :
  is_digit c = true ->
  lower_char c = c /\ is_space c = false
  /\ Ascii.eqb c "," = false /\ Ascii.eqb c "/" = false
  /\ Ascii.eqb c "-" = false /\ Ascii.eqb c "+" = false
  /\ 0 <= digit_val c <= 9.
Proof.
  destruct c as [[|] [|] [|] [|] [|] [|] [|] [|]]; vm_compute;
    intros H; try discriminate H; repeat split; discriminate.
Qed.

Lemma toLowerCase_digits (g : string) :
  Props.madeOf is_digit g = true -> toLowerCase g = g.
Proof.
  induction g as [|c g IH]; intros H; [reflexivity|].
  rewrite madeOf_cons in H. apply andb_true_iff in H. destruct H as [Hc Hg].
  cbn [toLowerCase]. rewrite (IH Hg).
  now rewrite (proj1 (digit_facts c Hc)).
Qed.

Lemma parse_digits_digits (g : string) :
  Props.madeOf is_digit g = true ->
  forall a, 0 <= a ->
    exists n, 0 <= n /\ parse_digits g (Some a) = Some n.
Proof.
  induction g as [|c g IH]; intros H a Ha; [exists a; now split|].
  rewrite madeOf_cons in H. apply andb_true_iff in H. destruct H as [Hc Hg].
  cbn [parse_digits]. rewrite Hc. apply (IH Hg).
  pose proof (digit_facts c Hc) as Hd. lia.
Qed.

(** [parseInt] of a run of digits is a number, and not negative. *)
Lemma parseInt_digits (g : string) :
  Props.madeOf is_digit g = true -> g <> "" ->
  exists n, 0 <= n /\ parseInt g = Num n.
Proof.
  intros H Hne. destruct g as [|c g]; [contradiction|].
  rewrite madeOf_cons in H. apply andb_true_iff in H. destruct H as [Hc Hg].
  pose proof (digit_facts c Hc) as [_ [Hsp [_ [_ [Hminus [Hplus Hval]]]]]].
  unfold parseInt. cbn [trimStart]. rewrite Hsp.
  assert (Hbody : (let '(sign, body) :=
                     match String c g with
                     | String "-" r => (-1, r)
                     | String "+" r => (1, r)
                     | _ => (1, String c g)
                     end in
                   match parse_digits body None with
                   | Some v => Num (sign * v)
                   | None => NaN
                   end)
                  = match parse_digits (String c g) None with
                    | Some v => Num (1 * v)
                    | None => NaN
                    end).
  { destruct c as [[|] [|] [|] [|] [|] [|] [|] [|]];
      try discriminate Hc; reflexivity. }
  rewrite Hbody. cbn [parse_digits]. rewrite Hc.
  destruct (parse_digits_digits g Hg (10 * 0 + digit_val c) ltac:(lia))
    as [n [Hn ->]].
  exists n. split; [exact Hn|]. f_equal. lia.
Qed.

(** The segments of a step text [*/N] of the minute or hour field. *)
Lemma step_text_segments (f : FieldName) (g : string) :
  f = minute \/ f = hour ->
  Props.madeOf is_digit g = true -> g <> "" ->
  split_char "," (normalizedField ("*/" ++ g) (FIELDS f)) = ["*/" ++ g]
  /\ rangeOf ("*/" ++ g) = "*"
  /\ stepNumOf ("*/" ++ g) = parseInt g.
Proof.
  intros Hf Hg Hne.
  assert (Hmade : forall sep, Ascii.eqb "*" sep = false ->
                    Ascii.eqb "/" sep = false ->
                    (forall c, is_digit c = true -> Ascii.eqb c sep = false) ->
                    Props.madeOf (fun c => negb (Ascii.eqb c sep))
                      ("*/" ++ g) = true).
  { intros sep H1 H2 H3. cbn [append]. rewrite !madeOf_cons, H1, H2.
    cbn [negb andb]. apply (madeOf_impl is_digit); [|exact Hg].
    intros c Hc. now rewrite (H3 c Hc). }
  assert (Hslash : split_char "/" ("*/" ++ g) = ["*"; g]).
  { cbn [append split_char].
    change (Ascii.eqb "*" "/") with false.
    change (Ascii.eqb "/" "/") with true. cbv iota.
    rewrite (split_char_none "/" g); [reflexivity|].
    apply (madeOf_impl is_digit); [|exact Hg].
    intros c Hc. now rewrite (proj1 (proj2 (proj2 (proj2 (digit_facts c Hc))))). }
  split; [|split].
  - assert (Hnorm : normalizedField ("*/" ++ g) (FIELDS f) = "*/" ++ g).
    { destruct Hf as [-> | ->]; unfold normalizedField;
        cbn [FIELDS names replaceNames append toLowerCase];
        rewrite (toLowerCase_digits g Hg); reflexivity. }
    rewrite Hnorm. apply split_char_none. apply Hmade; try reflexivity.
    intros c Hc. apply (digit_facts c Hc).
  - unfold rangeOf. now rewrite Hslash.
  - unfold stepNumOf, stepOf. rewrite Hslash. cbn [nth_error].
    destruct g; [contradiction|reflexivity].
Qed.

Lemma fixedTexts_sound (f : FieldName) (s : string) :
  In s (Props.fixedTexts f) -> Props.sound f s = true.
Proof.
  assert (H : forall f, forallb (Props.sound f) (Props.fixedTexts f) = true)
    by (intros []; vm_compute; reflexivity).
  intros Hin. specialize (H f). rewrite forallb_forall in H. now apply H.
Qed.

Lemma stepText_sound (f : FieldName) (g : string) (n : Z) :
  f = minute \/ f = hour ->
  Props.madeOf is_digit g = true -> g <> "" ->
  parseInt g = Num n -> 0 < n ->
  Props.sound f ("*/" ++ g) = true.
Proof.
  intros Hf Hg Hne Hn Hpos.
  destruct (step_text_segments f g Hf Hg Hne) as [Hseg [Hrange Hstep]].
  unfold Props.sound, Spec.stepsOk. rewrite Hseg.
  cbn [forallb flat_map]. rewrite Hstep, Hn.
  unfold Spec.recorded. rewrite Hrange.
  change (String.eqb "*" "*") with true. cbv iota. cbn [app Spec.stepOk].
  apply Z.ltb_lt in Hpos. rewrite Hpos. cbn [andb].
  apply andb_true_iff. split; [|reflexivity].
  unfold Props.token. apply andb_true_iff. split; [|reflexivity].
  change (Props.wsfree ("*/" ++ g))
    with (Props.madeOf (fun c => negb (is_space c)) g).
  apply (madeOf_impl is_digit); [|exact Hg].
  intros c Hc. now rewrite (proj1 (proj2 (digit_facts c Hc))).
Qed.

(** A step text [*/N] with [N] zero: [parseField] does not return. *)
Lemma stepText_hangs (f : FieldName) (g : string) (fuel : nat) :
  f = minute \/ f = hour ->
  Props.madeOf is_digit g = true -> g <> "" ->
  parseInt g = Num 0 ->
  parseFieldCall fuel ("*/" ++ g) (FIELDS f) = None.
Proof.
  intros Hf Hg Hne Hn.
  destruct (step_text_segments f g Hf Hg Hne) as [Hseg [Hrange Hstep]].
  rewrite parseFieldCall_segments, Hseg. cbn [parseSegments].
  rewrite parseSegment_star_step_zero; [reflexivity|exact Hrange| | |].
  - now rewrite Hstep.
  - destruct Hf as [-> | ->]; cbn; lia.
  - unfold maxSetSize. cbn. lia.
Qed.

(** Five sound field texts make an expression that [parse] returns as
    valid. *)
Lemma sound_fields_valid (m h dom mon dow : string) :
  Props.sound minute m = true -> Props.sound hour h = true ->
  Props.sound dayOfMonth dom = true -> Props.sound month mon = true ->
  Props.sound dayOfWeek dow = true ->
  exists fuel0 fields,
    forall fuel, (fuel0 <= fuel)%nat ->
      parse fuel (join " " [m; h; dom; mon; dow])
      = Some (Parsed true (join " " [m; h; dom; mon; dow]) fields []).
Proof.
  intros H0 H1 H2 H3 H4.
  set (toks := [m; h; dom; mon; dow]).
  assert (Hs : forall i f, nth_error FIELD_ORDER i = Some f ->
                 Props.sound f (nth i toks "") = true).
  { intros [|[|[|[|[|i]]]]] f Hi; try (destruct i; discriminate Hi);
      injection Hi as <-; assumption. }
  assert (Hparts : forall f s, Props.sound f s = true ->
             Spec.stepsOk s (FIELDS f) = true
             /\ flat_map (Spec.recorded (FIELDS f))
                  (split_char "," (normalizedField s (FIELDS f))) = []
             /\ Props.token s = true /\ startsWith s "@" = false).
  { intros f s H. unfold Props.sound in H. rewrite !andb_true_iff in H.
    destruct H as [[[Ha Hb] Hc] Hd]. repeat split; try assumption.
    - destruct (flat_map _ _); [reflexivity|discriminate Hb].
    - now apply negb_true_iff in Hd. }
  assert (Htok : Forall (fun t => Props.token t = true) toks).
  { repeat constructor;
      [apply (Hparts minute m H0)|apply (Hparts hour h H1)
      |apply (Hparts dayOfMonth dom H2)|apply (Hparts month mon H3)
      |apply (Hparts dayOfWeek dow H4)]. }
  assert (Hne : toks <> []) by discriminate.
  set (e := join " " toks).
  assert (Htrim : trim e = e) by (apply trim_join; assumption).
  assert (Hsplit : split_ws (trim e) = toks)
    by (rewrite Htrim; apply split_ws_join; assumption).
  assert (Hat : startsWith (trim e) "@" = false).
  { rewrite Htrim. unfold e, toks. rewrite join_cons.
    destruct (Hparts minute m H0) as [_ [_ [Ht Hm]]].
    destruct m as [|c m']; [discriminate Ht|].
    cbn [append startsWith] in *. now rewrite startsWith_nil in *. }
  destruct (parse_ends e) as [fuel0 [r [Hr Hnc]]].
  { intros i f Hi. unfold Spec.fieldTexts. rewrite Hsplit.
    cbn [List.length toks Nat.eqb]. apply (Hparts f _ (Hs i f Hi)). }
  assert (Hshape : exists fields, r = Parsed true e fields []).
  { specialize (Hr fuel0 (Nat.le_refl _)).
    rewrite (parse_five_fields fuel0 e m h dom mon dow Hat Hsplit) in Hr.
    destruct (parseFive_returns _ _ _ _ Hr)
      as [[fields [-> Hall]]|[calls [-> _]]];
      [|now destruct (Hnc e (fun f => returned (calls f))
                        (Spec.errorsOfCalls calls))].
    exists fields.
    assert (Hoor : forall f, outOfRange (getField fields f) = []).
    { intros f.
      assert (Hi : exists i, nth_error FIELD_ORDER i = Some f).
      { destruct f; [exists 0%nat|exists 1%nat|exists 2%nat|exists 3%nat
                    |exists 4%nat]; reflexivity. }
      destruct Hi as [i Hi].
      rewrite (parseField_outOfRange _ _ _ _ (Hall i f Hi)).
      apply (Hparts f _ (Hs i f Hi)). }
    pose proof (proj2 (noErrors_errorsFor fields) Hoor) as Hno.
    rewrite Hno.
    destruct (Spec.errorsFor fields); [reflexivity|discriminate Hno]. }
  destruct Hshape as [fields ->]. exists fuel0, fields. exact Hr.
Qed.

Lemma parseTime_inClock (timeStr : string) (t : Time) :
  parseTime timeStr = Some t -> inClock (t_hour t) (t_minute t) = true.
Proof.
  assert (H24 : forall str, parseTime24 str = Some t ->
                  inClock (t_hour t) (t_minute t) = true).
  { intros str. unfold parseTime24.
    destruct (exec false re24 str) as [match24|]; [|discriminate].
    match goal with
    | |- context [inClock ?a ?b] =>
        destruct (inClock a b) eqn:Hc; [|discriminate];
        intros H; injection H as <-; exact Hc
    end. }
  unfold parseTime.
  destruct (exec true re12 (trim (toLowerCase timeStr))) as [match12|];
    [|apply H24].
  match goal with
  | |- context [inClock ?a ?b] =>
      destruct (inClock a b) eqn:Hc; [|apply H24];
      intros H; injection H as <-; exact Hc
  end.
Qed.

Lemma numbers_In (lo : Z) (n : nat) (z : Z) :
  lo <= z < lo + Z.of_nat n -> In (Z_to_string z) (Props.numbers lo n).
Proof. intros H. apply in_map. now apply upFrom_In. Qed.

Lemma inClock_texts (a b : jsnum) :
  inClock a b = true ->
  In (toString b) (Props.fixedTexts minute)
  /\ In (toString a) (Props.fixedTexts hour).
Proof.
  destruct a as [h|], b as [m|]; unfold inClock, ge, le; cbn [JS.le];
    rewrite ?andb_false_r; try discriminate.
  rewrite !andb_true_iff, !Z.leb_le. intros [[[H1 H2] H3] H4].
  split; right; apply numbers_In; lia.
Qed.

Lemma firstDay_range (input : string) (n : Z) :
  firstDay input DAYS = Some n -> 0 <= n <= 6.
Proof.
  unfold DAYS. cbn [firstDay].
  repeat match goal with
  | |- (if ?c then _ else _) = _ -> _ =>
      destruct c; [intros H; injection H as <-; lia|]
  end.
  discriminate.
Qed.

Lemma firstMonth_range (input : string) (n : Z) :
  firstMonth input MONTHS = Some n -> 1 <= n <= 12.
Proof.
  unfold MONTHS. cbn [firstMonth].
  repeat match goal with
  | |- (if ?c then _ else _) = _ -> _ =>
      destruct c; [intros H; injection H as <-; lia|]
  end.
  discriminate.
Qed.

Lemma lookup_DAYS_range (k : string) (n : Z) :
  lookup DAYS k = Some n -> 0 <= n <= 6.
Proof.
  unfold DAYS. cbn [lookup].
  repeat match goal with
  | |- (if ?c then _ else _) = _ -> _ =>
      destruct c; [intros H; injection H as <-; lia|]
  end.
  discriminate.
Qed.

Lemma daysAt_entries (k : string) (a : DayEntry) :
  daysAt k = Some a ->
  In a Props.dayEntries
  /\ (Props.inherited a = false -> exists n, a = DayNumber n /\ 0 <= n <= 6).
Proof.
  unfold daysAt. destruct (lookup DAYS k) as [n|] eqn:Hn.
  - intros H. injection H as <-. pose proof (lookup_DAYS_range _ _ Hn) as Hr.
    split; [|intros _; now exists n].
    unfold Props.dayEntries. apply in_or_app. left. apply in_map.
    apply upFrom_In. lia.
  - destruct (String.eqb k "constructor");
      [|destruct (String.eqb k "__proto__"); [|discriminate]];
      intros H; injection H as <-;
      (split; [unfold Props.dayEntries; apply in_or_app; right; cbn; tauto
              |discriminate]).
Qed.

Lemma draftFixed_ok (d : Draft) : Props.draftFixed d -> Props.draftOk d.
Proof.
  intros [Hm [Hh [Hdom [Hmon Hdow]]]]. repeat split; try assumption.
  now left.
Qed.

Lemma defaultTime_ok (h : string) (d : Draft) :
  In h (Props.fixedTexts hour) ->
  Props.draftFixed d ->
  (In (fst (defaultTime h d)) (Props.fixedTexts minute)
   \/ Props.stepText (fst (defaultTime h d)))
  /\ (In (snd (defaultTime h d)) (Props.fixedTexts hour)
      \/ Props.stepText (snd (defaultTime h d))).
Proof.
  intros Hh [Hm [Hhr _]]. unfold defaultTime. cbn [fst snd]. split.
  - destruct (isStar (d_minute d)); [|exact Hm].
    left. right. apply (numbers_In 0 60 0). lia.
  - destruct (isStar (d_hour d)); [|exact Hhr]. now left.
Qed.

Lemma hour_0_9 :
  In "0" (Props.fixedTexts hour) /\ In "9" (Props.fixedTexts hour).
Proof.
  split; right; [apply (numbers_In 0 24 0)|apply (numbers_In 0 24 9)]; lia.
Qed.

(** The drafts stay within their texts through the eight patterns of the
    second tier. *)
Lemma compose_draftOk (input : string) : Props.draftOk (compose input).
Proof.
  unfold compose.
  assert (H0 : Props.draftFixed (mkDraft "*" "*" "*" "*" "*" false)).
  { unfold Props.draftFixed. cbn. tauto. }
  assert (H1 : Props.draftFixed
                 (stepEveryMinutes input (mkDraft "*" "*" "*" "*" "*" false))).
  { unfold stepEveryMinutes.
    destruct (exec true reEveryMinutes input) as [m|] eqn:Hm; [|exact H0].
    destruct (every_N_digits "minute" input m Hm) as [g [-> [Hg Hne]]].
    destruct H0 as [_ H0]. split; [|exact H0].
    right. exists g. now repeat split. }
  set (d1 := stepEveryMinutes input _) in *.
  assert (H2 : Props.draftFixed (stepEveryHours input d1)).
  { unfold stepEveryHours.
    destruct (exec true reEveryHours input) as [m|] eqn:Hm; [|exact H1].
    destruct (every_N_digits "hour" input m Hm) as [g [-> [Hg Hne]]].
    destruct H1 as [_ [_ H1]]. split; [|split; [|exact H1]].
    - left. right. apply (numbers_In 0 60 0). lia.
    - right. exists g. now repeat split. }
  set (d2 := stepEveryHours input d1) in *.
  assert (H3 : Props.draftFixed (stepAtTime input d2)).
  { unfold stepAtTime.
    destruct (exec true reAt input) as [m|]; [|exact H2].
    destruct (parseTime _) as [time|] eqn:Ht; [|exact H2].
    destruct (inClock_texts _ _ (parseTime_inClock _ _ Ht)) as [Hmi Hho].
    destruct H2 as [_ [_ H2]]. split; [now left|split; [now left|exact H2]]. }
  set (d3 := stepAtTime input d2) in *.
  assert (H4 : Props.draftFixed (stepEveryDay input d3)).
  { unfold stepEveryDay. destruct (test true reEveryDay input); [|exact H3].
    pose proof (defaultTime_ok "0" d3 (proj1 hour_0_9) H3) as Hd.
    destruct (defaultTime "0" d3) as [mi ho]. cbn [fst snd] in Hd.
    destruct H3 as [_ [_ H3]]. destruct Hd as [Hmi Hho].
    split; [exact Hmi|split; [exact Hho|exact H3]]. }
  set (d4 := stepEveryDay input d3) in *.
  assert (H5 : Props.draftFixed (stepDayName input d4)).
  { unfold stepDayName.
    destruct (firstDay input DAYS) as [n|] eqn:Hn; [|exact H4].
    pose proof (defaultTime_ok "9" d4 (proj2 hour_0_9) H4) as Hd.
    destruct (defaultTime "9" d4) as [mi ho]. cbn [fst snd] in Hd.
    destruct H4 as [_ [_ [Hdom [Hmon _]]]]. destruct Hd as [Hmi Hho].
    repeat split; try assumption.
    right. apply in_or_app. left. apply numbers_In.
    pose proof (firstDay_range _ _ Hn). lia. }
  set (d5 := stepDayName input d4) in *.
  assert (H6 : Props.draftFixed (stepDayOfMonth input d5)).
  { unfold stepDayOfMonth.
    destruct (exec true reDayOfMonth input) as [m|]; [|exact H5].
    destruct (ge _ (Num 1) && le _ (Num 31)) eqn:Hday; [|exact H5].
    pose proof (defaultTime_ok "0" d5 (proj1 hour_0_9) H5) as Hd.
    destruct (defaultTime "0" d5) as [mi ho]. cbn [fst snd] in Hd.
    destruct H5 as [_ [_ [_ [Hmon Hdow]]]]. destruct Hd as [Hmi Hho].
    repeat split; try assumption.
    destruct (parseInt _) as [z|]; [|discriminate Hday].
    unfold ge, le in Hday. cbn [JS.le] in Hday.
    apply andb_true_iff in Hday. rewrite !Z.leb_le in Hday.
    right. apply numbers_In. lia. }
  set (d6 := stepDayOfMonth input d5) in *.
  assert (H7 : Props.draftFixed (stepMonth input d6)).
  { unfold stepMonth.
    destruct (firstMonth input MONTHS) as [n|] eqn:Hn; [|exact H6].
    destruct H6 as [Hmi [Hho [Hdom [_ Hdow]]]].
    repeat split; try assumption.
    right. apply numbers_In. pose proof (firstMonth_range _ _ Hn). lia. }
  set (d7 := stepMonth input d6) in *.
  unfold stepDayRange.
  destruct (exec true reDayRange input) as [m|];
    [|exact (draftFixed_ok _ H7)].
  destruct (daysAt (toLowerCase (match group m 1 with
                                 | Some x => x
                                 | None => ""
                                 end))) as [a|] eqn:Ha;
    [|exact (draftFixed_ok _ H7)].
  destruct (daysAt (toLowerCase (match group m 2 with
                                 | Some x => x
                                 | None => ""
                                 end))) as [b|] eqn:Hb;
    [|exact (draftFixed_ok _ H7)].
  pose proof (defaultTime_ok "9" d7 (proj2 hour_0_9) H7) as Hd.
  destruct (defaultTime "9" d7) as [mi ho]. cbn [fst snd] in Hd.
  destruct H7 as [_ [_ [Hdom [Hmon _]]]]. destruct Hd as [Hmi Hho].
  destruct (daysAt_entries _ _ Ha) as [Hina Hnuma].
  destruct (daysAt_entries _ _ Hb) as [Hinb Hnumb].
  repeat split; try assumption. cbn [d_dayOfWeek].
  destruct (Props.inherited a || Props.inherited b) eqn:Hab.
  - right. exists a, b. repeat split; try assumption. eauto.
  - apply orb_false_iff in Hab. destruct Hab as [Hia Hib].
    destruct (Hnuma Hia) as [x [-> Hx]]. destruct (Hnumb Hib) as [y [-> Hy]].
    left. right. apply in_or_app. right. unfold Props.dayRanges.
    apply in_flat_map. exists x. split.
    + apply upFrom_In. lia.
    + apply (in_map (fun b0 => Z_to_string x ++ "-" ++ Z_to_string b0)).
      apply upFrom_In. lia.
Qed.

Lemma PATTERNS_parse (pattern cron : string) :
  In (pattern, cron) PATTERNS ->
  exists fields, parse 100 cron = Some (Parsed true cron fields []).
Proof.
  unfold PATTERNS. cbn [In]. intros H.
  repeat (destruct H as [H|H];
          [injection H as <- <-; eexists; vm_compute; reflexivity|]).
  destruct H.
Qed.

Lemma stepText_token (s : string) :
  Props.stepText s -> Props.token s = true /\ startsWith s "@" = false.
Proof.
  intros [g [-> [Hg Hne]]]. split; [|reflexivity].
  unfold Props.token. apply andb_true_iff. split; [|reflexivity].
  change (Props.wsfree ("*/" ++ g))
    with (Props.madeOf (fun c => negb (is_space c)) g).
  apply (madeOf_impl is_digit); [|exact Hg].
  intros c Hc. now rewrite (proj1 (proj2 (digit_facts c Hc))).
Qed.

Lemma sound_token (f : FieldName) (s : string) :
  Props.sound f s = true -> Props.token s = true /\ startsWith s "@" = false.
Proof.
  unfold Props.sound. rewrite !andb_true_iff. intros [[_ Ht] Hat].
  split; [exact Ht|now apply negb_true_iff in Hat].
Qed.

(** A draft of the minute or the hour is sound, or a step of zero. *)
Lemma draft_sound_or_zero (f : FieldName) (s : string) :
  f = minute \/ f = hour ->
  In s (Props.fixedTexts f) \/ Props.stepText s ->
  Props.sound f s = true
  \/ exists g, s = "*/" ++ g /\ Props.madeOf is_digit g = true /\ g <> ""
               /\ parseInt g = Num 0.
Proof.
  intros Hf [Hin|[g [-> [Hg Hne]]]]; [left; now apply fixedTexts_sound|].
  destruct (parseInt_digits g Hg Hne) as [n [Hn Hp]].
  destruct (Z.eq_dec n 0) as [->|Hnz].
  - right. exists g. now repeat split.
  - left. apply (stepText_sound f g n Hf Hg Hne Hp). lia.
Qed.

(** The key of an inherited entry. *)
Lemma daysAt_inherited (k : string) (a : DayEntry) :
  daysAt k = Some a -> Props.inherited a = true ->
  k = "constructor" \/ k = "__proto__".
Proof.
  unfold daysAt. destruct (lookup DAYS k) as [n|].
  - intros H. injection H as <-. discriminate.
  - destruct (String.eqb_spec k "constructor") as [->|_]; [now left|].
    destruct (String.eqb_spec k "__proto__") as [->|_]; [now right|].
    discriminate.
Qed.

(** A range written from an inherited entry holds spaces: it is two
    tokens or more, with one space between them. *)
Lemma inheritedRanges_tokens (a b : DayEntry) :
  In a Props.dayEntries -> In b Props.dayEntries ->
  Props.inherited a || Props.inherited b = true ->
  shownEntry a ++ "-" ++ shownEntry b
  = join " " (split_ws (shownEntry a ++ "-" ++ shownEntry b))
  /\ Forall (fun t => Props.token t = true)
       (split_ws (shownEntry a ++ "-" ++ shownEntry b))
  /\ (2 <= List.length (split_ws (shownEntry a ++ "-" ++ shownEntry b)))%nat.
Proof.
  intros Ha Hb Hab.
  assert (Hin : In (shownEntry a ++ "-" ++ shownEntry b)
                  Props.inheritedRanges).
  { unfold Props.inheritedRanges. apply in_flat_map. exists a.
    split; [exact Ha|]. apply in_flat_map. exists b.
    split; [exact Hb|]. rewrite Hab. now left. }
  assert (Hall : forallb
                   (fun s =>
                      String.eqb s (join " " (split_ws s))
                      && forallb Props.token (split_ws s)
                      && (2 <=? List.length (split_ws s))%nat)
                   Props.inheritedRanges = true)
    by (vm_compute; reflexivity).
  rewrite forallb_forall in Hall. specialize (Hall _ Hin).
  rewrite !andb_true_iff in Hall. destruct Hall as [[H1 H2] H3].
  apply String.eqb_eq in H1. apply Nat.leb_le in H3.
  rewrite forallb_forall in H2.
  split; [exact H1|split; [|exact H3]].
  apply Forall_forall. exact H2.
Qed.

(** X19.  Every expression [generate] returns is one that [parse] accepts
    as valid, with two exceptions.  A text with [every N minutes] or
    [every N hours] where [N] is zero ([0], [00], ...) yields a step of
    zero in the minute or the hour field, on which [parse] does not
    return.  And a day range whose key reaches an entry that [DAYS]
    inherits ([constructor], [__proto__]) writes the text of that entry
    in the day-of-week field, which holds spaces: the expression then has
    more than five tokens, and [parse] refuses it for its field count, or,
    when it has six, drops the minute field and reads the five tokens
    that follow. *)
Theorem generate_expression_valid_unless_zero_step (text e d : string) :
  generate text = Generated e d ->
  (exists fuel0 fields,
     forall fuel, (fuel0 <= fuel)%nat ->
       parse fuel e = Some (Parsed true e fields []))
  \/ ((forall fuel, parse fuel e = None)
      /\ exists m h rest g,
           e = m ++ " " ++ h ++ " " ++ rest
           /\ (m = "*/" ++ g \/ h = "*/" ++ g)
           /\ Props.madeOf is_digit g = true
           /\ parseInt g = Num 0)
  \/ (exists m h dom mon a b,
        e = m ++ " " ++ h ++ " " ++ dom ++ " " ++ mon ++ " "
            ++ shownEntry a ++ "-" ++ shownEntry b
        /\ Props.inherited a || Props.inherited b = true
        /\ (exists k1 k2,
              daysAt k1 = Some a /\ daysAt k2 = Some b
              /\ (In k1 ["constructor"; "__proto__"]
                  \/ In k2 ["constructor"; "__proto__"]))
        /\ ((exists n : nat,
               (6 < n)%nat
               /\ forall fuel,
                    parse fuel e
                    = Some (Failure
                              ("Invalid field count: expected 5, got "
                               ++ Z_to_string (Z.of_nat n))
                              "Format: minute hour day-of-month month day-of-week"))
            \/ (exists tA tB,
                  split_ws (shownEntry a ++ "-" ++ shownEntry b) = [tA; tB]
                  /\ forall fuel,
                       parse fuel e
                       = parseFive fuel e [h; dom; mon; tA; tB]))).
Proof.
  unfold generate. set (input := trim (toLowerCase text)).
  destruct (directMatch text input PATTERNS) as [r|] eqn:Hd.
  - intros ->.
    destruct (directMatch_entry text input PATTERNS _ (incl_refl _) Hd)
      as [p [c [Hin [_ Heq]]]].
    injection Heq as -> _.
    destruct (PATTERNS_parse p c Hin) as [fields Hp].
    left. exists 100%nat, fields. intros fuel Hf.
    exact (parse_fuel 100 fuel _ _ Hf Hp).
  - destruct (d_matched (compose input)); [|discriminate].
    intros H. injection H as <- _.
    destruct (compose_draftOk input) as [Hm [Hh [Hdom [Hmon Hdow]]]].
    set (dr := compose input) in *.
    apply fixedTexts_sound in Hdom, Hmon.
    assert (Htm : Props.token (d_minute dr) = true
                  /\ startsWith (d_minute dr) "@" = false).
    { destruct Hm as [Hm|Hm];
        [apply (sound_token minute), fixedTexts_sound, Hm
        |now apply stepText_token]. }
    assert (Hth : Props.token (d_hour dr) = true).
    { destruct Hh as [Hh|Hh];
        [apply (sound_token hour), fixedTexts_sound, Hh
        |now apply stepText_token]. }
    assert (Hstart : forall toks,
              Forall (fun t => Props.token t = true) (d_minute dr :: toks) ->
              startsWith (trim (join " " (d_minute dr :: toks))) "@" = false).
    { intros toks Htoks.
      assert (Hne0 : d_minute dr :: toks <> []) by discriminate.
      rewrite (trim_join _ Hne0 Htoks).
      destruct Htm as [Ht Hat].
      destruct (d_minute dr) as [|c m']; [discriminate Ht|].
      destruct toks as [|t toks]; [exact Hat|].
      rewrite join_cons. cbn [append startsWith] in *.
      now rewrite startsWith_nil in *. }
    destruct Hdow as [Hdow|[a [b [Hshown [Hina [Hinb [Hab Hkeys]]]]]]].
    + apply fixedTexts_sound in Hdow.
      change (d_minute dr ++ " " ++ d_hour dr ++ " " ++ d_dayOfMonth dr
              ++ " " ++ d_month dr ++ " " ++ d_dayOfWeek dr)
        with (join " " [d_minute dr; d_hour dr; d_dayOfMonth dr; d_month dr;
                        d_dayOfWeek dr]).
      assert (Htok : Forall (fun t => Props.token t = true)
                       [d_minute dr; d_hour dr; d_dayOfMonth dr; d_month dr;
                        d_dayOfWeek dr]).
      { repeat constructor;
          [apply Htm|exact Hth|apply (sound_token dayOfMonth _ Hdom)
          |apply (sound_token month _ Hmon)
          |apply (sound_token dayOfWeek _ Hdow)]. }
      set (toks := [d_minute dr; d_hour dr; d_dayOfMonth dr; d_month dr;
                    d_dayOfWeek dr]) in *.
      assert (Hne : toks <> []) by discriminate.
      assert (Hparse : forall fuel,
                parse fuel (join " " toks)
                = parseFive fuel (join " " toks) toks).
      { intros fuel. apply parse_five_fields.
        - apply Hstart. exact Htok.
        - rewrite (trim_join _ Hne Htok). apply (split_ws_join _ Hne Htok). }
      destruct (draft_sound_or_zero minute _ (or_introl eq_refl) Hm)
        as [Hsm|[g [Hg [Hdig [Hgne Hzero]]]]].
      * destruct (draft_sound_or_zero hour _ (or_intror eq_refl) Hh)
          as [Hsh|[g [Hg [Hdig [Hgne Hzero]]]]].
        -- left. exact (sound_fields_valid _ _ _ _ _ Hsm Hsh Hdom Hmon Hdow).
        -- right. left. split.
           ++ intros fuel. rewrite Hparse. unfold toks.
              apply parseFive_second_hangs. rewrite Hg.
              exact (stepText_hangs hour g fuel (or_intror eq_refl)
                       Hdig Hgne Hzero).
           ++ exists (d_minute dr), (d_hour dr),
                (d_dayOfMonth dr ++ " " ++ d_month dr ++ " "
                 ++ d_dayOfWeek dr), g.
              repeat split; [now right|exact Hdig|exact Hzero].
      * right. left. split.
        -- intros fuel. rewrite Hparse. unfold toks.
           apply parseFive_first_hangs. rewrite Hg.
           exact (stepText_hangs minute g fuel (or_introl eq_refl)
                    Hdig Hgne Hzero).
        -- exists (d_minute dr), (d_hour dr),
             (d_dayOfMonth dr ++ " " ++ d_month dr ++ " " ++ d_dayOfWeek dr),
             g.
           repeat split; [now left|exact Hdig|exact Hzero].
    + right. right.
      exists (d_minute dr), (d_hour dr), (d_dayOfMonth dr), (d_month dr),
        a, b.
      rewrite Hshown. split; [reflexivity|]. split; [exact Hab|].
      split.
      { destruct Hkeys as [k1 [k2 [Hk1 Hk2]]]. exists k1, k2.
        split; [exact Hk1|]. split; [exact Hk2|].
        apply orb_true_iff in Hab. destruct Hab as [Hi|Hi].
        - left. destruct (daysAt_inherited _ _ Hk1 Hi) as [->| ->];
            cbn; tauto.
        - right. destruct (daysAt_inherited _ _ Hk2 Hi) as [->| ->];
            cbn; tauto. }
      destruct (inheritedRanges_tokens a b Hina Hinb Hab)
        as [Hjoin [Htoks Hlen]].
      set (D := shownEntry a ++ "-" ++ shownEntry b) in *.
      destruct (split_ws D) as [|tA [|tB ts]] eqn:HD;
        [cbn in Hlen; lia|cbn in Hlen; lia|].
      set (toks := d_minute dr :: d_hour dr :: d_dayOfMonth dr
                   :: d_month dr :: tA :: tB :: ts).
      assert (He : d_minute dr ++ " " ++ d_hour dr ++ " " ++ d_dayOfMonth dr
                   ++ " " ++ d_month dr ++ " " ++ D
                   = join " " toks).
      { rewrite Hjoin at 1. reflexivity. }
      cbn [append] in He. rewrite He.
      assert (Htok : Forall (fun t => Props.token t = true) toks).
      { unfold toks.
        apply Forall_cons; [apply Htm|].
        apply Forall_cons; [exact Hth|].
        apply Forall_cons; [apply (sound_token dayOfMonth _ Hdom)|].
        apply Forall_cons; [apply (sound_token month _ Hmon)|exact Htoks]. }
      assert (Hne : toks <> []) by discriminate.
      assert (Hsplit : split_ws (trim (join " " toks)) = toks).
      { rewrite (trim_join _ Hne Htok). apply (split_ws_join _ Hne Htok). }
      assert (Hat : startsWith (trim (join " " toks)) "@" = false)
        by (apply Hstart; exact Htok).
      destruct ts as [|tC ts].
      * right. exists tA, tB. split; [reflexivity|]. intros fuel.
        unfold parse. rewrite Hat. unfold parseFields. rewrite Hsplit.
        reflexivity.
      * left. exists (List.length toks). split; [cbn; lia|]. intros fuel.
        unfold parse. rewrite Hat. unfold parseFields. rewrite Hsplit.
        reflexivity.
Qed.

Lemma generate_expression_valid_unless_zero_step_witness :
  (exists fuel0 fields,
     forall fuel, (fuel0 <= fuel)%nat ->
       parse fuel "0 9 * * [object Object]-3"
       = Some (Parsed true "0 9 * * [object Object]-3" fields []))
  \/ ((forall fuel, parse fuel "0 9 * * [object Object]-3" = None)
      /\ exists m h rest g,
           "0 9 * * [object Object]-3" = m ++ " " ++ h ++ " " ++ rest
           /\ (m = "*/" ++ g \/ h = "*/" ++ g)
           /\ Props.madeOf is_digit g = true
           /\ parseInt g = Num 0)
  \/ (exists m h dom mon a b,
        "0 9 * * [object Object]-3"
        = m ++ " " ++ h ++ " " ++ dom ++ " " ++ mon ++ " "
          ++ shownEntry a ++ "-" ++ shownEntry b
        /\ Props.inherited a || Props.inherited b = true
        /\ (exists k1 k2,
              daysAt k1 = Some a /\ daysAt k2 = Some b
              /\ (In k1 ["constructor"; "__proto__"]
                  \/ In k2 ["constructor"; "__proto__"]))
        /\ ((exists n : nat,
               (6 < n)%nat
               /\ forall fuel,
                    parse fuel "0 9 * * [object Object]-3"
                    = Some (Failure
                              ("Invalid field count: expected 5, got "
                               ++ Z_to_string (Z.of_nat n))
                              "Format: minute hour day-of-month month day-of-week"))
            \/ (exists tA tB,
                  split_ws (shownEntry a ++ "-" ++ shownEntry b) = [tA; tB]
                  /\ forall fuel,
                       parse fuel "0 9 * * [object Object]-3"
                       = parseFive fuel "0 9 * * [object Object]-3"
                           [h; dom; mon; tA; tB]))).
Proof.
  apply (generate_expression_valid_unless_zero_step
           "__proto__ to Wednesday" "0 9 * * [object Object]-3"
           (generatedFrom "__proto__ to Wednesday")).
  vm_compute. reflexivity.
Defined.

(** *** The systemd format *)

Lemma str_includes_absent (q : ascii -> bool) (c : ascii) (p : string) :
  q c = false ->
  forall s, Props.madeOf q s = true -> str_includes s (String c p) = false.
Proof.
  intros Hc. induction s as [|a s IH]; intros Hs; [reflexivity|].
  rewrite madeOf_cons in Hs. apply andb_true_iff in Hs.
  destruct Hs as [Ha Hs]. cbn [str_includes startsWith].
  rewrite (IH Hs), orb_false_r.
  destruct (Ascii.eqb_spec c a) as [->|]; [congruence|reflexivity].
Qed.

Lemma startsWith_prefix (p s : string) : startsWith (p ++ s) p = true.
Proof.
  induction p as [|c p IH]; [apply startsWith_nil|].
  cbn [append startsWith]. now rewrite Ascii.eqb_refl, IH.
Qed.

Lemma str_includes_prefix (p s : string) : str_includes (p ++ s) p = true.
Proof.
  destruct (p ++ s) eqn:E; cbn [str_includes]; rewrite <- E;
    now rewrite startsWith_prefix.
Qed.

Lemma str_includes_app_r (a b p : string) :
  str_includes b p = true -> str_includes (a ++ b) p = true.
Proof.
  intros H. induction a as [|c a IH]; [exact H|].
  cbn [append str_includes]. rewrite IH. apply orb_true_r.
Qed.

Lemma split_char_sep_app (sep : ascii) (t : string) :
  Props.madeOf (fun c => negb (Ascii.eqb c sep)) t = true ->
  forall rest,
    split_char sep (t ++ String sep rest) = t :: split_char sep rest.
Proof.
  induction t as [|c t IH]; intros H rest.
  - cbn [append split_char]. now rewrite Ascii.eqb_refl.
  - rewrite madeOf_cons in H. apply andb_true_iff in H.
    destruct H as [Hc Ht]. apply negb_true_iff in Hc.
    cbn [append split_char]. rewrite Hc, (IH Ht). reflexivity.
Qed.

(** The printed values of a parsed field: digits, commas, [NaN]. *)
Lemma listed_chars (fuel : nat) (e : string) (v : bool) (original : string)
  (fields : Fields) (errors : list string) (f : FieldName) :
  parse fuel e = Some (Parsed v original fields errors) ->
  Props.madeOf Props.listChar (Props.listed (getField fields f)) = true.
Proof.
  intros Hp. unfold Props.listed.
  destruct (String.eqb (raw (getField fields f)) "*"); [reflexivity|].
  unfold joinValues. apply madeOf_join; [reflexivity|].
  apply Forall_forall. intros t Ht. apply in_map_iff in Ht.
  destruct Ht as [[z|] [<- Hin]]; [|reflexivity].
  destruct (parse_fields_parsed _ _ _ _ _ _ f Hp) as [text Htext].
  pose proof (parseField_values_within _ _ _ _ z Htext Hin) as Hz.
  apply (madeOf_impl is_digit).
  - intros c Hc. unfold Props.listChar. now rewrite Hc.
  - apply Z_to_string_digits. destruct f; cbn in Hz; lia.
Qed.

Lemma timePart_chars (f : ParsedField) :
  Props.madeOf Props.cronChar (raw f) = true ->
  (forall z, In (Num z) (values f) -> 0 <= z) ->
  Props.madeOf Props.partChar (systemdTimePart f) = true.
Proof.
  intros Hraw Hvals. unfold systemdTimePart.
  destruct (String.eqb (raw f) "*"); [reflexivity|].
  destruct (str_includes (raw f) "/").
  - apply (madeOf_impl Props.cronChar); [|exact Hraw].
    intros c Hc. unfold Props.partChar. now rewrite Hc.
  - unfold joinValues. apply madeOf_join; [reflexivity|].
    apply Forall_forall. intros t Ht. apply in_map_iff in Ht.
    destruct Ht as [[z|] [<- Hin]]; [|reflexivity].
    apply (madeOf_impl is_digit).
    + intros c Hc. unfold Props.partChar, Props.cronChar. now rewrite Hc.
    + apply Z_to_string_digits. now apply Hvals.
Qed.

Lemma char_classes (c : ascii) :
  (Props.listChar c = true -> Props.partChar c = true)
  /\ (Props.partChar c = true ->
      negb (is_space c) = true
      /\ negb (Ascii.eqb c ":") = true
      /\ negb (Ascii.eqb c "S" || Ascii.eqb c "M" || Ascii.eqb c "T"
               || Ascii.eqb c "W" || Ascii.eqb c "F") = true)
  /\ (Props.listChar c = true -> negb (Ascii.eqb c "-") = true).
Proof.
  destruct c as [[|] [|] [|] [|] [|] [|] [|] [|]]; vm_compute;
    intuition (try discriminate; try reflexivity).
Qed.

Lemma partChar_no_day_letter (s : string) :
  Props.madeOf Props.partChar s = true ->
  Props.madeOf
    (fun c => negb (Ascii.eqb c "S" || Ascii.eqb c "M" || Ascii.eqb c "T"
                    || Ascii.eqb c "W" || Ascii.eqb c "F")) s = true.
Proof.
  apply madeOf_impl. intros c Hc. apply (proj1 (proj2 (char_classes c)) Hc).
Qed.

(** A text without the first letters of the day names holds none of
    them. *)
Lemma no_day_name (part : string) :
  Props.madeOf
    (fun c => negb (Ascii.eqb c "S" || Ascii.eqb c "M" || Ascii.eqb c "T"
                    || Ascii.eqb c "W" || Ascii.eqb c "F")) part = true ->
  existsb (fun d => str_includes part (fst d)) dayMap = false.
Proof.
  intros Hq.
  assert (Habs : forall (c : ascii) (p : string),
            negb (Ascii.eqb c "S" || Ascii.eqb c "M" || Ascii.eqb c "T"
                  || Ascii.eqb c "W" || Ascii.eqb c "F") = false ->
            str_includes part (String c p) = false).
  { intros c p Hc. exact (str_includes_absent _ c p Hc part Hq). }
  unfold dayMap. cbn [existsb fst].
  rewrite !Habs by reflexivity. reflexivity.
Qed.

Lemma no_colon (part : string) :
  Props.madeOf Props.partChar part = true -> str_includes part ":" = false.
Proof.
  intros H.
  apply (str_includes_absent (fun c => negb (Ascii.eqb c ":")));
    [reflexivity|].
  apply (madeOf_impl Props.partChar); [|exact H].
  intros c Hc. apply (proj1 (proj2 (char_classes c)) Hc).
Qed.

Lemma listChar_partChar (s : string) :
  Props.madeOf Props.listChar s = true ->
  Props.madeOf Props.partChar s = true.
Proof. apply madeOf_impl. intros c. apply (char_classes c). Qed.

Lemma listChar_no_dash (s : string) :
  Props.madeOf Props.listChar s = true ->
  Props.madeOf (fun c => negb (Ascii.eqb c "-")) s = true.
Proof. apply madeOf_impl. intros c. apply (char_classes c). Qed.

Lemma partChar_no_colon (s : string) :
  Props.madeOf Props.partChar s = true ->
  Props.madeOf (fun c => negb (Ascii.eqb c ":")) s = true.
Proof.
  apply madeOf_impl. intros c Hc. apply (proj1 (proj2 (char_classes c)) Hc).
Qed.

Lemma partChar_wsfree (s : string) :
  Props.madeOf Props.partChar s = true -> Props.wsfree s = true.
Proof.
  apply madeOf_impl. intros c Hc. apply (proj1 (proj2 (char_classes c)) Hc).
Qed.

(** The date of a systemd text, read by [fromSystemd]. *)
Lemma systemdPart_date (c : Calendar) (mo d : string) :
  Props.madeOf Props.listChar mo = true ->
  Props.madeOf Props.listChar d = true ->
  c_dom c = "*" -> c_month c = "*" ->
  systemdPart c ("*-" ++ mo ++ "-" ++ d)
  = mkCalendar (c_dow c) d mo (c_hour c) (c_minute c).
Proof.
  intros Hmo Hd Hcd Hcm.
  assert (Hpart : Props.madeOf Props.partChar ("*-" ++ mo ++ "-" ++ d) = true).
  { cbn [append]. rewrite !madeOf_cons, madeOf_app, madeOf_cons.
    rewrite (listChar_partChar _ Hmo), (listChar_partChar _ Hd). reflexivity. }
  unfold systemdPart.
  rewrite (no_day_name _ (partChar_no_day_letter _ Hpart)),
          (no_colon _ Hpart).
  assert (Hdash : str_includes ("*-" ++ mo ++ "-" ++ d) "-" = true).
  { apply (str_includes_app_r "*" _ "-").
    apply (str_includes_prefix "-"). }
  rewrite Hdash. cbn [andb negb].
  assert (Hsplit : split_char "-" ("*-" ++ mo ++ "-" ++ d) = ["*"; mo; d]).
  { change ("*-" ++ mo ++ "-" ++ d) with ("*" ++ String "-" (mo ++ "-" ++ d)).
    rewrite (split_char_sep_app "-" "*" eq_refl).
    change (mo ++ "-" ++ d) with (mo ++ String "-" d).
    rewrite (split_char_sep_app "-" mo (listChar_no_dash _ Hmo)).
    now rewrite (split_char_none "-" d (listChar_no_dash _ Hd)). }
  rewrite Hsplit. cbn [List.length Nat.leb Nat.sub nth].
  rewrite Hcd, Hcm.
  destruct (String.eqb_spec d "*") as [->|]; destruct (String.eqb_spec mo "*")
    as [->|]; reflexivity.
Qed.

(** The time of a systemd text, read by [fromSystemd]. *)
Lemma systemdPart_time (c : Calendar) (h m : string) :
  Props.madeOf Props.partChar h = true ->
  Props.madeOf Props.partChar m = true ->
  c_hour c = "*" -> c_minute c = "*" ->
  systemdPart c (h ++ ":" ++ m ++ ":00")
  = mkCalendar (c_dow c) (c_dom c) (c_month c) h m.
Proof.
  intros Hh Hm Hch Hcm.
  assert (Hnames : existsb (fun d => str_includes (h ++ ":" ++ m ++ ":00")
                                       (fst d)) dayMap = false).
  { apply no_day_name. rewrite madeOf_app. cbn [append].
    rewrite madeOf_cons, madeOf_app.
    rewrite (partChar_no_day_letter _ Hh), (partChar_no_day_letter _ Hm).
    reflexivity. }
  assert (Hcolon : str_includes (h ++ ":" ++ m ++ ":00") ":" = true).
  { apply str_includes_app_r. apply (str_includes_prefix ":"). }
  unfold systemdPart. rewrite Hnames, Hcolon. cbn [negb andb].
  rewrite andb_false_r.
  assert (Hsplit : split_char ":" (h ++ ":" ++ m ++ ":00") = [h; m; "00"]).
  { change (h ++ ":" ++ m ++ ":00") with (h ++ String ":" (m ++ ":00")).
    rewrite (split_char_sep_app ":" h (partChar_no_colon _ Hh)).
    change (m ++ ":00") with (m ++ String ":" "00").
    now rewrite (split_char_sep_app ":" m (partChar_no_colon _ Hm)). }
  rewrite Hsplit. cbn [List.length Nat.ltb Nat.leb nth andb].
  rewrite Hch, Hcm.
  destruct (String.eqb_spec h "*") as [->|]; destruct (String.eqb_spec m "*")
    as [->|]; reflexivity.
Qed.

(** The day names of a systemd text, read by [fromSystemd]. *)
Lemma day_name (v : jsnum) :
  (exists z, v = Num z /\ 0 <= z <= 6) ->
  exists name z,
    v = Num z
    /\ at_index systemdDayNames v = Some name
    /\ In (name, z) dayMap
    /\ lookupDay dayMap name = Some z
    /\ Props.madeOf Props.notComma name = true
    /\ Props.token name = true.
Proof.
  intros [z [-> Hz]].
  assert (Hcases : z = 0 \/ z = 1 \/ z = 2 \/ z = 3 \/ z = 4 \/ z = 5
                   \/ z = 6) by lia.
  repeat (destruct Hcases as [->|Hcases];
          [eexists _, _; split; [reflexivity|]; split; [reflexivity|];
           split; [cbn; tauto|]; repeat split; reflexivity|]).
  subst z. eexists _, _. split; [reflexivity|]. split; [reflexivity|].
  split; [cbn; tauto|]. repeat split; reflexivity.
Qed.

Lemma systemdPart_days (c : Calendar) (vals : list jsnum) :
  Props.weekdays vals ->
  systemdPart c (joined "," (map (at_index systemdDayNames) vals))
  = mkCalendar (joinValues vals) (c_dom c) (c_month c) (c_hour c)
      (c_minute c)
  /\ Props.token (joined "," (map (at_index systemdDayNames) vals)) = true.
Proof.
  intros [Hne Hall].
  set (nameOf := fun v => match at_index systemdDayNames v with
                          | Some s => s
                          | None => ""
                          end).
  assert (Hjoined : joined "," (map (at_index systemdDayNames) vals)
                    = join "," (map nameOf vals)).
  { unfold joined. now rewrite map_map. }
  rewrite Hjoined.
  assert (Hnames : Forall (fun t => Props.madeOf Props.notComma t = true
                                    /\ Props.token t = true)
                     (map nameOf vals)).
  { apply Forall_forall. intros t Ht. apply in_map_iff in Ht.
    destruct Ht as [v [<- Hv]].
    destruct (day_name v (Hall v Hv)) as [name [z [_ [Hn [_ [_ [H1 H2]]]]]]].
    unfold nameOf. rewrite Hn. now split. }
  assert (Hmapped : mappedDays (map nameOf vals) = map toString vals
                    /\ (mappedDays (map nameOf vals) = [] -> vals = [])).
  { clear Hne Hjoined Hnames. induction vals as [|v vals IH]; [now split|].
    destruct (day_name v (Hall v (or_introl eq_refl)))
      as [name [z [-> [Hn [_ [Hl _]]]]]].
    destruct IH as [IH _]; [intros w Hw; apply Hall; now right|].
    assert (Hname : nameOf (Num z) = name) by (unfold nameOf; now rewrite Hn).
    cbn [map mappedDays]. rewrite Hname. unfold dayMapAt. rewrite Hl.
    cbn [map toString]. rewrite IH.
    split; [reflexivity|intros Hx; discriminate Hx]. }
  destruct Hmapped as [Hmap Hnil].
  assert (Hsplit : split_char "," (join "," (map nameOf vals))
                   = map nameOf vals).
  { apply split_char_join.
    - destruct vals; [contradiction|discriminate].
    - eapply Forall_impl; [|exact Hnames]. cbn beta. tauto. }
  assert (Hfirst : existsb (fun d => str_includes
                                       (join "," (map nameOf vals)) (fst d))
                     dayMap = true).
  { destruct vals as [|v vals]; [contradiction|].
    destruct (day_name v (Hall v (or_introl eq_refl)))
      as [name [z [_ [Hn [Hin _]]]]].
    apply existsb_exists. exists (name, z). split; [exact Hin|].
    cbn [fst map]. unfold nameOf at 1. rewrite Hn.
    destruct (map nameOf vals) as [|n2 rest].
    - cbn [join]. rewrite <- (append_nil_r name) at 1.
      apply str_includes_prefix.
    - rewrite join_cons. apply str_includes_prefix. }
  split.
  - unfold systemdPart. rewrite Hfirst, Hsplit.
    destruct (mappedDays (map nameOf vals)) as [|d0 days] eqn:Hd;
      [now specialize (Hnil eq_refl)|].
    unfold joinValues. now rewrite <- Hmap.
  - unfold Props.token. apply andb_true_iff. split.
    + apply madeOf_join; [reflexivity|].
      eapply Forall_impl; [|exact Hnames]. cbn beta.
      intros t [_ Ht]. now apply token_wsfree.
    + apply negb_true_iff. apply String.eqb_neq.
      destruct vals as [|v vals]; [contradiction|].
      inversion Hnames as [|? ? [_ Ht] _]; subst.
      cbn [map] in *. destruct (nameOf v) as [|ch n]; [discriminate Ht|].
      destruct (join_head "," ch n (map nameOf vals)) as [r ->].
      discriminate.
Qed.

Lemma systemdPart_star (c : Calendar) : systemdPart c "*" = c.
Proof. reflexivity. Qed.

(** A text with a colon is none of the preset names of [fromSystemd]. *)
Lemma fromSystemd_parts (fuel : nat) (r : string) :
  str_includes r ":" = true -> trim r = r ->
  fromSystemd fuel r
  = let c := fold_left systemdPart (split_ws r)
               (mkCalendar "*" "*" "*" "*" "*") in
    let standardCron :=
      join " " [c_minute c; c_hour c; c_dom c; c_month c; c_dow c] in
    match describe fuel standardCron with
    | Some d =>
        Some (Converted "cron" standardCron (Some d)
                (Some "Conversion is best-effort. Some systemd features may not translate."))
    | None => None
    end.
Proof.
  intros Hcolon Htrim. unfold fromSystemd. rewrite Htrim.
  assert (Hno : forall p, str_includes p ":" = false ->
                  String.eqb r p = false).
  { intros p Hp. destruct (String.eqb_spec r p) as [->|]; [|reflexivity].
    congruence. }
  rewrite !Hno by reflexivity. reflexivity.
Qed.

Lemma join_last (sep : string) (l : list string) (x : string) :
  exists pre, join sep (l ++ [x]) = pre ++ x.
Proof.
  induction l as [|y l [pre IH]]; [now exists ""|].
  destruct l as [|z l].
  - exists (y ++ sep). cbn [app join]. now rewrite append_assoc.
  - exists (y ++ sep ++ pre). cbn [app] in *. rewrite join_cons, IH.
    now rewrite !append_assoc.
Qed.

(** The text that comes back from the systemd format, with the
    description [describe] gives of it. *)
Lemma systemd_round_trip_text (fuel fuel' : nat)
  (e original : string) (fields : Fields) (errors : list string) :
  parse fuel e = Some (Parsed true original fields errors) ->
  Props.madeOf Props.cronChar (raw (f_minute fields)) = true ->
  Props.madeOf Props.cronChar (raw (f_hour fields)) = true ->
  raw (f_dayOfWeek fields) = "*"
  \/ Props.weekdays (values (f_dayOfWeek fields)) ->
  exists r note,
    toSystemd fuel e = Some (Done "systemd" r None note)
    /\ toCron fuel' r "systemd"
       = match describe fuel' (Props.systemdBack fields) with
         | Some d =>
             Some (Converted "cron" (Props.systemdBack fields) (Some d)
                     (Some "Conversion is best-effort. Some systemd features may not translate."))
         | None => None
         end.
Proof.
  intros Hp Hrm Hrh Hdow.
  assert (Hnonneg : forall f z, In (Num z) (values (getField fields f)) ->
                      0 <= z).
  { intros f z Hin.
    destruct (parse_fields_parsed _ _ _ _ _ _ f Hp) as [text Ht].
    pose proof (parseField_values_within _ _ _ _ z Ht Hin) as Hz.
    destruct f; cbn in Hz; lia. }
  pose proof (timePart_chars (f_minute fields) Hrm (Hnonneg minute)) as Hm.
  pose proof (timePart_chars (f_hour fields) Hrh (Hnonneg hour)) as Hh.
  pose proof (listed_chars _ _ _ _ _ _ month Hp) as Hmo.
  pose proof (listed_chars _ _ _ _ _ _ dayOfMonth Hp) as Hd.
  cbn [getField] in Hmo, Hd.
  set (tm := systemdTimePart (f_minute fields)) in *.
  set (th := systemdTimePart (f_hour fields)) in *.
  set (timePart := th ++ ":" ++ tm ++ ":00").
  set (datePart :=
         if negb (String.eqb (raw (f_month fields)) "*")
            || negb (String.eqb (raw (f_dayOfMonth fields)) "*")
         then "*-" ++ Props.listed (f_month fields) ++ "-"
              ++ Props.listed (f_dayOfMonth fields)
         else "*").
  set (dayPart :=
         if negb (String.eqb (raw (f_dayOfWeek fields)) "*")
         then [joined ","
                 (map (at_index systemdDayNames)
                    (values (f_dayOfWeek fields)))]
         else []).
  assert (Hto : toSystemd fuel e
                = Some (Done "systemd"
                          (join " " (dayPart ++ [datePart; timePart])%list)
                          None
                          (Some "Use with OnCalendar= in systemd timer units"))).
  { unfold toSystemd. rewrite Hp. reflexivity. }
  eexists _, _. split; [exact Hto|].
  assert (Htime : Props.token timePart = true).
  { unfold Props.token, timePart. apply andb_true_iff. split.
    - rewrite wsfree_app. cbn [append]. rewrite wsfree_cons, wsfree_app.
      rewrite (partChar_wsfree _ Hh), (partChar_wsfree _ Hm). reflexivity.
    - apply negb_true_iff, String.eqb_neq.
      destruct th; discriminate. }
  assert (Hdate : Props.token datePart = true).
  { unfold datePart.
    destruct (negb _ || negb _); [|reflexivity].
    unfold Props.token. apply andb_true_iff. split; [|reflexivity].
    cbn [append]. rewrite !wsfree_cons, wsfree_app, wsfree_cons.
    rewrite (partChar_wsfree _ (listChar_partChar _ Hmo)),
            (partChar_wsfree _ (listChar_partChar _ Hd)).
    reflexivity. }
  assert (Hday : Forall (fun t => Props.token t = true) dayPart).
  { unfold dayPart.
    destruct (String.eqb_spec (raw (f_dayOfWeek fields)) "*") as [Hs|Hs];
      cbn [negb]; [constructor|].
    destruct Hdow as [Hdow|Hdow]; [contradiction|].
    repeat constructor. apply (systemdPart_days (mkCalendar "" "" "" "" "")).
    exact Hdow. }
  assert (Htok : Forall (fun t => Props.token t = true)
                   (dayPart ++ [datePart; timePart])%list).
  { apply Forall_app. split; [exact Hday|]. now repeat constructor. }
  assert (Hne : (dayPart ++ [datePart; timePart])%list <> [])
    by (destruct dayPart; discriminate).
  unfold toCron. change (toLowerCase "systemd") with "systemd".
  change (String.eqb "systemd" "aws") with false.
  change (String.eqb "systemd" "systemd") with true. cbv iota.
  assert (Hcolon : str_includes
                     (join " " (dayPart ++ [datePart; timePart])%list) ":"
                   = true).
  { change (dayPart ++ [datePart; timePart])%list
      with (dayPart ++ ([datePart] ++ [timePart]))%list.
    rewrite app_assoc.
    destruct (join_last " " (dayPart ++ [datePart])%list timePart)
      as [pre ->].
    apply str_includes_app_r. unfold timePart.
    apply str_includes_app_r. apply (str_includes_prefix ":"). }
  rewrite (fromSystemd_parts fuel' _ Hcolon (trim_join _ Hne Htok)).
  rewrite (split_ws_join _ Hne Htok). cbv zeta.
  assert (Hfold : fold_left systemdPart (dayPart ++ [datePart; timePart])%list
                    (mkCalendar "*" "*" "*" "*" "*")
                  = mkCalendar (Props.listed (f_dayOfWeek fields))
                      (Props.listed (f_dayOfMonth fields))
                      (Props.listed (f_month fields)) th tm).
  { rewrite fold_left_app. cbn [fold_left].
    assert (Hc1 : exists c1,
              fold_left systemdPart dayPart (mkCalendar "*" "*" "*" "*" "*")
              = c1
              /\ c_dow c1 = Props.listed (f_dayOfWeek fields)
              /\ c_dom c1 = "*" /\ c_month c1 = "*"
              /\ c_hour c1 = "*" /\ c_minute c1 = "*").
    { unfold dayPart, Props.listed.
      destruct (String.eqb_spec (raw (f_dayOfWeek fields)) "*") as [Hs|Hs];
        cbn [negb fold_left].
      - eexists. split; [reflexivity|]. now repeat split.
      - destruct Hdow as [Hdow|Hdow]; [contradiction|].
        rewrite (proj1 (systemdPart_days _ _ Hdow)).
        eexists. split; [reflexivity|]. now repeat split. }
    destruct Hc1 as [c1 [-> [Hw [Hcd [Hcm [Hch Hcmi]]]]]].
    assert (Hc2 : exists c2,
              systemdPart c1 datePart = c2
              /\ c_dow c2 = Props.listed (f_dayOfWeek fields)
              /\ c_dom c2 = Props.listed (f_dayOfMonth fields)
              /\ c_month c2 = Props.listed (f_month fields)
              /\ c_hour c2 = "*" /\ c_minute c2 = "*").
    { unfold datePart.
      destruct (String.eqb (raw (f_month fields)) "*") eqn:Hem;
        destruct (String.eqb (raw (f_dayOfMonth fields)) "*") eqn:Hed;
        cbn [negb orb];
        try (rewrite (systemdPart_date c1 _ _ Hmo Hd Hcd Hcm);
             eexists; split; [reflexivity|]; now repeat split).
      rewrite systemdPart_star. exists c1. unfold Props.listed.
      rewrite Hem, Hed. now repeat split. }
    destruct Hc2 as [c2 [-> [Hw2 [Hd2 [Hm2 [Hh2 Hmi2]]]]]].
    unfold timePart. rewrite (systemdPart_time c2 th tm Hh Hm Hh2 Hmi2).
    now rewrite Hw2, Hd2, Hm2. }
  rewrite Hfold. reflexivity.
Qed.

Lemma listed_token_ends (p : ParsedField) (f : FieldName) :
  values p <> [] ->
  Props.token (Props.listed p) = true /\ Props.callEnds (Props.listed p) f.
Proof.
  intros Hv. unfold Props.listed. destruct (String.eqb (raw p) "*").
  - split; [reflexivity|apply callEnds_star].
  - now apply joinValues_token_ends.
Qed.

Lemma timePart_token_ends (p : ParsedField) (f : FieldName) :
  values p <> [] ->
  Props.token (raw p) = true -> Props.callEnds (raw p) f ->
  Props.token (systemdTimePart p) = true
  /\ Props.callEnds (systemdTimePart p) f.
Proof.
  intros Hv Ht He. unfold systemdTimePart.
  destruct (String.eqb (raw p) "*").
  - split; [reflexivity|apply callEnds_star].
  - destruct (str_includes (raw p) "/"); [now split|].
    now apply joinValues_token_ends.
Qed.

(** X23.  Converting a valid expression to the systemd format and back
    with [toCron(..., 'systemd')] gives each field back as a list: [*]
    where it was typed so, else the field's values separated by commas
    (for the hour and the minute, a text with a step comes back as typed).
    [toCron] returns, and the description of its result is that of the
    returned text.  It holds when every field has a value at least and no
    [NaN] among its values, for minute and hour texts written with digits
    and the signs of the syntax, and for days of the week from 0 to 6. *)
Theorem systemd_round_trip_lists_values (fuel : nat)
  (e original : string) (fields : Fields) (errors : list string) :
  parse fuel e = Some (Parsed true original fields errors) ->
  Props.madeOf Props.cronChar (raw (f_minute fields)) = true ->
  Props.madeOf Props.cronChar (raw (f_hour fields)) = true ->
  (forall f : FieldName,
      values (getField fields f) <> []
      /\ ~ In NaN (values (getField fields f))) ->
  raw (f_dayOfWeek fields) = "*"
  \/ Props.weekdays (values (f_dayOfWeek fields)) ->
  exists r note,
    toSystemd fuel e = Some (Done "systemd" r None note)
    /\ exists fuel0 d,
         forall fuel', (fuel0 <= fuel')%nat ->
           describe fuel' (Props.systemdBack fields) = Some d
           /\ toCron fuel' r "systemd"
              = Some (Converted "cron" (Props.systemdBack fields) (Some d)
                        (Some "Conversion is best-effort. Some systemd features may not translate.")).
Proof.
  intros Hp Hrm Hrh Hnum Hdow.
  assert (Hv : forall f, values (getField fields f) <> [])
    by (intros f; apply Hnum).
  destruct (systemd_round_trip_text fuel 0 _ _ _ _ Hp Hrm Hrh Hdow)
    as [r [note [Hr _]]].
  exists r, note. split; [exact Hr|].
  pose proof (raw_token_ends _ _ _ _ _ _ minute Hp) as [Htm Hem].
  pose proof (raw_token_ends _ _ _ _ _ _ hour Hp) as [Hth Heh].
  cbn [getField] in Htm, Hem, Hth, Heh.
  pose proof (timePart_token_ends (f_minute fields) minute (Hv minute)
                Htm Hem) as [Ht0 He0].
  pose proof (timePart_token_ends (f_hour fields) hour (Hv hour)
                Hth Heh) as [Ht1 He1].
  pose proof (listed_token_ends (f_dayOfMonth fields) dayOfMonth
                (Hv dayOfMonth)) as [Ht2 He2].
  pose proof (listed_token_ends (f_month fields) month (Hv month))
    as [Ht3 He3].
  pose proof (listed_token_ends (f_dayOfWeek fields) dayOfWeek
                (Hv dayOfWeek)) as [Ht4 He4].
  destruct (describe_tokens_end
              (systemdTimePart (f_minute fields))
              (systemdTimePart (f_hour fields))
              (Props.listed (f_dayOfMonth fields))
              (Props.listed (f_month fields))
              (Props.listed (f_dayOfWeek fields)))
    as [fuel0 [d Hd]]; try assumption.
  - now repeat constructor.
  - exists fuel0, d. intros fuel' Hf.
    pose proof (Hd fuel' Hf) as Hdesc. split; [exact Hdesc|].
    destruct (systemd_round_trip_text fuel fuel' _ _ _ _ Hp Hrm Hrh Hdow)
      as [r' [note' [Hr' Hback]]].
    rewrite Hr in Hr'. injection Hr' as <- _.
    unfold Props.systemdBack in *. now rewrite Hback, Hdesc.
Qed.

Lemma systemd_round_trip_lists_values_witness :
  exists fields : Fields,
    parse 100 "*/15 9-11 1 jan-mar mon,fri"
    = Some (Parsed true "*/15 9-11 1 jan-mar mon,fri" fields [])
    /\ Props.systemdBack fields = "*/15 9,10,11 1 1,2,3 1,5"
    /\ exists r note,
         toSystemd 100 "*/15 9-11 1 jan-mar mon,fri"
         = Some (Done "systemd" r None note)
         /\ exists fuel0 d,
              forall fuel', (fuel0 <= fuel')%nat ->
                describe fuel' (Props.systemdBack fields) = Some d
                /\ toCron fuel' r "systemd"
                   = Some (Converted "cron" (Props.systemdBack fields)
                             (Some d)
                             (Some "Conversion is best-effort. Some systemd features may not translate.")).
Proof.
  eexists. split; [vm_compute; reflexivity|]. split; [reflexivity|].
  eapply (systemd_round_trip_lists_values 100
            "*/15 9-11 1 jan-mar mon,fri" "*/15 9-11 1 jan-mar mon,fri" _ []).
  - vm_compute. reflexivity.
  - reflexivity.
  - reflexivity.
  - intros []; (split; [discriminate|]); cbn;
      intros H; repeat (destruct H as [H|H]; [discriminate H|]); exact H.
  - right. split; [discriminate|].
    intros v [<-|[<-|[]]]; eexists; (split; [reflexivity|lia]).
Defined.

(** *** [same] and the schedule *)

(** X25.  [same: true] of [compare] does not mean the same schedule.
    [compare] looks at the value sets only, the scheduler also at whether
    a day field was typed as [*]: when two valid expressions have the same
    value sets, and the first has [*] for the day of the month where the
    second has a text that lists every day ([1-31]), both with a day of
    the week given, [compare] answers [same: true] with no difference; yet
    on a date whose day of the week is not among the values, the first
    does not fire and the second does (for it either day field may
    match). *)
Theorem compare_same_but_schedules_differ (fuel : nat) (zone : Zone)
  (now1 now2 : Z) (e1 e2 o1 o2 : string) (fields1 fields2 : Fields)
  (errors1 errors2 : list string) :
  parse fuel e1 = Some (Parsed true o1 fields1 errors1) ->
  parse fuel e2 = Some (Parsed true o2 fields2 errors2) ->
  (forall f v, In v (values (getField fields1 f))
               <-> In v (values (getField fields2 f))) ->
  raw (f_dayOfMonth fields1) = "*" ->
  raw (f_dayOfMonth fields2) <> "*" ->
  raw (f_dayOfWeek fields1) <> "*" ->
  raw (f_dayOfWeek fields2) <> "*" ->
  (exists overlap d1 d2,
     compare fuel zone now1 now2 e1 e2
     = Some (Compared true [] (map FIELD_NAMES FIELD_ORDER) overlap d1 d2))
  /\ forall dt : LocalTime,
       includes (values (f_minute fields1)) (Num (lt_minute dt)) = true ->
       includes (values (f_hour fields1)) (Num (lt_hour dt)) = true ->
       includes (values (f_month fields1)) (Num (lt_month dt)) = true ->
       includes (values (f_dayOfMonth fields1)) (Num (lt_day dt)) = true ->
       includes (values (f_dayOfWeek fields1))
         (Num (Z.rem (lt_weekday dt) 7)) = false ->
       cronMatchesTime (Parsed true o1 fields1 errors1) dt = false
       /\ cronMatchesTime (Parsed true o2 fields2 errors2) dt = true.
Proof.
  intros H1 H2 Hsets Hdom1 Hdom2 Hdow1 Hdow2. split.
  - destruct (compare_parsed fuel zone now1 now2 _ _ _ _ _ _ _ _ H1 H2)
      as [n1 [n2 [d1 [d2 [_ [_ [_ [_ Hc]]]]]]]].
    cbv zeta in Hc.
    assert (Hsame : forall f,
              sameValues (values (getField fields1 f))
                (values (getField fields2 f)) = true).
    { intros f. apply sameValues_sets.
      - exact (parse_fields_NoDup _ _ _ _ _ _ f H1).
      - exact (parse_fields_NoDup _ _ _ _ _ _ f H2).
      - apply Hsets. }
    exists (List.length (overlapOf n1 n2)), d1, d2. rewrite Hc.
    unfold FIELD_ORDER. cbn [forallb filter map].
    rewrite !Hsame. reflexivity.
  - intros dt Hmi Hho Hmo Hday Hwd.
    assert (Hin : forall f z,
              includes (values (getField fields2 f)) (Num z)
              = includes (values (getField fields1 f)) (Num z)).
    { intros f z. apply eq_true_iff_eq. rewrite !includes_In.
      symmetry. apply Hsets. }
    apply String.eqb_neq in Hdom2, Hdow1, Hdow2.
    rewrite !cronMatchesTime_matches. unfold matches, dayMatch.
    rewrite (Hin minute), (Hin hour), (Hin month), (Hin dayOfMonth),
      (Hin dayOfWeek).
    cbn [getField] in *.
    rewrite Hmi, Hho, Hmo, Hday, Hwd, Hdom1, Hdom2, Hdow1, Hdow2.
    change (String.eqb "*" "*") with true. split; reflexivity.
Qed.

Lemma compare_same_but_schedules_differ_witness :
  exists fields1 fields2 : Fields,
    parse 100 "0 0 * * 1" = Some (Parsed true "0 0 * * 1" fields1 [])
    /\ parse 100 "0 0 1-31 * 1" = Some (Parsed true "0 0 1-31 * 1" fields2 [])
    /\ (exists overlap d1 d2,
          compare 100 Clock.utc 0 0 "0 0 * * 1" "0 0 1-31 * 1"
          = Some (Compared true [] (map FIELD_NAMES FIELD_ORDER) overlap
                    d1 d2))
    /\ cronMatchesTime (Parsed true "0 0 * * 1" fields1 [])
         (mkLocalTime 0 0 3 11 2) = false
    /\ cronMatchesTime (Parsed true "0 0 1-31 * 1" fields2 [])
         (mkLocalTime 0 0 3 11 2) = true.
Proof.
  eexists _, _. split; [vm_compute; reflexivity|].
  split; [vm_compute; reflexivity|].
  match goal with
  | |- _ /\ cronMatchesTime (Parsed _ _ ?f1 _) _ = _
       /\ cronMatchesTime (Parsed _ _ ?f2 _) _ = _ =>
      destruct (compare_same_but_schedules_differ 100 Clock.utc 0 0
                  "0 0 * * 1" "0 0 1-31 * 1" "0 0 * * 1" "0 0 1-31 * 1"
                  f1 f2 [] []) as [Hc Hm]
  end.
  - vm_compute. reflexivity.
  - vm_compute. reflexivity.
  - intros f v. destruct f; cbn [getField f_minute f_hour f_dayOfMonth
                                   f_month f_dayOfWeek values]; tauto.
  - reflexivity.
  - discriminate.
  - discriminate.
  - discriminate.
  - split; [exact Hc|].
    apply (Hm (mkLocalTime 0 0 3 11 2)); reflexivity.
Defined.
